(* ===== verification/_CoqProject ===== *)
-Q . S2P
Prelude.v
Strings.v
Regex.v
OMap.v
Outcome.v
Json.v
JsonLex.v
JsonParse.v
JsonDump.v
JsonPatch.v
Errors.v
State.v
Triple.v
MemPlatform.v
Tray.v
Trash.v
Dialogs.v
Process.v
Efsw.v
NumFacts.v
Helpers.v
Options.v
Folders.v
Paths.v
Locale.v
Permission.v
Auth.v
Connections.v
Base64.v
Fs.v
FsControllers.v
Resources.v
Settings.v
Storage.v
Os.v
OsControllers.v
Methods.v
Window.v
App.v
ApiControllers.v
Net.v
Clipboard.v
Computer.v
Router.v
MemLibs.v
Main.v
JsonLexFacts.v
JsonParseFacts.v
JsonStringFacts.v
JsonTextFacts.v
JsonReadFacts.v
HelpersFacts.v
OptionsFacts.v
TrashFacts.v
DialogFacts.v
FrameFacts.v
JsonFacts.v
JsonPatchFacts.v
ConnectionsFacts.v
PermissionFacts.v
FoldersFacts.v
FsFacts.v
EfswFacts.v
WatchFacts.v
StreamFacts.v
StorageFacts.v
AuthFacts.v
RouterFacts.v
HttpFacts.v
ResourceFacts.v
ApiFacts.v
ServerFacts.v
SessionFacts.v
ProcessFacts.v
ChildFacts.v
ExtensionFacts.v
SettingsFacts.v
WindowFacts.v
DefinedFacts.v
