(* ===== verification/Prelude.v ===== *)
(** * A model of the Neutralinojs server in Rocq

    Neutralinojs runs a web application in a window (or a browser) and gives it
    native calls through a local WebSocket server.  This development models the
    C++ sources of the server as they build on Linux, and proves what their
    parts promise to each other and to the application.

    ** The program

    [main] reads the configuration (settings.cpp), the resources archive
    (resources.cpp) and the access rules (auth/), starts the server
    (server/neuserver.cpp) and then a window, a browser or nothing.  A client
    sends HTTP requests, which the router answers with files, and WebSocket
    messages, which name a native method; the router checks the token and the
    method lists and calls a controller (api/), which checks its own rules
    (file system scopes, command patterns) and answers with JSON.  Components
    call each other directly and keep their state in global variables.

    ** How it is modelled

    [State] has one record per C++ namespace with global variables, [World] is
    their product with the state of the platform, and [M] is the monad of calls:
    a state and an [outcome], which is a value, an exception, the end of the
    process, undefined behaviour, or the end of the fuel.  [Platform] is a
    class with the operations of what lies outside of the model (the kernel, the
    file system, GTK, and third-party libraries such as the WebSocket
    transport); all theorems hold for each instance, and
    their hypotheses name what they need of it.  [MemPlatform] is a concrete
    instance, on which the witnesses run.  The libraries behind single APIs have
    a class each: [FloatLib] (strtod and its inverse), [PosixLib] (the kernel calls
    of lib/trashcan), [ProcLib] (those of lib/tinyprocess), [InotifyLib]
    (those of lib/efsw), [HttpLib] (lib/httplib), [ClipLib] (lib/clip), [ComputerLib]
    (hwinfo, infoware, getifaddrs, X11); [NativeApi] is their product, and
    [MemLibs] has concrete instances.  [FileWatchListener] is what lib/efsw asks of
    its user: the model of the watcher is written against this class, and [Fs] has the
    instance.

    Machine integers are [Z] with the wrap-around written out; strings are byte
    strings; [std::map] is an ordered association list ([OMap]); JSON values
    ([Json]) have the members, conversions, pointers and patches that the sources
    use, with the insertion of [null] by non-const access, and their text is read
    and written as lib/json does it ([JsonLex], [JsonParse], [JsonDump]); [std::regex] is
    a backtracking matcher over patterns that are parsed from the source's
    strings ([Regex]), proved against the language of the pattern.

    ** Files and sources

    - [Prelude], [Strings], [Regex], [OMap], [Outcome], [Json], [NumFacts]: the
      language and its library.
    - [JsonLex], [JsonParse], [JsonDump]: the lexer, the parser and the serializer
      of lib/json/json.hpp, for [json::parse] and [dump] without indentation.
      [JsonPatch]: its pointers, the equality of values and [patch].
    - [Errors]: errors.cpp.  [Helpers]: helpers.cpp.  [Options], [Settings]:
      settings.cpp.  [Folders]: lib/platformfolders/platform_folders.cpp.
      [Paths], [Locale]: the paths and the locale of api/os/os.cpp.  [Permission], [Auth]: auth/.
    - [Connections]: server/neuserver.cpp, api/events/events.cpp and the registry
      of extensions_loader.cpp.  [Router]: server/router.cpp, api/server/server.cpp
      and the message and HTTP handlers of neuserver.cpp.
    - [Fs], [FsControllers]: api/fs/fs.cpp.  [Resources]: resources.cpp.
      [Storage]: api/storage/storage.cpp.  [Os], [OsControllers]: api/os/os.cpp.
      [Tray], [Trash], [Dialogs], [Process]: the Linux branches of lib/tray/tray.h,
      lib/trashcan/trashcan.c, lib/filedialogs/portable-file-dialogs.h and
      lib/tinyprocess (process.cpp, process_unix.cpp), which the program is built with.
      [Base64]: lib/base64/base64.hpp, which the binary file calls use.
    - [Efsw]: lib/efsw with its inotify backend (FileWatcher.cpp,
      FileWatcherInotify.cpp, WatcherInotify.cpp, EfswFileSystem.cpp and what they use
      of FileInfo.cpp and platform/posix/FileSystemImpl.cpp), which watches directories
      for fs.cpp: the objects that it allocates and frees are a heap, and the thread
      that reads the events is a step for each turn of its loop.
    - [Net]: api/net/net.cpp.  [Clipboard]: api/clipboard/clipboard.cpp and the
      image sizes of lib/clip/image.cpp.  [Computer]: api/computer/computer.cpp.
    - [Window]: api/window/window.cpp.  [App]: api/app/app.cpp, the controllers
      of events, extensions and debug, extensions_loader.cpp and the creation of
      the window.  [ApiControllers]: the controllers of window and resources.
      [Methods]: the names of the method table and api/custom/custom.cpp.
      [Main]: main.cpp, chrome.cpp and the export of the authentication info.

    A definition has the name of the function it models, in a Module named after
    the namespace (controllers in a Module of their own).  A parameter is an
    argument, a global variable is a field of a state record, an early return is
    a branch.

    [Triple] is the program logic of [M]: [triple R m Q] says that [m] relates each
    state to the next by the preorder [R], whatever its outcome, and that its
    values satisfy [Q].  [frames R m] forgets the values.  Its rules, the hint
    database [frame] and the tactic [frame_go] walk over a controller, so that a
    theorem about the whole method table needs one lemma per leaf.  [defined] and
    [defined_go] of [DefinedFacts] do the same for undefined behaviour.

    ** The theorems

    - [JsonLexFacts], [JsonParseFacts], [JsonStringFacts], [JsonTextFacts],
      [JsonReadFacts]: the parser ends on every text, with a canonical value or a
      parse error; what is written is read back, ill-formed bytes repaired; the
      table of the serializer and the ranges of the lexer accept the same UTF-8.
    - [JsonPatchFacts]: pointers are printed and read back, and "remove" undoes "add".
    - [TrashFacts]: the record of a trashed file names it, a failed deletion leaves
      it where it is, and which names cannot be trashed.
    - [DialogFacts]: a message box that zenity shows is answered with the button that was
      pressed, the open dialog with the paths that were selected; with kdialog "NO" is
      never the answer.
    - [FrameFacts], [DefinedFacts]: theorems over the whole method table.  Every
      native call that returns has a well-formed answer; no call changes access
      rules, options, resources, loaded extensions or connections; every call
      but those of a list, with their reasons, is defined behaviour and ends.
    - [RouterFacts], [AuthFacts], [PermissionFacts]: the guards.  A native call
      is the decision of a pure [judge] followed by its answer; what is refused
      changes nothing; the method lists, command patterns and scopes decide as
      documented; the tokens have their shape.  [PermissionFacts.command_newline_passes]
      shows a command line that the scanner should refuse.
    - [FsFacts], [StreamFacts], [StorageFacts]: every file system controller
      respects the scopes, "readAll" delivers the rest of a file, storage keys stay in the storage directory and are read back.
    - [EfswFacts], [WatchFacts]: after any calls and events the watches are consistent,
      so that creating and removing a watcher ends and reads no freed object; a removed
      watcher is silent and leaves the others alone; watchers are unique; and examples
      of events that are reported wrongly ([WatchFacts.moved_in_renames] and below).
    - [HttpFacts], [ResourceFacts]: a request for an asset ends, a range is
      answered with its bytes, the archive and the directory serve the same file.
    - [ConnectionsFacts], [ServerFacts]: who is accepted, who receives a
      broadcast, and that a message is answered once.
    - [SessionFacts]: the server as a step relation: connections open, are refused
      and close, messages, requests for pages and events of windows, processes
      and watchers arrive, in any order.  By induction over the steps the
      registries follow the open connections, the access rules stay, and every
      open connection was accepted with a valid handshake.
    - [ExtensionFacts]: an extension that the loader starts can connect with
      the data that it is told.  [FoldersFacts]: user-dirs.dirs is read back, when
      every path constant is known, and what an ill-set XDG variable breaks.
      [ApiFacts]: requests, images and network interfaces.
    - [SettingsFacts], [OptionsFacts], [JsonFacts]: lookups and the command line.
      Options objects that differ in [null] members only are related by
      [opt_equiv], states by [weq], and lookups respect both.
    - [ProcessFacts]: ids of processes, by induction over commands, spawning, updating,
      output and exit.  [ChildFacts]: on the same steps no descriptor leaks; a command
      runs in its directory and returns its exit code and all of its output.  [WindowFacts]: saved state and menus.  [HelpersFacts],
      [Base64]: the codecs, glob patterns and the scanner.

    ** Fuel

    [getAsset] recurs into itself; [HttpFacts.http_terminates] shows that three
    calls are enough when the options are well-formed, and
    [HttpFacts.spa_missing_index_loops] that no number is without a document root.
    The block loop of "readAll" needs one step per block
    ([StreamFacts.readAll_delivers]), and never ends for blocks of size 0.  The
    recursions on a JSON value (menus, file lists) have its nesting as fuel
    ([WindowFacts.createMenu_total]).  The loops of the lexer take a character in
    each turn, and those of the parser a token, so their fuel is the length of the
    text ([JsonReadFacts.json_parse_ends]).  The loop of the trash can is bounded by
    its 32-bit counter, and the walk over a directory by [PATH_MAX]
    ([TrashFacts.delete_loop_ends]).  Adding a watch recurs into the subdirectories and
    has [PATH_MAX] as well, since a longer path cannot be examined; removing one recurs
    at most once per watch, and a parent is allocated before its children, which bounds
    the walk to the root ([WatchFacts.watchers_sound]).  The walk to a mount point goes up a path
    of less than 4096 bytes.  A dialog polls its helper as often as the
    helper's output is read ([DialogFacts.stop_eq]).  [std::regex] has the length of the input.
    [app.readProcessInput] reads lines until the input ends, so its fuel is a
    field of [NativeApi].

    ** What is not modelled

    The libraries under lib/ (but base64, platformfolders, the tray, the trash can, the
    dialogs, tinyprocess, the inotify backend of efsw, the image sizes of clip, and what the sources use of JSON): they
    are webview (the GTK calls of the window are recorded as a sequence), websocketpp,
    asio, httplib and mbedtls (transports and cryptography behind a few calls),
    easylogging, the other backends of efsw, infoware and the X11 part of clip.  The branches for Windows and macOS, the build scripts and the tests are left out as well.
    What a library does is a parameter, and an answer that it may give (a null
    address of an interface, an image without data) is a value of the
    parameter's type.
    Handlers run one at a time, as in the server's one thread; the threads of
    stream readers, of process output and of the idle check are steps of their
    own, whose interleaving is not finer than one call of a handler. *)

From stdpp Require Export base tactics option list numbers strings pretty gmap.
From Stdlib Require Export ZArith Lia.

(** ** Tactics shared by the development *)

(** Close a goal about machine integers after reducing boolean comparisons. *)
Ltac zb :=
  repeat match goal with
  | H : (_ <? _)%Z = true |- _ => apply Z.ltb_lt in H
  | H : (_ <? _)%Z = false |- _ => apply Z.ltb_ge in H
  | H : (_ <=? _)%Z = true |- _ => apply Z.leb_le in H
  | H : (_ <=? _)%Z = false |- _ => apply Z.leb_gt in H
  | H : (_ =? _)%Z = true |- _ => apply Z.eqb_eq in H
  | H : (_ =? _)%Z = false |- _ => apply Z.eqb_neq in H
  | H : (_ <? _)%nat = true |- _ => apply Nat.ltb_lt in H
  | H : (_ <? _)%nat = false |- _ => apply Nat.ltb_ge in H
  | H : (_ <=? _)%nat = true |- _ => apply Nat.leb_le in H
  | H : (_ <=? _)%nat = false |- _ => apply Nat.leb_gt in H
  | H : (_ =? _)%nat = true |- _ => apply Nat.eqb_eq in H
  | H : (_ =? _)%nat = false |- _ => apply Nat.eqb_neq in H
  end.

(** Case analysis on the innermost scrutinee of the goal. *)
Ltac case_goal :=
  match goal with
  | |- context[match ?x with _ => _ end] =>
      lazymatch x with
      | context[match _ with _ => _ end] => fail
      | _ => destruct x eqn:?
      end
  end.

(** Split boolean connectives in the context. *)
Ltac bsplit :=
  repeat match goal with
  | H : (_ && _) = true |- _ => apply andb_true_iff in H as [? ?]
  | H : (_ || _) = false |- _ => apply orb_false_iff in H as [? ?]
  | H : negb _ = true |- _ => apply negb_true_iff in H
  | H : negb _ = false |- _ => apply negb_false_iff in H
  end.

(** ** Fixed-width integers

    [wrapU n z] is the value of [static_cast] to an unsigned type of [n] bits;
    [wrapS n z] the one of a cast to a signed two's-complement type. *)
Definition wrapU (n z : Z) : Z := (z mod 2 ^ n)%Z.
Definition wrapS (n z : Z) : Z :=
  let u := wrapU n z in if (u <? 2 ^ (n - 1))%Z then u else (u - 2 ^ n)%Z.

Definition INT_MAX : Z := 2147483647.
Definition INT_MIN : Z := (-2147483648)%Z.

Lemma wrapU_range n z : (0 <= n)%Z -> (0 <= wrapU n z < 2 ^ n)%Z.
Proof. intros. apply Z.mod_pos_bound, Z.pow_pos_nonneg; lia. Qed.

Lemma wrapU_small n z : (0 <= z < 2 ^ n)%Z -> wrapU n z = z.
Proof. intros. by apply Z.mod_small. Qed.

Lemma wrapS_small n z :
  (0 < n)%Z -> (- 2 ^ (n - 1) <= z < 2 ^ (n - 1))%Z -> wrapS n z = z.
Proof.
  intros Hn Hz. unfold wrapS, wrapU.
  assert (2 ^ n = 2 * 2 ^ (n - 1))%Z as E.
  { rewrite <-Z.pow_succ_r by lia. f_equal. lia. }
  destruct (Z.ltb_spec z 0).
  - assert (z mod 2 ^ n = z + 2 ^ n)%Z as ->.
    { symmetry. apply (Z.mod_unique _ _ (-1)); lia. }
    destruct (Z.ltb_spec (z + 2 ^ n) (2 ^ (n - 1))); lia.
  - rewrite Z.mod_small by lia.
    destruct (Z.ltb_spec z (2 ^ (n - 1))); lia.
Qed.

(** ** Generic list lemmas *)

(** The first element that satisfies a boolean test ([std::find_if]). *)
Fixpoint find_first {A} (p : A -> bool) (l : list A) : option A :=
  match l with
  | [] => None
  | x :: l => if p x then Some x else find_first p l
  end.

(** [std::find(l.begin(), l.end(), x) != l.end()] *)
Definition mem {A} `{EqDecision A} (x : A) (l : list A) : bool :=
  bool_decide (x ∈ l).

Lemma mem_spec {A} `{EqDecision A} (x : A) l : mem x l = true <-> x ∈ l.
Proof. apply bool_decide_eq_true. Qed.

Lemma mem_false {A} `{EqDecision A} (x : A) l : mem x l = false <-> x ∉ l.
Proof. apply bool_decide_eq_false. Qed.

Lemma existsb_mem {A} `{EqDecision A} (x : A) l :
  existsb (fun y => bool_decide (x = y)) l = mem x l.
Proof.
  induction l as [|y l IH]; [done|]. simpl. rewrite IH.
  unfold mem. apply eq_true_iff_eq.
  rewrite orb_true_iff, !bool_decide_eq_true. by rewrite elem_of_cons.
Qed.

Lemma take_drop_slice {A} (l : list A) (a b : nat) :
  length (take a (drop b l)) = Nat.min a (length l - b).
Proof. by rewrite length_take, length_drop. Qed.

Lemma foldl_ext_elem {A B} (f g : B -> A -> B) l : forall b,
  (forall b x, x ∈ l -> f b x = g b x) -> foldl f b l = foldl g b l.
Proof.
  induction l as [|x l IH]; intros b H; [done|]. simpl. rewrite H by left. apply IH. intros b' y Hy. apply H. by right.
Qed.

(** a property of the numbers below a bound, checked for each *)
Lemma below (P : Z -> bool) n : forallb (fun k => P (Z.of_nat k)) (seq 0 n) = true ->
  forall z, (0 <= z < Z.of_nat n)%Z -> P z = true.
Proof.
  intros H z Hz. rewrite forallb_forall in H. rewrite <-(Z2Nat.id z) by lia. apply H, in_seq. lia.
Qed.

Create HintDb neu.
Create Rewrite HintDb neu.
#[export] Hint Rewrite @length_take @length_drop @length_app : neu.
#[export] Hint Resolve wrapU_range : neu.
