(* ===== verification/Strings.v ===== *)
(** * [std::string] as byte strings

    C++ strings are Rocq [string]s (lists of 8-bit characters, no terminator).
    The operations here are those of [std::string], [<cctype>], [getline] and
    [stoi]/[stoll] that the sources call, with the lemmas the components use. *)

From S2P Require Import Prelude.
From Stdlib Require Import Ascii.
From Stdlib Require Strings.String.

Abbreviation slen := Strings.String.length.
Abbreviation to_list := Strings.String.list_ascii_of_string.
Abbreviation of_list := Strings.String.string_of_list_ascii.

(** ** Characters *)

Definition code (c : ascii) : N := N_of_ascii c.
Definition chr (n : N) : ascii := ascii_of_N n.

Definition in_range (lo hi c : ascii) : bool :=
  (N.leb (code lo) (code c)) && (N.leb (code c) (code hi)).

Definition isdigit (c : ascii) : bool := in_range "0" "9" c.
Definition isupper (c : ascii) : bool := in_range "A" "Z" c.
Definition islower (c : ascii) : bool := in_range "a" "z" c.
Definition isalpha (c : ascii) : bool := isupper c || islower c.
Definition isalnum (c : ascii) : bool := isalpha c || isdigit c.
Definition isxdigit (c : ascii) : bool :=
  isdigit c || in_range "a" "f" c || in_range "A" "F" c.
(** [isspace] in the "C" locale: space, \t, \n, \v, \f, \r *)
Definition isspace (c : ascii) : bool :=
  bool_decide (c = " "%char) || in_range "009" "013" c.
(** the ECMAScript class [\w] *)
Definition isword (c : ascii) : bool := isalnum c || bool_decide (c = "_"%char).

Definition toupper (c : ascii) : ascii :=
  if islower c then chr (code c - 32) else c.
Definition tolower (c : ascii) : ascii :=
  if isupper c then chr (code c + 32) else c.

(** ** Basic operations *)

Fixpoint smap (f : ascii -> ascii) (s : string) : string :=
  match s with
  | EmptyString => EmptyString
  | String c s => String (f c) (smap f s)
  end.

Fixpoint sdrop (n : nat) (s : string) : string :=
  match n, s with
  | S n, String _ s => sdrop n s
  | _, _ => s
  end.

Fixpoint stake (n : nat) (s : string) : string :=
  match n, s with
  | S n, String c s => String c (stake n s)
  | _, _ => EmptyString
  end.

(** [s.back()] is undefined on the empty string, hence an option. *)
Fixpoint sback (s : string) : option ascii :=
  match s with
  | EmptyString => None
  | String c EmptyString => Some c
  | String _ s => sback s
  end.

(** [s.pop_back()] *)
Fixpoint spop_back (s : string) : string :=
  match s with
  | EmptyString => EmptyString
  | String _ EmptyString => EmptyString
  | String c s => String c (spop_back s)
  end.

Definition isempty (s : string) : bool :=
  match s with EmptyString => true | _ => false end.

(** [s] starts with [p] *)
Fixpoint starts_with (p s : string) : bool :=
  match p, s with
  | EmptyString, _ => true
  | String a p, String b s => bool_decide (a = b) && starts_with p s
  | _, _ => false
  end.

(** [s.find(p)], [None] for [npos] *)
Fixpoint sfind (p s : string) : option nat :=
  if starts_with p s then Some 0
  else match s with
       | EmptyString => None
       | String _ s => S <$> sfind p s
       end.

Definition sfind_char (c : ascii) (s : string) : option nat :=
  sfind (String c EmptyString) s.

Definition contains_char (c : ascii) (s : string) : bool :=
  mem c (to_list s).

Fixpoint sforall (p : ascii -> bool) (s : string) : bool :=
  match s with
  | EmptyString => true
  | String c s => p c && sforall p s
  end.

(** between quotation marks *)
Definition quoted (s : string) : string := String "034" (s +:+ String "034" EmptyString).

(** [std::string(const char* )] stops at the first NUL. *)
Fixpoint c_str (s : string) : string :=
  match s with
  | EmptyString => EmptyString
  | String c s => if bool_decide (c = "000"%char) then EmptyString else String c (c_str s)
  end.

(** ** Numbers *)

(** [to_string] of an integer *)
Definition to_string (z : Z) : string := pretty z.

Definition digit_val (c : ascii) : Z := Z.of_N (code c - 48)%N.

(** the digits at the front of a string, as a number and their count *)
Fixpoint read_digits (acc : Z) (n : nat) (s : string) : Z * nat :=
  match s with
  | String c s' =>
      if isdigit c then read_digits (acc * 10 + digit_val c)%Z (S n) s' else (acc, n)
  | EmptyString => (acc, n)
  end.

Fixpoint skip_space (s : string) : string :=
  match s with
  | String c s' => if isspace c then skip_space s' else s
  | EmptyString => s
  end.

Inductive num_err := NotANumber | NumOutOfRange.

(** [stoi]/[stoll]: leading white space, a sign, digits; the rest is ignored. *)
Definition sto (lo hi : Z) (s : string) : num_err + Z :=
  let s := skip_space s in
  let '(neg, s) :=
    match s with
    | String c s' =>
        if bool_decide (c = "-"%char) then (true, s')
        else if bool_decide (c = "+"%char) then (false, s') else (false, s)
    | EmptyString => (false, s)
    end in
  let '(v, n) := read_digits 0 0 s in
  if n =? 0 then inl NotANumber
  else let v := if neg then (- v)%Z else v in
       if (v <? lo)%Z || (hi <? v)%Z then inl NumOutOfRange else inr v.

Definition stoi : string -> num_err + Z := sto INT_MIN INT_MAX.
Definition stoll : string -> num_err + Z := sto (- 2 ^ 63) (2 ^ 63 - 1).

(** ** Lemmas *)

Lemma to_list_app s t : to_list (s +:+ t) = to_list s ++ to_list t.
Proof. induction s as [|c s IH]; [done|]. simpl. by rewrite IH. Qed.

Lemma of_list_app l m : of_list (l ++ m) = of_list l +:+ of_list m.
Proof. induction l as [|c l IH]; [done|]. simpl. by rewrite IH. Qed.

Lemma of_to_list s : of_list (to_list s) = s.
Proof. apply Strings.String.string_of_list_ascii_of_string. Qed.

Lemma to_of_list l : to_list (of_list l) = l.
Proof. apply Strings.String.list_ascii_of_string_of_list_ascii. Qed.

Lemma to_list_inj s t : to_list s = to_list t -> s = t.
Proof. intros H. by rewrite <-(of_to_list s), <-(of_to_list t), H. Qed.

Lemma of_list_inj l m : of_list l = of_list m -> l = m.
Proof. intros H. by rewrite <-(to_of_list l), <-(to_of_list m), H. Qed.

Lemma length_to_list s : length (to_list s) = slen s.
Proof. induction s; simpl; auto. Qed.

Lemma slen_of_list l : slen (of_list l) = length l.
Proof. induction l; simpl; auto. Qed.

Lemma slen_app s t : slen (s +:+ t) = slen s + slen t.
Proof. by rewrite <-!length_to_list, to_list_app, length_app. Qed.

Lemma sapp_nil_r s : s +:+ EmptyString = s.
Proof. apply to_list_inj. by rewrite to_list_app, app_nil_r. Qed.

Lemma sapp_assoc s t u : s +:+ (t +:+ u) = (s +:+ t) +:+ u.
Proof. apply to_list_inj. by rewrite !to_list_app, app_assoc. Qed.

Lemma sapp_inv_l s t u : s +:+ t = s +:+ u -> t = u.
Proof.
  intros H. apply to_list_inj. apply (f_equal to_list) in H.
  rewrite !to_list_app in H. by simplify_list_eq.
Qed.

Lemma sapp_inv_r s t u : t +:+ s = u +:+ s -> t = u.
Proof.
  intros H. apply to_list_inj. apply (f_equal to_list) in H.
  rewrite !to_list_app in H. by simplify_list_eq.
Qed.

Lemma to_list_sdrop n s : to_list (sdrop n s) = drop n (to_list s).
Proof. revert s; induction n; intros [|c s]; simpl; auto. Qed.

Lemma to_list_stake n s : to_list (stake n s) = take n (to_list s).
Proof. revert s; induction n; intros [|c s]; simpl; auto. by rewrite IHn. Qed.

Lemma slen_sdrop n s : slen (sdrop n s) = slen s - n.
Proof. by rewrite <-!length_to_list, to_list_sdrop, length_drop. Qed.

Lemma slen_stake n s : slen (stake n s) = Nat.min n (slen s).
Proof. by rewrite <-!length_to_list, to_list_stake, length_take. Qed.

Lemma sdrop_app s t : sdrop (slen s) (s +:+ t) = t.
Proof. induction s; simpl; auto. Qed.

Lemma stake_app s t : stake (slen s) (s +:+ t) = s.
Proof. induction s; simpl; [by destruct t|]. by rewrite IHs. Qed.

Lemma stake_sdrop n s : stake n s +:+ sdrop n s = s.
Proof.
  apply to_list_inj. by rewrite to_list_app, to_list_stake, to_list_sdrop, take_drop.
Qed.

Lemma stake_ge n s : slen s <= n -> stake n s = s.
Proof.
  intros. apply to_list_inj. rewrite to_list_stake, take_ge; [done|].
  by rewrite length_to_list.
Qed.

Lemma starts_with_spec p s : starts_with p s = true <-> exists t, s = p +:+ t.
Proof.
  revert s; induction p as [|a p IH]; intros s; simpl.
  - split; [eauto|done].
  - destruct s as [|b s]; simpl.
    + split; [done|by intros [t ?]].
    + rewrite andb_true_iff, bool_decide_eq_true, IH. split.
      * intros [-> [t ->]]; eauto.
      * intros [t [= -> ->]]; eauto.
Qed.

Lemma starts_with_app p t : starts_with p (p +:+ t) = true.
Proof. apply starts_with_spec. eauto. Qed.

Lemma sback_app_last s c : sback (s +:+ String c EmptyString) = Some c.
Proof.
  induction s as [|a s IH]; [done|]. simpl. rewrite IH. by destruct s.
Qed.

Lemma sback_last s : sback s = last (to_list s).
Proof. induction s as [|a s IH]; [done|]. simpl. rewrite IH. by destruct s. Qed.

Lemma sback_app s t : t <> EmptyString -> sback (s +:+ t) = sback t.
Proof.
  intros Ht. rewrite !sback_last, to_list_app, last_app.
  destruct (last (to_list t)) eqn:E; [done|].
  apply last_None in E. by destruct t.
Qed.

Lemma spop_back_app s c : spop_back (s +:+ String c EmptyString) = s.
Proof. induction s as [|a s IH]; [done|]. simpl. rewrite IH. by destruct s. Qed.

Lemma sforall_spec p s : sforall p s = true <-> Forall (fun c => p c = true) (to_list s).
Proof.
  induction s as [|c s IH]; simpl.
  - split; auto.
  - by rewrite andb_true_iff, IH, Forall_cons.
Qed.

Lemma sforall_app p s t : sforall p (s +:+ t) = sforall p s && sforall p t.
Proof. induction s; simpl; auto. by rewrite IHs, andb_assoc. Qed.

Lemma sforall_impl (p q : ascii -> bool) s :
  (forall c, p c = true -> q c = true) -> sforall p s = true -> sforall q s = true.
Proof.
  intros H. rewrite !sforall_spec. intros F. by eapply Forall_impl; [exact F|].
Qed.

Lemma to_string_inj x y : to_string x = to_string y -> x = y.
Proof. apply (inj pretty). Qed.

Lemma isempty_spec s : isempty s = true <-> s = EmptyString.
Proof. by destruct s. Qed.

#[export] Hint Rewrite to_list_app of_to_list to_of_list length_to_list slen_of_list
  slen_app slen_sdrop slen_stake to_list_sdrop to_list_stake : neu.

Lemma sforall_forallb p s : sforall p s = forallb p (to_list s).
Proof. induction s as [|c s IH]; simpl; [done|]. by rewrite IH. Qed.

Lemma sforall_contains c s : sforall (fun x => negb (bool_decide (x = c))) s = negb (contains_char c s).
Proof.
  unfold contains_char, mem. induction s as [|x s IH]; cbn [sforall to_list]; [done|]. rewrite IH, <-negb_orb. f_equal.
  apply eq_true_iff_eq. rewrite orb_true_iff, !bool_decide_eq_true, elem_of_cons. naive_solver.
Qed.
Lemma sfind_char_app c a b :
  sforall (fun x => negb (bool_decide (x = c))) a = true -> sfind_char c (a +:+ String c b) = Some (slen a).
Proof.
  unfold sfind_char. induction a as [|x a IH]; cbn [sforall].
  - intros _. simpl. by rewrite bool_decide_true.
  - intros [Hx Ha]%andb_true_iff. simpl. apply negb_true_iff, bool_decide_eq_false in Hx.
    rewrite bool_decide_false by congruence. simpl. by rewrite IH.
Qed.

Lemma c_str_id s : sforall (fun c => negb (bool_decide (c = "000"%char))) s = true -> c_str s = s.
Proof.
  induction s as [|c s IH]; [done|]. cbn. rewrite andb_true_iff, negb_true_iff.
  intros [-> Hs]. by rewrite IH.
Qed.

(** ** All characters *)

Definition all_chars : list ascii := ascii_of_nat <$> seq 0 256.
Lemma all_chars_spec (P : ascii -> bool) : forallb P all_chars = true -> forall c, P c = true.
Proof.
  intros H c. rewrite forallb_forall in H. apply H. apply list_elem_of_In, list_elem_of_fmap.
  exists (nat_of_ascii c). split; [by rewrite ascii_nat_embedding|].
  apply elem_of_seq. pose proof (nat_ascii_bounded c). lia.
Qed.
