(* ===== verification/Regex.v ===== *)
(** * [std::regex] (ECMAScript), as far as the sources use it

    The sources build every regular expression from a string.  [parse_regex]
    reads the subset of the ECMAScript grammar they use (literals, [.],
    escapes, bracket expressions, groups, [*], [+], [?] and counted repetition, [^], [$]);
    [run] is the backtracking matcher (greedy, leftmost, with captures);
    [regex_match], [regex_search] and [regex_replace] are the three library
    calls.  [den] is the language of a regex, as a relation on positions, and
    [regex_match_den] states that the matcher decides it. *)

From S2P Require Import Prelude Strings.
From Stdlib Require Import Ascii.

(** ** Syntax *)

Inductive regex :=
| REps
| RSet (p : ascii -> bool)
| RCat (a b : regex)
| RAlt (a b : regex)
| RStar (a : regex)
| RGroup (n : nat) (a : regex)
| RBol
| REol.

Definition RChr (c : ascii) : regex := RSet (fun x => bool_decide (x = c)).

(** [.] matches everything but a line terminator *)
Definition is_dot (c : ascii) : bool :=
  negb (bool_decide (c = "010"%char) || bool_decide (c = "013"%char)).
Definition RDot : regex := RSet is_dot.

Fixpoint RRep (n : nat) (a : regex) : regex :=
  match n with 0 => REps | S n => RCat a (RRep n a) end.
Fixpoint ROptN (n : nat) (a : regex) : regex :=
  match n with 0 => REps | S n => RAlt (RCat a (ROptN n a)) REps end.

(** ** Parsing a pattern string *)

Definition esc_class (c : ascii) : option (ascii -> bool) :=
  if bool_decide (c = "w"%char) then Some isword
  else if bool_decide (c = "d"%char) then Some isdigit
  else if bool_decide (c = "s"%char) then Some isspace
  else None.

Definition esc_set (c : ascii) : ascii -> bool :=
  match esc_class c with
  | Some p => p
  | None => fun x => bool_decide (x = c)
  end.

(** the members of a bracket expression, up to the closing bracket *)
Fixpoint p_bracket (fuel : nat) (l : list ascii) (acc : ascii -> bool)
  : option ((ascii -> bool) * list ascii) :=
  match fuel with
  | 0 => None
  | S f =>
      match l with
      | [] => None
      | "]"%char :: l => Some (acc, l)
      | "\"%char :: c :: l => p_bracket f l (fun x => acc x || esc_set c x)
      | a :: "-"%char :: b :: l =>
          if bool_decide (b = "]"%char)
          then p_bracket f (b :: l)
                 (fun x => acc x || bool_decide (x = a) || bool_decide (x = "-"%char))
          else if bool_decide (a = "-"%char)
          then p_bracket f ("-"%char :: b :: l) (fun x => acc x || bool_decide (x = a))
          else p_bracket f l (fun x => acc x || in_range a b x)
      | a :: l => p_bracket f l (fun x => acc x || bool_decide (x = a))
      end
  end.

Fixpoint p_num (l : list ascii) (acc : nat) : nat * list ascii :=
  match l with
  | c :: l' => if isdigit c then p_num l' (acc * 10 + N.to_nat (code c - 48)) else (acc, l)
  | [] => (acc, [])
  end.

(** a quantifier after the atom [a] *)
Definition p_quant (a : regex) (l : list ascii) : option (regex * list ascii) :=
  match l with
  | "*"%char :: l => Some (RStar a, l)
  | "+"%char :: l => Some (RCat a (RStar a), l)
  | "?"%char :: l => Some (RAlt a REps, l)
  | "{"%char :: l =>
      let '(m, l) := p_num l 0 in
      match l with
      | "}"%char :: l => Some (RRep m a, l)
      | ","%char :: "}"%char :: l => Some (RCat (RRep m a) (RStar a), l)
      | ","%char :: l =>
          let '(n, l) := p_num l 0 in
          match l with
          | "}"%char :: l => Some (RCat (RRep m a) (ROptN (n - m) a), l)
          | _ => None
          end
      | _ => None
      end
  | _ => Some (a, l)
  end.

(** [n] is the number of the next capture group. [None] is a [regex_error]
    (or a construct outside the subset, as an alternative [|]). *)
Fixpoint p_seq (fuel : nat) (l : list ascii) (n : nat) : option (regex * list ascii * nat) :=
  match fuel with
  | 0 => None
  | S f =>
      let continue (a : regex) (l : list ascii) (n : nat) :=
        '(a, l) ← p_quant a l;
        '(b, l, n) ← p_seq f l n;
        Some (RCat a b, l, n) in
      let plain (a : regex) (l : list ascii) :=
        '(b, l, n) ← p_seq f l n; Some (RCat a b, l, n) in
      match l with
      | [] => Some (REps, [], n)
      | ")"%char :: _ => Some (REps, l, n)
      | "^"%char :: l => plain RBol l
      | "$"%char :: l => plain REol l
      | "."%char :: l => continue RDot l n
      | "\"%char :: c :: l => continue (RSet (esc_set c)) l n
      | "["%char :: "^"%char :: l =>
          '(p, l) ← p_bracket f l (fun _ => false);
          continue (RSet (fun x => negb (p x))) l n
      | "["%char :: l =>
          '(p, l) ← p_bracket f l (fun _ => false);
          continue (RSet p) l n
      | "("%char :: l =>
          '(a, l, n') ← p_seq f l (S n);
          match l with
          | ")"%char :: l => continue (RGroup n a) l n'
          | _ => None
          end
      | c :: l =>
          if mem c ["\"; "|"; "*"; "+"; "?"; "{"]%char then None
          else continue (RChr c) l n
      end
  end.

(** [regex(s)] *)
Definition parse_regex (s : string) : option regex :=
  match p_seq (S (slen s)) (to_list s) 1 with
  | Some (r, [], _) => Some r
  | _ => None
  end.

(** ** Matching *)

Definition caps := list (option (nat * nat)).

Fixpoint cap_set (n : nat) (v : nat * nat) (c : caps) : caps :=
  match n, c with
  | 0, [] => [Some v]
  | 0, _ :: c => Some v :: c
  | S n, [] => None :: cap_set n v []
  | S n, x :: c => x :: cap_set n v c
  end.

Section run.
Context {R : Type}.
Abbreviation cont := (nat -> list ascii -> caps -> option R).

(** an iteration that consumes nothing is not repeated *)
Fixpoint star_loop (m : cont -> cont) (k : cont) (fuel : nat) : cont :=
  match fuel with
  | 0 => k
  | S f => fun i l c =>
      match m (fun j l' c' => if i <? j then star_loop m k f j l' c' else None) i l c with
      | Some x => Some x
      | None => k i l c
      end
  end.

(** [i] is the position in the input, [l] the input from there on. *)
Fixpoint run (r : regex) (k : cont) (i : nat) (l : list ascii) (c : caps) : option R :=
  match r with
  | REps => k i l c
  | RSet p =>
      match l with
      | x :: l' => if p x then k (S i) l' c else None
      | [] => None
      end
  | RCat a b => run a (run b k) i l c
  | RAlt a b =>
      match run a k i l c with
      | Some x => Some x
      | None => run b k i l c
      end
  | RStar a => star_loop (run a) k (length l) i l c
  | RGroup n a => run a (fun j l' c' => k j l' (cap_set n (i, j) c')) i l c
  | RBol => if i =? 0 then k i l c else None
  | REol => match l with [] => k i l c | _ :: _ => None end
  end.
End run.

Record match_result := MatchResult {
  m_begin : nat;
  m_end : nat;
  m_caps : caps
}.

Definition at_end (i0 : nat) (j : nat) (l : list ascii) (c : caps) : option match_result :=
  match l with [] => Some (MatchResult i0 j c) | _ :: _ => None end.

Definition run_match (r : regex) (s : string) : option match_result :=
  run r (at_end 0) 0 (to_list s) [].

(** [regex_match(s, regex(re))]; [false] also for a [re] that does not parse,
    where the library throws: every use is of a constant pattern that parses. *)
Definition regex_match_caps (s re : string) : option match_result :=
  r ← parse_regex re; run_match r s.
Definition regex_match (s re : string) : bool := bool_decide (is_Some (regex_match_caps s re)).

(** leftmost match from position [i] *)
Fixpoint search_from (r : regex) (i : nat) (l : list ascii) : option match_result :=
  match run r (fun j _ c => Some (MatchResult i j c)) i l [] with
  | Some m => Some m
  | None => match l with [] => None | _ :: l => search_from r (S i) l end
  end.

Definition regex_search (s re : string) : option match_result :=
  r ← parse_regex re; search_from r 0 (to_list s).

(** [match[n].str()], with [matched] as [is_Some] *)
Definition sub_match (s : string) (m : match_result) (n : nat) : option string :=
  match n with
  | 0 => Some (stake (m_end m - m_begin m) (sdrop (m_begin m) s))
  | S _ =>
      match m_caps m !! n with
      | Some (Some (i, j)) => Some (stake (j - i) (sdrop i s))
      | _ => None
      end
  end.

(** ** [regex_replace]: the replacement is a format string *)

(** the expansion of dollar sequences in [match_results::format];
    [size] is the number of sub-matches, the whole match included *)
Fixpoint format (fuel : nat) (s : string) (m : match_result) (size : nat) (fmt : list ascii)
  : list ascii :=
  let sub n := match sub_match s m n with Some t => to_list t | None => [] end in
  match fuel with
  | 0 => []
  | S f =>
      match fmt with
      | [] => []
      | "$"%char :: "$"%char :: fmt => "$"%char :: format f s m size fmt
      | "$"%char :: "&"%char :: fmt => sub 0 ++ format f s m size fmt
      | "$"%char :: "`"%char :: fmt => to_list (stake (m_begin m) s) ++ format f s m size fmt
      | "$"%char :: "'"%char :: fmt => to_list (sdrop (m_end m) s) ++ format f s m size fmt
      | "$"%char :: d :: fmt =>
          if isdigit d then
            let n := N.to_nat (code d - 48) in
            let '(n, fmt) :=
              match fmt with
              | d2 :: fmt' =>
                  if isdigit d2 then (n * 10 + N.to_nat (code d2 - 48), fmt') else (n, fmt)
              | [] => (n, fmt)
              end in
            (if n <? size then sub n else []) ++ format f s m size fmt
          else "$"%char :: format f s m size (d :: fmt)
      | c :: fmt => c :: format f s m size fmt
      end
  end.

Fixpoint group_count (r : regex) : nat :=
  match r with
  | RGroup n a => S (group_count a)
  | RCat a b | RAlt a b => group_count a + group_count b
  | RStar a => group_count a
  | _ => 0
  end.

Section replace.
Context (r : regex) (s fmt : string).

(** [last] is the end of the previous match.  A match of the empty string
    copies one character and goes on behind it. *)
Fixpoint replace_from (fuel : nat) (i : nat) (l : list ascii) : list ascii :=
  match fuel with
  | 0 => l
  | S f =>
      match search_from r i l with
      | None => l
      | Some m =>
          let rest := drop (m_end m - i) l in
          take (m_begin m - i) l
          ++ format (S (slen fmt)) s m (S (group_count r)) (to_list fmt)
          ++ (if m_end m =? m_begin m
              then match rest with
                   | [] => []
                   | c :: rest => c :: replace_from f (S (m_end m)) rest
                   end
              else replace_from f (m_end m) rest)
      end
  end.
End replace.

Definition regex_replace (s re fmt : string) : string :=
  match parse_regex re with
  | None => s
  | Some r => of_list (replace_from r s fmt (S (slen s)) 0 (to_list s))
  end.

(** ** The language of a regex *)

(** [den s r i j]: [r] matches the input [s] from position [i] to position [j]. *)
Fixpoint den (s : list ascii) (r : regex) : nat -> nat -> Prop :=
  match r with
  | REps => fun i j => j = i
  | RSet p => fun i j => exists c, s !! i = Some c /\ p c = true /\ j = S i
  | RCat a b => fun i j => exists m, den s a i m /\ den s b m j
  | RAlt a b => fun i j => den s a i j \/ den s b i j
  | RStar a => rtc (den s a)
  | RGroup _ a => den s a
  | RBol => fun i j => i = 0 /\ j = i
  | REol => fun i j => i = length s /\ j = i
  end.

Lemma den_mono s r i j : den s r i j -> i <= length s -> i <= j <= length s.
Proof.
  revert i j; induction r; simpl; intros i j H Hi.
  - lia.
  - destruct H as (c & Hc & _ & ->). apply lookup_lt_Some in Hc. lia.
  - destruct H as (m & H1 & H2). apply IHr1 in H1; [|done]. apply IHr2 in H2; lia.
  - destruct H; auto.
  - induction H as [|x y z H1 _ IH]; [lia|]. apply IHr in H1; [|done]. lia.
  - auto.
  - lia.
  - lia.
Qed.

Lemma drop_cons {A} (s : list A) i c l : drop i s = c :: l -> s !! i = Some c /\ l = drop (S i) s.
Proof.
  intros H. assert (s !! i = Some c) as E.
  { rewrite <-(Nat.add_0_r i), <-lookup_drop, H. done. }
  split; [done|]. rewrite (drop_S _ _ _ E) in H. by simplify_eq.
Qed.

Section run_correct.
Context {R : Type} (s : list ascii).
Implicit Types k : nat -> list ascii -> caps -> option R.

Lemma star_loop_sound (m : _ -> nat -> list ascii -> caps -> option R) (a : nat -> nat -> Prop) k x :
  (forall k i c, i <= length s -> m k i (drop i s) c = Some x ->
     exists j c', a i j /\ i <= j <= length s /\ k j (drop j s) c' = Some x) ->
  forall fuel i c, i <= length s -> star_loop m k fuel i (drop i s) c = Some x ->
    exists j c', rtc a i j /\ k j (drop j s) c' = Some x.
Proof.
  intros Hm. induction fuel as [|f IH]; simpl; intros i c Hi H.
  { exists i, c. split; [constructor|done]. }
  destruct (m _ i (drop i s) c) eqn:E.
  - simplify_eq. apply Hm in E as (j & c' & Ha & Hj & E); [|done].
    destruct (i <? j); [|done]. apply IH in E as (j' & c'' & ? & ?); [|lia].
    exists j', c''. split; [by eapply rtc_l|done].
  - exists i, c. split; [constructor|done].
Qed.

Lemma run_sound r k i c x :
  i <= length s -> run r k i (drop i s) c = Some x ->
  exists j c', den s r i j /\ k j (drop j s) c' = Some x.
Proof.
  revert k i c; induction r; simpl; intros k i c Hi H.
  - eauto.
  - destruct (drop i s) as [|y l] eqn:E; [done|]. destruct (p y) eqn:Ep; [|done].
    apply drop_cons in E as [? ->]. exists (S i), c. eauto.
  - apply IHr1 in H as (m & c1 & H1 & H); [|done].
    pose proof (den_mono _ _ _ _ H1 Hi).
    apply IHr2 in H as (j & c2 & H2 & H); [|lia]. eauto 6.
  - destruct (run r1 k i (drop i s) c) eqn:E; simplify_eq.
    + apply IHr1 in E as (j & c' & ? & ?); eauto 6.
    + apply IHr2 in H as (j & c' & ? & ?); eauto 6.
  - eapply star_loop_sound in H; [|clear H|done].
    + done.
    + intros k' i' c' Hi' H. apply IHr in H as (j & c'' & Hd & H); [|done].
      pose proof (den_mono _ _ _ _ Hd Hi'). eauto 6.
  - apply IHr in H as (j & c' & ? & ?); eauto.
  - destruct (Nat.eqb_spec i 0); [|done]. eauto 6.
  - destruct (drop i s) eqn:E; [|done].
    assert (length (drop i s) = 0) as El by by rewrite E.
    rewrite length_drop in El. exists i, c. rewrite E. repeat split; [lia|done].
Qed.

Lemma star_loop_complete (m : _ -> nat -> list ascii -> caps -> option R) (a : nat -> nat -> Prop) k :
  (forall i j, a i j -> i <= length s -> i <= j <= length s) ->
  (forall k i j c, i <= length s -> a i j ->
     (forall c', is_Some (k j (drop j s) c')) -> is_Some (m k i (drop i s) c)) ->
  forall i j, rtc a i j -> (forall c', is_Some (k j (drop j s) c')) ->
  forall fuel c, i <= length s -> length s - i <= fuel ->
    is_Some (star_loop m k fuel i (drop i s) c).
Proof.
  intros Ha Hm i j Hr Hk. induction Hr as [i|i i' j Hi' Hr IH]; intros fuel c Hi Hf.
  - destruct fuel; simpl; [done|]. by destruct (m _ i (drop i s) c).
  - pose proof (Ha _ _ Hi' Hi) as Hle. destruct (decide (i = i')) as [<-|Hne]; [auto|].
    destruct fuel as [|f]; [lia|]. simpl.
    edestruct (Hm (fun j l' c' => if i <? j then star_loop m k f j l' c' else None)) as [x ->];
      [exact Hi|exact Hi'| |eauto].
    intros c'. rewrite (proj2 (Nat.ltb_lt i i')) by lia. apply IH; [done|lia|lia].
Qed.

Lemma run_complete r k i j c :
  i <= length s -> den s r i j -> (forall c', is_Some (k j (drop j s) c')) ->
  is_Some (run r k i (drop i s) c).
Proof.
  revert k i j c; induction r; simpl; intros k i j c Hi H Hk.
  - by subst.
  - destruct H as (y & Hy & Hp & ->). rewrite (drop_S _ _ _ Hy), Hp. done.
  - destruct H as (m & H1 & H2). pose proof (den_mono _ _ _ _ H1 Hi).
    eapply IHr1; [done|exact H1|]. intros c'. eapply IHr2; [lia|exact H2|done].
  - destruct H as [H|H].
    + edestruct (IHr1 k i j c) as [x ->]; eauto.
    + destruct (run r1 k i (drop i s) c); eauto.
  - eapply star_loop_complete; eauto using den_mono.
    rewrite length_drop. lia.
  - eapply IHr; eauto.
  - destruct H as [-> ->]. apply Hk.
  - destruct H as [-> ->]. specialize (Hk c). by rewrite drop_all in Hk |- *.
Qed.
End run_correct.

Lemma run_match_den r s :
  is_Some (run_match r s) <-> den (to_list s) r 0 (slen s).
Proof.
  unfold run_match. rewrite <-length_to_list. split.
  - intros [x H]. change (to_list s) with (drop 0 (to_list s)) in H at 1.
    apply run_sound in H as (j & c' & H & E); [|lia].
    unfold at_end in E. destruct (drop j (to_list s)) eqn:Ed; [|done].
    assert (length (drop j (to_list s)) = 0) as El by by rewrite Ed.
    rewrite length_drop in El. pose proof (den_mono _ _ _ _ H).
    by replace (length (to_list s)) with j by lia.
  - intros H. change (to_list s) with (drop 0 (to_list s)) at 1.
    eapply run_complete; [lia|exact H|]. intros c'. by rewrite drop_all.
Qed.

(** ** Reading off the language of the pattern shapes in use *)

(** a literal [t] in front of [r] *)
Fixpoint lits (t : list ascii) (r : regex) : regex :=
  match t with [] => r | c :: t => RCat (RChr c) (lits t r) end.

Lemma den_set s p i j :
  den s (RSet p) i j <-> exists c v, drop i s = c :: v /\ p c = true /\ j = S i.
Proof.
  simpl. split.
  - intros (c & Hc & Hp & ->). rewrite (drop_S _ _ _ Hc). eauto.
  - intros (c & v & Hd & Hp & ->). apply drop_cons in Hd as [? _]. eauto.
Qed.

Lemma den_lits s t r i j :
  den s (lits t r) i j <-> exists v, drop i s = t ++ v /\ den s r (i + length t) j.
Proof.
  revert i; induction t as [|c t IH]; intros i; cbn [lits].
  - simpl. rewrite Nat.add_0_r. split; [eauto|by intros (v & _ & Hr)].
  - cbn [den]. split.
    + intros (m & Hm & H). apply den_set in Hm as (? & v & Hd & Hc & ->).
      apply bool_decide_eq_true in Hc as ->.
      apply IH in H as (v' & Hv & H). apply drop_cons in Hd as [? ->].
      exists v'. cbn [length]. rewrite Nat.add_succ_r. split; [|exact H].
      erewrite drop_S by done. by rewrite Hv.
    + intros (v & Hd & H). exists (S i). split.
      * apply den_set. eexists _, _. rewrite bool_decide_true by done. eauto.
      * apply IH. exists v. simpl in H. rewrite Nat.add_succ_r in H.
        apply drop_cons in Hd as [_ Hd]. auto.
Qed.

Lemma den_star_set s p i j :
  den s (RStar (RSet p)) i j <->
  exists u v, drop i s = u ++ v /\ Forall (fun c => p c = true) u /\ j = i + length u.
Proof.
  cbn [den]. split.
  - intros H. induction H as [i|i m j Hm _ (u & v & Hd & Hu & ->)].
    + exists [], (drop i s). split_and!; [done|constructor|simpl; lia].
    + destruct Hm as (c & Hc & Hp & ->). exists (c :: u), v.
      rewrite (drop_S _ _ _ Hc), Hd. split_and!; [done|by constructor|simpl; lia].
  - intros (u & v & Hd & Hu & ->). revert i Hd.
    induction Hu as [|c u Hc _ IH]; intros i Hd; simpl.
    + rewrite Nat.add_0_r. constructor.
    + apply drop_cons in Hd as [? Hd]. eapply rtc_l; [eauto|].
      rewrite Nat.add_succ_r. apply (IH (S i)). auto.
Qed.

Lemma den_optN_set s p n i j :
  den s (ROptN n (RSet p)) i j <->
  exists u v, drop i s = u ++ v /\ Forall (fun c => p c = true) u /\ length u <= n
            /\ j = i + length u.
Proof.
  revert i; induction n as [|n IH]; intros i; cbn [ROptN den].
  - split.
    + intros ->. exists [], (drop i s). split_and!; [done|constructor|done|simpl; lia].
    + intros (u & v & _ & _ & Hu & ->). destruct u; simpl in *; lia.
  - split.
    + intros [(m & (c & Hc & Hp & ->) & H)| ->].
      * apply IH in H as (u & v & Hd & Hu & Hn & ->). exists (c :: u), v.
        rewrite (drop_S _ _ _ Hc), Hd. split_and!; [done|by constructor|simpl; lia..].
      * exists [], (drop i s). split_and!; [done|constructor|simpl; lia..].
    + intros (u & v & Hd & Hu & Hn & ->). destruct u as [|c u]; [right; simpl; lia|left].
      inversion Hu; simplify_eq. apply drop_cons in Hd as [? Hd]. exists (S i).
      split; [eauto|]. apply IH. simpl in *. eexists u, v. split_and!; [done|done|lia|lia].
Qed.

(** ** Greedy runs of one character class *)

Lemma run_star_set_greedy {R} (p : ascii -> bool) (k : nat -> list ascii -> caps -> option R) u v i c x :
  Forall (fun c => p c = true) u ->
  match v with [] => True | y :: _ => p y = false end ->
  k (i + length u) v c = Some x ->
  run (RStar (RSet p)) k i (u ++ v) c = Some x.
Proof.
  intros Hu Hv. cbn [run]. rewrite length_app.
  generalize (length v) as n. revert i.
  induction Hu as [|y u Hy _ IH]; intros i n Hk; simpl in *.
  - rewrite Nat.add_0_r in Hk. destruct n; simpl; [done|].
    destruct v as [|y v]; [done|]. by rewrite Hv.
  - rewrite Hy, (proj2 (Nat.ltb_lt _ _) (Nat.lt_succ_diag_r i)).
    erewrite IH; [done|]. rewrite <-Hk. f_equal. lia.
Qed.

Lemma run_lits {R} t r (k : nat -> list ascii -> caps -> option R) i l c :
  run (lits t r) k i l c =
  if starts_with (of_list t) (of_list l) then run r k (i + length t) (drop (length t) l) c else None.
Proof.
  revert i l; induction t as [|a t IH]; intros i l; simpl.
  - by rewrite Nat.add_0_r, drop_0.
  - destruct l as [|y l]; [done|]. simpl.
    destruct (decide (y = a)) as [->|Hne].
    + rewrite !bool_decide_true by done. simpl. rewrite IH, Nat.add_succ_r. done.
    + rewrite !bool_decide_false by congruence. done.
Qed.

(** ** Deleting every character of a class *)

Lemma search_set p i l :
  search_from (RCat (RSet p) REps) i l =
  match find_first p l with
  | None => None
  | Some _ => search_from (RCat (RSet p) REps) i l
  end.
Proof.
  revert i; induction l as [|c l IH]; intros i; [done|]. cbn.
  destruct (p c); [done|]. rewrite IH. by destruct (find_first p l).
Qed.

Lemma replace_set_from p s fuel i l :
  length l < fuel ->
  replace_from (RCat (RSet p) REps) s "" fuel i l = List.filter (fun c => negb (p c)) l.
Proof.
  set (r := RCat (RSet p) REps).
  assert (forall l i, match search_from r i l with
          | None => List.filter (fun c => negb (p c)) l = l
          | Some m => exists u c v, l = u ++ c :: v /\ p c = true
              /\ List.filter (fun c => negb (p c)) u = u
              /\ m_begin m = i + length u /\ m_end m = S (i + length u)
          end) as Hs.
  { clear. induction l as [|c l IH]; intros i; [done|]. cbn.
    destruct (p c) eqn:E; simpl.
    - exists [], c, l. split_and!; [done|done|done|simpl; lia..].
    - specialize (IH (S i)). destruct (search_from r (S i) l) as [m|].
      + destruct IH as (u & c' & v & -> & Hc & Hu & Hb & He).
        exists (c :: u), c', v. simpl. rewrite E, Hu. simpl. split_and!; [done|done|done|lia|lia].
      + by rewrite IH. }
  revert i l; induction fuel as [|f IH]; intros i l Hl; [lia|]. cbn [replace_from].
  specialize (Hs l i). destruct (search_from r i l) as [m|]; [|done].
  destruct Hs as (u & c & v & -> & Hc & Hu & Hb & He).
  rewrite Hb, He. replace (i + length u - i) with (length u) by lia.
  replace (S (i + length u) - i) with (length (u ++ [c])) by (rewrite length_app; simpl; lia).
  rewrite (proj2 (Nat.eqb_neq _ _)) by lia.
  rewrite take_app_length, (app_assoc u [c] v : u ++ c :: v = (u ++ [c]) ++ v), drop_app_length.
  rewrite !length_app in Hl. simpl in Hl |- *.
  rewrite IH by lia. rewrite !List.filter_app. simpl. rewrite Hc, Hu. simpl. by rewrite app_nil_r.
Qed.

(** [regex_replace(s, regex("[...]"), "")] keeps the characters outside the class. *)
Lemma regex_replace_set s re p :
  parse_regex re = Some (RCat (RSet p) REps) ->
  regex_replace s re "" = of_list (List.filter (fun c => negb (p c)) (to_list s)).
Proof.
  intros E. unfold regex_replace. rewrite E.
  rewrite replace_set_from; [done|]. rewrite length_to_list. lia.
Qed.

Lemma regex_match_true s re r :
  parse_regex re = Some r -> regex_match s re = true <-> den (to_list s) r 0 (slen s).
Proof.
  intros E. unfold regex_match, regex_match_caps. rewrite bool_decide_eq_true, E.
  apply run_match_den.
Qed.

(** A pattern [.*lit] or [.*lit$] says: [lit] at the end, no line terminator before it. *)
Lemma regex_match_suffix s re t (tail : regex) :
  parse_regex re = Some (RCat (RStar RDot) (lits (to_list t) tail)) ->
  tail = REps \/ tail = RCat REol REps ->
  regex_match s re = true <-> exists u, s = u +:+ t /\ sforall is_dot u = true.
Proof.
  intros E Htail. rewrite (regex_match_true _ _ _ E). cbn [den]. setoid_rewrite den_lits.
  split.
  - intros (m & Hm & v & Hd & Ht). apply den_star_set in Hm as (u & v' & Hs & Hu & ->).
    rewrite drop_0 in Hs. rewrite Nat.add_0_l, Hs, drop_app_length in Hd. subst v'.
    assert (length v = 0) as Hv.
    { pose proof (f_equal length Hs) as Hl. rewrite !length_app, length_to_list in Hl.
      rewrite !length_to_list in Ht.
      destruct Htail as [-> | ->]; simpl in Ht; [|destruct Ht as (m & [? ?] & ?)]; rewrite ?length_to_list in *; lia. }
    destruct v; [|done]. rewrite app_nil_r in Hs.
    exists (of_list u). rewrite sforall_spec, to_of_list. split; [|done].
    apply to_list_inj. by rewrite Hs, to_list_app, to_of_list.
  - intros (u & -> & Hu). apply sforall_spec in Hu. exists (slen u). split.
    + apply den_star_set. exists (to_list u), (to_list t).
      rewrite to_list_app. split_and!; [done|done|]. by rewrite length_to_list.
    + exists []. rewrite app_nil_r, to_list_app, <-length_to_list, drop_app_length. split; [done|].
      rewrite !length_to_list, slen_app.
      destruct Htail as [-> | ->]; simpl; [done|].
      exists (slen u + slen t). by rewrite length_app, !length_to_list.
Qed.
