(* ===== verification/OMap.v ===== *)
(** * [std::map]: association lists kept in key order

    The sources iterate over [std::map]s, so the order of the keys is visible.
    A map is the list of its entries; [omap_set], [omap_del] and [omap_get]
    are [m[k] = v], [erase] and [find].  [OrdKey] is the interface a key type
    promises (its [operator<] is a strict total order); [omap_wf] is the
    representation invariant, kept by every operation. *)

From S2P Require Import Prelude Strings.
From Stdlib Require Import Ascii.

Class OrdKey (K : Type) `{EqDecision K} := {
  kltb : K -> K -> bool;
  kltb_irrefl k : kltb k k = false;
  kltb_trans a b c : kltb a b = true -> kltb b c = true -> kltb a c = true;
  kltb_total a b : a <> b -> kltb a b = false -> kltb b a = true
}.

(** [char_traits<char>::compare] orders by unsigned bytes. *)
Fixpoint str_ltb (a b : string) : bool :=
  match a, b with
  | _, EmptyString => false
  | EmptyString, String _ _ => true
  | String x a, String y b =>
      N.ltb (code x) (code y) || (N.eqb (code x) (code y) && str_ltb a b)
  end.

Lemma code_inj a b : code a = code b -> a = b.
Proof.
  intros H. rewrite <-(ascii_N_embedding a), <-(ascii_N_embedding b).
  unfold code in H. by rewrite H.
Qed.

#[export] Program Instance OrdKey_string : OrdKey string := {| kltb := str_ltb |}.
Next Obligation.
  induction k; simpl; [done|]. by rewrite N.ltb_irrefl, IHk, andb_false_r.
Qed.
Next Obligation.
  induction a as [|x a IH]; intros [|y b] [|z c]; simpl; try done.
  rewrite !orb_true_iff, !andb_true_iff, !N.ltb_lt, !N.eqb_eq.
  intros [?|[? ?]] [?|[? ?]]; [left; lia..|right]. split; [lia|eauto].
Qed.
Next Obligation.
  induction a as [|x a IH]; intros [|y b]; simpl; try done.
  rewrite orb_false_iff, andb_false_iff, orb_true_iff, andb_true_iff.
  rewrite N.ltb_ge, N.eqb_neq, N.ltb_lt, N.eqb_eq. intros Hne [Hle Hor].
  destruct (decide (code x = code y)) as [He|]; [right|left; lia].
  split; [done|]. destruct Hor as [?|?]; [done|]. apply IH; [|done].
  intros ->. by rewrite (code_inj _ _ He) in Hne.
Qed.

#[export] Program Instance OrdKey_Z : OrdKey Z := {| kltb := Z.ltb |}.
Next Obligation. apply Z.ltb_irrefl. Qed.
Next Obligation. intros a b c. rewrite !Z.ltb_lt. lia. Qed.
Next Obligation. intros a b. rewrite Z.ltb_lt, Z.ltb_ge. lia. Qed.

Section omap.
Context {K : Type} `{OrdKey K} {V : Type}.
Implicit Types (m : list (K * V)) (k : K) (v : V).

Fixpoint omap_get k m : option V :=
  match m with
  | [] => None
  | (k', v) :: m => if decide (k = k') then Some v else omap_get k m
  end.

Fixpoint omap_set k v m : list (K * V) :=
  match m with
  | [] => [(k, v)]
  | (k', v') :: m' =>
      if decide (k = k') then (k, v) :: m'
      else if kltb k k' then (k, v) :: m
      else (k', v') :: omap_set k v m'
  end.

Fixpoint omap_del k m : list (K * V) :=
  match m with
  | [] => []
  | (k', v') :: m' => if decide (k = k') then omap_del k m' else (k', v') :: omap_del k m'
  end.

Definition omap_has k m : bool := bool_decide (is_Some (omap_get k m)).

(** strictly increasing keys *)
Fixpoint omap_wf m : Prop :=
  match m with
  | [] => True
  | (k, _) :: m => Forall (fun kv => kltb k kv.1 = true) m /\ omap_wf m
  end.

Lemma omap_get_set_eq k v m : omap_get k (omap_set k v m) = Some v.
Proof.
  induction m as [|[k' v'] m IH]; simpl; [by rewrite decide_True|].
  destruct (decide (k = k')); simpl; [by rewrite decide_True|].
  destruct (kltb k k'); simpl; [by rewrite decide_True|]. by rewrite decide_False.
Qed.

Lemma omap_get_set_ne k k' v m : k' <> k -> omap_get k' (omap_set k v m) = omap_get k' m.
Proof.
  intros Hne. induction m as [|[k1 v1] m IH]; simpl; [by rewrite decide_False|].
  destruct (decide (k = k1)) as [<-|]; simpl; [by rewrite !decide_False|].
  destruct (kltb k k1); simpl; [by rewrite decide_False|]. by rewrite IH.
Qed.

Lemma omap_get_del_eq k m : omap_get k (omap_del k m) = None.
Proof.
  induction m as [|[k' v'] m IH]; simpl; [done|].
  destruct (decide (k = k')); simpl; [done|]. by rewrite decide_False.
Qed.

Lemma omap_get_del_ne k k' m : k' <> k -> omap_get k' (omap_del k m) = omap_get k' m.
Proof.
  intros Hne. induction m as [|[k1 v1] m IH]; simpl; [done|].
  destruct (decide (k = k1)) as [<-|]; simpl; [by rewrite decide_False|]. by rewrite IH.
Qed.

Lemma omap_get_elem k v m : omap_get k m = Some v -> (k, v) ∈ m.
Proof.
  induction m as [|[k' v'] m IH]; simpl; [done|].
  destruct (decide (k = k')) as [<-|]; intros; simplify_eq; constructor; auto.
Qed.

Lemma omap_get_None k m : omap_get k m = None <-> k ∉ m.*1.
Proof.
  induction m as [|[k' v'] m IH]; simpl; [split; [set_solver|done]|].
  rewrite not_elem_of_cons. destruct (decide (k = k')); [naive_solver|]. by rewrite IH; naive_solver.
Qed.

Lemma kltb_ne a b : kltb a b = true -> a <> b.
Proof. intros E ->. by rewrite kltb_irrefl in E. Qed.

Lemma omap_set_Forall (P : K * V -> Prop) k v m :
  P (k, v) -> Forall P m -> Forall P (omap_set k v m).
Proof.
  intros Hk Hm. induction Hm as [|[k' v'] m ? ? IH]; simpl; [by repeat constructor|].
  destruct (decide (k = k')); [by constructor|].
  destruct (kltb k k'); by repeat constructor.
Qed.

Lemma omap_del_Forall (P : K * V -> Prop) k m : Forall P m -> Forall P (omap_del k m).
Proof.
  intros Hm. induction Hm as [|[k' v'] m ? ? IH]; simpl; [constructor|].
  destruct (decide (k = k')); [done|]. by constructor.
Qed.

Lemma omap_set_wf k v m : omap_wf m -> omap_wf (omap_set k v m).
Proof.
  induction m as [|[k' v'] m IH]; simpl; [by repeat constructor|].
  intros [Hf Hm]. destruct (decide (k = k')) as [<-|Hne]; [done|].
  destruct (kltb k k') eqn:E; simpl.
  - split_and!; [|done|done]. constructor; [done|].
    eapply Forall_impl; [exact Hf|]. intros [k1 v1]; simpl. by apply kltb_trans.
  - split; [|auto]. apply omap_set_Forall; [|done]. simpl. by apply kltb_total.
Qed.

Lemma omap_del_wf k m : omap_wf m -> omap_wf (omap_del k m).
Proof.
  induction m as [|[k' v'] m IH]; simpl; [done|]. intros [Hf Hm].
  destruct (decide (k = k')); simpl; auto using omap_del_Forall.
Qed.

(** In a well-formed map an entry is the one [find] returns. *)
Lemma omap_elem_get k v m : omap_wf m -> (k, v) ∈ m -> omap_get k m = Some v.
Proof.
  induction m as [|[k' v'] m IH]; simpl; [by rewrite elem_of_nil|].
  intros [Hf Hm]. rewrite elem_of_cons. intros [[= <- <-]|Hin]; [by rewrite decide_True|].
  rewrite Forall_forall in Hf. specialize (Hf _ Hin). simpl in Hf.
  rewrite decide_False; [auto|]. apply not_eq_sym, kltb_ne, Hf.
Qed.

Lemma omap_wf_NoDup m : omap_wf m -> NoDup m.*1.
Proof.
  induction m as [|[k v] m IH]; simpl; [constructor|]. intros [Hf Hm].
  constructor; [|auto]. rewrite list_elem_of_fmap. intros ([k' v'] & -> & Hin).
  rewrite Forall_forall in Hf. specialize (Hf _ Hin). by apply kltb_ne in Hf.
Qed.

Lemma omap_del_elem k m e : e ∈ omap_del k m <-> e ∈ m /\ e.1 <> k.
Proof.
  induction m as [|[k' v'] m IH]; simpl.
  { split; [by intros ?%elem_of_nil|]. by intros [?%elem_of_nil _]. }
  destruct (decide (k = k')) as [<-|Hne]; simpl; rewrite ?elem_of_cons, IH; [set_solver|].
  split; [intros [->|[? ?]]; auto|]. intros [[->|?] ?]; auto.
Qed.

Lemma omap_set_elem k v m e : e ∈ omap_set k v m -> e ∈ m \/ e = (k, v).
Proof.
  induction m as [|[k' v'] m IH]; simpl.
  { intros ->%list_elem_of_singleton. by right. }
  destruct (decide (k = k')) as [<-|_].
  { intros [->|He]%elem_of_cons; [by right|left; by right]. }
  destruct (kltb k k').
  - intros [->|He]%elem_of_cons; [by right|by left].
  - intros [->|He]%elem_of_cons; [left; left|]. destruct (IH He); [left; by right|by right].
Qed.

Lemma omap_set_set k v1 v2 m : omap_set k v2 (omap_set k v1 m) = omap_set k v2 m.
Proof.
  induction m as [|[k' v'] m IH]; simpl; [by rewrite decide_True|].
  destruct (decide (k = k')) as [<-|]; simpl; [by rewrite decide_True|].
  destruct (kltb k k') eqn:E; simpl; [by rewrite decide_True|].
  by rewrite decide_False, E, IH.
Qed.

Lemma omap_set_same k v m : omap_get k m = Some v -> omap_wf m -> omap_set k v m = m.
Proof.
  induction m as [|[k' v'] m IH]; simpl; [done|]. intros Hg [Hf Hm].
  destruct (decide (k = k')) as [<-|]; [by simplify_eq|].
  apply omap_get_elem in Hg as Hin. rewrite Forall_forall in Hf. specialize (Hf _ Hin). simpl in Hf.
  destruct (kltb k k') eqn:E; [|by rewrite IH].
  pose proof (kltb_trans _ _ _ E Hf) as Hc. by rewrite kltb_irrefl in Hc.
Qed.

Lemma omap_del_absent k m : omap_get k m = None -> omap_del k m = m.
Proof.
  induction m as [|[k' v'] m IH]; simpl; [done|].
  destruct (decide (k = k')); [done|]. intros Hg. by rewrite IH.
Qed.

Lemma omap_del_set k v m : omap_get k m = None -> omap_del k (omap_set k v m) = m.
Proof.
  induction m as [|[k' v'] m IH]; simpl; [by rewrite decide_True|].
  destruct (decide (k = k')) as [|Hne]; [done|]. intros Hg.
  destruct (kltb k k'); simpl.
  - rewrite decide_True, decide_False by done. by rewrite omap_del_absent.
  - by rewrite decide_False, IH.
Qed.
End omap.

(** the entries under a function on the values *)
Lemma omap_get_fmap_snd {K} `{OrdKey K} {A B} (g : A -> B) k (m : list (K * A)) :
  omap_get k ((fun kv => (kv.1, g kv.2)) <$> m) = g <$> omap_get k m.
Proof. induction m as [|[k' v] m IH]; [done|]. cbn. by destruct (decide (k = k')). Qed.

Lemma omap_wf_fmap {K} `{OrdKey K} {A B} (g : A -> B) (m : list (K * A)) :
  omap_wf m -> omap_wf ((fun kv => (kv.1, g kv.2)) <$> m).
Proof.
  induction m as [|[k v] m IH]; [done|]. cbn. intros [Hk Hw]. split; [|by apply IH].
  apply Forall_fmap. eapply Forall_impl; [exact Hk|done].
Qed.

(** a proper prefix is smaller *)
Lemma str_ltb_prefix a b : b <> EmptyString -> str_ltb a (a +:+ b) = true.
Proof.
  intros Hb. induction a as [|c a IH]; [by destruct b|]. simpl.
  by rewrite N.eqb_refl, IH, orb_true_r.
Qed.

#[export] Hint Rewrite @omap_get_set_eq @omap_get_del_eq : neu.
#[export] Hint Resolve omap_set_wf omap_del_wf : neu.

Lemma omap_set_last {K V} `{OrdKey K} (k : K) (v : V) m :
  Forall (fun kv => kltb kv.1 k = true) m -> omap_set k v m = m ++ [(k, v)].
Proof.
  induction 1 as [|[k' v'] m Hk _ IH]; simpl in *; [done|].
  rewrite decide_False by (intros ->; by rewrite kltb_irrefl in Hk).
  destruct (kltb k k') eqn:E; [|by rewrite IH].
  pose proof (kltb_trans _ _ _ E Hk) as Ht. by rewrite kltb_irrefl in Ht.
Qed.

(** the entries of a sorted list, set one after the other *)
Lemma omap_rebuild {K V W} `{OrdKey K} (g : V -> W) (m : list (K * V)) : forall acc : list (K * W),
  omap_wf m -> (forall kv, kv ∈ m -> Forall (fun kv' => kltb kv'.1 kv.1 = true) acc) ->
  foldl (fun acc kv => omap_set kv.1 (g kv.2) acc) acc m = acc ++ ((fun kv => (kv.1, g kv.2)) <$> m).
Proof.
  induction m as [|[k v] m IH]; intros acc Hw Ha; simpl; [by rewrite app_nil_r|].
  destruct Hw as [Hk Hw]. rewrite Forall_forall in Hk.
  rewrite omap_set_last by (apply (Ha (k, v)); left). rewrite IH; [by rewrite <-app_assoc|done|].
  intros kv Hkv. apply Forall_app. split; [apply Ha; by right|]. constructor; [|done]. by apply Hk.
Qed.
