(* ===== verification/Outcome.v ===== *)
(** * Results of C++ code

    A call returns a value, throws an exception, ends the process, or has no
    defined behaviour (an [assert] that fails, [back()] of an empty string). *)

From S2P Require Import Prelude Strings.

Inductive exn :=
| JsonTypeError          (** nlohmann [type_error] 302, 305, 308 *)
| JsonOutOfRange         (** nlohmann [out_of_range] 403, 404 *)
| JsonParseError (what : string)  (** nlohmann [parse_error], and [out_of_range] 406 *)
| InvalidArgument        (** [std::invalid_argument] from [stoi] *)
| OutOfRange             (** [std::out_of_range] from [stoi], [substr] *)
| LengthError            (** [std::length_error] / [bad_alloc] from [resize] *)
| FilesystemError        (** [std::filesystem::filesystem_error] *)
| RuntimeError (what : string)  (** [std::runtime_error] *)
| OtherError.            (** any other class derived from [std::exception] *)

Inductive outcome (A : Type) :=
| Ret (a : A)
| Throw (e : exn)
| Exited (status : Z)
| Undef
| NoFuel.   (** the fuel of a loop with no static bound ran out *)
Arguments Ret {_} a.
Arguments Throw {_} e.
Arguments Exited {_} status.
Arguments Undef {_}.
Arguments NoFuel {_}.

#[export] Instance exn_eq_dec : EqDecision exn.
Proof. solve_decision. Defined.

#[export] Instance outcome_ret : MRet outcome := fun A a => Ret a.
#[export] Instance outcome_bind : MBind outcome := fun A B f m =>
  match m with
  | Ret a => f a
  | Throw e => Throw e
  | Exited s => Exited s
  | Undef => Undef
  | NoFuel => NoFuel
  end.
#[export] Instance outcome_fmap : FMap outcome := fun A B f m => m ≫= (fun a => Ret (f a)).

Definition of_num (r : num_err + Z) : outcome Z :=
  match r with
  | inl NotANumber => Throw InvalidArgument
  | inl NumOutOfRange => Throw OutOfRange
  | inr z => Ret z
  end.

(** [s.substr(pos)] and [s.substr(pos, n)] *)
Definition substr (s : string) (pos : nat) : outcome string :=
  if slen s <? pos then Throw OutOfRange else Ret (sdrop pos s).
Definition substr_n (s : string) (pos n : nat) : outcome string :=
  stake n <$> substr s pos.

Fixpoint omapM {A B} (f : A -> outcome B) (l : list A) : outcome (list B) :=
  match l with
  | [] => Ret []
  | x :: l => y ← f x; ys ← omapM f l; Ret (y :: ys)
  end.

Definition is_ret {A} (m : outcome A) : Prop := exists a, m = Ret a.

Lemma bind_ret {A B} (m : outcome A) (f : A -> outcome B) b :
  m ≫= f = Ret b <-> exists a, m = Ret a /\ f a = Ret b.
Proof. destruct m; simpl; naive_solver. Qed.

Lemma omapM_Ret {A B} (f : A -> outcome B) g l :
  (forall x, x ∈ l -> f x = Ret (g x)) -> omapM f l = Ret (g <$> l).
Proof.
  induction l as [|x l IH]; simpl; intros H; [done|].
  rewrite H by set_solver. simpl. rewrite IH by set_solver. done.
Qed.

Lemma omapM_ext {A B} (f g : A -> outcome B) l :
  (forall x, x ∈ l -> f x = g x) -> omapM f l = omapM g l.
Proof.
  induction l as [|x l IH]; intros Hx; [done|]. simpl. rewrite Hx, IH by set_solver. done.
Qed.
