(* ===== verification/Json.v ===== *)
(** * nlohmann::json values and the operations the sources use

    [json] is the value type; an object is a [std::map], i.e. an ordered entry
    list.  Non-const [operator[]] turns [null] into an object and inserts
    missing keys; const [operator[]] of a missing key fails an assertion.
    [get<T>] checks the type and converts numbers with [static_cast]. *)

From S2P Require Import Prelude Strings OMap Outcome.
From Stdlib Require Import Ascii.
From Stdlib Require Import SpecFloat.

Set Warnings "-register-all".

Inductive json :=
| JNull
| JBool (b : bool)
| JInt (z : Z)          (** [number_integer], 64-bit signed *)
| JUInt (z : Z)         (** [number_unsigned], 64-bit unsigned *)
| JFloat (f : spec_float)
| JStr (s : string)
| JArr (l : list json)
| JObj (m : list (string * json)).

(** Induction with the hypothesis for the members of arrays and objects. *)
Fixpoint json_ind' (P : json -> Prop)
    (Hn : P JNull) (Hb : forall b, P (JBool b)) (Hi : forall z, P (JInt z))
    (Hu : forall z, P (JUInt z)) (Hf : forall f, P (JFloat f)) (Hs : forall s, P (JStr s))
    (Ha : forall l, Forall P l -> P (JArr l))
    (Ho : forall m, Forall (fun kv => P kv.2) m -> P (JObj m)) (j : json) {struct j} : P j :=
  let go := json_ind' P Hn Hb Hi Hu Hf Hs Ha Ho in
  match j with
  | JNull => Hn
  | JBool b => Hb b
  | JInt z => Hi z
  | JUInt z => Hu z
  | JFloat f => Hf f
  | JStr s => Hs s
  | JArr l =>
      Ha l ((fix goA (l : list json) : Forall P l :=
               match l with
               | [] => Forall_nil_2 _
               | x :: l => Forall_cons_2 _ _ _ (go x) (goA l)
               end) l)
  | JObj m =>
      Ho m ((fix goO (m : list (string * json)) : Forall (fun kv => P kv.2) m :=
               match m with
               | [] => Forall_nil_2 _
               | kv :: m => Forall_cons_2 _ _ _ (go kv.2) (goO m)
               end) m)
  end.

#[export] Instance spec_float_eq_dec : EqDecision spec_float.
Proof. solve_decision. Defined.

#[export] Instance json_eq_dec : EqDecision json.
Proof.
  refine (fix go (x y : json) : Decision (x = y) :=
    let _ : EqDecision json := go in
    match x, y with
    | JNull, JNull => left eq_refl
    | JBool a, JBool b => cast_if (decide (a = b))
    | JInt a, JInt b => cast_if (decide (a = b))
    | JUInt a, JUInt b => cast_if (decide (a = b))
    | JFloat a, JFloat b => cast_if (decide (a = b))
    | JStr a, JStr b => cast_if (decide (a = b))
    | JArr a, JArr b => cast_if (decide (a = b))
    | JObj a, JObj b => cast_if (decide (a = b))
    | _, _ => right _
    end); congruence.
Defined.

(** Objects at every depth have strictly increasing keys. *)
Inductive json_wf : json -> Prop :=
| wf_null : json_wf JNull
| wf_bool b : json_wf (JBool b)
| wf_int z : json_wf (JInt z)
| wf_uint z : json_wf (JUInt z)
| wf_float f : json_wf (JFloat f)
| wf_str s : json_wf (JStr s)
| wf_arr l : Forall json_wf l -> json_wf (JArr l)
| wf_obj m : omap_wf m -> Forall (fun kv => json_wf kv.2) m -> json_wf (JObj m).

(** ** Queries *)

Definition is_null (j : json) : bool := match j with JNull => true | _ => false end.
Definition is_string (j : json) : bool := match j with JStr _ => true | _ => false end.

Definition contains (j : json) (k : string) : bool :=
  match j with JObj m => omap_has k m | _ => false end.

(** const [j[k]] *)
Definition jat (j : json) (k : string) : outcome json :=
  match j with
  | JObj m => match omap_get k m with Some v => Ret v | None => Undef end
  | _ => Throw JsonTypeError
  end.

(** the member [k], [null] when there is none *)
Definition jget (j : json) (k : string) : json :=
  match j with
  | JObj m => default JNull (omap_get k m)
  | _ => JNull
  end.

(** non-const access: [jref j k f] replaces [j[k]] by its image under [f] *)
Definition jref (j : json) (k : string) (f : json -> outcome json) : outcome json :=
  match j with
  | JNull => v ← f JNull; Ret (JObj [(k, v)])
  | JObj m => v ← f (default JNull (omap_get k m)); Ret (JObj (omap_set k v m))
  | _ => Throw JsonTypeError
  end.

(** [j[k] = v] *)
Definition jset (j : json) (k : string) (v : json) : outcome json := jref j k (fun _ => Ret v).

(** reading [j[k]] without const: the new value of [j], and the member *)
Definition jread (j : json) (k : string) : outcome (json * json) :=
  j' ← jref j k Ret; Ret (j', jget j' k).

(** a local object built by assignments [j[k] = v] from [null] *)
Definition mk_obj (l : list (string * json)) : json :=
  JObj (foldl (fun m kv => omap_set kv.1 kv.2 m) [] l).

Definition jpush_back (j v : json) : outcome json :=
  match j with
  | JNull => Ret (JArr [v])
  | JArr l => Ret (JArr (l ++ [v]))
  | _ => Throw JsonTypeError
  end.

(** [for(auto &x : j)] *)
Definition jelems (j : json) : list json :=
  match j with
  | JNull => []
  | JArr l => l
  | JObj m => m.*2
  | j => [j]
  end.

(** [j.items()]: array indices and the empty key of a primitive included *)
Definition jitems (j : json) : list (string * json) :=
  match j with
  | JNull => []
  | JArr l => imap (fun i x => (to_string (Z.of_nat i), x)) l
  | JObj m => m
  | j => [("", j)]
  end.

Definition jsize (j : json) : nat := length (jelems j).

(** the nesting of arrays and objects, the fuel of the recursions on a value *)
Fixpoint json_depth (j : json) : nat :=
  match j with
  | JArr l => S (list_max (json_depth <$> l))
  | JObj m => S (list_max ((fun kv => json_depth kv.2) <$> m))
  | _ => 0
  end.

(** ** [get<T>] *)

Definition get_string (j : json) : outcome string :=
  match j with JStr s => Ret s | _ => Throw JsonTypeError end.

Definition get_bool (j : json) : outcome bool :=
  match j with JBool b => Ret b | _ => Throw JsonTypeError end.

(** truncation of a double; [None] for infinities and NaN *)
Definition float_trunc (f : spec_float) : option Z :=
  match f with
  | S754_zero _ => Some 0%Z
  | S754_finite s m e =>
      let a := if (0 <=? e)%Z then (Zpos m * 2 ^ e)%Z else (Zpos m / 2 ^ (- e))%Z in
      Some (if s then (- a)%Z else a)
  | S754_infinity _ | S754_nan => None
  end.

(** [static_cast] from a number member; [lo..hi] is the range of the type,
    [cast] the conversion between integer types, [from_bool] whether the
    library converts booleans (all types but [int64_t], [uint64_t], [double]). *)
Definition get_arith (cast : Z -> Z) (lo hi : Z) (from_bool : bool) (j : json) : outcome Z :=
  match j with
  | JInt z | JUInt z => Ret (cast z)
  | JFloat f =>
      match float_trunc f with
      | Some z => if (lo <=? z)%Z && (z <=? hi)%Z then Ret z else Undef
      | None => Undef
      end
  | JBool b => if from_bool then Ret (Z.b2z b) else Throw JsonTypeError
  | _ => Throw JsonTypeError
  end.

Definition get_int : json -> outcome Z := get_arith (wrapS 32) INT_MIN INT_MAX true.
Definition get_long : json -> outcome Z := get_arith (wrapS 64) (- 2 ^ 63) (2 ^ 63 - 1) false.
Definition get_llong : json -> outcome Z := get_arith (wrapS 64) (- 2 ^ 63) (2 ^ 63 - 1) true.
Definition get_ulong : json -> outcome Z := get_arith (wrapU 64) 0 (2 ^ 64 - 1) false.

Definition get_array (j : json) : outcome (list json) :=
  match j with JArr l => Ret l | _ => Throw JsonTypeError end.
Definition get_strings (j : json) : outcome (list string) :=
  l ← get_array j; omapM get_string l.

(** [json(v)] for an [int]/[long long] and for unsigned types *)
Definition of_int (z : Z) : json := JInt z.
Definition of_uint (z : Z) : json := JUInt z.
Definition of_strings (l : list string) : json := JArr (JStr <$> l).

(** ** The nesting of a value *)

Lemma list_max_elem n l : n ∈ l -> n <= list_max l.
Proof. induction 1; simpl; lia. Qed.

Lemma jget_depth j k : contains j k = true -> json_depth (jget j k) < json_depth j.
Proof.
  destruct j as [| | | | | | |m]; try done. unfold contains, omap_has. simpl. intros Hk.
  apply bool_decide_eq_true in Hk as [v Hv]. rewrite Hv. simpl.
  apply omap_get_elem in Hv. apply Nat.lt_succ_r, list_max_elem.
  apply list_elem_of_fmap. by exists (k, v).
Qed.

Lemma jelems_depth x j : x ∈ jelems j -> json_depth x <= json_depth j.
Proof.
  destruct j; simpl; rewrite ?list_elem_of_singleton; try (intros ->; done); try by rewrite elem_of_nil.
  - intros Hx. apply Nat.le_le_succ_r, list_max_elem, list_elem_of_fmap. eauto.
  - intros ([k v] & -> & Hx)%list_elem_of_fmap.
    apply Nat.le_le_succ_r, list_max_elem, list_elem_of_fmap. by exists (k, v).
Qed.

Lemma jitems_depth kv j : kv ∈ jitems j -> json_depth kv.2 <= json_depth j.
Proof.
  destruct j; simpl; rewrite ?list_elem_of_singleton; try (intros ->; done); try by rewrite elem_of_nil.
  - intros Hx. apply list_elem_of_lookup_1 in Hx as [i Hx].
    rewrite list_lookup_imap in Hx. apply fmap_Some in Hx as (x & Hx & ->). simpl.
    apply Nat.le_le_succ_r, list_max_elem, list_elem_of_fmap. exists x. split; [done|].
    by eapply list_elem_of_lookup_2.
  - intros Hx. apply Nat.le_le_succ_r, list_max_elem, list_elem_of_fmap. eauto.
Qed.
