(* ===== verification/JsonLex.v ===== *)
(** * The lexer of lib/json/json.hpp (class [lexer])

    A lexer is a record of its members.  [get] reads one character of the input or
    the end of it; [unget] marks the current character to be read again.  The
    scanners return the type of a token and leave its value in the lexer. *)

From S2P Require Import Prelude Strings OMap Outcome Json.
From Stdlib Require Import Ascii SpecFloat.

(** [strtod], the conversion of a finite number to text, and the character that the
    locale puts between the digits *)
Class FloatLib := {
  c_strtod : string -> spec_float;
  float_to_chars : spec_float -> string;
  decimal_point : ascii
}.

Module json_lexer.

Inductive token_type :=
| uninitialized | literal_true | literal_false | literal_null | value_string
| value_unsigned | value_integer | value_float | begin_array | begin_object
| end_array | end_object | name_separator | value_separator | parse_error
| end_of_input | literal_or_value.
#[export] Instance token_type_eq_dec : EqDecision token_type.
Proof. solve_decision. Defined.

Definition token_type_name (t : token_type) : string :=
  match t with
  | uninitialized => "<uninitialized>"
  | literal_true => "true literal"
  | literal_false => "false literal"
  | literal_null => "null literal"
  | value_string => "string literal"
  | value_unsigned | value_integer | value_float => "number literal"
  | begin_array => "'['"
  | begin_object => "'{'"
  | end_array => "']'"
  | end_object => "'}'"
  | name_separator => "':'"
  | value_separator => "','"
  | parse_error => "<parse error>"
  | end_of_input => "end of input"
  | literal_or_value => "'[', '{', or a literal"
  end.

(** [current] is [None] for the end of the input; the strings are reversed. *)
Record lexer := {
  input : list ascii;
  current : option ascii;
  next_unget : bool;
  chars_read_total : nat; chars_read_current_line : nat; lines_read : nat;
  token_string : list ascii;
  token_buffer : list ascii;
  error_message : string;
  number_integer : Z; number_unsigned : Z; number_float : spec_float
}.

Definition lexer0 (s : string) : lexer :=
  {| input := to_list s; current := None; next_unget := false; chars_read_total := 0;
     chars_read_current_line := 0; lines_read := 0; token_string := []; token_buffer := [];
     error_message := ""; number_integer := 0; number_unsigned := 0;
     number_float := S754_zero false |}.

(** ** Input management *)

Definition is_char (c : ascii) (l : lexer) : bool := bool_decide (current l = Some c).

Definition get (l : lexer) : lexer :=
  let '(cur, rest) :=
    if next_unget l then (current l, input l)
    else match input l with [] => (None, []) | c :: r => (Some c, r) end in
  let newline := bool_decide (cur = Some "010"%char) in
  {| input := rest; current := cur; next_unget := false;
     chars_read_total := S (chars_read_total l);
     chars_read_current_line := if newline then 0 else S (chars_read_current_line l);
     lines_read := if newline then S (lines_read l) else lines_read l;
     token_string := match cur with Some c => c :: token_string l | None => token_string l end;
     token_buffer := token_buffer l; error_message := error_message l;
     number_integer := number_integer l; number_unsigned := number_unsigned l;
     number_float := number_float l |}.

Definition unget (l : lexer) : lexer :=
  {| input := input l; current := current l; next_unget := true;
     chars_read_total := pred (chars_read_total l);
     chars_read_current_line := pred (chars_read_current_line l);
     lines_read := if chars_read_current_line l =? 0 then pred (lines_read l) else lines_read l;
     token_string := match current l with Some _ => tail (token_string l) | None => token_string l end;
     token_buffer := token_buffer l; error_message := error_message l;
     number_integer := number_integer l; number_unsigned := number_unsigned l;
     number_float := number_float l |}.

Definition set_buffer (b t : list ascii) (l : lexer) : lexer :=
  {| input := input l; current := current l; next_unget := next_unget l;
     chars_read_total := chars_read_total l; chars_read_current_line := chars_read_current_line l;
     lines_read := lines_read l; token_string := t; token_buffer := b;
     error_message := error_message l; number_integer := number_integer l;
     number_unsigned := number_unsigned l; number_float := number_float l |}.
Definition reset (l : lexer) : lexer :=
  set_buffer [] (match current l with Some c => [c] | None => [] end) l.
Definition add (c : ascii) (l : lexer) : lexer := set_buffer (c :: token_buffer l) (token_string l) l.
Definition add_current (l : lexer) : lexer :=
  match current l with Some c => add c l | None => l end.

Definition error (m : string) (l : lexer) : token_type * lexer :=
  (parse_error,
   {| input := input l; current := current l; next_unget := next_unget l;
      chars_read_total := chars_read_total l; chars_read_current_line := chars_read_current_line l;
      lines_read := lines_read l; token_string := token_string l; token_buffer := token_buffer l;
      error_message := m; number_integer := number_integer l;
      number_unsigned := number_unsigned l; number_float := number_float l |}).

Definition set_numbers (i u : Z) (f : spec_float) (l : lexer) : lexer :=
  {| input := input l; current := current l; next_unget := next_unget l;
     chars_read_total := chars_read_total l; chars_read_current_line := chars_read_current_line l;
     lines_read := lines_read l; token_string := token_string l; token_buffer := token_buffer l;
     error_message := error_message l; number_integer := i; number_unsigned := u; number_float := f |}.

Definition get_string (l : lexer) : string := of_list (rev (token_buffer l)).

Definition hex_digit (n : N) : ascii :=
  if (n <? 10)%N then ascii_of_N (48 + n) else ascii_of_N (55 + n).
Definition escape_token_char (c : ascii) : string :=
  if (code c <=? 31)%N
  then "<U+00" +:+ of_list [hex_digit (code c / 16); hex_digit (code c mod 16)] +:+ ">"
  else String c EmptyString.
Definition get_token_string (l : lexer) : string :=
  foldr (fun c r => escape_token_char c +:+ r) EmptyString (rev (token_string l)).

(** ** Strings *)

Definition hex_val (c : option ascii) : option Z :=
  match c with
  | None => None
  | Some c =>
      let n := Z.of_N (code c) in
      if ((48 <=? n) && (n <=? 57))%Z then Some (n - 48)%Z
      else if ((65 <=? n) && (n <=? 70))%Z then Some (n - 55)%Z
      else if ((97 <=? n) && (n <=? 102))%Z then Some (n - 87)%Z
      else None
  end.

(** four hexadecimal digits; [None] is the result [-1] *)
Fixpoint codepoint_loop (factors : list Z) (codepoint : Z) (l : lexer) : option Z * lexer :=
  match factors with
  | [] => (Some codepoint, l)
  | factor :: factors =>
      let l := get l in
      match hex_val (current l) with
      | Some d => codepoint_loop factors (codepoint + Z.shiftl d factor)%Z l
      | None => (None, l)
      end
  end.
Definition get_codepoint (l : lexer) : option Z * lexer := codepoint_loop [12; 8; 4; 0]%Z 0 l.

Definition byte_in (lo hi : N) (c : option ascii) : bool :=
  match c with Some c => ((lo <=? code c) && (code c <=? hi))%N | None => false end.

(** the ranges of the bytes that follow; [None] when one is violated *)
Fixpoint ranges_loop (ranges : list (N * N)) (l : lexer) : bool * lexer :=
  match ranges with
  | [] => (true, l)
  | (lo, hi) :: ranges =>
      let l := get l in
      if byte_in lo hi (current l) then ranges_loop ranges (add_current l)
      else (false, (error "invalid string: ill-formed UTF-8 byte" l).2)
  end.
Definition next_byte_in_range (ranges : list (N * N)) (l : lexer) : bool * lexer :=
  ranges_loop ranges (add_current l).

Definition utf8_tail (lead : N) : option (list (N * N)) :=
  let cont := (128, 191)%N in
  if ((194 <=? lead) && (lead <=? 223))%N then Some [cont]
  else if (lead =? 224)%N then Some [(160, 191)%N; cont]
  else if ((225 <=? lead) && (lead <=? 236) || (238 <=? lead) && (lead <=? 239))%N then Some [cont; cont]
  else if (lead =? 237)%N then Some [(128, 159)%N; cont]
  else if (lead =? 240)%N then Some [(144, 191)%N; cont; cont]
  else if ((241 <=? lead) && (lead <=? 243))%N then Some [cont; cont; cont]
  else if (lead =? 244)%N then Some [(128, 143)%N; cont; cont]
  else None.

(** the bytes of a code point *)
Definition byte (z : Z) : ascii := ascii_of_N (Z.to_N z).
Definition utf8_bytes (c : Z) : list ascii :=
  let low s := byte (Z.lor 128 (Z.land (Z.shiftr c s) 63)) in
  if (c <? 128)%Z then [byte c]
  else if (c <=? 2047)%Z then [byte (Z.lor 192 (Z.shiftr c 6)); low 0%Z]
  else if (c <=? 65535)%Z then [byte (Z.lor 224 (Z.shiftr c 12)); low 6%Z; low 0%Z]
  else [byte (Z.lor 240 (Z.shiftr c 18)); low 12%Z; low 6%Z; low 0%Z].

Definition hex_error : string := "invalid string: '\u' must be followed by 4 hex digits".
Definition high_error : string :=
  "invalid string: surrogate U+D800..U+DBFF must be followed by U+DC00..U+DFFF".
Definition low_error : string :=
  "invalid string: surrogate U+DC00..U+DFFF must follow U+D800..U+DBFF".

Definition add_codepoint (c : Z) (l : lexer) : lexer := foldl (fun l b => add b l) l (utf8_bytes c).

(** [\u] has been read; a token type is an error *)
Definition scan_unicode (l : lexer) : option token_type * lexer :=
  let fail m l := let '(t, l) := error m l in (Some t, l) in
  let '(codepoint1, l) := get_codepoint l in
  match codepoint1 with
  | None => fail hex_error l
  | Some c1 =>
      if ((55296 <=? c1) && (c1 <=? 56319))%Z then
        let l := get l in
        if negb (is_char "\"%char l) then fail high_error l else
        let l := get l in
        if negb (is_char "u"%char l) then fail high_error l else
        let '(codepoint2, l) := get_codepoint l in
        match codepoint2 with
        | None => fail hex_error l
        | Some c2 =>
            if ((56320 <=? c2) && (c2 <=? 57343))%Z
            then (None, add_codepoint (wrapS 32 (wrapU 32 (Z.shiftl c1 10 + c2 - 56613888))) l)
            else fail high_error l
        end
      else if ((56320 <=? c1) && (c1 <=? 57343))%Z then fail low_error l
      else (None, add_codepoint c1 l)
  end.

Definition control_names : list string :=
  ["NUL"; "SOH"; "STX"; "ETX"; "EOT"; "ENQ"; "ACK"; "BEL"; "BS"; "HT"; "LF"; "VT"; "FF"; "CR"; "SO";
   "SI"; "DLE"; "DC1"; "DC2"; "DC3"; "DC4"; "NAK"; "SYN"; "ETB"; "CAN"; "EM"; "SUB"; "ESC"; "FS";
   "GS"; "RS"; "US"].
Definition control_error (n : N) : string :=
  let hex := "00" +:+ of_list [hex_digit (n / 16); hex_digit (n mod 16)] in
  "invalid string: control character U+" +:+ hex +:+ " (" +:+ nth (N.to_nat n) control_names "" +:+
  ") must be escaped to \u" +:+ hex +:+
  match n with
  | 8%N => " or \b" | 9%N => " or \t" | 10%N => " or \n" | 12%N => " or \f" | 13%N => " or \r"
  | _ => ""
  end.

(** the character that stands behind a backslash *)
Definition simple_escape (c : ascii) : option ascii :=
  match c with
  | "034" => Some "034" | "\" => Some "\" | "/" => Some "/" | "b" => Some "008"
  | "f" => Some "012" | "n" => Some "010" | "r" => Some "013" | "t" => Some "009"
  | _ => None
  end%char.

(** one turn of the loop: a token type ends it *)
Definition scan_string_step (l : lexer) : option token_type * lexer :=
  let fail m l := let '(t, l) := error m l in (Some t, l) in
  let l := get l in
  match current l with
  | None => fail "invalid string: missing closing quote" l
  | Some c =>
      let n := code c in
      if (n =? 34)%N then (Some value_string, l)
      else if (n =? 92)%N then
        let l := get l in
        match current l with
        | Some e =>
            if bool_decide (e = "u"%char) then scan_unicode l else
            match simple_escape e with
            | Some x => (None, add x l)
            | None => fail "invalid string: forbidden character after backslash" l
            end
        | None => fail "invalid string: forbidden character after backslash" l
        end
      else if (n <=? 31)%N then fail (control_error n) l
      else if (n <=? 127)%N then (None, add c l)
      else
        match utf8_tail n with
        | Some ranges =>
            let '(ok, l) := next_byte_in_range ranges l in
            (if ok then None else Some parse_error, l)
        | None => fail "invalid string: ill-formed UTF-8 byte" l
        end
  end.

Fixpoint scan_string_loop (fuel : nat) (l : lexer) : outcome (token_type * lexer) :=
  match fuel with
  | 0 => NoFuel
  | S fuel =>
      match scan_string_step l with
      | (Some t, l) => Ret (t, l)
      | (None, l) => scan_string_loop fuel l
      end
  end.
(** a turn reads a character, so the rest of the input bounds the turns *)
Definition scan_string (l : lexer) : outcome (token_type * lexer) :=
  let l := reset l in scan_string_loop (S (length (input l))) l.

(** ** Numbers *)

Inductive number_state :=
| num_minus | num_zero | num_any1 | num_decimal1 | num_decimal2 | num_exponent | num_sign | num_any2.

Definition is_digit (c : option ascii) : bool := byte_in 48 57 c.
Definition is_exponent (c : option ascii) : bool :=
  bool_decide (c = Some "e"%char) || bool_decide (c = Some "E"%char).

(** what a state does with the next character: the next state, the end, or an error *)
Inductive number_move := num_goto (s : number_state) | num_done | num_error (m : string).

Definition number_next (s : number_state) (c : option ascii) : number_move :=
  let dot := bool_decide (c = Some "."%char) in
  match s with
  | num_minus =>
      if bool_decide (c = Some "0"%char) then num_goto num_zero
      else if is_digit c then num_goto num_any1
      else num_error "invalid number; expected digit after '-'"
  | num_zero =>
      if dot then num_goto num_decimal1 else if is_exponent c then num_goto num_exponent else num_done
  | num_any1 =>
      if is_digit c then num_goto num_any1
      else if dot then num_goto num_decimal1
      else if is_exponent c then num_goto num_exponent else num_done
  | num_decimal1 =>
      if is_digit c then num_goto num_decimal2
      else num_error "invalid number; expected digit after '.'"
  | num_decimal2 =>
      if is_digit c then num_goto num_decimal2
      else if is_exponent c then num_goto num_exponent else num_done
  | num_exponent =>
      if bool_decide (c = Some "+"%char) || bool_decide (c = Some "-"%char) then num_goto num_sign
      else if is_digit c then num_goto num_any2
      else num_error "invalid number; expected '+', '-', or digit after exponent"
  | num_sign =>
      if is_digit c then num_goto num_any2
      else num_error "invalid number; expected digit after exponent sign"
  | num_any2 => if is_digit c then num_goto num_any2 else num_done
  end.

(** the type of the number, changed when a state is entered *)
Definition enter (s : number_state) (t : token_type) : token_type :=
  match s with
  | num_minus => value_integer
  | num_decimal1 | num_exponent => value_float
  | _ => t
  end.

Section numbers.
Context `{FloatLib}.

(** the decimal point is stored as the locale writes it *)
Definition add_number (s : number_state) (l : lexer) : lexer :=
  match s with num_decimal1 => add decimal_point l | _ => add_current l end.

Definition scan_number_done (number_type : token_type) (l : lexer) : token_type * lexer :=
  let l := unget l in
  let s := get_string l in
  let float := (value_float,
    set_numbers (number_integer l) (number_unsigned l) (c_strtod s) l) in
  match number_type with
  | value_unsigned =>
      let x := fst (read_digits 0 0 s) in
      if (x <? 2 ^ 64)%Z
      then (value_unsigned, set_numbers (number_integer l) x (number_float l) l) else float
  | value_integer =>
      let x := (- fst (read_digits 0 0 (sdrop 1 s)))%Z in
      if (- 2 ^ 63 <=? x)%Z
      then (value_integer, set_numbers x (number_unsigned l) (number_float l) l) else float
  | _ => float
  end.

Fixpoint scan_number_loop (fuel : nat) (s : number_state) (number_type : token_type) (l : lexer)
    : outcome (token_type * lexer) :=
  match fuel with
  | 0 => NoFuel
  | S fuel =>
      let l := get l in
      match number_next s (current l) with
      | num_goto s' => scan_number_loop fuel s' (enter s' number_type) (add_number s' l)
      | num_done => Ret (scan_number_done number_type l)
      | num_error m => Ret (error m l)
      end
  end.

(** [current] is a minus sign or a digit *)
Definition scan_number (l : lexer) : outcome (token_type * lexer) :=
  let l := reset l in
  let s := if is_char "-"%char l then num_minus
           else if is_char "0"%char l then num_zero else num_any1 in
  scan_number_loop (S (length (input l))) s (enter s value_unsigned) (add_current l).

(** ** Tokens *)

(** the characters after the first *)
Fixpoint scan_literal (literal_text : list ascii) (return_type : token_type) (l : lexer)
    : token_type * lexer :=
  match literal_text with
  | [] => (return_type, l)
  | c :: literal_text =>
      let l := get l in
      if is_char c l then scan_literal literal_text return_type l else error "invalid literal" l
  end.

Definition skip_bom (l : lexer) : bool * lexer :=
  let l := get l in
  if is_char "239"%char l then
    let l := get l in
    if negb (is_char "187"%char l) then (false, l) else
    let l := get l in (is_char "191"%char l, l)
  else (true, unget l).

Definition is_space (c : option ascii) : bool :=
  match c with
  | Some (" " | "009" | "010" | "013")%char => true
  | _ => false
  end.
Fixpoint skip_whitespace_loop (fuel : nat) (l : lexer) : outcome lexer :=
  match fuel with
  | 0 => NoFuel
  | S fuel => let l := get l in if is_space (current l) then skip_whitespace_loop fuel l else Ret l
  end.
(** one character may be read again *)
Definition skip_whitespace (l : lexer) : outcome lexer :=
  skip_whitespace_loop (S (S (length (input l)))) l.

Definition scan_token (l : lexer) : outcome (token_type * lexer) :=
  match current l with
  | None | Some "000"%char => Ret (end_of_input, l)
  | Some "["%char => Ret (begin_array, l)
  | Some "]"%char => Ret (end_array, l)
  | Some "{"%char => Ret (begin_object, l)
  | Some "}"%char => Ret (end_object, l)
  | Some ":"%char => Ret (name_separator, l)
  | Some ","%char => Ret (value_separator, l)
  | Some "t"%char => Ret (scan_literal (to_list "rue") literal_true l)
  | Some "f"%char => Ret (scan_literal (to_list "alse") literal_false l)
  | Some "n"%char => Ret (scan_literal (to_list "ull") literal_null l)
  | Some "034"%char => scan_string l
  | Some c =>
      if bool_decide (c = "-"%char) || is_digit (Some c) then scan_number l
      else Ret (error "invalid literal" l)
  end.

(** comments are not ignored *)
Definition scan (l : lexer) : outcome (token_type * lexer) :=
  let '(ok, l) := if chars_read_total l =? 0 then skip_bom l else (true, l) in
  if negb ok then Ret (error "invalid BOM; must be 0xEF 0xBB 0xBF if given" l) else
  l ← skip_whitespace l;
  scan_token l.
End numbers.
End json_lexer.
