(* ===== verification/JsonParse.v ===== *)
(** * The parser of lib/json/json.hpp (classes [parser] and [json_sax_dom_parser])

    The parser keeps a stack of booleans, true in an array and false in an object,
    and tells the values to a consumer, which builds the document.  The consumer's
    stack of references into the document is a list of the open containers. *)

From S2P Require Import Prelude Strings OMap Outcome Json JsonLex.
From Stdlib Require Import Ascii SpecFloat.

Module json_parser.
Import json_lexer.

(** ** The document *)

(** an open array, or an open object with the key whose value comes next *)
Inductive container := OpenArray (l : list json) | OpenObject (m : list (string * json)) (k : string).

Record dom := { root : json; ref_stack : list container }.
Definition dom0 : dom := {| root := JNull; ref_stack := [] |}.

Definition handle_value (v : json) (d : dom) : dom :=
  match ref_stack d with
  | [] => {| root := v; ref_stack := [] |}
  | OpenArray l :: r => {| root := root d; ref_stack := OpenArray (l ++ [v]) :: r |}
  | OpenObject m k :: r => {| root := root d; ref_stack := OpenObject (omap_set k v m) k :: r |}
  end.

Definition push (c : container) (d : dom) : dom :=
  {| root := root d; ref_stack := c :: ref_stack d |}.
Definition start_object : dom -> dom := push (OpenObject [] EmptyString).
Definition start_array : dom -> dom := push (OpenArray []).

(** [operator[]] adds [null] for a new key *)
Definition key (k : string) (d : dom) : outcome dom :=
  match ref_stack d with
  | OpenObject m _ :: r =>
      Ret {| root := root d;
             ref_stack := OpenObject (if omap_has k m then m else omap_set k JNull m) k :: r |}
  | _ => Undef
  end.

Definition closed (c : container) : json :=
  match c with OpenArray l => JArr l | OpenObject m _ => JObj m end.
(** the finished container is the value of its parent *)
Definition pop (d : dom) : outcome dom :=
  match ref_stack d with
  | [] => Undef
  | c :: r => Ret (handle_value (closed c) {| root := root d; ref_stack := r |})
  end.
Definition end_object : dom -> outcome dom := pop.
Definition end_array : dom -> outcome dom := pop.

(** ** The parser *)

Record parser := {
  m_lexer : lexer; last_token : token_type; states : list bool; sax : dom
}.

Definition with_states (s : list bool) (p : parser) : parser :=
  {| m_lexer := m_lexer p; last_token := last_token p; states := s; sax := sax p |}.
Definition with_sax (d : dom) (p : parser) : parser :=
  {| m_lexer := m_lexer p; last_token := last_token p; states := states p; sax := d |}.

(** the texts of the exceptions *)
Definition exception_message (expected : token_type) (context : string) (p : parser) : string :=
  "syntax error " +:+ (if isempty context then "" else "while parsing " +:+ context +:+ " ") +:+ "- " +:+
  (if decide (last_token p = parse_error)
   then error_message (m_lexer p) +:+ "; last read: '" +:+ get_token_string (m_lexer p) +:+ "'"
   else "unexpected " +:+ token_type_name (last_token p)) +:+
  (if decide (expected = uninitialized) then "" else "; expected " +:+ token_type_name expected).

Definition position_string (l : lexer) : string :=
  " at line " +:+ to_string (Z.of_nat (lines_read l) + 1) +:+
  ", column " +:+ to_string (Z.of_nat (chars_read_current_line l)).
Definition parse_error_101 {A} (expected : token_type) (context : string) (p : parser) : outcome A :=
  Throw (JsonParseError ("[json.exception.parse_error.101] parse error" +:+
    position_string (m_lexer p) +:+ ": " +:+ exception_message expected context p)).
Definition out_of_range_406 {A} (p : parser) : outcome A :=
  Throw (JsonParseError ("[json.exception.out_of_range.406] number overflow parsing '" +:+
    get_token_string (m_lexer p) +:+ "'")).

Section parser.
Context `{FloatLib}.

Definition get_token (p : parser) : outcome parser :=
  '(t, l) ← scan (m_lexer p);
  Ret {| m_lexer := l; last_token := t; states := states p; sax := sax p |}.

Definition value (v : json) (p : parser) : parser := with_sax (handle_value v (sax p)) p.

Definition is_finite (f : spec_float) : bool :=
  match f with S754_zero _ | S754_finite _ _ _ => true | _ => false end.

(** a key and its separator, and the first token of its value *)
Definition parse_member (p : parser) : outcome parser :=
  if decide (last_token p <> value_string) then parse_error_101 value_string "object key" p else
  d ← key (get_string (m_lexer p)) (sax p);
  p ← get_token (with_sax d p);
  if decide (last_token p <> name_separator)
  then parse_error_101 name_separator "object separator" p
  else Ret p.

(** the [switch] over the last token: the value is complete ([true]), or an array or
    an object has been entered *)
Definition parse_value (p : parser) : outcome (bool * parser) :=
  match last_token p with
  | begin_object =>
      p ← get_token (with_sax (start_object (sax p)) p);
      if decide (last_token p = json_lexer.end_object) then
        d ← end_object (sax p); Ret (true, with_sax d p)
      else
        p ← parse_member p;
        p ← get_token (with_states (false :: states p) p);
        Ret (false, p)
  | begin_array =>
      p ← get_token (with_sax (start_array (sax p)) p);
      if decide (last_token p = json_lexer.end_array) then
        d ← end_array (sax p); Ret (true, with_sax d p)
      else Ret (false, with_states (true :: states p) p)
  | value_float =>
      let res := number_float (m_lexer p) in
      if negb (is_finite res) then out_of_range_406 p else Ret (true, value (JFloat res) p)
  | literal_false => Ret (true, value (JBool false) p)
  | literal_null => Ret (true, value JNull p)
  | literal_true => Ret (true, value (JBool true) p)
  | value_integer => Ret (true, value (JInt (number_integer (m_lexer p))) p)
  | value_string => Ret (true, value (JStr (get_string (m_lexer p))) p)
  | value_unsigned => Ret (true, value (JUInt (number_unsigned (m_lexer p))) p)
  | parse_error => parse_error_101 uninitialized "value" p
  | _ => parse_error_101 literal_or_value "value" p
  end.

(** how the loop goes on: the document is complete, with the next value, or with the
    evaluation of the state *)
Inductive control := finished | next_value | skip_to_state_evaluation.

Definition evaluate_state (p : parser) : outcome (control * parser) :=
  match states p with
  | [] => Ret (finished, p)
  | true :: states =>
      p ← get_token p;
      if decide (last_token p = value_separator) then p ← get_token p; Ret (next_value, p)
      else if decide (last_token p = json_lexer.end_array) then
        d ← end_array (sax p);
        Ret (skip_to_state_evaluation, with_states states (with_sax d p))
      else parse_error_101 json_lexer.end_array "array" p
  | false :: states =>
      p ← get_token p;
      if decide (last_token p = value_separator) then
        p ← get_token p;
        p ← parse_member p;
        p ← get_token p;
        Ret (next_value, p)
      else if decide (last_token p = json_lexer.end_object) then
        d ← end_object (sax p);
        Ret (skip_to_state_evaluation, with_states states (with_sax d p))
      else parse_error_101 json_lexer.end_object "object" p
  end.

(** [skip] is [skip_to_state_evaluation] *)
Fixpoint sax_parse_internal (fuel : nat) (skip : bool) (p : parser) : outcome parser :=
  match fuel with
  | 0 => NoFuel
  | S fuel =>
      '(complete, p) ← (if skip then Ret (true, p) else parse_value p);
      if negb complete then sax_parse_internal fuel false p else
      '(c, p) ← evaluate_state p;
      match c with
      | finished => Ret p
      | next_value => sax_parse_internal fuel false p
      | skip_to_state_evaluation => sax_parse_internal fuel true p
      end
  end.

(** [parse] in strict mode.  Each turn of the loop reads a token. *)
Definition parse (s : string) : outcome json :=
  p ← get_token {| m_lexer := lexer0 s; last_token := uninitialized; states := []; sax := dom0 |};
  p ← sax_parse_internal (S (S (slen s))) false p;
  p ← get_token p;
  if decide (last_token p = end_of_input) then Ret (root (sax p))
  else parse_error_101 end_of_input "value" p.
End parser.
End json_parser.

Definition json_parse `{FloatLib} : string -> outcome json := json_parser.parse.
#[global] Opaque json_parse.
