(* ===== verification/JsonDump.v ===== *)
(** * The serializer of lib/json/json.hpp (class [serializer]), without indentation

    The buffer of a string is the text up to the last complete code point and the
    bytes of the code point that is being read. *)

From S2P Require Import Prelude Strings OMap Outcome Json JsonLex.
From Stdlib Require Import Ascii SpecFloat.

Module json_serializer.

(** [ignore] is never passed *)
Inductive error_handler_t := strict | replace.

(** ** UTF-8 *)

Definition utf8d : list Z :=
  replicate 128 0%Z ++ replicate 16 1%Z ++ replicate 16 9%Z ++ replicate 32 7%Z ++ replicate 2 8%Z ++
  replicate 30 2%Z ++
  [10; 3; 3; 3; 3; 3; 3; 3; 3; 3; 3; 3; 3; 4; 3; 3;
   11; 6; 6; 6; 5; 8; 8; 8; 8; 8; 8; 8; 8; 8; 8; 8;
   0; 1; 2; 3; 5; 8; 7; 1; 1; 1; 4; 6; 1; 1; 1; 1;
   1; 1; 1; 1; 1; 1; 1; 1; 1; 1; 1; 1; 1; 1; 1; 1; 1; 0; 1; 1; 1; 1; 1; 0; 1; 0; 1; 1; 1; 1; 1; 1;
   1; 2; 1; 1; 1; 1; 1; 2; 1; 2; 1; 1; 1; 1; 1; 1; 1; 1; 1; 1; 1; 1; 1; 2; 1; 1; 1; 1; 1; 1; 1; 1;
   1; 2; 1; 1; 1; 1; 1; 1; 1; 2; 1; 1; 1; 1; 1; 1; 1; 1; 1; 1; 1; 1; 1; 3; 1; 3; 1; 1; 1; 1; 1; 1;
   1; 3; 1; 1; 1; 1; 1; 3; 1; 3; 1; 1; 1; 1; 1; 1; 1; 3; 1; 1; 1; 1; 1; 1; 1; 1; 1; 1; 1; 1; 1; 1]%Z.
Definition utf8d_at (i : Z) : Z := nth (Z.to_nat i) utf8d 1%Z.

Definition UTF8_ACCEPT : Z := 0.
Definition UTF8_REJECT : Z := 1.

(** the next state and code point *)
Definition decode (state codep : Z) (c : ascii) : Z * Z :=
  let byte := Z.of_N (code c) in
  let type := utf8d_at byte in
  let codep := if decide (state <> UTF8_ACCEPT)
               then Z.lor (Z.land byte 63) (wrapU 32 (Z.shiftl codep 6))
               else Z.land (Z.shiftr 255 type) byte in
  (utf8d_at (256 + state * 16 + type), codep)%Z.

(** ** Strings *)

Definition hex_char (n : Z) : ascii := ascii_of_N (Z.to_N (if (n <? 10)%Z then 48 + n else 87 + n)).
(** "%04x" of a 16-bit number *)
Definition hex4 (z : Z) : string :=
  of_list ((fun s => hex_char (Z.land (Z.shiftr z s) 15)) <$> [12; 8; 4; 0]%Z).
Definition u_escape (z : Z) : string := "\u" +:+ hex4 (wrapU 16 z).

(** the text for a complete code point, whose last byte is [c] *)
Definition escape_codepoint (ensure_ascii : bool) (codepoint : Z) (c : ascii) : string :=
  if decide (codepoint = 8)%Z then "\b"
  else if decide (codepoint = 9)%Z then "\t"
  else if decide (codepoint = 10)%Z then "\n"
  else if decide (codepoint = 12)%Z then "\f"
  else if decide (codepoint = 13)%Z then "\r"
  else if decide (codepoint = 34)%Z then "\" +:+ String "034" EmptyString
  else if decide (codepoint = 92)%Z then "\\"
  else if (codepoint <=? 31)%Z || (ensure_ascii && (127 <=? codepoint)%Z) then
    if (codepoint <=? 65535)%Z then u_escape codepoint
    else u_escape (55232 + Z.shiftr codepoint 10) +:+ u_escape (56320 + Z.land codepoint 1023)
  else String c EmptyString.

Definition replacement (ensure_ascii : bool) : string :=
  if ensure_ascii then "\ufffd" else of_list ["239"; "191"; "189"]%char.

Record escape_state := {
  written : string;          (** up to [bytes_after_last_accept] *)
  incomplete : list ascii;   (** the bytes behind it *)
  utf8_state : Z; utf8_codepoint : Z; undumped_chars : nat
}.
Definition escape0 : escape_state :=
  {| written := EmptyString; incomplete := []; utf8_state := UTF8_ACCEPT; utf8_codepoint := 0;
     undumped_chars := 0 |}.

(** one byte; whether it has to be read again *)
Definition dump_byte (h : error_handler_t) (ensure_ascii : bool) (e : escape_state) (c : ascii)
    : outcome (bool * escape_state) :=
  let '(state, codepoint) := decode (utf8_state e) (utf8_codepoint e) c in
  if decide (state = UTF8_ACCEPT) then
    Ret (false,
      {| written := written e +:+ of_list (incomplete e) +:+ escape_codepoint ensure_ascii codepoint c;
         incomplete := []; utf8_state := state; utf8_codepoint := codepoint; undumped_chars := 0 |})
  else if decide (state = UTF8_REJECT) then
    match h with
    | strict => Throw JsonTypeError
    | replace =>
        Ret (0 <? undumped_chars e,
          {| written := written e +:+ replacement ensure_ascii; incomplete := [];
             utf8_state := UTF8_ACCEPT; utf8_codepoint := codepoint; undumped_chars := 0 |})
    end
  else
    Ret (false,
      {| written := written e;
         incomplete := if ensure_ascii then incomplete e else incomplete e ++ [c];
         utf8_state := state; utf8_codepoint := codepoint; undumped_chars := S (undumped_chars e) |}).

(** A byte is read at most twice: the second time nothing is undumped. *)
Fixpoint dump_bytes (h : error_handler_t) (ensure_ascii : bool) (e : escape_state) (l : list ascii)
    : outcome escape_state :=
  match l with
  | [] => Ret e
  | c :: l =>
      '(again, e) ← dump_byte h ensure_ascii e c;
      e ← (if (again : bool) then '(_, e) ← dump_byte h ensure_ascii e c; Ret e else Ret e);
      dump_bytes h ensure_ascii e l
  end.

Definition dump_escaped (h : error_handler_t) (ensure_ascii : bool) (s : string) : outcome string :=
  e ← dump_bytes h ensure_ascii escape0 (to_list s);
  if decide (utf8_state e = UTF8_ACCEPT) then Ret (written e +:+ of_list (incomplete e))
  else match h with
       | strict => Throw JsonTypeError
       | replace => Ret (written e +:+ replacement ensure_ascii)
       end.

(** ** Numbers *)

Definition digit_char (d : Z) : ascii := ascii_of_N (Z.to_N (48 + d)).
(** two digits at a time, from the end of the buffer *)
Fixpoint fill_digits (fuel : nat) (abs_value : Z) (acc : string) : string :=
  match fuel with
  | 0 => acc
  | S fuel =>
      if (100 <=? abs_value)%Z then
        let d := (abs_value mod 100)%Z in
        fill_digits fuel (abs_value / 100)
          (String (digit_char (d / 10)) (String (digit_char (d mod 10)) acc))
      else if (10 <=? abs_value)%Z then
        String (digit_char (abs_value / 10)) (String (digit_char (abs_value mod 10)) acc)
      else String (digit_char abs_value) acc
  end.
Definition remove_sign (x : Z) : Z := wrapU 64 (wrapU 64 (- (x + 1)) + 1).

(** a 64-bit number has at most twenty digits *)
Definition dump_integer (x : Z) : string :=
  if decide (x = 0)%Z then "0"
  else if (x <? 0)%Z then String "-" (fill_digits 10 (remove_sign x) EmptyString)
  else fill_digits 10 x EmptyString.

(** ** Values *)

Fixpoint join (sep : string) (l : list string) : string :=
  match l with
  | [] => EmptyString
  | [x] => x
  | x :: l => x +:+ sep +:+ join sep l
  end.

Section serializer.
Context `{FloatLib}.

Definition dump_float (x : spec_float) : string :=
  match x with
  | S754_infinity _ | S754_nan => "null"
  | _ => float_to_chars x
  end.

Fixpoint dump (h : error_handler_t) (ensure_ascii : bool) (val : json) : outcome string :=
  match val with
  | JObj [] => Ret "{}"
  | JObj m =>
      l ← omapM (fun kv =>
            k ← dump_escaped h ensure_ascii kv.1;
            v ← dump h ensure_ascii kv.2;
            Ret (quoted k +:+ ":" +:+ v)) m;
      Ret ("{" +:+ join "," l +:+ "}")
  | JArr [] => Ret "[]"
  | JArr l =>
      l ← omapM (dump h ensure_ascii) l;
      Ret ("[" +:+ join "," l +:+ "]")
  | JStr s => t ← dump_escaped h ensure_ascii s; Ret (quoted t)
  | JBool b => Ret (if b then "true" else "false")
  | JInt z | JUInt z => Ret (dump_integer z)
  | JFloat x => Ret (dump_float x)
  | JNull => Ret "null"
  end.
End serializer.
End json_serializer.

Section text.
Context `{FloatLib}.

(** helpers::jsonToString: [dump(-1, ' ', false, error_handler_t::replace)], which
    throws for no value *)
Definition json_dump (j : json) : string :=
  match json_serializer.dump json_serializer.replace false j with
  | Ret t => t
  | _ => EmptyString
  end.

(** [j.dump()] *)
Definition json_dump_strict : json -> outcome string :=
  json_serializer.dump json_serializer.strict false.
End text.
#[global] Opaque json_dump json_dump_strict.
