(* ===== verification/JsonPatch.v ===== *)
(** * JSON pointers and patches (lib/json/json.hpp: class [json_pointer], [operator==],
    [patch])

    A function that the library applies to a reference into a document is applied here
    to the value, and the document is rebuilt. *)

From S2P Require Import Prelude Strings OMap Outcome Json JsonLex JsonDump.
From Stdlib Require Import Ascii SpecFloat.

(** [parse_error::create(id, byte, what)] *)
Definition json_error {A} (id byte : nat) (what : string) : outcome A :=
  Throw (JsonParseError ("[json.exception.parse_error." +:+ to_string (Z.of_nat id) +:+ "] parse error" +:+
    (if decide (byte = 0) then "" else " at byte " +:+ to_string (Z.of_nat byte)) +:+ ": " +:+ what)).

Module json_pointer.

(** ** Text *)

(** every occurrence from the left; [skip] characters of one are left to pass *)
Fixpoint replace_substring (f t : string) (skip : nat) (s : string) : string :=
  match s with
  | EmptyString => EmptyString
  | String c r =>
      match skip with
      | S skip => replace_substring f t skip r
      | 0 =>
          if starts_with f s then t +:+ replace_substring f t (pred (slen f)) r
          else String c (replace_substring f t 0 r)
      end
  end.

Definition escape (s : string) : string :=
  replace_substring "/" "~1" 0 (replace_substring "~" "~0" 0 s).
Definition unescape (s : string) : string :=
  replace_substring "~0" "~" 0 (replace_substring "~1" "/" 0 s).

Definition pointer_string (reference_tokens : list string) : string :=
  foldl (fun a b => a +:+ "/" +:+ escape b) EmptyString reference_tokens.

(** the text between slashes *)
Fixpoint slash_parts (s : string) : list string :=
  match s with
  | EmptyString => [EmptyString]
  | String c r =>
      if decide (c = "/"%char) then EmptyString :: slash_parts r
      else match slash_parts r with
           | p :: ps => String c p :: ps
           | [] => []
           end
  end.

(** every [~] is followed by [0] or [1] *)
Fixpoint escapes_ok (s : string) : bool :=
  match s with
  | EmptyString => true
  | String c r =>
      (if decide (c = "~"%char)
       then match r with String ("0" | "1") _ => true | _ => false end
       else true) && escapes_ok r
  end.

Definition reference_token (s : string) : outcome string :=
  if escapes_ok s then Ret (unescape s)
  else json_error 108 0 "escape character '~' must be followed with '0' or '1'".

Definition split (reference_string : string) : outcome (list string) :=
  match reference_string with
  | EmptyString => Ret []
  | String c r =>
      if decide (c <> "/"%char) then
        json_error 107 1 ("JSON pointer must be empty or begin with '/' - was: '" +:+ reference_string +:+ "'")
      else omapM reference_token (slash_parts r)
  end.

(** ** Tokens *)

Definition array_index (s : string) : outcome Z :=
  if (1 <? slen s) && starts_with "0" s then
    json_error 106 0 ("array index '" +:+ s +:+ "' must not begin with '0'")
  else if (1 <? slen s) && negb (match s with String c _ => isdigit c | EmptyString => false end) then
    json_error 109 0 ("array index '" +:+ s +:+ "' is not a number")
  else
    let '(res, n) := read_digits 0 0 s in
    if (n =? 0) || (2 ^ 64 <=? res)%Z || negb (n =? slen s) then Throw JsonOutOfRange
    else if (2 ^ 64 - 1 <=? res)%Z then Throw JsonOutOfRange
    else Ret res.

Definition top (reference_tokens : list string) : outcome (list string) :=
  match reference_tokens with
  | [] => Throw JsonOutOfRange
  | t :: _ => Ret [t]
  end.
Definition back (reference_tokens : list string) : outcome string :=
  match reference_tokens with
  | [] => Throw JsonOutOfRange
  | _ => Ret (List.last reference_tokens EmptyString)
  end.
Definition pop_back (reference_tokens : list string) : outcome (list string) :=
  match reference_tokens with
  | [] => Throw JsonOutOfRange
  | _ => Ret (removelast reference_tokens)
  end.

(** ** Access *)

(** [operator[](idx)] of an array fills it with [null]; a vector has at most
    [PTRDIFF_MAX] bytes, and an element 16 *)
Definition fill_array (idx : Z) (l : list json) : outcome (list json) :=
  if (2 ^ 59 - 1 <=? idx)%Z then Throw LengthError
  else Ret (l ++ replicate (S (Z.to_nat idx) - length l) JNull).

(** [j[ptr]]: creates what is missing *)
Fixpoint get_unchecked (reference_tokens : list string) (f : json -> outcome json) (ptr : json)
    : outcome json :=
  match reference_tokens with
  | [] => f ptr
  | token :: tokens =>
      let in_object m :=
        v ← get_unchecked tokens f (default JNull (omap_get token m)); Ret (JObj (omap_set token v m)) in
      let in_array l :=
        idx ← (if decide (token = "-") then Ret (Z.of_nat (length l)) else array_index token);
        l ← fill_array idx l;
        v ← get_unchecked tokens f (default JNull (l !! Z.to_nat idx)); Ret (JArr (<[Z.to_nat idx := v]> l)) in
      match ptr with
      | JNull => if sforall isdigit token || bool_decide (token = "-") then in_array [] else in_object []
      | JObj m => in_object m
      | JArr l => in_array l
      | _ => Throw JsonOutOfRange
      end
  end.

(** [j.at(ptr)]: every step must exist *)
Fixpoint get_checked (reference_tokens : list string) (f : json -> outcome json) (ptr : json)
    : outcome json :=
  match reference_tokens with
  | [] => f ptr
  | token :: tokens =>
      match ptr with
      | JObj m =>
          match omap_get token m with
          | Some v => v ← get_checked tokens f v; Ret (JObj (omap_set token v m))
          | None => Throw JsonOutOfRange
          end
      | JArr l =>
          if decide (token = "-") then Throw JsonOutOfRange else
          idx ← array_index token;
          match l !! Z.to_nat idx with
          | Some v => v ← get_checked tokens f v; Ret (JArr (<[Z.to_nat idx := v]> l))
          | None => Throw JsonOutOfRange
          end
      | _ => Throw JsonOutOfRange
      end
  end.

(** the value there, for reading *)
Fixpoint at_pointer (reference_tokens : list string) (ptr : json) : outcome json :=
  match reference_tokens with
  | [] => Ret ptr
  | token :: tokens =>
      match ptr with
      | JObj m =>
          match omap_get token m with
          | Some v => at_pointer tokens v
          | None => Throw JsonOutOfRange
          end
      | JArr l =>
          if decide (token = "-") then Throw JsonOutOfRange else
          idx ← array_index token;
          match l !! Z.to_nat idx with
          | Some v => at_pointer tokens v
          | None => Throw JsonOutOfRange
          end
      | _ => Throw JsonOutOfRange
      end
  end.
End json_pointer.

Module json_patch.
Import json_pointer.

(** ** [operator==] *)

(** [static_cast<double>] *)
Definition to_double (z : Z) : spec_float := binary_normalize 53 1024 z 0 false.

Fixpoint json_eqb (lhs rhs : json) : bool :=
  match lhs, rhs with
  | JArr a, JArr b =>
      (fix go a b :=
         match a, b with
         | [], [] => true
         | x :: a, y :: b => json_eqb x y && go a b
         | _, _ => false
         end) a b
  | JObj a, JObj b =>
      (fix go a b :=
         match a, b with
         | [], [] => true
         | x :: a, y :: b => bool_decide (x.1 = y.1) && json_eqb x.2 y.2 && go a b
         | _, _ => false
         end) a b
  | JNull, JNull => true
  | JStr a, JStr b => bool_decide (a = b)
  | JBool a, JBool b => Bool.eqb a b
  | JInt a, JInt b => (a =? b)%Z
  | JUInt a, JUInt b => (a =? b)%Z
  | JFloat a, JFloat b => SFeqb a b
  | JInt a, JFloat b => SFeqb (to_double a) b
  | JFloat a, JInt b => SFeqb a (to_double b)
  | JUInt a, JFloat b => SFeqb (to_double a) b
  | JFloat a, JUInt b => SFeqb a (to_double b)
  | JUInt a, JInt b => (wrapS 64 a =? b)%Z
  | JInt a, JUInt b => (a =? wrapS 64 b)%Z
  | _, _ => false
  end.

(** ** The operations *)

Inductive patch_operations := op_add | op_remove | op_replace | op_move | op_copy | op_test | op_invalid.
Definition get_op (op : string) : patch_operations :=
  if decide (op = "add") then op_add
  else if decide (op = "remove") then op_remove
  else if decide (op = "replace") then op_replace
  else if decide (op = "move") then op_move
  else if decide (op = "copy") then op_copy
  else if decide (op = "test") then op_test
  else op_invalid.

(** the parent of the location with the value added *)
Definition add_child (last_path : string) (val parent : json) : outcome json :=
  match parent with
  | JNull => Ret (JObj [(last_path, val)])
  | JObj m => Ret (JObj (omap_set last_path val m))
  | JArr l =>
      if decide (last_path = "-") then Ret (JArr (l ++ [val])) else
      idx ← array_index last_path;
      if (Z.of_nat (length l) <? idx)%Z then Throw JsonOutOfRange
      else Ret (JArr (take (Z.to_nat idx) l ++ val :: drop (Z.to_nat idx) l))
  | _ => Undef
  end.

Definition operation_add (ptr : list string) (val result : json) : outcome json :=
  match ptr with
  | [] => Ret val
  | _ =>
      top_pointer ← top ptr;
      _ ← (if decide (top_pointer <> ptr) then at_pointer top_pointer result else Ret JNull);
      last_path ← back ptr;
      ptr ← pop_back ptr;
      get_checked ptr (add_child last_path val) result
  end.

Definition remove_child (last_path : string) (parent : json) : outcome json :=
  match parent with
  | JObj m => if omap_has last_path m then Ret (JObj (omap_del last_path m)) else Throw JsonOutOfRange
  | JArr l =>
      idx ← array_index last_path;
      if (Z.of_nat (length l) <=? idx)%Z then Throw JsonOutOfRange
      else Ret (JArr (delete (Z.to_nat idx) l))
  | j => Ret j
  end.

Definition operation_remove (ptr : list string) (result : json) : outcome json :=
  last_path ← back ptr;
  ptr ← pop_back ptr;
  get_checked ptr (remove_child last_path) result.

(** ** Patches *)

(** a member of an operation, [val] *)
Definition get_value (val : json) (op member : string) (string_type : bool) : outcome json :=
  let error_msg := if decide (op = "op") then "operation" else "operation '" +:+ op +:+ "'" in
  match val with
  | JObj m =>
      match omap_get member m with
      | None => json_error 105 0 (error_msg +:+ " must have member '" +:+ member +:+ "'")
      | Some v =>
          if string_type && negb (is_string v)
          then json_error 105 0 (error_msg +:+ " must have string member '" +:+ member +:+ "'")
          else Ret v
      end
  | _ => Undef
  end.

Section patch.
Context `{FloatLib}.

(** The operands of a comparison are evaluated from the left, as the order is not
    specified; the right side of an assignment comes first. *)
Definition apply_operation (val result : json) : outcome json :=
  match val with
  | JObj _ =>
      op ← (v ← get_value val "op" "op" true; get_string v);
      path ← (v ← get_value val op "path" true; get_string v);
      ptr ← split path;
      match get_op op with
      | op_add => v ← get_value val "add" "value" false; operation_add ptr v result
      | op_remove => operation_remove ptr result
      | op_replace =>
          v ← get_value val "replace" "value" false;
          get_checked ptr (fun _ => Ret v) result
      | op_move =>
          from_path ← (v ← get_value val "move" "from" true; get_string v);
          from_ptr ← split from_path;
          v ← at_pointer from_ptr result;
          result ← operation_remove from_ptr result;
          operation_add ptr v result
      | op_copy =>
          from_path ← (v ← get_value val "copy" "from" true; get_string v);
          from_ptr ← split from_path;
          v ← at_pointer from_ptr result;
          operation_add ptr v result
      | op_test =>
          success ← match (a ← at_pointer ptr result;
                           b ← get_value val "test" "value" false;
                           Ret (json_eqb a b)) with
                    | Throw JsonOutOfRange => Ret false
                    | o => o
                    end;
          if (success : bool) then Ret result
          else _ ← json_dump_strict val; Throw OtherError
      | op_invalid => json_error 105 0 ("operation value '" +:+ op +:+ "' is invalid")
      end
  | _ => json_error 104 0 "JSON patch must be an array of objects"
  end.

Fixpoint apply_operations (l : list json) (result : json) : outcome json :=
  match l with
  | [] => Ret result
  | val :: l => result ← apply_operation val result; apply_operations l result
  end.

(** [j.patch(json_patch)]; a failure leaves [j] as it was *)
Definition patch (json_patch j : json) : outcome json :=
  match json_patch with
  | JArr l => apply_operations l j
  | _ => json_error 104 0 "JSON patch must be an array of objects"
  end.
End patch.
End json_patch.
