(* ===== verification/Errors.v ===== *)
(** * errors.cpp, errors.h: status codes and error payloads *)

From S2P Require Import Prelude Strings Regex OMap Outcome Json.
From Stdlib Require Import Ascii.

Module errors.

Inductive StatusCode :=
| NE_ST_OK
| NE_ST_INVSTKY
| NE_ST_NOSTKEX
| NE_ST_STKEYWE
| NE_ST_STKEYRE
| NE_ST_NOSTDIR
| NE_OS_UNLTOUP
| NE_OS_INVNOTA
| NE_OS_INVMSGA
| NE_OS_TRAYIER
| NE_OS_INVKNPT
| NE_OS_UNLTRAS
| NE_OS_UNLTOUV
| NE_OS_CMDNALW
| NE_CO_UNLTOSC
| NE_CO_UNLTOMG
| NE_CO_UNLTONI
| NE_CO_UNLTOSK
| NE_CO_UNLTODI
| NE_EX_EXTNOTC
| NE_FS_FILWRER
| NE_FS_DIRCRER
| NE_FS_REMVERR
| NE_FS_FILRDER
| NE_FS_NOPATHE
| NE_FS_NOTADIR
| NE_FS_COPYERR
| NE_FS_MOVEERR
| NE_FS_FILOPER
| NE_FS_UNLTOUP
| NE_FS_UNLTFOP
| NE_FS_UNLCWAT
| NE_FS_NOWATID
| NE_FS_UNLSTPR
| NE_FS_ACSFAIL
| NE_FS_CHMDERR
| NE_FS_CHWNERR
| NE_FS_SCOPERR
| NE_WI_UNBSWSR
| NE_RT_INVTOKN
| NE_RT_APIPRME
| NE_RT_NATPRME
| NE_RT_NATRTER
| NE_RT_NATNTIM
| NE_RS_TREEGER
| NE_RS_UNBLDRE
| NE_RS_NOPATHE
| NE_RS_FILEXTF
| NE_RS_DIREXTF
| NE_SR_UNBSEND
| NE_SR_UNBPARS
| NE_SR_MPINUSE
| NE_SR_NOMTPTH
| NE_NW_SSLCONN
| NE_NW_SSLLOAD
| NE_NW_SSLVERI
| NE_NW_SSLHOST
| NE_NW_HTTPERR
| NE_CF_UNBLDCF
| NE_CF_UNBPRCF
| NE_CF_UNSUPMD
| NE_CF_UNBLWCF.

#[global] Instance StatusCode_eq_dec : EqDecision StatusCode.
Proof. solve_decision. Defined.

Definition __getStatusCodeString (code : StatusCode) : string :=
  match code with
  | NE_ST_OK => "NE_ST_OK"
  | NE_ST_INVSTKY => "NE_ST_INVSTKY"
  | NE_ST_NOSTKEX => "NE_ST_NOSTKEX"
  | NE_ST_STKEYWE => "NE_ST_STKEYWE"
  | NE_ST_STKEYRE => "NE_ST_STKEYRE"
  | NE_ST_NOSTDIR => "NE_ST_NOSTDIR"
  | NE_OS_UNLTOUP => "NE_OS_UNLTOUP"
  | NE_OS_INVNOTA => "NE_OS_INVNOTA"
  | NE_OS_INVMSGA => "NE_OS_INVMSGA"
  | NE_OS_TRAYIER => "NE_OS_TRAYIER"
  | NE_OS_INVKNPT => "NE_OS_INVKNPT"
  | NE_OS_UNLTRAS => "NE_OS_UNLTRAS"
  | NE_OS_UNLTOUV => "NE_OS_UNLTOUV"
  | NE_OS_CMDNALW => "NE_OS_CMDNALW"
  | NE_CO_UNLTOSC => "NE_CO_UNLTOSC"
  | NE_CO_UNLTOMG => "NE_CO_UNLTOMG"
  | NE_CO_UNLTONI => "NE_CO_UNLTONI"
  | NE_CO_UNLTOSK => "NE_CO_UNLTOSK"
  | NE_CO_UNLTODI => "NE_CO_UNLTODI"
  | NE_EX_EXTNOTC => "NE_EX_EXTNOTC"
  | NE_FS_FILWRER => "NE_FS_FILWRER"
  | NE_FS_DIRCRER => "NE_FS_DIRCRER"
  | NE_FS_REMVERR => "NE_FS_REMVERR"
  | NE_FS_FILRDER => "NE_FS_FILRDER"
  | NE_FS_NOPATHE => "NE_FS_NOPATHE"
  | NE_FS_NOTADIR => "NE_FS_NOTADIR"
  | NE_FS_COPYERR => "NE_FS_COPYERR"
  | NE_FS_MOVEERR => "NE_FS_MOVEERR"
  | NE_FS_FILOPER => "NE_FS_FILOPER"
  | NE_FS_UNLTOUP => "NE_FS_UNLTOUP"
  | NE_FS_UNLTFOP => "NE_FS_UNLTFOP"
  | NE_FS_UNLCWAT => "NE_FS_UNLCWAT"
  | NE_FS_NOWATID => "NE_FS_NOWATID"
  | NE_FS_UNLSTPR => "NE_FS_UNLSTPR"
  | NE_FS_ACSFAIL => "NE_FS_ACSFAIL"
  | NE_FS_CHMDERR => "NE_FS_CHMDERR"
  | NE_FS_CHWNERR => "NE_FS_CHWNERR"
  | NE_FS_SCOPERR => "NE_FS_SCOPERR"
  | NE_WI_UNBSWSR => "NE_WI_UNBSWSR"
  | NE_RT_INVTOKN => "NE_RT_INVTOKN"
  | NE_RT_APIPRME => "NE_RT_APIPRME"
  | NE_RT_NATPRME => "NE_RT_NATPRME"
  | NE_RT_NATRTER => "NE_RT_NATRTER"
  | NE_RT_NATNTIM => "NE_RT_NATNTIM"
  | NE_RS_TREEGER => "NE_RS_TREEGER"
  | NE_RS_UNBLDRE => "NE_RS_UNBLDRE"
  | NE_RS_NOPATHE => "NE_RS_NOPATHE"
  | NE_RS_FILEXTF => "NE_RS_FILEXTF"
  | NE_RS_DIREXTF => "NE_RS_DIREXTF"
  | NE_SR_UNBSEND => "NE_SR_UNBSEND"
  | NE_SR_UNBPARS => "NE_SR_UNBPARS"
  | NE_SR_MPINUSE => "NE_SR_MPINUSE"
  | NE_SR_NOMTPTH => "NE_SR_NOMTPTH"
  | NE_NW_SSLCONN => "NE_NW_SSLCONN"
  | NE_NW_SSLLOAD => "NE_NW_SSLLOAD"
  | NE_NW_SSLVERI => "NE_NW_SSLVERI"
  | NE_NW_SSLHOST => "NE_NW_SSLHOST"
  | NE_NW_HTTPERR => "NE_NW_HTTPERR"
  | NE_CF_UNBLDCF => "NE_CF_UNBLDCF"
  | NE_CF_UNBPRCF => "NE_CF_UNBPRCF"
  | NE_CF_UNSUPMD => "NE_CF_UNSUPMD"
  | NE_CF_UNBLWCF => "NE_CF_UNBLWCF"
  end.

(** the double quote *)
Definition dq : string := String "034"%char EmptyString.

Definition __findStatusCodeDesc (code : StatusCode) : string :=
  match code with
  | NE_ST_OK => EmptyString
  | NE_ST_INVSTKY => "Invalid storage key format. The key should match regex: %1"
  | NE_ST_NOSTKEX => "Unable to find storage key: %1"
  | NE_ST_STKEYWE => "Unable to write data to key: %1"
  | NE_ST_STKEYRE => "Unable to remove storage key: %1"
  | NE_ST_NOSTDIR => "Unable to read storage directory: %1"
  | NE_OS_UNLTOUP => "Unable to update process id: %1"
  | NE_OS_INVNOTA => "Invalid notification style arguments: %1"
  | NE_OS_INVMSGA => "Invalid message box style arguments: %1"
  | NE_OS_TRAYIER => "Unable to initialize the tray menu"
  | NE_OS_INVKNPT => "Invalid platform path name: %1"
  | NE_OS_UNLTRAS => "Unable to move %1 item to trash"
  | NE_OS_UNLTOUV => "Unable to set environment variable"
  | NE_OS_CMDNALW => "Shell command " +:+ dq +:+ "%1" +:+ dq +:+ " is not allowed"
  | NE_CO_UNLTOSC => "Unable to set mouse cursor"
  | NE_CO_UNLTONI => "Unable to retrieve network interfaces"
  | NE_CO_UNLTOMG => "Unable to set mouse grabbing"
  | NE_CO_UNLTOSK => "Unable to send keys"
  | NE_CO_UNLTODI => "Unable to retrieve disk information"
  | NE_EX_EXTNOTC => "%1 is not connected yet"
  | NE_FS_FILWRER => "Unable to write file: %1"
  | NE_FS_DIRCRER => "Cannot create a directory in %1"
  | NE_FS_REMVERR => "Cannot remove path: %1"
  | NE_FS_FILRDER => "Unable to open file: %1"
  | NE_FS_NOPATHE => "Unable to open path %1"
  | NE_FS_NOTADIR => "Path %1 is not a directory"
  | NE_FS_COPYERR => "Cannot perform copy: %1"
  | NE_FS_MOVEERR => "Cannot perform move: %1"
  | NE_FS_FILOPER => "Unable to open file: %1"
  | NE_FS_UNLTOUP => "Unable to update opened file id: %1"
  | NE_FS_UNLTFOP => "Unable to find opened file id: %1"
  | NE_FS_UNLCWAT => "Unable to create watcher for path: %1"
  | NE_FS_NOWATID => "Unable to find watcher: %1"
  | NE_FS_UNLSTPR => "Unable to set file permissions for %1"
  | NE_FS_ACSFAIL => "File access check failed for %1"
  | NE_FS_CHMDERR => "Unable to change permissions for %1"
  | NE_FS_CHWNERR => "Unable to change ownership for %1"
  | NE_FS_SCOPERR => "Cannot access path %1 outside configured filesystem scopes"
  | NE_WI_UNBSWSR => "Unable to save window screenshot to %1"
  | NE_RT_INVTOKN => "Invalid or expired NL_TOKEN value from client"
  | NE_RT_APIPRME => "Missing permission to access Native API"
  | NE_RT_NATPRME => "Missing permission to execute the native method: %1"
  | NE_RT_NATRTER => "Native method execution error occurred. Required parameter is missing: %1"
  | NE_RT_NATNTIM => "%1 is not implemented in the Neutralinojs server"
  | NE_RS_TREEGER => "Resource file tree generation error. %1 is missing."
  | NE_RS_UNBLDRE => "Unable to load application resource file %1"
  | NE_RS_NOPATHE => "Path (%1) doesn't exist in resources"
  | NE_RS_FILEXTF => "Unable to extract the requested file to %1"
  | NE_RS_DIREXTF => "Unable to extract the requested directory to %1"
  | NE_SR_UNBSEND => "Unable to send native message"
  | NE_SR_UNBPARS => "Unable to parse native call payload"
  | NE_SR_MPINUSE => "Mount path is already in use: %1"
  | NE_SR_NOMTPTH => "Cannot unmount %1, the path that was not mounted"
  | NE_NW_SSLCONN => "SSL connection failed: %1"
  | NE_NW_SSLLOAD => "SSL certificate loading failed: %1"
  | NE_NW_SSLVERI => "SSL server verification failed for %1"
  | NE_NW_SSLHOST => "SSL hostname verification failed for %1"
  | NE_NW_HTTPERR => "HTTP error: %1"
  | NE_CF_UNBLDCF => "Unable to load the %1 configuration file. Framework defaults will be loaded."
  | NE_CF_UNBPRCF => "Unable to parse the config file: %1"
  | NE_CF_UNSUPMD => "Unsupported mode: %1. The default mode (window) is selected."
  | NE_CF_UNBLWCF => "Unable to load the window config file: %1"
  end.

Definition __getStatusCodeDesc (code : StatusCode) (param : string) : string :=
  regex_replace (__findStatusCodeDesc code) "%1" param.

Definition makeErrorPayload (code : StatusCode) (param : string) : json :=
  mk_obj [("code", JStr (__getStatusCodeString code));
          ("message", JStr (__getStatusCodeDesc code param))].

Definition makeMissingArgErrorPayload (missingArg : string) : json :=
  makeErrorPayload NE_RT_NATRTER missingArg.

Definition makeErrorMsg (code : StatusCode) (param : string) : string :=
  __getStatusCodeString code +:+ ": " +:+ __getStatusCodeDesc code param.

(** All codes, to decide statements about every code by computation. *)
Definition all_codes : list StatusCode :=
  [NE_ST_OK; NE_ST_INVSTKY; NE_ST_NOSTKEX; NE_ST_STKEYWE;
   NE_ST_STKEYRE; NE_ST_NOSTDIR; NE_OS_UNLTOUP; NE_OS_INVNOTA;
   NE_OS_INVMSGA; NE_OS_TRAYIER; NE_OS_INVKNPT; NE_OS_UNLTRAS;
   NE_OS_UNLTOUV; NE_OS_CMDNALW; NE_CO_UNLTOSC; NE_CO_UNLTOMG;
   NE_CO_UNLTONI; NE_CO_UNLTOSK; NE_CO_UNLTODI; NE_EX_EXTNOTC;
   NE_FS_FILWRER; NE_FS_DIRCRER; NE_FS_REMVERR; NE_FS_FILRDER;
   NE_FS_NOPATHE; NE_FS_NOTADIR; NE_FS_COPYERR; NE_FS_MOVEERR;
   NE_FS_FILOPER; NE_FS_UNLTOUP; NE_FS_UNLTFOP; NE_FS_UNLCWAT;
   NE_FS_NOWATID; NE_FS_UNLSTPR; NE_FS_ACSFAIL; NE_FS_CHMDERR;
   NE_FS_CHWNERR; NE_FS_SCOPERR; NE_WI_UNBSWSR; NE_RT_INVTOKN;
   NE_RT_APIPRME; NE_RT_NATPRME; NE_RT_NATRTER; NE_RT_NATNTIM;
   NE_RS_TREEGER; NE_RS_UNBLDRE; NE_RS_NOPATHE; NE_RS_FILEXTF;
   NE_RS_DIREXTF; NE_SR_UNBSEND; NE_SR_UNBPARS; NE_SR_MPINUSE;
   NE_SR_NOMTPTH; NE_NW_SSLCONN; NE_NW_SSLLOAD; NE_NW_SSLVERI;
   NE_NW_SSLHOST; NE_NW_HTTPERR; NE_CF_UNBLDCF; NE_CF_UNBPRCF;
   NE_CF_UNSUPMD; NE_CF_UNBLWCF].

Lemma all_codes_spec c : c ∈ all_codes.
Proof. apply (bool_decide_unpack _). by destruct c; vm_compute. Qed.

Lemma __getStatusCodeString_inj c d :
  __getStatusCodeString c = __getStatusCodeString d -> c = d.
Proof.
  assert (forallb (fun c => forallb (fun d =>
    bool_decide (__getStatusCodeString c = __getStatusCodeString d -> c = d))
    all_codes) all_codes = true) as H by by vm_compute.
  assert (forall x, In x all_codes) as Hin by (intros; apply list_elem_of_In, all_codes_spec).
  rewrite forallb_forall in H. specialize (H c (Hin c)).
  rewrite forallb_forall in H. specialize (H d (Hin d)).
  by apply bool_decide_eq_true in H.
Qed.

End errors.
