(* ===== verification/State.v ===== *)
(** * The state of the process, and the calls that leave it

    [Platform] is the interface to what is not this program's code: the kernel
    and its file system behind [std::filesystem] and [fstream], the WebSocket
    library's transport, the conversion of floating-point numbers, the random device.  A development
    on top of it holds for every instance.  [World] is the product of the
    components' global variables (one record per C++ namespace) and the
    platform's own state; [M] is the monad of calls on it.

    The model is of the Linux build. *)

From S2P Require Import Prelude Strings OMap Outcome Json Errors.
From S2P Require Export JsonLex JsonParse JsonDump JsonPatch.
From Stdlib Require Import Ascii.

(** ** Data the platform exchanges with the program *)

Inductive FileKind := KFile | KDir | KOther.
Record stat_buf := StatBuf { st_size : Z; st_kind : FileKind; st_ctime : Z; st_mtime : Z }.
Record dir_entry := DirEntry { de_name : string; de_path : string; de_kind : FileKind }.
(** [filesystem::copy_options] and [perm_options] *)
Record copy_options := CopyOptions { co_recursive : bool; co_overwrite : bool; co_skip : bool }.
Inductive perm_options := PermReplace | PermAdd | PermRemove.
Inductive opcode := OpText | OpBinary.

(** api/fs/fs.h: the options of a file read; [-1] is "not given" *)
Record FileReaderOptions := { ro_pos : Z; ro_size : Z }.
Definition no_reader_options : FileReaderOptions := {| ro_pos := -1; ro_size := -1 |}.

(** POSIX calls, on the state [sys]: [None] and [false] are errors *)
Record lstat_buf := LstatBuf {
  ls_dev : Z; ls_isdir : bool; ls_isreg : bool; ls_islnk : bool; ls_isvtx : bool;
  ls_size : Z; ls_mtime : Z
}.
Record tm := Tm {
  tm_year : Z; tm_mon : Z; tm_mday : Z; tm_hour : Z; tm_min : Z; tm_sec : Z
}.
Inductive create_result := Created | Exists | CreateError.
Class PosixLib (sys : Type) := {
  px_realpath : string -> sys -> option string;
  px_lstat : string -> sys -> option lstat_buf;
  px_mkdir : string -> Z -> sys -> create_result * sys;
  (** the directories of /etc/mtab *)
  px_mtab : sys -> option (list string);
  (** [pathconf(path, _PC_NAME_MAX)]: [Some None] when there is no limit *)
  px_name_max : string -> sys -> option (option Z);
  (** the names in a directory, and whether the entry is a directory *)
  px_readdir : string -> sys -> option (list (string * bool));
  (** [fopen] with "wx" and "w", and [fwrite] to the opened file *)
  px_fopen_wx : string -> sys -> create_result * sys;
  px_fopen_w : string -> sys -> bool * sys;
  px_fwrite : string -> string -> sys -> bool * sys;
  px_rename : string -> string -> sys -> bool * sys;
  px_remove : string -> sys -> bool * sys;
  (** [getrandom]: the bytes that were written *)
  px_getrandom : nat -> sys -> option (list ascii) * sys;
  px_time : sys -> Z;
  px_localtime : Z -> sys -> option tm
}.

(** lib/tinyprocess: what a forked child becomes: its standard streams, where they are
    pipes, and the program that it executes, with an environment or the parent's *)
Record exec_image := ExecImage {
  im_stdin : option Z; im_stdout : option Z; im_stderr : option Z;
  im_argv : list string; im_env : option (list string)
}.
(** [waitpid] until the child is dead; [WaitNoChild] is ECHILD *)
Inductive wait_result := WaitStatus (status : Z) | WaitNoChild.
(** an entry after [poll]: what [read] returns when it can be read, and whether the
    other end is gone; a read gives data, the end, EINTR or EAGAIN, or an error *)
Inductive read_result := ReadData (bytes : string) | ReadEnd | ReadAgain | ReadError.
Record poll_event := PollEvent { pv_in : option read_result; pv_hup : bool }.
Class ProcLib (sys : Type) := {
  (** the ends to read and to write *)
  pl_pipe : sys -> option (Z * Z) * sys;
  (** the pid, negative when there is no process; a program that cannot be executed is
      a child that exits with 1 *)
  pl_fork : exec_image -> sys -> Z * sys;
  pl_close : Z -> sys -> sys;
  (** [write] to a pipe; asio has SIGPIPE ignored *)
  pl_write : Z -> string -> sys -> bool * sys;
  pl_kill : Z -> Z -> sys -> sys;
  pl_waitpid : Z -> sys -> wait_result * sys;
  (** the turns of the loop that polls the output and the error pipe, until they are
      closed or [poll] fails *)
  pl_polls : Z -> Z -> sys -> list (poll_event * poll_event) * sys
}.
(** class [Process]: [data], the flags and the descriptors, of which each is an
    allocated number that may not be set yet; [p_reads] is whether there are handlers
    for the output, [p_thread] whether the thread that calls them can be joined *)
Record Process := MkProcess {
  p_id : Z; p_exit_status : Z; p_closed : bool; p_open_stdin : bool; p_reads : bool; p_thread : bool;
  p_stdin : option (option Z); p_stdout : option (option Z); p_stderr : option (option Z)
}.

(** lib/efsw: the calls of its inotify backend.  A [stat] buffer has the mode, the device
    and the number of the inode; when [statfs] fails the answer is what the buffer held. *)
Record inode_stat := InodeStat { is_mode : Z; is_dev : Z; is_ino : Z }.
Inductive add_watch_result := WatchAdded (wd : Z) | WatchNoEntry | WatchFailed.
Class InotifyLib (sys : Type) := {
  in_init : sys -> Z * sys;
  in_add_watch : Z -> string -> sys -> add_watch_result * sys;
  in_rm_watch : Z -> Z -> sys -> sys;
  in_stat : string -> sys -> option inode_stat;
  in_lstat : string -> sys -> option inode_stat;
  in_realpath : string -> sys -> option string;
  (** the names in a directory *)
  in_readdir : string -> sys -> option (list string);
  (** [f_type] *)
  in_statfs : string -> sys -> Z;
  in_chdir : string -> sys -> bool * sys;
  in_getcwd : sys -> option string;
  (** [mnt_dir] and [mnt_fsname] of the lines of /proc/mounts *)
  in_mntent : sys -> option (list (string * string));
  (** the addresses of the objects, in the order of their allocation *)
  in_address : nat -> Z
}.
(** class [WatcherInotify]; a pointer is the number of the object.  [DirInfo], which is
    never read, is left out. *)
Record WatcherInotify := MkWatcher {
  wi_ID : Z; wi_Directory : string; wi_Listener : nat; wi_Recursive : bool; wi_OldFileName : string;
  wi_InotifyID : Z; wi_Parent : option nat
}.
(** the variables of [run]: the iterator, a node or the end, and the file that is moved *)
Record run_state := RunState {
  rs_wit : option (Z * nat); rs_currentMoveFrom : option nat; rs_currentMoveCookie : Z;
  rs_lastWasMovedFrom : bool; rs_prevOldFileName : string
}.
(** class [FileWatcherInotify] with the objects it has allocated; [mInitOK] is true
    until the destructor, which is never called *)
Record FileWatcherInotify := MkInotify {
  mFD : Z; mThread : bool; objects : gmap nat WatcherInotify; next_object : nat;
  mWatches : list (Z * nat); mRealWatches : list (Z * nat);
  mMovedOutsideWatches : list (nat * string); run_vars : run_state
}.
(** [FileWatcher::mImpl]: the generic backend takes the place of inotify when that
    cannot be initialised *)
Inductive watcher_impl := ImplInotify (f : FileWatcherInotify) | ImplGeneric.

(** lib/filedialogs: the static flags of [settings] *)
Record pfd_flags := PfdFlags {
  is_scanned : bool; is_verbose : bool;
  has_zenity : bool; has_matedialog : bool; has_qarma : bool; has_kdialog : bool
}.
(** A child process as its parent finds it: what the reads of its output return one
    after the other, an empty string where there is nothing to read and the child
    still runs; then there is nothing to read and the child is dead, with a wait
    status.  A program that cannot be executed is a child that exits with 1. *)
Record child := Child { ch_reads : list string; ch_status : Z }.

(** lib/tray: an entry of the menu array; [ti_text = None] is the terminator *)
Record tray_menu := TrayMenu {
  ti_id : option string; ti_text : option string; ti_disabled : bool; ti_checked : bool
}.
Definition no_tray_menu : tray_menu := TrayMenu None None false false.

(** api/window/window.h *)
Inductive NewWindowPolicy := NewWindowPolicySystem | NewWindowPolicyBrowser | NewWindowPolicyCustom.
Record SizeOptions := {
  width : Z; height : Z; minWidth : Z; minHeight : Z; maxWidth : Z; maxHeight : Z; resizable : bool
}.

(** the entries of a GTK menu bar; the callback's item is what the entry carries *)
Record WindowMenuItem := {
  mi_id : string; mi_text : string; mi_disabled : bool; mi_checked : bool; mi_shortcut : string
}.
Inductive gtk_menu :=
| GtkSeparator
| GtkItem (i : WindowMenuItem)
| GtkCheckItem (i : WindowMenuItem)
| GtkSubmenu (i : WindowMenuItem) (l : list gtk_menu).

(** the entries of the indicator's menu; a click calls back with the entry *)
Inductive tray_widget :=
| TraySeparator
| TrayCheckItem (m : tray_menu)
| TrayItem (m : tray_menu).

(** the calls into GTK, the indicator library and the webview library *)
Inductive gui_call :=
| SetTitle (t : string) | ExtendUserAgent (s : string) | InitScript (s : string)
| SetSize (w h : Z) (o : SizeOptions) | Navigate (url : string) | Terminate (code : Z)
| GtkMaximize | GtkUnmaximize | GtkPresent | GtkIconify | GtkShow | GtkHide
| GtkFullscreen | GtkUnfullscreen | GtkSetIcon (data : string) | GtkMove (x y : Z)
| GtkBeginMoveDrag (x y : Z) | GtkKeepAbove (b : bool) | GtkDecorated (b : bool)
| GdkSkipTaskbar (b : bool) | GtkMenuReset | GtkMenuBar (m : list gtk_menu) | WebkitPrint
| WebviewNew (inspector openInspector transparent : bool) (args : string) (drops : bool)
| WebviewRun
| IndicatorNew (icon : option string) | IndicatorActive | IndicatorIcon (icon : option string)
| IndicatorMenu (l : list tray_widget).

(** [efsw::Action] *)
Inductive WatchAction := WatchAdd | WatchDelete | WatchModified | WatchMoved.

(** [getpwuid_r]: an error code, no entry ([pw] is null), or an entry's [pw_dir],
    a pointer *)
Inductive passwd_result := PwError | PwNone | PwEntry (pw_dir : option string).

Class Platform := {
  sys : Type;
  (** [ifstream(path, binary)]: the bytes of a file that can be opened *)
  sys_read : string -> sys -> option string;
  (** [ofstream(path, mode) << data]; [None] when it cannot be opened *)
  sys_write : string -> string -> bool -> sys -> option sys;
  sys_stat : string -> sys -> option stat_buf;
  (** the entries of [recursive_directory_iterator(path)], or of the directory only *)
  sys_list : string -> bool -> sys -> outcome (list dir_entry);
  sys_create_directories : string -> sys -> outcome bool * sys;
  sys_remove : string -> sys -> outcome bool * sys;
  sys_remove_all : string -> sys -> outcome Z * sys;
  (** the calls with an [error_code]: [true] when it is set *)
  sys_copy : string -> string -> copy_options -> sys -> bool * sys;
  sys_rename : string -> string -> sys -> bool * sys;
  sys_permissions : string -> Z -> perm_options -> sys -> bool * sys;
  sys_perms : string -> sys -> outcome Z;
  sys_access : string -> Z -> sys -> Z;
  sys_chmod : string -> Z -> sys -> Z * sys;
  sys_chown : string -> Z -> Z -> sys -> Z * sys;
  sys_weakly_canonical : string -> sys -> outcome string;
  sys_absolute : string -> sys -> outcome string;
  sys_relative : string -> string -> sys -> outcome string;
  sys_cwd : sys -> string;
  (** lexical operations of [filesystem::path]: [operator/=] and the parts *)
  path_join : string -> string -> string;
  path_root_name : string -> string;
  path_root_directory : string -> string;
  path_root_path : string -> string;
  path_relative_path : string -> string;
  path_parent_path : string -> string;
  path_filename : string -> string;
  path_stem : string -> string;
  path_extension : string -> string;
  (** [dirname(3)] *)
  c_dirname : string -> string;
  (** the user, and the home directory of the user in the password database *)
  sys_getuid : sys -> Z;
  sys_getpwuid_r : sys -> passwd_result;
  sys_getpwuid : sys -> option (option string);
  (** [std::filesystem::temp_directory_path] *)
  sys_temp_directory_path : sys -> outcome string;
  sys_getenv : string -> sys -> option string;
  (** [setenv]: whether it returned 0 *)
  sys_setenv : string -> string -> sys -> bool * sys;
  (** [uniform_int_distribution(0, n - 1)(generator)] *)
  sys_random : nat -> sys -> nat * sys;
  (** helpers::getCurrentTimestamp *)
  sys_timestamp : sys -> string;
  (** the calls of the kernel that lib/efsw makes *)
  platform_inotify :: InotifyLib sys;
  (** the generic backend of lib/efsw: [addWatch] returns an id, negative for an error *)
  fw_addWatch : string -> sys -> Z * sys;
  fw_removeWatch : Z -> sys -> sys;
  (** the bytes postject put into the executable; [None] when there are none *)
  embedded_resource : option string;
  postject_has_resource : bool;
  (** whether [server->send] to a connection succeeds *)
  ws_can_send : Z -> sys -> bool;
  (** listening on an address and port: the actual port, [None] for an exception *)
  ws_listen : string -> Z -> sys -> option Z;
  (** the conversions between floating-point numbers and text *)
  platform_floats :: FloatLib;
  (** compile-time and process constants that appear in the globals script *)
  NEU_VERSION : string;
  NEU_COMMIT : string;
  NEU_COMPILATION_DATA : string;
  cpu_arch : string;
  process_id : Z;
  (** [setlocale(LC_ALL, nullptr)], [environ] *)
  sys_setlocale : sys -> option string;
  sys_environ : sys -> list string;
  (** the calls of the kernel that lib/tinyprocess makes *)
  platform_proc :: ProcLib sys;
  (** the standard streams *)
  sys_getline : sys -> option string * sys;
  sys_stdout : string -> sys -> sys;
  sys_stderr : string -> sys -> sys;
  (** lib/filedialogs: [pipe], [fork] and [execvp]; [None] when there is no process *)
  sys_fork_exec : list string -> sys -> option child * sys;
  (** [gtk_init_check], and whether [dlopen] finds a library; an indicator library
      that it finds has the functions of its interface *)
  gtk_init_check : sys -> bool;
  sys_dlopen : string -> sys -> bool;
  (** the calls of the kernel that lib/trashcan makes *)
  platform_posix :: PosixLib sys;
  (** GTK and lib/webview *)
  gui : gui_call -> sys -> sys;
  webview_init_code : sys -> Z;
  webview_title : sys -> string;
  gtk_is_maximized : sys -> bool;
  gtk_is_visible : sys -> bool;
  gtk_window_size : sys -> Z * Z;
  gtk_root_origin : sys -> Z * Z;
  gtk_workarea : sys -> Z * Z;
  gtk_scale_factor : sys -> Z;
  gtk_mouse_position : sys -> Z * Z;
  gtk_snapshot : string -> sys -> bool * sys
}.

(** ** The components' global variables *)

Inductive LogType := LogTypeInfo | LogTypeError | LogTypeWarning | LogTypeDebug.

Record CliArg := { arg_key : string; arg_value : string }.
Record ConfigOverride := { co_key : string; co_value : string; co_convertTo : string }.

(** settings.cpp *)
Record SettingsState := {
  options : json;
  globalArgs : json;
  appPath : string;
  systemDataPath : string;
  appDataPath : string;
  configFile : string;
  localeName : string;
  configOverrides : list ConfigOverride
}.

(** resources.cpp *)
Inductive ResourceMode := ResourceModeBundle | ResourceModeDir | ResourceModeEmbedded.
Record ResourcesState := {
  fileTree : json;
  asarHeaderSize : Z;
  res_mode : ResourceMode
}.

(** auth/authbasic.cpp *)
Inductive TokenSecurity := TokenSecurityNone | TokenSecurityOneTime.
Record AuthState := {
  token : string;
  connectToken : string;
  tokenSecurity : TokenSecurity;
  tokenSent : bool
}.

(** auth/permission.cpp *)
Record PermissionState := {
  blockedMethods : list string;
  blockedModules : list string;
  allowedMethods : list string;
  allowedModules : list string;
  allowedCommandPatterns : list string;
  fileSystemReadScopes : list string;
  fileSystemWriteScopes : list string;
  shouldCheckBlockList : bool;
  shouldCheckAllowList : bool;
  shouldCheckCommandAllowList : bool;
  shouldCheckScopesLists : bool
}.

(** server/neuserver.cpp; [sent] is what [server->send] was given, oldest first;
    [idleChecks] counts the sleeping threads of [__exitProcessIfIdle]; [listening]
    is whether the server accepts connections *)
Record ServerState := {
  appConnections : list (Z * unit);
  extConnections : list (string * Z);
  wsMode : list (Z * opcode);
  srv_initialized : bool;
  applyConfigHeaders : bool;
  sent : list (Z * opcode * string);
  idleChecks : nat;
  listening : bool
}.

(** an [ifstream] over the bytes [if_data] *)
Record ifstream := IfStream {
  if_data : string;
  if_pos : nat;
  if_eof : bool;
  if_fail : bool;
  if_gcount : nat
}.

(** api/fs/fs.cpp *)
Record FsState := {
  openedFiles : list (Z * ifstream);
  fileWatcher : option watcher_impl;   (** a pointer that is null before the first use *)
  (** the listener, a pointer, and the path of an id *)
  watchListeners : list (Z * (nat * string));
  (** the listeners that exist, and the number of the next *)
  listeners : list nat;
  nextListener : nat
}.

(** api/os/os.cpp; a child process is the library's object, the options that its
    handlers captured and what the API asked for, oldest first *)
Inductive child_input := InWrite (s : string) | InClose | InKill.
Record ChildProcess := {
  cp_process : Process; cp_command : string;
  cp_events : bool;   (** [options.events] *)
  cp_echo : bool;     (** whether [stdOutHandler] and [stdErrHandler] copy the output *)
  cp_input : list child_input
}.
Record OsState := {
  spawnedProcesses : list (Z * ChildProcess);
  nextVirtualPid : Z;
  trayInitialized : bool;
  useOtherTempTrayIcon : bool;
  tray_menus : list tray_menu;
  tray_icon : option string;
  loop_result : Z   (** of tray.h; [tray_loop], its reader, is not called *)
}.

(** api/window/window.cpp; [nativeWindow] is whether the webview exists,
    [dispatched] counts the calls of [window::show] queued on the GUI thread *)
Record WindowOptions := {
  sizeOptions : SizeOptions;
  fullScreen : bool; alwaysOnTop : bool; enableInspector : bool; openInspectorOnStartup : bool;
  borderless : bool; win_maximize : bool; hidden : bool; win_center : bool; transparent : bool;
  exitProcessOnClose : bool; useSavedState : bool; injectGlobals : bool; injectClientLibrary : bool;
  useLogicalPixels : bool; skipTaskbar : bool; emitDropEvents : bool;
  webviewArgs : string; win_title : string; win_url : string; win_icon : string;
  extendUserAgentWith : string; injectScript : string; win_x : Z; win_y : Z;
  newWindowPolicy : NewWindowPolicy
}.
Record WindowState := {
  windowProps : WindowOptions;
  savedState : bool;
  nativeWindow : bool;
  isGtkWindowFullScreen : bool;
  isGtkWindowMinimized : bool;
  dispatched : nat
}.

(** extensions_loader.cpp *)
Record ExtState := {
  loadedExtensions : list string;
  ext_initialized : bool
}.

Record World `{Platform} := MkWorld {
  w_settings : SettingsState;
  w_resources : ResourcesState;
  w_auth : AuthState;
  w_perm : PermissionState;
  w_mounts : list (string * string);
  w_server : ServerState;
  w_fs : FsState;
  w_os : OsState;
  w_ext : ExtState;
  w_window : WindowState;
  w_storagePath : string;
  w_pfd : pfd_flags;
  w_log : list (LogType * string);
  w_sys : sys
}.

Definition upd_settings `{Platform} (f : SettingsState -> SettingsState) (w : World) : World :=
  MkWorld _ (f (w_settings w)) (w_resources w) (w_auth w) (w_perm w) (w_mounts w) (w_server w) (w_fs w) (w_os w) (w_ext w) (w_window w) (w_storagePath w) (w_pfd w) (w_log w) (w_sys w).
Definition upd_resources `{Platform} (f : ResourcesState -> ResourcesState) (w : World) : World :=
  MkWorld _ (w_settings w) (f (w_resources w)) (w_auth w) (w_perm w) (w_mounts w) (w_server w) (w_fs w) (w_os w) (w_ext w) (w_window w) (w_storagePath w) (w_pfd w) (w_log w) (w_sys w).
Definition upd_auth `{Platform} (f : AuthState -> AuthState) (w : World) : World :=
  MkWorld _ (w_settings w) (w_resources w) (f (w_auth w)) (w_perm w) (w_mounts w) (w_server w) (w_fs w) (w_os w) (w_ext w) (w_window w) (w_storagePath w) (w_pfd w) (w_log w) (w_sys w).
Definition upd_perm `{Platform} (f : PermissionState -> PermissionState) (w : World) : World :=
  MkWorld _ (w_settings w) (w_resources w) (w_auth w) (f (w_perm w)) (w_mounts w) (w_server w) (w_fs w) (w_os w) (w_ext w) (w_window w) (w_storagePath w) (w_pfd w) (w_log w) (w_sys w).
Definition upd_mounts `{Platform} (f : list (string * string) -> list (string * string)) (w : World) : World :=
  MkWorld _ (w_settings w) (w_resources w) (w_auth w) (w_perm w) (f (w_mounts w)) (w_server w) (w_fs w) (w_os w) (w_ext w) (w_window w) (w_storagePath w) (w_pfd w) (w_log w) (w_sys w).
Definition upd_server `{Platform} (f : ServerState -> ServerState) (w : World) : World :=
  MkWorld _ (w_settings w) (w_resources w) (w_auth w) (w_perm w) (w_mounts w) (f (w_server w)) (w_fs w) (w_os w) (w_ext w) (w_window w) (w_storagePath w) (w_pfd w) (w_log w) (w_sys w).
Definition upd_fs `{Platform} (f : FsState -> FsState) (w : World) : World :=
  MkWorld _ (w_settings w) (w_resources w) (w_auth w) (w_perm w) (w_mounts w) (w_server w) (f (w_fs w)) (w_os w) (w_ext w) (w_window w) (w_storagePath w) (w_pfd w) (w_log w) (w_sys w).
Definition upd_os `{Platform} (f : OsState -> OsState) (w : World) : World :=
  MkWorld _ (w_settings w) (w_resources w) (w_auth w) (w_perm w) (w_mounts w) (w_server w) (w_fs w) (f (w_os w)) (w_ext w) (w_window w) (w_storagePath w) (w_pfd w) (w_log w) (w_sys w).
Definition upd_ext `{Platform} (f : ExtState -> ExtState) (w : World) : World :=
  MkWorld _ (w_settings w) (w_resources w) (w_auth w) (w_perm w) (w_mounts w) (w_server w) (w_fs w) (w_os w) (f (w_ext w)) (w_window w) (w_storagePath w) (w_pfd w) (w_log w) (w_sys w).
Definition upd_window `{Platform} (f : WindowState -> WindowState) (w : World) : World :=
  MkWorld _ (w_settings w) (w_resources w) (w_auth w) (w_perm w) (w_mounts w) (w_server w) (w_fs w) (w_os w) (w_ext w) (f (w_window w)) (w_storagePath w) (w_pfd w) (w_log w) (w_sys w).
Definition upd_storagePath `{Platform} (f : string -> string) (w : World) : World :=
  MkWorld _ (w_settings w) (w_resources w) (w_auth w) (w_perm w) (w_mounts w) (w_server w) (w_fs w) (w_os w) (w_ext w) (w_window w) (f (w_storagePath w)) (w_pfd w) (w_log w) (w_sys w).
Definition upd_pfd `{Platform} (f : pfd_flags -> pfd_flags) (w : World) : World :=
  MkWorld _ (w_settings w) (w_resources w) (w_auth w) (w_perm w) (w_mounts w) (w_server w) (w_fs w) (w_os w) (w_ext w) (w_window w) (w_storagePath w) (f (w_pfd w)) (w_log w) (w_sys w).
Definition upd_log `{Platform} (f : list (LogType * string) -> list (LogType * string)) (w : World) : World :=
  MkWorld _ (w_settings w) (w_resources w) (w_auth w) (w_perm w) (w_mounts w) (w_server w) (w_fs w) (w_os w) (w_ext w) (w_window w) (w_storagePath w) (w_pfd w) (f (w_log w)) (w_sys w).
Definition upd_sys `{Platform} (f : sys -> sys) (w : World) : World :=
  MkWorld _ (w_settings w) (w_resources w) (w_auth w) (w_perm w) (w_mounts w) (w_server w) (w_fs w) (w_os w) (w_ext w) (w_window w) (w_storagePath w) (w_pfd w) (w_log w) (f (w_sys w)).

(** ** The monad *)

Section monad.
Context `{Platform}.

Definition M (A : Type) : Type := World -> outcome A * World.

#[export] Instance M_ret : MRet M := fun A a w => (Ret a, w).
#[export] Instance M_bind : MBind M := fun A B f m w =>
  match m w with
  | (Ret a, w) => f a w
  | (Throw e, w) => (Throw e, w)
  | (Exited s, w) => (Exited s, w)
  | (Undef, w) => (Undef, w)
  | (NoFuel, w) => (NoFuel, w)
  end.
#[export] Instance M_fmap : FMap M := fun A B f m => m ≫= (fun a => mret (f a)).

Definition gets {A} (f : World -> A) : M A := fun w => (Ret (f w), w).
Definition modify (f : World -> World) : M unit := fun w => (Ret tt, f w).
Definition lift {A} (m : outcome A) : M A := fun w => (m, w).
Definition throw {A} (e : exn) : M A := lift (Throw e).
Definition undef {A} : M A := lift Undef.

(** [try { m } catch(const exception &e) { h }] *)
Definition try_catch {A} (m : M A) (h : exn -> M A) : M A := fun w =>
  match m w with
  | (Throw e, w) => h e w
  | r => r
  end.

(** a platform call that changes the platform's state *)
Definition sys_call {A} (f : sys -> A * sys) : M A := fun w =>
  let '(a, s) := f (w_sys w) in (Ret a, upd_sys (fun _ => s) w).
Definition sys_call_o {A} (f : sys -> outcome A * sys) : M A :=
  r ← sys_call f; lift r.
Definition sys_get {A} (f : sys -> A) : M A := gets (fun w => f (w_sys w)).

Fixpoint mapM_ {A} (f : A -> M unit) (l : list A) : M unit :=
  match l with
  | [] => mret tt
  | x :: l => f x ;; mapM_ f l
  end.

(** a loop that returns from the function at the first [Some] *)
Fixpoint find_mapM {A B} (f : A -> M (option B)) (l : list A) : M (option B) :=
  match l with
  | [] => mret None
  | x :: l => r ← f x; match r with Some y => mret (Some y) | None => find_mapM f l end
  end.

(** debug::log *)
Definition log (type : LogType) (message : string) : M unit :=
  modify (upd_log (fun l => l ++ [(type, message)])).
Definition log_error (code : errors.StatusCode) (param : string) : M unit :=
  log LogTypeError (errors.makeErrorMsg code param).

Lemma M_bind_Ret {A B} (m : M A) (f : A -> M B) w a w1 :
  m w = (Ret a, w1) -> (m ≫= f) w = f a w1.
Proof. intros E. unfold mbind, M_bind. by rewrite E. Qed.

Lemma M_bind_Throw {A B} (m : M A) (f : A -> M B) w e w1 :
  m w = (Throw e, w1) -> (m ≫= f) w = (Throw e, w1).
Proof. intros E. unfold mbind, M_bind. by rewrite E. Qed.

Lemma M_bind_inv {A B} (m : M A) (f : A -> M B) w b w2 :
  (m ≫= f) w = (Ret b, w2) -> exists a w1, m w = (Ret a, w1) /\ f a w1 = (Ret b, w2).
Proof. unfold mbind, M_bind. destruct (m w) as [[] ?]; naive_solver. Qed.
End monad.

#[export] Hint Unfold mret M_ret gets modify lift throw undef sys_get : neu.

(** Unfold the monad in a goal of the form [m w = r]. *)
Ltac munfold := unfold sys_get, throw, undef, mbind, M_bind, mret, M_ret, fmap, M_fmap, gets, modify, lift in *.
(** Take a successful call apart. *)
Ltac minv H :=
  let a := fresh "a" in let w := fresh "w" in let E := fresh "E" in
  apply M_bind_inv in H as (a & w & E & H).
