(* ===== verification/Triple.v ===== *)
(** * What a call can change and return

    [triple R m Q]: whatever the state and the outcome, [m] relates the states
    before and after by [R], and a value that it returns satisfies [Q].  Exceptions,
    exits and undefined behaviour are outcomes like any other, so a triple says
    what an aborted call leaves behind too.  The rules follow the constructors of
    the monad; [frames R m] is the triple that says nothing of the value. *)

From S2P Require Import Prelude Strings Outcome Json Errors State.

Section triple.
Context `{Platform} (R : relation World).

Definition triple {A} (m : M A) (Q : A -> Prop) : Prop :=
  forall w, R w (snd (m w)) /\ forall a, fst (m w) = Ret a -> Q a.

Lemma triple_weaken {A} (m : M A) (P Q : A -> Prop) :
  triple m P -> (forall a, P a -> Q a) -> triple m Q.
Proof. intros Hm HPQ w. destruct (Hm w) as [HR HP]. split; auto. Qed.

Lemma triple_snd {A} (m : M A) (Q : A -> Prop) w : triple m Q -> R w (snd (m w)).
Proof. intros Hm. apply Hm. Qed.

Context `{!PreOrder R}.

Lemma triple_lift {A} (o : outcome A) (Q : A -> Prop) :
  (forall a, o = Ret a -> Q a) -> triple (lift o) Q.
Proof. intros HQ w. by split. Qed.

Lemma triple_ret {A} (a : A) (Q : A -> Prop) : Q a -> triple (mret a) Q.
Proof. intros HQ w. split; [done|]. by intros ? [= <-]. Qed.

Lemma triple_gets {A} (f : World -> A) (Q : A -> Prop) :
  (forall w, Q (f w)) -> triple (gets f) Q.
Proof. intros HQ w. split; [done|]. by intros ? [= <-]. Qed.

Lemma triple_modify (f : World -> World) (Q : unit -> Prop) :
  (forall w, R w (f w)) -> Q tt -> triple (modify f) Q.
Proof. intros HR HQ w. split; [apply HR|]. by intros []. Qed.

Lemma triple_bind {A B} (m : M A) (f : A -> M B) (P : A -> Prop) (Q : B -> Prop) :
  triple m P -> (forall a, P a -> triple (f a) Q) -> triple (m ≫= f) Q.
Proof.
  intros Hm Hf w. destruct (Hm w) as [HR HP]. unfold mbind, M_bind.
  destruct (m w) as [[a|e|s| |] w1]; simpl in *; try by split.
  destruct (Hf a (HP a eq_refl) w1) as [HR' HQ]. split; [by etrans|done].
Qed.

Lemma triple_try {A} (m : M A) (h : exn -> M A) (Q : A -> Prop) :
  triple m Q -> (forall e, triple (h e) Q) -> triple (try_catch m h) Q.
Proof.
  intros Hm Hh w. destruct (Hm w) as [HR HQ]. unfold try_catch.
  destruct (m w) as [[a|e|s| |] w1]; simpl in *; try by split.
  destruct (Hh e w1) as [HR' HQ']. split; [by etrans|done].
Qed.

Lemma triple_mapM {A} (f : A -> M unit) (l : list A) :
  (forall x, triple (f x) (fun _ => True)) -> triple (mapM_ f l) (fun _ => True).
Proof.
  intros Hf. induction l as [|x l IH]; cbn [mapM_]; [by apply triple_ret|].
  eapply triple_bind; [apply Hf|done].
Qed.

Lemma triple_find_mapM {A B} (f : A -> M (option B)) (l : list A) :
  (forall x, triple (f x) (fun _ => True)) -> triple (find_mapM f l) (fun _ => True).
Proof.
  intros Hf. induction l as [|x l IH]; cbn [find_mapM]; [by apply triple_ret|].
  eapply triple_bind; [apply Hf|]. intros [y|] _; [by apply triple_ret|done].
Qed.

(** relations that let the platform's state change *)
Definition sys_free : Prop := forall w y, R w (upd_sys (fun _ => y) w).

Lemma triple_sys_call {A} (f : sys -> A * sys) (Q : A -> Prop) :
  sys_free -> (forall y, Q (fst (f y))) -> triple (sys_call f) Q.
Proof.
  intros HR HQ w. unfold sys_call. specialize (HQ (w_sys w)).
  destruct (f (w_sys w)) as [a y]. split; [apply HR|]. by intros ? [= <-].
Qed.
End triple.

Notation "'frames' R m" := (triple R m (fun _ => True)) (at level 10, R at level 9, m at level 9).

(** The components' lemmas about [triple]s; the names below are unfolded. *)
Create HintDb frame discriminated.
#[export] Hint Constants Opaque : frame.
#[export] Hint Extern 1 (PreOrder _) => typeclasses eauto : frame.

(** One step along the code of a call.  The leaves are solved by the lemmas of
    the database, of which only the frame is used in the middle of a call. *)
Ltac triple_head m := lazymatch m with ?f _ => triple_head f | _ => m end.
Ltac triple_unfold :=
  lazymatch goal with
  | |- triple _ (mret _) _ => fail
  | |- triple _ (lift _) _ => fail
  | |- triple _ (gets _) _ => fail
  | |- triple _ (modify _) _ => fail
  | |- triple _ (sys_call _) _ => fail
  | |- triple _ ?m _ => let h := triple_head m in unfold h
  end.
Ltac triple_split a :=
  lazymatch type of a with
  | prod _ _ => let b := fresh "a" in destruct a as [a b]; cbn beta iota; triple_split a
  | _ => idtac
  end.
Ltac triple_step :=
  lazymatch goal with
  | |- triple _ (mbind _ _) _ =>
      apply (triple_bind _ _ _ (fun _ => True));
      [|let a := fresh "a" in intros a _; triple_split a]
  | |- triple _ (match ?x with _ => _ end) _ => destruct x eqn:?
  | |- triple _ (let _ := _ in _) _ => cbv zeta
  | |- triple ?R (try_catch _ _) _ => apply (triple_try R); [|intros ?]
  | |- triple _ (mapM_ _ _) (fun _ => True) => apply triple_mapM; [typeclasses eauto|intros ?]
  | |- triple _ (find_mapM _ _) (fun _ => True) => apply triple_find_mapM; [typeclasses eauto|intros ?]
  | |- triple ?R (lift ?o) (fun _ => True) => exact (triple_lift R o _ (fun _ _ => I))
  | |- triple ?R (throw ?e) ?Q => refine (triple_lift R (Throw e) Q _); discriminate
  | |- triple ?R undef ?Q => refine (triple_lift R Undef Q _); discriminate
  | |- triple ?R (gets ?f) (fun _ => True) => exact (triple_gets R f _ (fun _ => I))
  | |- triple ?R (sys_get ?f) (fun _ => True) => exact (triple_gets R (fun w => f (w_sys w)) _ (fun _ => I))
  | |- triple ?R (mret ?a) (fun _ => True) => exact (triple_ret R a (fun _ => True) I)
  | |- triple ?R (lift (Exited ?n)) ?Q => refine (triple_lift R (Exited n) Q _); discriminate
  | |- triple ?R (mret ?a) ?Q => refine (triple_ret R a Q _); solve [eauto with frame]
  | |- triple _ _ _ => solve [eauto with frame]
  end.

(** Walk along the code, unfolding the functions without a lemma of their own. *)
Ltac frame_go := repeat (triple_step || (progress triple_unfold; cbn beta iota)).
