(* ===== verification/MemPlatform.v ===== *)
(** * A platform in memory

    A concrete instance of [Platform]: files are a map from paths to contents,
    directories a list of paths, paths are normalised already, and the calls into
    the libraries are logged.  The examples that show that the hypotheses of the
    theorems can hold, and the counterexamples, run on it. *)

From S2P Require Import Prelude Strings OMap Outcome Json Errors State.
From Stdlib Require Import Ascii.

Record mem_sys := MemSys {
  ms_files : list (string * string);
  ms_dirs : list string;
  ms_env : list (string * string);
  ms_next : Z;                 (** the next process or watcher id *)
  ms_calls : list string;      (** commands and output, oldest first *)
  ms_gui : list gui_call;
  ms_fds : list Z              (** the descriptors of pipes *)
}.
Definition mem0 : mem_sys := MemSys [] ["/app"] [] 1 [] [] [].

Definition set_files (f : list (string * string)) (s : mem_sys) : mem_sys :=
  MemSys f (ms_dirs s) (ms_env s) (ms_next s) (ms_calls s) (ms_gui s) (ms_fds s).
Definition set_dirs (d : list string) (s : mem_sys) : mem_sys :=
  MemSys (ms_files s) d (ms_env s) (ms_next s) (ms_calls s) (ms_gui s) (ms_fds s).
Definition mem_call (c : string) (s : mem_sys) : mem_sys :=
  MemSys (ms_files s) (ms_dirs s) (ms_env s) (ms_next s) (ms_calls s ++ [c]) (ms_gui s) (ms_fds s).
Definition mem_next (s : mem_sys) : Z * mem_sys :=
  (ms_next s, MemSys (ms_files s) (ms_dirs s) (ms_env s) (ms_next s + 1) (ms_calls s) (ms_gui s) (ms_fds s)).

Definition set_fds (f : list Z -> list Z) (s : mem_sys) : mem_sys :=
  MemSys (ms_files s) (ms_dirs s) (ms_env s) (ms_next s) (ms_calls s) (ms_gui s) (f (ms_fds s)).

Definition mem_stat (p : string) (s : mem_sys) : option stat_buf :=
  match omap_get p (ms_files s) with
  | Some d => Some (StatBuf (Z.of_nat (slen d)) KFile 0 0)
  | None => if mem p (ms_dirs s) then Some (StatBuf 4096 KDir 0 0) else None
  end.

Fixpoint after_slash (s : string) (cur : string) : string :=
  match s with
  | EmptyString => cur
  | String c s => after_slash s (if decide (c = "/"%char) then EmptyString else cur +:+ String c EmptyString)
  end.
Definition mem_list (p : string) (recursive : bool) (s : mem_sys) : outcome (list dir_entry) :=
  Ret (omap (fun kv =>
         if starts_with (p +:+ "/") kv.1
         then Some (DirEntry (after_slash kv.1 "") kv.1 KFile) else None) (ms_files s)).

(** every floating-point number is zero *)
Definition mem_floats : FloatLib := {|
  c_strtod _ := SpecFloat.S754_zero false;
  float_to_chars _ := "0.0";
  decimal_point := "."%char
|}.

(** One file system, whose names have at most 255 bytes; it is noon. *)
Definition mem_lstat (p : string) (s : mem_sys) : option lstat_buf :=
  st ← mem_stat p s;
  Some (LstatBuf 1 (match st_kind st with KDir => true | _ => false end)
    (match st_kind st with KFile => true | _ => false end) false true (st_size st) 0).
Definition mem_create (p : string) (s : mem_sys) : create_result * mem_sys :=
  if omap_has p (ms_files s) then (Exists, s) else (Created, set_files (omap_set p "" (ms_files s)) s).
Definition mem_append (p d : string) (s : mem_sys) : mem_sys :=
  set_files (omap_set p (default "" (omap_get p (ms_files s)) +:+ d) (ms_files s)) s.
Definition mem_posix : PosixLib mem_sys := {|
  px_realpath p s := match mem_stat p s with Some _ => Some p | None => None end;
  px_lstat := mem_lstat;
  px_mkdir p _ s := if mem p (ms_dirs s) then (Exists, s) else (Created, set_dirs (p :: ms_dirs s) s);
  px_mtab _ := Some ["/"];
  px_name_max _ _ := Some (Some 255%Z);
  px_readdir p s :=
    if (slen p <? 4096) && mem p (ms_dirs s)
    then Some (omap (fun kv => if starts_with (p +:+ "/") kv.1 then Some (after_slash kv.1 "", false) else None)
                 (ms_files s))
    else None;
  px_fopen_wx := mem_create;
  px_fopen_w p s := (true, set_files (omap_set p "" (ms_files s)) s);
  px_fwrite p d s := (true, mem_append p d s);
  px_rename a b s :=
    match omap_get a (ms_files s) with
    | Some d => (true, set_files (omap_set b d (omap_del a (ms_files s))) s)
    | None => (false, s)
    end;
  px_remove p s := (omap_has p (ms_files s), set_files (omap_del p (ms_files s)) s);
  px_getrandom n s := (Some (replicate n "A"%char), s);
  px_time _ := 0%Z;
  px_localtime _ _ := Some (Tm 124 0 2 12 0 0)
|}.

Fixpoint remove_one (fd : Z) (l : list Z) : list Z :=
  match l with
  | [] => []
  | x :: l => if decide (x = fd) then l else x :: remove_one fd l
  end.
(** Descriptors and pids are numbered.  Every command ends at once, with a given output
    and status; in [demo] it prints nothing. *)
Definition mem_proc_of (turns : list (poll_event * poll_event)) (status : Z) : ProcLib mem_sys := {|
  pl_pipe s := let '(r, s) := mem_next s in let '(w, s) := mem_next s in (Some (r, w), set_fds (fun l => r :: w :: l) s);
  pl_fork im s := let '(p, s) := mem_next (mem_call (List.last (im_argv im) "") s) in (Z.max 1 p, s);
  pl_close fd s := set_fds (remove_one fd) s;
  pl_write _ bytes s := (true, mem_call bytes s);
  pl_kill _ _ s := s;
  pl_waitpid _ s := (WaitStatus status, s);
  pl_polls _ _ s := (turns, s)
|}.
Definition mem_proc : ProcLib mem_sys := mem_proc_of [(PollEvent None true, PollEvent None true)] 0.

(** A directory is watched under the number of its place; nobody is root. *)
Fixpoint dir_number (p : string) (l : list string) : Z :=
  match l with [] => 0 | q :: l => if decide (p = q) then Z.of_nat (S (length l)) else dir_number p l end.
Definition without_slash (p : string) : string :=
  if (1 <? slen p) && bool_decide (sback p = Some "/"%char) then spop_back p else p.
Definition mem_inode (p : string) (s : mem_sys) : option inode_stat :=
  let q := without_slash p in
  if 4096 <=? slen p then None
  else match mem_stat q s with
       | Some st => Some (InodeStat (match st_kind st with KDir => 16877 | _ => 33188 end) 1 (dir_number q (ms_dirs s)))
       | None => None
       end.
Definition mem_inotify : InotifyLib mem_sys := {|
  in_init s := (3%Z, s);
  in_add_watch _ p s :=
    (if mem (without_slash p) (ms_dirs s) then WatchAdded (dir_number (without_slash p) (ms_dirs s))
     else WatchNoEntry, s);
  in_rm_watch _ _ s := s;
  in_stat := mem_inode;
  in_lstat := mem_inode;
  in_realpath p _ := Some (c_str p);
  in_readdir p s :=
    if mem (without_slash p) (ms_dirs s)
    then Some (omap (fun q => if starts_with p q && negb (contains_char "/" (sdrop (slen p) q))
                                 && negb (contains_char "000" (sdrop (slen p) q)) && negb (isempty (sdrop (slen p) q))
                              then Some (sdrop (slen p) q) else None) ((ms_files s).*1 ++ ms_dirs s))
    else None;
  in_statfs _ _ := 61267%Z;
  in_chdir _ s := (true, s);
  in_getcwd _ := Some "/app";
  in_mntent _ := Some [];
  in_address := Z.of_nat
|}.

(** A program of /usr/bin prints what its file holds; the shell runs [which]. *)
Definition mem_exec (c : list string) (s : mem_sys) : option child * mem_sys :=
  let found p := omap_get ("/usr/bin/" +:+ p) (ms_files s) in
  let reply := match c with
               | "/bin/sh" :: _ :: cmd :: _ => Child [] (if found (sdrop 6 cmd) then 0 else 256)
               | p :: _ => match found p with Some out => Child [out] 0 | None => Child [] 256 end
               | [] => Child [] 256
               end in
  (Some reply, mem_call (default "" (head c)) s).

Definition demo_with (proc : ProcLib mem_sys) : Platform := {|
  sys := mem_sys;
  sys_read p s := omap_get p (ms_files s);
  sys_write p d app s :=
    Some (set_files (omap_set p ((if app then default "" (omap_get p (ms_files s)) else "") +:+ d) (ms_files s)) s);
  sys_stat := mem_stat;
  sys_list := mem_list;
  sys_create_directories p s :=
    (Ret (negb (mem p (ms_dirs s))), if mem p (ms_dirs s) then s else set_dirs (p :: ms_dirs s) s);
  sys_remove p s := (Ret (omap_has p (ms_files s)), set_files (omap_del p (ms_files s)) s);
  sys_remove_all p s :=
    (Ret (if omap_has p (ms_files s) || mem p (ms_dirs s) then 1%Z else 0%Z),
     set_dirs (filter (fun d => d <> p) (ms_dirs s))
       (set_files (filter (fun kv => kv.1 <> p /\ starts_with (p +:+ "/") kv.1 = false) (ms_files s)) s));
  sys_copy a b _ s :=
    match omap_get a (ms_files s) with
    | Some d => (false, set_files (omap_set b d (ms_files s)) s)
    | None => (true, s)
    end;
  sys_rename a b s :=
    match omap_get a (ms_files s) with
    | Some d => (false, set_files (omap_set b d (omap_del a (ms_files s))) s)
    | None => (true, s)
    end;
  sys_permissions p _ _ s := (negb (omap_has p (ms_files s)), s);
  sys_perms p s := if omap_has p (ms_files s) then Ret 420%Z else Throw FilesystemError;
  sys_access p _ s := if omap_has p (ms_files s) then 0%Z else (-1)%Z;
  sys_chmod p _ s := (if omap_has p (ms_files s) then 0%Z else (-1)%Z, s);
  sys_chown p _ _ s := (if omap_has p (ms_files s) then 0%Z else (-1)%Z, s);
  sys_weakly_canonical p _ := Ret p;
  sys_absolute p _ := Ret p;
  sys_relative p _ _ := Ret p;
  sys_cwd _ := "/app";
  path_join a b := a +:+ "/" +:+ b;
  path_root_name _ := "";
  path_root_directory _ := "/";
  path_root_path _ := "/";
  path_relative_path p := sdrop 1 p;
  path_parent_path _ := "/app";
  path_filename p := after_slash p "";
  path_stem p := after_slash p "";
  path_extension _ := "";
  c_dirname _ := "/app";
  sys_getuid _ := 1000%Z;
  sys_getpwuid_r _ := PwEntry (Some "/home/user");
  sys_getpwuid _ := Some (Some "/home/user");
  sys_temp_directory_path _ := Ret "/tmp";
  sys_getenv k s := omap_get k (ms_env s);
  sys_setenv k v s :=
    (true, MemSys (ms_files s) (ms_dirs s) (omap_set k v (ms_env s)) (ms_next s) (ms_calls s) (ms_gui s) (ms_fds s));
  sys_random n s :=
    let '(z, s) := mem_next s in (Nat.modulo (Z.to_nat z) n, s);
  sys_timestamp _ := "2024-01-01T00:00:00";
  platform_inotify := mem_inotify;
  fw_addWatch p s := if mem p (ms_dirs s) then mem_next s else (-1, s)%Z;
  fw_removeWatch _ s := s;
  embedded_resource := None;
  postject_has_resource := false;
  ws_can_send _ _ := true;
  ws_listen _ p _ := Some (if decide (p = 0%Z) then 5000%Z else p);
  platform_floats := mem_floats;
  NEU_VERSION := "6.0.0";
  NEU_COMMIT := "dev";
  NEU_COMPILATION_DATA := "";
  cpu_arch := "x64";
  process_id := 42;
  sys_setlocale _ := Some "C";
  sys_environ s := (fun kv => kv.1 +:+ "=" +:+ kv.2) <$> ms_env s;
  platform_proc := proc;
  sys_getline s := (None, s);
  sys_stdout := mem_call;
  sys_stderr := mem_call;
  sys_fork_exec := mem_exec;
  gtk_init_check _ := true;
  sys_dlopen n _ := bool_decide (n = "libayatana-appindicator3.so.1");
  platform_posix := mem_posix;
  gui c s := MemSys (ms_files s) (ms_dirs s) (ms_env s) (ms_next s) (ms_calls s) (ms_gui s ++ [c]) (ms_fds s);
  webview_init_code _ := 0%Z;
  webview_title _ := "title";
  gtk_is_maximized _ := false;
  gtk_is_visible _ := true;
  gtk_window_size _ := (800, 600)%Z;
  gtk_root_origin _ := (10, 20)%Z;
  gtk_workarea _ := (1920, 1080)%Z;
  gtk_scale_factor _ := 1%Z;
  gtk_mouse_position _ := (0, 0)%Z;
  gtk_snapshot _ s := (true, s)
|}.

Definition demo : Platform := demo_with mem_proc.

(** the state of the program before [main], on a given platform state *)
Section world.
Context `{Platform}.

Definition settings0 : SettingsState :=
  {| options := JObj []; globalArgs := JNull; appPath := "/app"; systemDataPath := "";
     appDataPath := "/app"; configFile := "/neutralino.config.json"; localeName := "";
     configOverrides := [] |}.
Definition resources0 : ResourcesState :=
  {| fileTree := JNull; asarHeaderSize := 0; res_mode := ResourceModeEmbedded |}.
Definition auth0 : AuthState :=
  {| token := ""; connectToken := ""; tokenSecurity := TokenSecurityOneTime; tokenSent := false |}.
Definition perm0 : PermissionState :=
  {| blockedMethods := []; blockedModules := []; allowedMethods := []; allowedModules := [];
     allowedCommandPatterns := []; fileSystemReadScopes := []; fileSystemWriteScopes := [];
     shouldCheckBlockList := false; shouldCheckAllowList := false;
     shouldCheckCommandAllowList := false; shouldCheckScopesLists := false |}.
Definition server0 : ServerState :=
  {| appConnections := []; extConnections := []; wsMode := []; srv_initialized := false;
     applyConfigHeaders := false; sent := []; idleChecks := 0; listening := false |}.
Definition fs0 : FsState := {| openedFiles := []; fileWatcher := None; watchListeners := [];
     listeners := []; nextListener := 0 |}.
Definition os0 : OsState :=
  {| spawnedProcesses := []; nextVirtualPid := 0; trayInitialized := false;
     useOtherTempTrayIcon := true; tray_menus := replicate 50 no_tray_menu; tray_icon := None;
     loop_result := 0 |}.
Definition ext0 : ExtState := {| loadedExtensions := []; ext_initialized := false |}.
Definition size0 : SizeOptions :=
  {| width := -1; height := -1; minWidth := -1; minHeight := -1; maxWidth := -1; maxHeight := -1;
     resizable := true |}.
Definition window0 : WindowState :=
  {| windowProps :=
       {| sizeOptions := size0; fullScreen := false; alwaysOnTop := false; enableInspector := false;
          openInspectorOnStartup := true; borderless := false; win_maximize := false; hidden := false;
          win_center := false; transparent := false; exitProcessOnClose := true; useSavedState := true;
          injectGlobals := false; injectClientLibrary := false; useLogicalPixels := false;
          skipTaskbar := false; emitDropEvents := false; webviewArgs := ""; win_title := "Neutralinojs";
          win_url := "https://neutralino.js.org"; win_icon := ""; extendUserAgentWith := "";
          injectScript := ""; win_x := 0; win_y := 0; newWindowPolicy := NewWindowPolicySystem |};
     savedState := false; nativeWindow := false; isGtkWindowFullScreen := false;
     isGtkWindowMinimized := false; dispatched := 0 |}.
Definition pfd0 : pfd_flags := PfdFlags false false false false false false.
Definition world0 (y : sys) : World :=
  MkWorld _ settings0 resources0 auth0 perm0 [] server0 fs0 os0 ext0 window0 "" pfd0 [] y.
End world.

Definition demo_world : World (H := demo) := world0 (H := demo) mem0.
