(* ===== verification/Tray.v ===== *)
(** * The tray menu: the Linux branch of lib/tray/tray.h

    The library is a header that is compiled with the program.  A menu is an array
    that ends with an entry without text; setTray gives no entry a submenu, so
    [tray_menu] has none. *)

From S2P Require Import Prelude Strings OMap Outcome Json Errors State.

Module tray.

(** The entries up to the first without text; walking past the end of the array is
    undefined. *)
Fixpoint _tray_menu (m : list tray_menu) : outcome (list tray_widget) :=
  match m with
  | [] => Undef
  | e :: m =>
      match ti_text e with
      | None => Ret []
      | Some text =>
          let item := if decide (text = "-") then TraySeparator
                      else if ti_checked e then TrayCheckItem e else TrayItem e in
          menu ← _tray_menu m; Ret (item :: menu)
      end
  end.

Definition dlib_names : list string :=
  ["libappindicator3.so"; "libappindicator3.so.1"; "libayatana-appindicator3.so";
   "libayatana-appindicator3.so.1"].

Section tray.
Context `{Platform}.

Definition indicator_do (c : gui_call) : M unit := sys_call (fun y => (tt, gui c y)).

Definition load_app_indicator : M Z :=
  dlib ← sys_get (fun y => find_first (fun n => sys_dlopen n y) dlib_names);
  mret (match dlib with None => -1 | Some _ => 0 end)%Z.

Definition tray_update (menus : list tray_menu) (icon : option string) : M unit :=
  indicator_do (IndicatorIcon icon) ;;
  menu ← lift (_tray_menu menus);
  indicator_do (IndicatorMenu menu).

Definition tray_init (menus : list tray_menu) (icon : option string) : M Z :=
  ok ← sys_get gtk_init_check;
  if negb ok then mret (-1)%Z else
  rc ← load_app_indicator;
  if decide (rc <> 0%Z) then mret (-1)%Z else
  indicator_do (IndicatorNew icon) ;;
  indicator_do IndicatorActive ;;
  tray_update menus icon ;;
  mret 0%Z.

Definition set_loop_result (z : Z) (s : OsState) : OsState :=
  {| spawnedProcesses := spawnedProcesses s; nextVirtualPid := nextVirtualPid s;
     trayInitialized := trayInitialized s; useOtherTempTrayIcon := useOtherTempTrayIcon s;
     tray_menus := tray_menus s; tray_icon := tray_icon s; loop_result := z |}.
Definition tray_exit : M unit := modify (upd_os (set_loop_result (-1))).
End tray.
End tray.
