(* ===== verification/Trash.v ===== *)
(** * The trash can: the Linux branch of lib/trashcan/trashcan.c

    The functions return 0 or a negative status; here a result is a [bool] or an
    [option], and the statuses of [trashcan_soft_delete] are numbers.  Running out
    of memory is not modelled, but for requests of more than [PTRDIFF_MAX] bytes.
    A path is a C string, without NUL. *)

From S2P Require Import Prelude Strings OMap Outcome Json Errors State.
From Stdlib Require Import Ascii.

(** the loop that runs [step] at most [n] times, until it has a result *)
Section until.
Context `{Platform} {A B : Type} (step : A -> M (A + B)).

Definition then_until (m : M (A + B)) (k : A -> M (A + B)) : M (A + B) :=
  r ← m; match r with inl a => k a | inr b => mret (inr b) end.
Fixpoint until (n : positive) (a : A) : M (A + B) :=
  match n with
  | xH => step a
  | xO n => then_until (until n a) (until n)
  | xI n => then_until (then_until (step a) (until n)) (until n)
  end.
End until.

Module trashcan.

Definition LIBTRASHCAN_SUCCESS : Z := 0.
Definition LIBTRASHCAN_REALPATH : Z := -1.
Definition LIBTRASHCAN_HOMETRASH : Z := -2.
Definition LIBTRASHCAN_HOMESTAT : Z := -3.
Definition LIBTRASHCAN_PATHSTAT : Z := -4.
Definition LIBTRASHCAN_MKDIRHOME : Z := -5.
Definition LIBTRASHCAN_TOPDIRTRASH : Z := -6.
Definition LIBTRASHCAN_NAME : Z := -7.
Definition LIBTRASHCAN_TIME : Z := -8.
Definition LIBTRASHCAN_FILENAMES : Z := -9.
Definition LIBTRASHCAN_TRASHINFO : Z := -10.
Definition LIBTRASHCAN_RENAME : Z := -11.
Definition LIBTRASHCAN_COLLISION : Z := -12.
Definition LIBTRASHCAN_DIRCACHE : Z := -13.

(** ** Text *)

Definition is_unreserved (c : ascii) : bool :=
  in_range "a" "z" c || in_range "A" "Z" c || in_range "0" "9" c ||
  mem c ["-"; "_"; "."; "!"; "~"; "*"; "'"; "("; ")"]%char.

Definition hex_digit (upper : bool) (n : N) : ascii :=
  ascii_of_N (if (n <? 10)%N then 48 + n else (if upper then 55 else 87) + n)%N.
(** "%02hhX" *)
Definition hex_byte (c : ascii) : string :=
  of_list [hex_digit true (code c / 16); hex_digit true (code c mod 16)].
(** "%x" of an [unsigned int], which has at most eight digits *)
Fixpoint hex_go (fuel : nat) (n : N) (acc : string) : string :=
  match fuel with
  | 0 => acc
  | S fuel =>
      let acc := String (hex_digit false (n mod 16)) acc in
      if (n <? 16)%N then acc else hex_go fuel (n / 16) acc
  end.
Definition hex (z : Z) : string := hex_go 8 (Z.to_N z) EmptyString.

Fixpoint escape_path (str : string) : string :=
  match str with
  | EmptyString => EmptyString
  | String c str =>
      (if is_unreserved c || bool_decide (c = "/"%char) then String c EmptyString
       else "%" +:+ hex_byte c) +:+ escape_path str
  end.

Definition two (z : Z) : string := if (z <? 10)%Z then "0" +:+ to_string z else to_string z.
(** [strftime] with "%FT%T" and "%Y%m%d%H%M%S".  A buffer that is too small has no
    defined contents; those of the source hold a year of four digits. *)
Definition date_of (t : tm) (dash colon sep : string) : outcome string :=
  let year := (tm_year t + 1900)%Z in
  if (1000 <=? year)%Z && (year <=? 9999)%Z then
    Ret (to_string year +:+ dash +:+ two (tm_mon t + 1) +:+ dash +:+ two (tm_mday t) +:+ sep +:+
         two (tm_hour t) +:+ colon +:+ two (tm_min t) +:+ colon +:+ two (tm_sec t))
  else Undef.
Definition timestamp (t : tm) : outcome string := date_of t "-" ":" "T".
Definition timestamp_name (t : tm) : outcome string := date_of t "" "" "".

Definition newline : string := String "010" EmptyString.
Definition trashinfo (original_filepath timestamp : string) : string :=
  "[Trash Info]" +:+ newline +:+ "Path=" +:+ escape_path original_filepath +:+ newline +:+
  "DeletionDate=" +:+ timestamp +:+ newline.

(** what follows the last slash; [None] when there is none *)
Fixpoint strrchr_slash (s : string) : option string :=
  match s with
  | EmptyString => None
  | String c s =>
      match strrchr_slash s with
      | Some r => Some r
      | None => if decide (c = "/"%char) then Some s else None
      end
  end.

(** the truncations of a path before its slashes, but for the first character *)
Fixpoint truncations (done rest : string) : list string :=
  match rest with
  | EmptyString => []
  | String c rest =>
      (if decide (c = "/"%char) then [done] else []) ++ truncations (done +:+ String c EmptyString) rest
  end.

(** the home trash or a trash of another file system *)
Record trash_dirs := { trash_dir : string; trash_info_dir : string; trash_files_dir : string }.
Definition dirs_of (dir : string) : trash_dirs :=
  {| trash_dir := dir; trash_info_dir := dir +:+ "/info"; trash_files_dir := dir +:+ "/files" |}.

Section trashcan.
Context `{Platform}.

(** ** Directories *)

(** the data directory, and the trash in it *)
Definition get_home_trash_dir : M (option (string * trash_dirs)) :=
  xdg_data_home ← sys_get (sys_getenv "XDG_DATA_HOME");
  match xdg_data_home with
  | None =>
      home ← sys_get (sys_getenv "HOME");
      match home with
      | None => mret None
      | Some home =>
          let home := if decide (home = "/") then "" else home in
          mret (Some (home +:+ "/.local/share", dirs_of (home +:+ "/.local/share/Trash")))
      end
  | Some xdg =>
      let xdg := if decide (xdg = "/") then "" else xdg in
      mret (Some (xdg, dirs_of (xdg +:+ "/Trash")))
  end.

Fixpoint find_mount (device : Z) (mounts : list string) : M (option string) :=
  match mounts with
  | [] => mret None
  | mnt_dir :: mounts =>
      mnt_stat ← sys_get (px_lstat mnt_dir);
      match mnt_stat with
      | None => mret None
      | Some st => if decide (device = ls_dev st) then mret (Some mnt_dir) else find_mount device mounts
      end
  end.
Definition get_mountpoint (device : Z) : M (option string) :=
  mtab ← sys_get px_mtab;
  match mtab with
  | None => mret None
  | Some mounts => find_mount device mounts
  end.

(** [case_num] is 1 or 2 *)
Definition get_top_trash_dir (case_num : nat) (device : Z) : M (option trash_dirs) :=
  mount_dir ← get_mountpoint device;
  match mount_dir with
  | None => mret None
  | Some mount_dir =>
      uid ← sys_get sys_getuid;
      mret (Some (dirs_of (mount_dir +:+ (if case_num =? 1 then "/.Trash/" else "/.Trash-") +:+ to_string uid)))
  end.

Definition S_IRWXU : Z := 448.

Fixpoint mkdirs (paths : list string) (mode : Z) : M bool :=
  match paths with
  | [] => mret true
  | p :: paths =>
      r ← sys_call (px_mkdir p mode);
      match r with CreateError => mret false | _ => mkdirs paths mode end
  end.
Definition mkdir_recursive (path : string) (mode : Z) : M bool :=
  match path with
  | EmptyString => mret false
  | String c rest => mkdirs (truncations (String c EmptyString) rest ++ [path]) mode
  end.

Definition create_trash_dir (d : trash_dirs) (mode : Z) : M bool :=
  ok ← mkdir_recursive (trash_info_dir d) mode;
  if negb ok then mret false else mkdir_recursive (trash_files_dir d) mode.

(** ** Files *)

Inductive info_result := InfoDone | InfoCollision | InfoError.

Definition create_info_file (trashinfo_filepath original_filepath : string) (timeinfo : tm) : M info_result :=
  timestamp ← lift (timestamp timeinfo);
  r ← sys_call (px_fopen_wx trashinfo_filepath);
  match r with
  | CreateError => mret InfoError
  | Exists => mret InfoCollision
  | Created =>
      ok ← sys_call (px_fwrite trashinfo_filepath (trashinfo original_filepath timestamp));
      mret (if (ok : bool) then InfoDone else InfoError)
  end.

(** [malloc] refuses more than [PTRDIFF_MAX] bytes; bytes that [getrandom] does not
    write are indeterminate. *)
Definition generate_random_filename (filename_length : Z) : M (option string) :=
  if negb (filename_length mod 2 =? 0)%Z then mret None else
  if (2 ^ 63 <=? filename_length)%Z then mret None else
  let num_bytes := Z.to_nat (filename_length / 2) in
  buf ← sys_call (px_getrandom num_bytes);
  match buf with
  | None => mret None
  | Some buf =>
      if length buf <? num_bytes then undef
      else mret (Some (foldr (fun c r => hex_byte c +:+ r) EmptyString (take num_bytes buf)))
  end.

(** the names of the .trashinfo file and of the trashed file *)
Definition generate_filenames (original_name : string) (d : trash_dirs) (timeinfo : tm) (counter : Z)
    (enforce_random_name : bool) : M (option (string * string)) :=
  timestamp_name ← lift (timestamp_name timeinfo);
  let counter_str := hex counter in
  name_max ← sys_get (px_name_max (trash_files_dir d));
  match name_max with
  | None => mret None
  | Some limit =>
      let name_max := default (-1)%Z limit in
      let chars_left :=
        if decide (limit = None) then 0%Z
        else (name_max - Z.of_nat (slen timestamp_name + slen original_name + slen counter_str +
                                   slen ".trashinfo"))%Z in
      if (0 <? chars_left)%Z && negb enforce_random_name then
        let name := original_name +:+ timestamp_name +:+ counter_str in
        mret (Some (trash_info_dir d +:+ "/" +:+ name +:+ ".trashinfo", trash_files_dir d +:+ "/" +:+ name))
      else
        filename ← generate_random_filename (wrapU 64 (name_max - Z.of_nat (slen ".trashinfo")));
        match filename with
        | None => mret None
        | Some name =>
            mret (Some (trash_info_dir d +:+ "/" +:+ name +:+ ".trashinfo", trash_files_dir d +:+ "/" +:+ name))
        end
  end.

(** ** The cache of directory sizes *)

Section dir_size.
Context (get_dir_size : string -> Z -> M (option Z)).
Fixpoint add_entries (base_dir : string) (entries : list (string * bool)) (dir_size : Z) : M (option Z) :=
  match entries with
  | [] => mret (Some dir_size)
  | (d_name, _) :: entries =>
      if mem d_name ["."; ".."] then add_entries base_dir entries dir_size else
      let current_entry := base_dir +:+ "/" +:+ d_name in
      file_stat ← sys_get (px_lstat current_entry);
      match file_stat with
      | None => mret None
      | Some st =>
          if ls_isdir st then
            r ← get_dir_size current_entry dir_size;
            match r with Some dir_size => add_entries base_dir entries dir_size | None => mret None end
          else add_entries base_dir entries (if ls_isreg st then wrapU 64 (dir_size + ls_size st) else dir_size)
      end
  end.
End dir_size.

(** The kernel opens no path of [PATH_MAX] bytes, and each level adds two. *)
Definition PATH_MAX : nat := 4096.
Fixpoint get_dir_size (fuel : nat) (base_dir : string) (dir_size : Z) : M (option Z) :=
  match fuel with
  | 0 => lift NoFuel
  | S fuel =>
      directory ← sys_get (px_readdir base_dir);
      match directory with
      | None => mret None
      | Some entries => add_entries (get_dir_size fuel) base_dir entries dir_size
      end
  end.

Fixpoint write_sizes (d : trash_dirs) (temp : string) (entries : list (string * bool)) : M bool :=
  match entries with
  | [] => mret true
  | (d_name, is_dir) :: entries =>
      if mem d_name ["."; ".."] || negb is_dir then write_sizes d temp entries else
      dir_size ← get_dir_size PATH_MAX (trash_files_dir d +:+ "/" +:+ d_name) 0;
      match dir_size with
      | None => mret false
      | Some dir_size =>
          trashinfo_stat ← sys_get (px_lstat (trash_info_dir d +:+ "/" +:+ d_name +:+ ".trashinfo"));
          match trashinfo_stat with
          | None => write_sizes d temp entries
          | Some st =>
              ok ← sys_call (px_fwrite temp (to_string dir_size +:+ " " +:+ to_string (ls_mtime st) +:+ " " +:+
                                             d_name +:+ newline));
              if negb ok then mret false else write_sizes d temp entries
          end
      end
  end.

Definition POSIX_NAME_MAX : Z := 14.

Definition create_or_update_dir_size_cache (d : trash_dirs) : M bool :=
  temp_name ← generate_random_filename POSIX_NAME_MAX;
  match temp_name with
  | None => mret false
  | Some temp_name =>
      let dir_size_cache := trash_dir d +:+ "/directorysizes" in
      let dir_size_cache_temp := trash_dir d +:+ "/" +:+ temp_name in
      opened ← sys_call (px_fopen_w dir_size_cache_temp);
      if negb opened then mret false else
      directory ← sys_get (px_readdir (trash_files_dir d));
      match directory with
      | None => mret false
      | Some entries =>
          ok ← write_sizes d dir_size_cache_temp entries;
          if negb ok then mret false else
          renamed ← sys_call (px_rename dir_size_cache_temp dir_size_cache);
          if (renamed : bool) then mret true
          else _ ← sys_call (px_remove dir_size_cache_temp); mret false
      end
  end.

(** ** The deletion *)

(** the trash of another file system: the shared one, or the user's own *)
Definition top_trash (device : Z) : M (Z + trash_dirs) :=
  d1 ← get_top_trash_dir 1 device;
  match d1 with
  | None => mret (inl LIBTRASHCAN_TOPDIRTRASH)
  | Some d1 =>
      trash_stat ← sys_get (px_lstat (trash_dir d1));
      usable ← (match trash_stat with
                | None => mret false
                | Some st =>
                    if negb (ls_isvtx st) || ls_islnk st then mret false else create_trash_dir d1 S_IRWXU
                end);
      if (usable : bool) then mret (inr d1) else
      d2 ← get_top_trash_dir 2 device;
      match d2 with
      | None => mret (inl LIBTRASHCAN_TOPDIRTRASH)
      | Some d2 =>
          ok ← create_trash_dir d2 S_IRWXU;
          mret (if (ok : bool) then inr d2 else inl LIBTRASHCAN_MKDIRHOME)
      end
  end.

(** one turn of the loop: the next counter and [enforce_random_name], or the status *)
Definition delete_turn (resolved_path name : string) (d : trash_dirs) (timeinfo : tm) (s : Z * bool)
    : M ((Z * bool) + Z) :=
  let '(counter, enforce_random_name) := s in
  names ← generate_filenames name d timeinfo counter enforce_random_name;
  match names with
  | None => mret (inr LIBTRASHCAN_FILENAMES)
  | Some (trash_info_file, trashed_file) =>
      status_info ← create_info_file trash_info_file resolved_path timeinfo;
      match status_info with
      | InfoDone =>
          renamed ← sys_call (px_rename resolved_path trashed_file);
          if negb renamed then
            _ ← sys_call (px_remove trash_info_file); mret (inr LIBTRASHCAN_RENAME)
          else
            ok ← create_or_update_dir_size_cache d;
            mret (inr (if (ok : bool) then LIBTRASHCAN_SUCCESS else LIBTRASHCAN_DIRCACHE))
      | InfoCollision =>
          let counter := wrapU 32 (counter + 1) in
          if enforce_random_name then mret (inr LIBTRASHCAN_COLLISION)
          else mret (inl (counter, bool_decide (counter = 0%Z)))
      | InfoError => mret (inr LIBTRASHCAN_TRASHINFO)
      end
  end.

(** A counter of 32 bits wraps once, and one turn with a random name follows. *)
Definition delete_loop (resolved_path name : string) (d : trash_dirs) (timeinfo : tm) : M Z :=
  r ← until (delete_turn resolved_path name d timeinfo) 4294967297 (0%Z, false);
  match r with
  | inr status => mret status
  | inl _ => lift NoFuel
  end.

(** the directories that are used *)
Definition choose_trash (data_home resolved_path : string) (home : trash_dirs) : M (Z + trash_dirs) :=
  ok ← mkdir_recursive data_home S_IRWXU;
  if negb ok then mret (inl LIBTRASHCAN_MKDIRHOME) else
  trash_stat ← sys_get (px_lstat data_home);
  match trash_stat with
  | None => mret (inl LIBTRASHCAN_HOMESTAT)
  | Some trash_stat =>
      path_stat ← sys_get (px_lstat resolved_path);
      match path_stat with
      | None => mret (inl LIBTRASHCAN_PATHSTAT)
      | Some path_stat =>
          if decide (ls_dev trash_stat = ls_dev path_stat) then
            ok ← create_trash_dir home S_IRWXU;
            mret (if (ok : bool) then inr home else inl LIBTRASHCAN_MKDIRHOME)
          else top_trash (ls_dev path_stat)
      end
  end.

Definition trashcan_soft_delete (path : string) : M Z :=
  resolved_path ← sys_get (px_realpath path);
  match resolved_path with
  | None => mret LIBTRASHCAN_REALPATH
  | Some resolved_path =>
      home ← get_home_trash_dir;
      match home with
      | None => mret LIBTRASHCAN_HOMETRASH
      | Some (data_home, home) =>
          dirs ← choose_trash data_home resolved_path home;
          match dirs with
          | inl status => mret status
          | inr d =>
              match strrchr_slash resolved_path with
              | None => mret LIBTRASHCAN_NAME
              | Some name =>
                  rawtime ← sys_get px_time;
                  if decide (rawtime = -1)%Z then mret LIBTRASHCAN_TIME else
                  timeinfo ← sys_get (px_localtime rawtime);
                  match timeinfo with
                  | None => undef
                  | Some timeinfo => delete_loop resolved_path name d timeinfo
                  end
              end
          end
      end
  end.
End trashcan.
End trashcan.
