(* ===== verification/Dialogs.v ===== *)
(** * Dialogs: the Linux branch of lib/filedialogs/portable-file-dialogs.h

    A dialog is a child process: zenity (or one of its forks) or kdialog, whose
    output and exit status are the user's answer.  The library is a header that is
    compiled with the program.  The time between two polls of a child is not
    modelled.  [waitpid] answers ECHILD only where SIGCHLD is ignored, which the program
    does not do, so that the wait status is always set. *)

From S2P Require Import Prelude Strings OMap Outcome Json Errors State.
From Stdlib Require Import Ascii.

Inductive pfd_icon := PfdInfo | PfdWarning | PfdError | PfdQuestion.
Inductive pfd_choice :=
| PfdOk | PfdOkCancel | PfdYesNo | PfdYesNoCancel | PfdRetryCancel | PfdAbortRetryIgnore.
Inductive pfd_button :=
| BtnCancel | BtnOk | BtnYes | BtnNo | BtnAbort | BtnRetry | BtnIgnore.
#[export] Instance pfd_icon_eq_dec : EqDecision pfd_icon.
Proof. solve_decision. Defined.
#[export] Instance pfd_choice_eq_dec : EqDecision pfd_choice.
Proof. solve_decision. Defined.
#[export] Instance pfd_button_eq_dec : EqDecision pfd_button.
Proof. solve_decision. Defined.

Module pfd.

(** ** Options and text *)

(** [enum class opt : uint8_t] *)
Definition opt_none : Z := 0.
Definition opt_multiselect : Z := 1.
Definition opt_force_overwrite : Z := 2.
Definition opt_has (a b : Z) : bool := negb (Z.land a b =? 0)%Z.

Definition newline : string := String "010" EmptyString.
Definition ends_with (str suffix : string) : bool :=
  (slen suffix <=? slen str) && bool_decide (sdrop (slen str - slen suffix) str = suffix).

(** [operator <<] *)
Fixpoint show_command (v : list string) : string :=
  match v with
  | [] => EmptyString
  | [e] => e
  | e :: v => e +:+ " " +:+ show_command v
  end.

(** ** class executor *)

Record executor := Executor {
  m_running : bool; m_stdout : string; m_exit_code : Z; m_child : child
}.
Definition new_executor : executor := Executor false "" (-1) (Child [] 0).

Definition WEXITSTATUS (status : Z) : Z := Z.shiftr (Z.land status 65280) 8.

(** one poll; an empty read is followed by [waitpid] *)
Definition ready (e : executor) : bool * executor :=
  if negb (m_running e) then (true, e) else
  match ch_reads (m_child e) with
  | received :: reads =>
      (false, Executor true (m_stdout e +:+ received) (m_exit_code e) (Child reads (ch_status (m_child e))))
  | [] => (true, Executor false (m_stdout e) (WEXITSTATUS (ch_status (m_child e))) (m_child e))
  end.

(** [while(!ready());] *)
Fixpoint stop_turns (fuel : nat) (e : executor) : outcome executor :=
  match fuel with
  | 0 => NoFuel
  | S fuel => let '(r, e) := ready e in if (r : bool) then Ret e else stop_turns fuel e
  end.
Definition stop (e : executor) : outcome executor := stop_turns (S (length (ch_reads (m_child e)))) e.

(** the output and the exit code *)
Definition result (e : executor) : outcome (string * Z) :=
  e ← stop e; Ret (m_stdout e, m_exit_code e).

Section pfd.
Context `{Platform}.

Definition start_process (command : list string) (e : executor) : M executor :=
  e ← lift (stop e);
  r ← sys_call (sys_fork_exec (c_str <$> command));
  mret match r with
       | None => Executor false "" (-1) (m_child e)
       | Some c => Executor true "" (-1) c
       end.

(** ** class settings *)

Definition flags : M pfd_flags := gets w_pfd.
Definition set_flags (f : pfd_flags -> pfd_flags) : M unit := modify (upd_pfd f).
Definition set_scanned (b : bool) (f : pfd_flags) : pfd_flags :=
  PfdFlags b (is_verbose f) (has_zenity f) (has_matedialog f) (has_qarma f) (has_kdialog f).
Definition set_verbose (b : bool) (f : pfd_flags) : pfd_flags :=
  PfdFlags (is_scanned f) b (has_zenity f) (has_matedialog f) (has_qarma f) (has_kdialog f).
Definition set_zenity (b : bool) (f : pfd_flags) : pfd_flags :=
  PfdFlags (is_scanned f) (is_verbose f) b (has_matedialog f) (has_qarma f) (has_kdialog f).
Definition set_matedialog (b : bool) (f : pfd_flags) : pfd_flags :=
  PfdFlags (is_scanned f) (is_verbose f) (has_zenity f) b (has_qarma f) (has_kdialog f).
Definition set_qarma (b : bool) (f : pfd_flags) : pfd_flags :=
  PfdFlags (is_scanned f) (is_verbose f) (has_zenity f) (has_matedialog f) b (has_kdialog f).
Definition set_kdialog (b : bool) (f : pfd_flags) : pfd_flags :=
  PfdFlags (is_scanned f) (is_verbose f) (has_zenity f) (has_matedialog f) (has_qarma f) b.

Definition getenv (str : string) : M string :=
  v ← sys_get (sys_getenv (c_str str)); mret (default EmptyString v).

Definition check_program (program : string) : M bool :=
  async ← start_process ["/bin/sh"; "-c"; "which " +:+ program] new_executor;
  '(_, exit_code) ← lift (result async);
  mret (exit_code =? 0)%Z.

(** [regex("(|0|no|false)", icase)] *)
Definition match_no (s : string) : bool := mem (smap tolower s) [""; "0"; "no"; "false"].

Definition settings (resync : bool) : M unit :=
  set_flags (fun f => set_scanned (is_scanned f && negb resync) f) ;;
  f ← flags;
  if is_scanned f then mret tt else
  pfd_verbose ← getenv "PFD_VERBOSE";
  (if negb (match_no pfd_verbose) then set_flags (set_verbose true) else mret tt) ;;
  zenity ← check_program "zenity"; set_flags (set_zenity zenity) ;;
  matedialog ← check_program "matedialog"; set_flags (set_matedialog matedialog) ;;
  qarma ← check_program "qarma"; set_flags (set_qarma qarma) ;;
  kdialog ← check_program "kdialog"; set_flags (set_kdialog kdialog) ;;
  (if zenity && kdialog then
     desktop_name ← getenv "XDG_SESSION_DESKTOP";
     if decide (desktop_name = "gnome") then set_flags (set_kdialog false)
     else if decide (desktop_name = "KDE") then set_flags (set_zenity false)
     else mret tt
   else mret tt) ;;
  set_flags (set_scanned true).

Definition is_zenity (f : pfd_flags) : bool := has_zenity f || has_matedialog f || has_qarma f.
Definition is_kdialog (f : pfd_flags) : bool := has_kdialog f.

(** ** class dialog *)

Definition desktop_helper (f : pfd_flags) : list string :=
  [if has_zenity f then "zenity"
   else if has_matedialog f then "matedialog"
   else if has_qarma f then "qarma"
   else if has_kdialog f then "kdialog"
   else "echo"].

Definition get_icon_name (icon : pfd_icon) : string :=
  match icon with
  | PfdWarning => "warning" | PfdError => "error" | PfdQuestion => "question"
  | PfdInfo => "information"
  end.

Definition start_dialog (f : pfd_flags) (command : list string) : M executor :=
  (if is_verbose f
   then sys_call (fun y => (tt, sys_stderr ("pfd: " +:+ show_command command +:+ newline) y))
   else mret tt) ;;
  start_process command new_executor.

(** ** class file_dialog *)

Inductive dialog_type := dialog_open | dialog_save | dialog_folder.
#[export] Instance dialog_type_eq_dec : EqDecision dialog_type.
Proof. solve_decision. Defined.

Definition is_directory (path : string) (y : sys) : bool :=
  match sys_stat (c_str path) y with
  | Some st => match st_kind st with KDir => true | _ => false end
  | None => false
  end.

(** the pairs of a label and its patterns; a label at the end without patterns is left out *)
Fixpoint filter_pairs (filters : list string) : list (string * string) :=
  match filters with
  | name :: patterns :: filters => (name, patterns) :: filter_pairs filters
  | _ => []
  end.

(** an argument that is there under a condition *)
Definition arg_if (b : bool) (arg : string) : list string := if b then [arg] else [].

Definition zenity_file_args (in_type : dialog_type) (title default_path : string) (filters : list string)
    (options : Z) (y : sys) : list string :=
  let filename_arg := "--filename=" +:+ default_path +:+
    (if bool_decide (in_type <> dialog_folder) && negb (ends_with default_path "/") && is_directory default_path y
     then "/" else "") in
  ["--file-selection"; filename_arg; "--title"; title; "--separator=" +:+ newline] ++
  concat ((fun kv => ["--file-filter"; kv.1 +:+ "|" +:+ kv.2]) <$> filter_pairs filters) ++
  arg_if (bool_decide (in_type = dialog_save)) "--save" ++
  arg_if (bool_decide (in_type = dialog_folder)) "--directory" ++
  arg_if (negb (opt_has options opt_force_overwrite)) "--confirm-overwrite" ++
  arg_if (opt_has options opt_multiselect) "--multiple".

Fixpoint kdialog_filter (first : bool) (filters : list (string * string)) : string :=
  match filters with
  | [] => EmptyString
  | (name, patterns) :: filters =>
      (if first then "" else " | ") +:+ name +:+ "(" +:+ patterns +:+ ")" +:+ kdialog_filter false filters
  end.

Definition kdialog_file_args (in_type : dialog_type) (title default_path : string) (filters : list string)
    (options : Z) : list string :=
  [match in_type with
   | dialog_save => "--getsavefilename"
   | dialog_open => "--getopenfilename"
   | dialog_folder => "--getexistingdirectory"
   end] ++
  (if opt_has options opt_multiselect then ["--multiple"; "--separate-output"] else []) ++
  [default_path; kdialog_filter true (filter_pairs filters); "--title"; title].

Definition file_dialog (in_type : dialog_type) (title default_path : string) (filters : list string)
    (options : Z) : M executor :=
  settings false ;;
  f ← flags;
  args ← (if is_zenity f then sys_get (zenity_file_args in_type title default_path filters options)
          else if is_kdialog f then mret (kdialog_file_args in_type title default_path filters options)
          else mret []);
  start_dialog f (desktop_helper f ++ args).

(** a newline at the end, and a slash behind something *)
Fixpoint strip_ends (fuel : nat) (ret : string) : string :=
  match fuel, sback ret with
  | S fuel, Some c =>
      if bool_decide (c = "010"%char) || ((1 <? slen ret) && bool_decide (c = "/"%char))
      then strip_ends fuel (spop_back ret) else ret
  | _, _ => ret
  end.
Definition string_of (ret : string) : string := strip_ends (slen ret) ret.

(** the lines up to the first empty one; text without a newline at the end is lost *)
Fixpoint lines_of (fuel : nat) (result : string) : list string :=
  match fuel, sfind newline result with
  | S fuel, Some (S i) => stake (S i) result :: lines_of fuel (sdrop (S (S i)) result)
  | _, _ => []
  end.
Definition vector_of (result : string) : list string := lines_of (slen result) result.

Definition open_file (title default_path : string) (filters : list string) (options : Z) : M (list string) :=
  async ← file_dialog dialog_open title default_path filters options;
  '(ret, _) ← lift (result async);
  mret (vector_of ret).
Definition save_file (title default_path : string) (filters : list string) (options : Z) : M string :=
  async ← file_dialog dialog_save title default_path filters options;
  '(ret, _) ← lift (result async);
  mret (string_of ret).
Definition select_folder (title default_path : string) (options : Z) : M string :=
  async ← file_dialog dialog_folder title default_path [] options;
  '(ret, _) ← lift (result async);
  mret (string_of ret).

(** ** class notify *)

Definition notify_args (f : pfd_flags) (title message : string) (icon : pfd_icon) : list string :=
  if is_zenity f then
    ["--notification"; "--window-icon"; get_icon_name icon; "--text"; title +:+ newline +:+ message]
  else if is_kdialog f then
    ["--icon"; get_icon_name icon; "--title"; title; "--passivepopup"; message; "5"]
  else [].

(** the destructor waits for the end of the process *)
Definition notify (title message : string) (icon : pfd_icon) : M unit :=
  settings false ;;
  let icon := if decide (icon = PfdQuestion) then PfdInfo else icon in
  f ← flags;
  async ← start_dialog f (desktop_helper f ++ notify_args f title message icon);
  _ ← lift (stop async);
  mret tt.

(** ** class message *)

Definition zenity_message_args (title text : string) (choice : pfd_choice) (icon : pfd_icon) : list string :=
  match choice with
  | PfdOkCancel => ["--question"; "--cancel-label=Cancel"; "--ok-label=OK"]
  | PfdYesNo => ["--question"; "--switch"; "--extra-button=No"; "--extra-button=Yes"]
  | PfdYesNoCancel =>
      ["--question"; "--switch"; "--extra-button=Cancel"; "--extra-button=No"; "--extra-button=Yes"]
  | PfdRetryCancel => ["--question"; "--switch"; "--extra-button=Cancel"; "--extra-button=Retry"]
  | PfdAbortRetryIgnore =>
      ["--question"; "--switch"; "--extra-button=Ignore"; "--extra-button=Abort"; "--extra-button=Retry"]
  | PfdOk => match icon with PfdError => ["--error"] | PfdWarning => ["--warning"] | _ => ["--info"] end
  end ++
  ["--title"; title; "--width=300"; "--height=0"; "--no-markup"; "--text"; text;
   "--icon-name=dialog-" +:+ get_icon_name icon].

Definition kdialog_message_args (title text : string) (choice : pfd_choice) (icon : pfd_icon) : list string :=
  [if decide (choice = PfdOk) then
     match icon with PfdError => "--error" | PfdWarning => "--sorry" | _ => "--msgbox" end
   else "--" +:+ (if bool_decide (icon = PfdWarning) || bool_decide (icon = PfdError) then "warning" else "")
     +:+ "yesno" +:+ (if decide (choice = PfdYesNoCancel) then "cancel" else "");
   text; "--title"; title] ++
  (if decide (choice = PfdOkCancel) then ["--yes-label"; "OK"; "--no-label"; "Cancel"] else []).

(** what exit codes mean, where it is not the default *)
Definition m_mappings (f : pfd_flags) (choice : pfd_choice) : list (Z * pfd_button) :=
  if negb (is_zenity f) && is_kdialog f && bool_decide (choice = PfdYesNo \/ choice = PfdYesNoCancel)
  then [(0, BtnYes); (256, BtnNo)]%Z else [].

Definition button_labels : list (string * pfd_button) :=
  [("Cancel", BtnCancel); ("OK", BtnOk); ("Yes", BtnYes); ("No", BtnNo); ("Abort", BtnAbort);
   ("Retry", BtnRetry); ("Ignore", BtnIgnore)].

Definition button_of (mappings : list (Z * pfd_button)) (ret : string) (exit_code : Z) : pfd_button :=
  match find_first (fun kv => ends_with ret (kv.1 +:+ newline)) button_labels with
  | Some kv => kv.2
  | None =>
      match find_first (fun kv => (kv.1 =? exit_code)%Z) mappings with
      | Some kv => kv.2
      | None => if (exit_code =? 0)%Z then BtnOk else BtnCancel
      end
  end.

Definition message_args (f : pfd_flags) (title text : string) (choice : pfd_choice) (icon : pfd_icon)
    : list string :=
  if is_zenity f then zenity_message_args title text choice icon
  else if is_kdialog f then kdialog_message_args title text choice icon
  else [].

(** the constructor, and a dialog with its result *)
Definition message_start (title text : string) (choice : pfd_choice) (icon : pfd_icon)
    : M (executor * list (Z * pfd_button)) :=
  settings false ;;
  f ← flags;
  async ← start_dialog f (desktop_helper f ++ message_args f title text choice icon);
  mret (async, m_mappings f choice).
Definition message (title text : string) (choice : pfd_choice) (icon : pfd_icon) : M pfd_button :=
  '(async, mappings) ← message_start title text choice icon;
  '(ret, exit_code) ← lift (result async);
  mret (button_of mappings ret exit_code).
(** without a call of [result]: the destructor waits *)
Definition message_box (title text : string) (choice : pfd_choice) (icon : pfd_icon) : M unit :=
  '(async, _) ← message_start title text choice icon;
  _ ← lift (stop async);
  mret tt.
End pfd.
End pfd.
