(* ===== verification/Process.v ===== *)
(** * Child processes: lib/tinyprocess/process_unix.cpp, process.cpp

    The constructor that takes a command; the program has handlers for both outputs
    or for none.  What runs in the child is described by an [exec_image].  The thread
    that reads the output runs when it is joined: its handlers only append, or are
    steps of their own ([ProcessFacts]). *)

From S2P Require Import Prelude Strings OMap Outcome Json Errors State.
From Stdlib Require Import Ascii.

Module tinyprocess.

(** ** The child *)

Definition apostrophe : ascii := "'"%char.
Fixpoint path_escaped (path : string) : string :=
  match path with
  | EmptyString => EmptyString
  | String c path =>
      if decide (c = apostrophe) then "'\''" +:+ path_escaped path else String c (path_escaped path)
  end.
Definition command_c_str (command path : string) : string :=
  if negb (isempty path) then "cd '" +:+ path_escaped path +:+ "' && " +:+ command else command.

(** [environment_type] is an unordered map: the order of the strings is not specified *)
Definition env_strs (environment : list (string * string)) : list string :=
  (fun e => e.1 +:+ "=" +:+ e.2) <$> environment.

Definition child_image (command path : string) (environment : option (list (string * string)))
    (stdin stdout stderr : option Z) : exec_image :=
  {| im_stdin := stdin; im_stdout := stdout; im_stderr := stderr;
     im_argv := ["/bin/sh"; "-c"; c_str (command_c_str command path)];
     im_env := (fun e => c_str <$> env_strs e) <$> environment |}.

(** ** The reading thread *)

(** one entry in a turn: the calls of the handlers, and whether it stays open *)
Definition poll_one (is_stdout is_open : bool) (ev : poll_event) : list (bool * string) * bool :=
  if negb is_open then ([], false) else
  match pv_in ev with
  | Some (ReadData bytes) => ([(is_stdout, bytes)], negb (pv_hup ev))
  | Some ReadError => ([], false)
  | _ => ([], negb (pv_hup ev))
  end.

Fixpoint read_loop (out_open err_open : bool) (turns : list (poll_event * poll_event)) : list (bool * string) :=
  if negb (out_open || err_open) then [] else
  match turns with
  | [] => []
  | (out, err) :: turns =>
      let '(out_calls, out_open) := poll_one true out_open out in
      let '(err_calls, err_open) := poll_one false err_open err in
      out_calls ++ err_calls ++ read_loop out_open err_open turns
  end.

(** ** class Process *)

Definition set_closed (status : Z) (p : Process) : Process :=
  MkProcess (p_id p) status true (p_open_stdin p) (p_reads p) (p_thread p) (p_stdin p) (p_stdout p) (p_stderr p).
Definition no_stdin (p : Process) : Process :=
  MkProcess (p_id p) (p_exit_status p) (p_closed p) (p_open_stdin p) (p_reads p) (p_thread p)
    None (p_stdout p) (p_stderr p).
Definition no_fds (p : Process) : Process :=
  MkProcess (p_id p) (p_exit_status p) (p_closed p) (p_open_stdin p) (p_reads p) false None None None.

Section process.
Context `{Platform}.

Definition pipe : M (option (Z * Z)) := sys_call pl_pipe.
Definition close (fd : Z) : M unit := sys_call (fun y => (tt, pl_close fd y)).
Definition close_end (fd : option Z) : M unit :=
  match fd with Some fd => close fd | None => mret tt end.
Definition close_pipe (p : option (Z * Z)) : M unit := close_end (fst <$> p) ;; close_end (snd <$> p).

(** a pipe that is wanted or not; [None] when it cannot be made *)
Definition pipe_for (wanted : bool) : M (option (option (Z * Z))) :=
  if wanted then p ← pipe; mret (Some <$> p) else mret (Some None).

(** [new fd_type], without a value *)
Definition new_fd (wanted : bool) : option (option Z) := if wanted then Some None else None.

Definition open (command path : string) (environment : option (list (string * string)))
    (open_stdin reads : bool) : M Process :=
  let failed := MkProcess (-1) (-1) true open_stdin reads false
                  (new_fd open_stdin) (new_fd reads) (new_fd reads) in
  r ← pipe_for open_stdin;
  match r with
  | None => mret failed
  | Some stdin_p =>
  r ← pipe_for reads;
  match r with
  | None => close_pipe stdin_p ;; mret failed
  | Some stdout_p =>
  r ← pipe_for reads;
  match r with
  | None => close_pipe stdin_p ;; close_pipe stdout_p ;; mret failed
  | Some stderr_p =>
      pid ← sys_call (pl_fork (child_image command path environment
                                 (fst <$> stdin_p) (snd <$> stdout_p) (snd <$> stderr_p)));
      if (pid <? 0)%Z then
        close_pipe stdin_p ;; close_pipe stdout_p ;; close_pipe stderr_p ;; mret failed
      else
        close_end (fst <$> stdin_p) ;; close_end (snd <$> stdout_p) ;; close_end (snd <$> stderr_p) ;;
        mret (MkProcess pid (-1) false open_stdin reads false
                ((fun q => Some (snd q)) <$> stdin_p) ((fun q => Some (fst q)) <$> stdout_p)
                ((fun q => Some (fst q)) <$> stderr_p))
  end end end.

(** the thread starts *)
Definition async_read (p : Process) : Process :=
  MkProcess (p_id p) (p_exit_status p) (p_closed p) (p_open_stdin p) (p_reads p)
    ((0 <? p_id p)%Z && p_reads p) (p_stdin p) (p_stdout p) (p_stderr p).

(** the constructor *)
Definition Process (command path : string) (environment : option (list (string * string)))
    (open_stdin reads : bool) : M Process :=
  p ← open command path environment open_stdin reads;
  mret (async_read p).

Definition close_fd (p : State.Process) (fd : option (option Z)) : M unit :=
  match fd with
  | None => mret tt
  | Some fd => if (0 <? p_id p)%Z then match fd with Some fd => close fd | None => undef end else mret tt
  end.
Definition close_stdin (p : State.Process) : M State.Process :=
  close_fd p (p_stdin p) ;; mret (no_stdin p).

(** the join gives the calls of the handlers *)
Definition join_thread (p : State.Process) : M (list (bool * string)) :=
  if p_thread p then
    match p_stdout p, p_stderr p with
    | Some (Some out), Some (Some err) => turns ← sys_call (pl_polls out err); mret (read_loop true true turns)
    | _, _ => undef
    end
  else mret [].

Definition close_fds (p : State.Process) : M (list (bool * string) * State.Process) :=
  calls ← join_thread p;
  p ← close_stdin p;
  close_fd p (p_stdout p) ;;
  close_fd p (p_stderr p) ;;
  mret (calls, no_fds p).

Definition get_exit_status (p : State.Process) : M (Z * list (bool * string) * State.Process) :=
  if (p_id p <=? 0)%Z then mret ((-1)%Z, [], p) else
  r ← sys_call (pl_waitpid (p_id p));
  match r with
  | WaitNoChild => mret (p_exit_status p, [], p)
  | WaitStatus exit_status =>
      let exit_status := if (256 <=? exit_status)%Z then Z.shiftr exit_status 8 else exit_status in
      '(calls, p) ← close_fds (set_closed exit_status p);
      mret (exit_status, calls, p)
  end.

Definition write (bytes : string) (p : State.Process) : M bool :=
  if negb (p_open_stdin p) then throw InvalidArgument else
  match p_stdin p with
  | None => mret false
  | Some None => undef
  | Some (Some fd) => sys_call (pl_write fd bytes)
  end.

Definition SIGINT : Z := 2.
Definition kill (p : State.Process) : M unit :=
  if (0 <? p_id p)%Z && negb (p_closed p)
  then sys_call (fun y => (tt, pl_kill (- p_id p) SIGINT y)) else mret tt.
End process.
End tinyprocess.
