(* ===== verification/Efsw.v ===== *)
(** * Watching directories: lib/efsw with its inotify backend

    FileWatcher.cpp, FileWatcherInotify.cpp, WatcherInotify.cpp, EfswFileSystem.cpp and
    what they use of FileInfo.cpp and platform/posix/FileSystemImpl.cpp.  Objects are
    allocated with [new] and freed with [delete]: reading an object that does not exist
    is undefined.  The thread of [run] is a step for each turn of its loop; the locks are
    recursive, and turns and calls do not overlap.  Texts of errors, which nothing reads,
    and debug output are left out. *)

From S2P Require Import Prelude Strings OMap Outcome Json Errors State.
From stdpp Require Import sorting.
From Stdlib Require Import Ascii.

(** class [FileWatchListener]; a listener is a pointer *)
Class FileWatchListener `{Platform} := {
  handleFileAction : nat -> Z -> string -> string -> WatchAction -> string -> M unit
}.

Module efsw.

(** ** Paths *)

Definition slashAtEnd (dir : string) : bool := bool_decide (sback dir = Some "/"%char).
Definition dirAddSlashAtEnd (dir : string) : string :=
  if (1 <? slen dir) && negb (slashAtEnd dir) then dir +:+ "/" else dir.
Definition dirRemoveSlashAtEnd (dir : string) : string :=
  if (1 <? slen dir) && slashAtEnd dir then spop_back dir else dir.

(** the position of the last slash *)
Fixpoint find_last_slash (s : string) : option nat :=
  match s with
  | EmptyString => None
  | String c s =>
      match find_last_slash s with
      | Some i => Some (S i)
      | None => if decide (c = "/"%char) then Some 0 else None
      end
  end.
Definition fileNameFromPath (filepath : string) : string :=
  let filepath := dirRemoveSlashAtEnd filepath in
  match find_last_slash filepath with Some pos => sdrop (S pos) filepath | None => filepath end.
Definition pathRemoveFileName (filepath : string) : string :=
  let filepath := dirRemoveSlashAtEnd filepath in
  match find_last_slash filepath with Some pos => stake (S pos) filepath | None => filepath end.

(** [-1 != String::strStartsWith(start, str)] *)
Definition strStartsWith (start str : string) : bool := negb (isempty start) && starts_with start str.

(** class [Errors::Error] *)
Definition FileNotFound : Z := -1.
Definition FileRepeated : Z := -2.
Definition FileOutOfScope : Z := -3.
Definition FileNotReadable : Z := -4.
Definition FileRemote : Z := -5.
Definition Unspecified : Z := -6.

(** the bits of a mode *)
Definition S_ISDIR (mode : Z) : bool := (Z.land mode 61440 =? 16384)%Z.
Definition S_ISLNK (mode : Z) : bool := (Z.land mode 61440 =? 40960)%Z.
Definition S_ISRDBL (mode : Z) : bool := negb (Z.land mode 256 =? 0)%Z.

(** events *)
Definition IN_MODIFY : Z := 2.
Definition IN_CLOSE_WRITE : Z := 8.
Definition IN_MOVED_FROM : Z := 64.
Definition IN_MOVED_TO : Z := 128.
Definition IN_CREATE : Z := 256.
Definition IN_DELETE : Z := 512.
Definition has_bit (action bit : Z) : bool := negb (Z.land action bit =? 0)%Z.
Record inotify_event := InotifyEvent { ie_wd : Z; ie_mask : Z; ie_cookie : Z; ie_name : string }.

(** the types of remote file systems *)
Definition S_MAGIC_FUSEBLK : Z := 1702057286.
Definition remote_types : list Z :=
  [1397113167; 1635083891; 12805120; 4283649346; 1937076805; 428016422; 1702057283; 18225520; 1196443219;
   1799439955; 198183888; 22092; 26985; 1852207972; 1952539503; 2866260714; 1346981957; 20859;
   3203391149; 3133910204; 2768370933]%Z.

Section efsw.
Context `{Platform}.

(** [Permissions] of a [FileInfo], which takes a slash at the end away; 0 without a file *)
Definition info_mode (r : option inode_stat) : Z := match r with Some st => is_mode st | None => 0%Z end.
Definition getInfo (path : string) (y : sys) : Z := info_mode (in_stat (c_str (dirRemoveSlashAtEnd path)) y).
Definition getRealInfo (path : string) (y : sys) : Z := info_mode (in_lstat (c_str (dirRemoveSlashAtEnd path)) y).
Definition isReadable (mode : Z) (y : sys) : bool := (sys_getuid y =? 0)%Z || S_ISRDBL mode.
(** [FileSystem::isDirectory] *)
Definition isDirectory (path : string) (y : sys) : bool := S_ISDIR (info_mode (in_stat (c_str path) y)).

(** the link that a directory is, with a slash, and where it is; empty when it is none *)
Definition getLinkRealPath (dir : string) (y : sys) : string * string :=
  let dir := dirRemoveSlashAtEnd dir in
  if S_ISLNK (getRealInfo dir y) then
    (dirAddSlashAtEnd (default EmptyString (in_realpath (c_str dir) y)), pathRemoveFileName dir)
  else (EmptyString, EmptyString).
(** without [followSymlinks] and [allowOutOfScopeLinks] *)
Definition linkAllowed (curPath link : string) : bool := strStartsWith curPath link.

(** the entries of a directory with their modes, in the order of their names *)
Definition filesInfoFromPath (path : string) (y : sys) : list (string * Z) :=
  let path := dirAddSlashAtEnd path in
  match in_readdir (c_str path) y with
  | None => []
  | Some names =>
      foldl (fun files name =>
        if mem name ["."; ".."] then files else omap_set name (getInfo (path +:+ name) y) files) [] names
  end.

(** *** Mount points *)

Definition changeWorkingDirectory (path : string) : M bool := sys_call (in_chdir (c_str path)).
Definition getCurrentWorkingDirectory : M string := r ← sys_get in_getcwd; mret (default EmptyString r).

(** up to the directory whose parent is on another device or is itself *)
Fixpoint mount_loop (fuel : nat) (last_stat : inode_stat) : M string :=
  match fuel with
  | 0 => lift NoFuel
  | S fuel =>
      st ← sys_get (in_stat "..");
      match st with
      | None => mret EmptyString
      | Some st =>
          if negb (is_dev st =? is_dev last_stat)%Z || (is_ino st =? is_ino last_stat)%Z
          then getCurrentWorkingDirectory
          else ok ← changeWorkingDirectory ".."; if negb ok then mret EmptyString else mount_loop fuel st
      end
  end.
Definition findMountPoint (fuel : nat) (file : string) : M string :=
  cwd ← getCurrentWorkingDirectory;
  file_stat ← sys_get (in_stat (c_str file));
  dir ← sys_get (isDirectory file);
  ok ← changeWorkingDirectory (if dir then file else pathRemoveFileName file);
  if negb ok then mret EmptyString else
  last_stat ← (if (dir : bool) then mret file_stat else sys_get (in_stat "."));
  match last_stat with
  | None => mret EmptyString
  | Some last_stat =>
      mp ← mount_loop fuel last_stat;
      _ ← changeWorkingDirectory cwd;
      mret mp
  end.
Definition findDevicePath (directory : string) : M string :=
  r ← sys_get in_mntent;
  mret match r with
       | None => EmptyString
       | Some l => default EmptyString (snd <$> find_first (fun e => bool_decide (e.1 = directory)) l)
       end.
(** The walk goes up from a directory whose path has less than 4096 bytes. *)
Definition mount_fuel : nat := 4096.
Definition isLocalFUSEDirectory (directory : string) : M bool :=
  directory ← findMountPoint mount_fuel (dirRemoveSlashAtEnd directory);
  if isempty directory then mret false else
  devicePath ← findDevicePath directory;
  mret (negb (isempty devicePath)).
Definition isRemoteFS (directory : string) : M bool :=
  f_type ← sys_get (in_statfs (c_str directory));
  if (f_type =? S_MAGIC_FUSEBLK)%Z then b ← isLocalFUSEDirectory directory; mret (negb b)
  else mret (mem f_type remote_types).

(** ** The objects *)

Definition get_fw : M FileWatcherInotify :=
  s ← gets w_fs;
  match fileWatcher s with Some (ImplInotify f) => mret f | _ => undef end.
Definition set_impl (i : watcher_impl) (s : FsState) : FsState :=
  {| openedFiles := openedFiles s; fileWatcher := Some i; watchListeners := watchListeners s;
     listeners := listeners s; nextListener := nextListener s |}.
Definition put_fw (f : FileWatcherInotify) : M unit := modify (upd_fs (set_impl (ImplInotify f))).
Definition upd_fw (g : FileWatcherInotify -> FileWatcherInotify) : M unit := f ← get_fw; put_fw (g f).

Definition set_objects (g : gmap nat WatcherInotify -> gmap nat WatcherInotify) (f : FileWatcherInotify) :=
  MkInotify (mFD f) (mThread f) (g (objects f)) (next_object f) (mWatches f) (mRealWatches f)
    (mMovedOutsideWatches f) (run_vars f).
Definition set_tables (watches real : list (Z * nat)) (f : FileWatcherInotify) :=
  MkInotify (mFD f) (mThread f) (objects f) (next_object f) watches real (mMovedOutsideWatches f) (run_vars f).
Definition set_moved (l : list (nat * string)) (f : FileWatcherInotify) :=
  MkInotify (mFD f) (mThread f) (objects f) (next_object f) (mWatches f) (mRealWatches f) l (run_vars f).
Definition set_run (v : run_state) (f : FileWatcherInotify) :=
  MkInotify (mFD f) (mThread f) (objects f) (next_object f) (mWatches f) (mRealWatches f)
    (mMovedOutsideWatches f) v.
Definition set_thread (f : FileWatcherInotify) :=
  MkInotify (mFD f) true (objects f) (next_object f) (mWatches f) (mRealWatches f)
    (mMovedOutsideWatches f) (run_vars f).

Definition alloc (o : WatcherInotify) (f : FileWatcherInotify) : FileWatcherInotify :=
  MkInotify (mFD f) (mThread f) (<[next_object f := o]> (objects f)) (S (next_object f)) (mWatches f)
    (mRealWatches f) (mMovedOutsideWatches f) (run_vars f).
Definition free (p : nat) : FileWatcherInotify -> FileWatcherInotify := set_objects (delete p).
Definition deref (f : FileWatcherInotify) (p : nat) : outcome WatcherInotify :=
  match objects f !! p with Some o => Ret o | None => Undef end.

Definition set_Directory (dir : string) (o : WatcherInotify) : WatcherInotify :=
  MkWatcher (wi_ID o) dir (wi_Listener o) (wi_Recursive o) (wi_OldFileName o) (wi_InotifyID o) (wi_Parent o).
Definition set_OldFileName (name : string) (o : WatcherInotify) : WatcherInotify :=
  MkWatcher (wi_ID o) (wi_Directory o) (wi_Listener o) (wi_Recursive o) name (wi_InotifyID o) (wi_Parent o).

(** the first entry of a table whose directory is [dir] *)
Fixpoint find_dir (f : FileWatcherInotify) (dir : string) (l : list (Z * nat)) : outcome (option nat) :=
  match l with
  | [] => Ret None
  | (_, p) :: l => o ← deref f p; if decide (wi_Directory o = dir) then Ret (Some p) else find_dir f dir l
  end.
Definition pathInWatches (path : string) : M bool :=
  f ← get_fw; r ← lift (find_dir f path (mRealWatches f)); mret (bool_decide (is_Some r)).

(** A parent is older than its child, so that the number of an object bounds the walk. *)
Fixpoint inParentTree (f : FileWatcherInotify) (fuel : nat) (p parent : nat) : outcome bool :=
  match fuel with
  | 0 => NoFuel
  | S fuel =>
      o ← deref f p;
      match wi_Parent o with
      | None => Ret false
      | Some q => if decide (q = parent) then Ret true else inParentTree f fuel q parent
      end
  end.

(** ** Adding a watch *)

(** [std::map::insert] keeps an entry that is there *)
Definition insert_watch (wd : Z) (p : nat) (l : list (Z * nat)) : list (Z * nat) :=
  if omap_has wd l then l else omap_set wd p l.
Definition new_watch (o : WatcherInotify) (f : FileWatcherInotify) : FileWatcherInotify :=
  let p := next_object f in
  let f := alloc o f in
  set_tables (insert_watch (wi_InotifyID o) p (mWatches f))
    (match wi_Parent o with None => omap_set (wi_InotifyID o) p (mRealWatches f) | Some _ => mRealWatches f end) f.

(** what stands before [inotify_add_watch]: an error or the directory to be watched *)
Definition watchable (directory : string) (parent : option nat) : M (Z + string) :=
  let dir := dirAddSlashAtEnd directory in
  fi ← sys_get (getInfo dir);
  if negb (S_ISDIR fi) then mret (inl FileNotFound) else
  readable ← sys_get (isReadable fi);
  if negb readable then mret (inl FileNotReadable) else
  repeated ← pathInWatches dir;
  if (repeated : bool) then mret (inl FileRepeated) else
  remote ← (if bool_decide (is_Some parent) then isRemoteFS dir else mret false);
  if (remote : bool) then mret (inl FileRemote) else
  '(link, curPath) ← sys_get (getLinkRealPath dir);
  if isempty link then mret (inr dir) else
  if bool_decide (is_Some parent) then mret (inl FileOutOfScope) else
  repeated ← pathInWatches link;
  if (repeated : bool) then mret (inl FileRepeated) else
  if negb (linkAllowed curPath link) then mret (inl FileOutOfScope) else mret (inr link).

Definition parent_id (f : FileWatcherInotify) (parent : option nat) (wd : Z) : outcome Z :=
  match parent with None => Ret wd | Some q => o ← deref f q; Ret (wi_ID o) end.

Fixpoint addWatch (fuel : nat) (directory : string) (watcher : nat) (recursive : bool) (parent : option nat)
    : M Z :=
  match fuel with
  | 0 => lift NoFuel
  | S fuel =>
      r ← watchable directory parent;
      match r with
      | inl e => mret e
      | inr dir =>
          f ← get_fw;
          r ← sys_call (in_add_watch (mFD f) (c_str dir));
          match r with
          | WatchNoEntry => mret FileNotFound
          | WatchFailed => mret Unspecified
          | WatchAdded wd =>
              id ← lift (parent_id f parent wd);
              put_fw (new_watch (MkWatcher id dir watcher recursive "" wd parent) f) ;;
              (if recursive then
                 files ← sys_get (filesInfoFromPath dir);
                 mapM_ (fun cfi : string * Z =>
                   readable ← sys_get (isReadable cfi.2);
                   if S_ISDIR cfi.2 && readable
                   then _ ← addWatch fuel (dirAddSlashAtEnd dir +:+ cfi.1) watcher recursive (Some (next_object f));
                        mret tt
                   else mret tt) files
               else mret tt) ;;
              mret wd
          end
      end
  end.
(** A path of PATH_MAX bytes cannot be examined, and each level makes it longer. *)
Definition add_fuel : nat := S (S 4096).

(** ** Removing a watch *)

(** the first entry of a watch is erased *)
Fixpoint erase_moved (p : nat) (l : list (nat * string)) : list (nat * string) :=
  match l with
  | [] => []
  | e :: l => if decide (e.1 = p) then l else e :: erase_moved p l
  end.
(** the ids of the watches below [p] *)
Fixpoint below_watch (f : FileWatcherInotify) (p : nat) (l : list (Z * nat)) : outcome (list Z) :=
  match l with
  | [] => Ret []
  | (_, q) :: l =>
      b ← (if decide (q = p) then Ret false else inParentTree f (S q) q p);
      o ← deref f q;
      ids ← below_watch f p l;
      Ret (if (b : bool) then wi_InotifyID o :: ids else ids)
  end.

Fixpoint removeWatchLocked (fuel : nat) (watchid : Z) : M unit :=
  match fuel with
  | 0 => lift NoFuel
  | S fuel =>
      f ← get_fw;
      match omap_get watchid (mWatches f) with
      | None => undef
      | Some p =>
          watch ← lift (deref f p);
          put_fw (set_moved (erase_moved p (mMovedOutsideWatches f)) f) ;;
          (if wi_Recursive watch then
             eraseWatches ← lift (below_watch f p (mWatches f));
             mapM_ (fun id =>
               f ← get_fw;
               if omap_has id (mWatches f) then removeWatchLocked fuel id else mret tt) eraseWatches
           else mret tt) ;;
          f ← get_fw;
          if decide (omap_get watchid (mWatches f) = Some p) then
            put_fw (free p (set_tables (omap_del watchid (mWatches f))
              (match wi_Parent watch with
               | None => omap_del (wi_InotifyID watch) (mRealWatches f)
               | Some _ => mRealWatches f
               end) f)) ;;
            sys_call (fun y => (tt, in_rm_watch (mFD f) watchid y))
          else undef
      end
  end.
(** Each call below one removes fewer watches. *)
Definition remove_locked (watchid : Z) : M unit :=
  f ← get_fw; removeWatchLocked (S (length (mWatches f))) watchid.
Definition removeWatch_inotify (watchid : Z) : M unit :=
  f ← get_fw; if omap_has watchid (mWatches f) then remove_locked watchid else mret tt.
End efsw.

(** ** Events *)

Section events.
Context `{FileWatchListener}.

(** [watch->Listener->handleFileAction(watch->ID, watch->Directory, ...)] *)
Definition notify (watch : nat) (filename : string) (action : WatchAction) (oldFilename : string) : M unit :=
  f ← get_fw;
  o ← lift (deref f watch);
  handleFileAction (wi_Listener o) (wi_ID o) (wi_Directory o) filename action oldFilename.

Definition checkForNewWatcher (watch : nat) (fpath : string) : M unit :=
  let fpath := dirAddSlashAtEnd fpath in
  f ← get_fw;
  o ← lift (deref f watch);
  dir ← sys_get (isDirectory fpath);
  if wi_Recursive o && dir then
    found ← lift (find_dir f fpath (mWatches f));
    match found with
    | Some _ => mret tt
    | None => _ ← addWatch add_fuel fpath (wi_Listener o) (wi_Recursive o) (Some watch); mret tt
    end
  else mret tt.

(** the directory of a watch after [opath] has become [fpath] *)
Definition moved_dir (opath fpath dir : string) : string :=
  if decide (dir = opath) then fpath
  else if strStartsWith opath dir then fpath +:+ sdrop (slen opath) dir
  else dir.
Fixpoint move_watches (opath fpath : string) (l : list (Z * nat)) (f : FileWatcherInotify)
    : outcome FileWatcherInotify :=
  match l with
  | [] => Ret f
  | (_, p) :: l =>
      o ← deref f p;
      move_watches opath fpath l
        (set_objects (insert p (set_Directory (moved_dir opath fpath (wi_Directory o)) o)) f)
  end.
Definition set_old (watch : nat) (name : string) : M unit :=
  f ← get_fw; o ← lift (deref f watch); put_fw (set_objects (insert watch (set_OldFileName name o)) f).

Definition handleMovedTo (watch : nat) (filename fpath oldFileName : string) : M unit :=
  (if isempty oldFileName then
     notify watch filename WatchAdd "" ;; notify watch filename WatchModified "" ;;
     checkForNewWatcher watch fpath
   else notify watch filename WatchMoved oldFileName) ;;
  f ← get_fw;
  o ← lift (deref f watch);
  dir ← sys_get (isDirectory fpath);
  (if wi_Recursive o && dir then
     f ← lift (move_watches (dirAddSlashAtEnd (wi_Directory o +:+ wi_OldFileName o)) (dirAddSlashAtEnd fpath)
                 (mWatches f) f);
     put_fw f
   else mret tt) ;;
  set_old watch "".

Definition handleDelete (watch : nat) (filename fpath : string) : M unit :=
  notify watch filename WatchDelete "" ;;
  f ← get_fw;
  o ← lift (deref f watch);
  if wi_Recursive o then
    r ← lift (find_dir f (dirAddSlashAtEnd fpath) (mWatches f));
    match r with
    | None => mret tt
    | Some p => o ← lift (deref f p); remove_locked (wi_InotifyID o)
    end
  else mret tt.

Definition handleAction (watch : nat) (filename : string) (action : Z) : M unit :=
  f ← get_fw;
  o ← lift (deref f watch);
  let fpath := wi_Directory o +:+ filename in
  if has_bit action IN_CLOSE_WRITE || has_bit action IN_MODIFY then notify watch filename WatchModified ""
  else if has_bit action IN_MOVED_TO then handleMovedTo watch filename fpath (wi_OldFileName o)
  else if has_bit action IN_CREATE then
    notify watch filename WatchAdd "" ;; checkForNewWatcher watch fpath
  else if has_bit action IN_MOVED_FROM then set_old watch filename
  else if has_bit action IN_DELETE then handleDelete watch filename fpath
  else mret tt.

(** *** The loop of the thread *)

Definition no_cookie : Z := 4294967295.
Definition push_moved (name : string) : M unit :=
  upd_fw (fun f => match rs_currentMoveFrom (run_vars f) with
                   | Some p => set_moved (mMovedOutsideWatches f ++ [(p, name)]) f
                   | None => f
                   end).
Definition set_from (from : option nat) (cookie : Z) (f : FileWatcherInotify) : FileWatcherInotify :=
  let v := run_vars f in
  set_run (RunState (rs_wit v) from cookie (rs_lastWasMovedFrom v) (rs_prevOldFileName v)) f.
Definition set_wit (wit : option (Z * nat)) (f : FileWatcherInotify) : FileWatcherInotify :=
  let v := run_vars f in
  set_run (RunState wit (rs_currentMoveFrom v) (rs_currentMoveCookie v) (rs_lastWasMovedFrom v)
    (rs_prevOldFileName v)) f.
Definition set_last (from : bool) (name : string) (f : FileWatcherInotify) : FileWatcherInotify :=
  let v := run_vars f in
  set_run (RunState (rs_wit v) (rs_currentMoveFrom v) (rs_currentMoveCookie v) from
    (if from then name else rs_prevOldFileName v)) f.

(** a move: its parts have the same cookie and come one after the other *)
Definition track_move (watch : nat) (ev : inotify_event) : M unit :=
  f ← get_fw;
  let v := run_vars f in
  if has_bit (ie_mask ev) IN_MOVED_TO && bool_decide (rs_currentMoveFrom v = Some watch)
     && (ie_cookie ev =? rs_currentMoveCookie v)%Z
  then upd_fw (set_from None no_cookie)
  else if has_bit (ie_mask ev) IN_MOVED_FROM then
    (if rs_lastWasMovedFrom v then push_moved (rs_prevOldFileName v) else mret tt) ;;
    upd_fw (set_from (Some watch) (ie_cookie ev))
  else push_moved (rs_prevOldFileName v) ;; upd_fw (set_from None no_cookie).

(** the iterator is read after [handleAction], which may have erased its entry *)
Definition run_event (ev : inotify_event) : M unit :=
  f ← get_fw;
  (match omap_get (ie_wd ev) (mWatches f) with
   | None => upd_fw (set_wit None)
   | Some watch =>
       upd_fw (set_wit (Some (ie_wd ev, watch))) ;;
       handleAction watch (ie_name ev) (ie_mask ev) ;;
       f ← get_fw;
       if decide (omap_get (ie_wd ev) (mWatches f) = Some watch) then track_move watch ev else undef
   end) ;;
  upd_fw (set_last (has_bit (ie_mask ev) IN_MOVED_FROM) (ie_name ev)).

Definition run_idle : M unit :=
  f ← get_fw;
  (match rs_currentMoveFrom (run_vars f) with
   | None => mret tt
   | Some p => o ← lift (deref f p); push_moved (wi_OldFileName o)
   end) ;;
  upd_fw (set_from None no_cookie).

Definition watcherContainsDirectory (dir : string) : M (option nat) :=
  f ← get_fw;
  lift (find_dir f (dirAddSlashAtEnd (pathRemoveFileName (dirRemoveSlashAtEnd dir))) (mWatches f)).

(** the entries from the iterator on *)
Definition from_wit (f : FileWatcherInotify) : outcome (list (Z * nat)) :=
  match rs_wit (run_vars f) with
  | None => Ret []
  | Some (wd, p) =>
      if decide (omap_get wd (mWatches f) = Some p) then Ret (filter (fun e => (wd <= e.1)%Z) (mWatches f))
      else Undef
  end.
Fixpoint moved_watches (f : FileWatcherInotify) (watch : nat) (oldFileName : string) (l : list (Z * nat))
    : outcome (list nat) :=
  match l with
  | [] => Ret []
  | (_, q) :: l =>
      b ← (if decide (q = watch) then Ret false
           else o ← deref f watch; oldWatch ← deref f q;
                Ret (strStartsWith (wi_Directory o +:+ oldFileName +:+ "/") (wi_Directory oldWatch)));
      r ← moved_watches f watch oldFileName l;
      Ret (if (b : bool) then q :: r else r)
  end.

(** [list<Watcher*>::sort] *)
Definition by_address (p q : nat) : Prop := (in_address p <= in_address q)%Z.
#[export] Instance by_address_dec p q : Decision (by_address p q) := Z_le_dec _ _.

Definition delete_moved (rmWatch : nat) : M unit :=
  f ← get_fw;
  o ← lift (deref f rmWatch);
  cntWatch ← watcherContainsDirectory (wi_Directory o);
  match cntWatch with
  | None => mret tt
  | Some p => handleAction p (fileNameFromPath (wi_Directory o)) IN_DELETE
  end.
Definition moved_outside (count : nat) (e : nat * string) : M unit :=
  f ← get_fw;
  let now := mMovedOutsideWatches f in
  if negb (bool_decide (length now = count)) && negb (existsb (fun m => bool_decide (m.1 = e.1)) now)
  then mret tt
  else
    rest ← lift (from_wit f);
    eraseWatches ← lift (moved_watches f e.1 e.2 rest);
    upd_fw (set_wit None) ;;
    match eraseWatches with
    | [] => handleAction e.1 e.2 IN_DELETE
    | _ => mapM_ delete_moved (reverse (merge_sort by_address eraseWatches))
    end.

(** a turn: nothing came, or these events, none when [read] failed *)
Definition run_turn (received : option (list inotify_event)) : M unit :=
  match received with None => run_idle | Some events => mapM_ run_event events end ;;
  f ← get_fw;
  match mMovedOutsideWatches f with
  | [] => mret tt
  | moved => mapM_ (moved_outside (length moved)) moved ;; upd_fw (set_moved [])
  end.
End events.

(** ** class FileWatcher *)

Section filewatcher.
Context `{Platform}.

Definition run_state0 : run_state := RunState None None no_cookie false "".
Definition FileWatcher : M watcher_impl :=
  fd ← sys_call in_init;
  mret (if (fd <? 0)%Z then ImplGeneric else ImplInotify (MkInotify fd false ∅ 0 [] [] [] run_state0)).

Definition FileWatcher_addWatch (impl : watcher_impl) (directory : string) (watcher : nat) (recursive : bool)
    : M Z :=
  match impl with
  | ImplGeneric => sys_call (fw_addWatch directory)
  | ImplInotify _ =>
      remote ← isRemoteFS directory;
      if (remote : bool) then mret FileRemote else addWatch add_fuel directory watcher recursive None
  end.
Definition FileWatcher_removeWatch (impl : watcher_impl) (watchid : Z) : M unit :=
  match impl with
  | ImplGeneric => sys_call (fun y => (tt, fw_removeWatch watchid y))
  | ImplInotify _ => removeWatch_inotify watchid
  end.
(** the thread starts with the first call *)
Definition FileWatcher_watch (impl : watcher_impl) : M unit :=
  match impl with
  | ImplGeneric => mret tt
  | ImplInotify _ => upd_fw set_thread
  end.
End filewatcher.
End efsw.
