(* ===== verification/NumFacts.v ===== *)
(** * Decimal numbers: [to_string] and [stoi]/[stoll] are inverse *)

From S2P Require Import Prelude Strings Outcome.
From Stdlib Require Import Ascii.
From stdpp Require Import pretty.

Lemma pretty_char_digit x : (x < 10)%N ->
  isdigit (pretty_N_char x) = true /\ digit_val (pretty_N_char x) = Z.of_N x.
Proof.
  intros Hx. assert (x = 0 \/ x = 1 \/ x = 2 \/ x = 3 \/ x = 4 \/ x = 5 \/ x = 6 \/ x = 7 \/ x = 8 \/ x = 9)%N
    as Hc by lia.
  destruct Hc as [->|[->|[->|[->|[->|[->|[->|[->|[->| ->]]]]]]]]]; done.
Qed.

Lemma read_digits_go x : forall acc k s,
  exists n, read_digits acc k (pretty_N_go x s)
            = read_digits (acc * 10 ^ Z.of_nat n + Z.of_N x) (k + n) s /\ ((0 < x)%N -> 0 < n).
Proof.
  induction (N.lt_wf_0 x) as [x _ IH]; intros acc k s.
  destruct (decide (0 < x)%N) as [Hx|Hx].
  - rewrite pretty_N_go_step by done.
    destruct (IH (x / 10)%N (N.div_lt x 10 Hx eq_refl) acc k (String (pretty_N_char (x mod 10)) s))
      as (n & -> & _).
    exists (S n). split; [|lia]. cbn [read_digits].
    destruct (pretty_char_digit (x mod 10)) as [-> ->]; [by apply N.mod_lt|].
    rewrite Nat.add_succ_r. f_equal.
    rewrite N2Z.inj_div, N2Z.inj_mod, Nat2Z.inj_succ, Z.pow_succ_r by lia.
    rewrite (Z_div_mod_eq_full (Z.of_N x) (Z.of_N 10)) at 3. lia.
  - exists 0. split; [|lia]. assert (x = 0%N) as -> by lia. rewrite pretty_N_go_0.
    by rewrite Nat.add_0_r, Z.mul_1_r, Z.add_0_r.
Qed.

Lemma go_digits x : forall s, sforall isdigit s = true -> sforall isdigit (pretty_N_go x s) = true
  /\ ((0 < x)%N -> pretty_N_go x s <> EmptyString).
Proof.
  induction (N.lt_wf_0 x) as [x _ IH]; intros s Hs.
  destruct (decide (0 < x)%N) as [Hx|Hx].
  - rewrite pretty_N_go_step by done.
    destruct (IH (x / 10)%N (N.div_lt x 10 Hx eq_refl) (String (pretty_N_char (x mod 10)) s)) as [H1 H2].
    { simpl. rewrite (proj1 (pretty_char_digit (x mod 10) ltac:(by apply N.mod_lt))). done. }
    split; [done|]. intros _. destruct (decide (0 < x / 10)%N); [auto|].
    assert ((x / 10)%N = 0%N) as -> by (apply N.le_0_r, N.nlt_ge; done). by rewrite pretty_N_go_0.
  - assert (x = 0%N) as -> by lia. rewrite pretty_N_go_0. split; [done|by intros []%N.lt_irrefl].
Qed.

(** the digits of a number that is not negative *)
Lemma to_string_digits z : (0 <= z)%Z ->
  sforall isdigit (to_string z) = true /\ to_string z <> EmptyString /\
  forall s, exists n, 0 < n /\
    read_digits 0 0 (to_string z +:+ s) = read_digits z n s.
Proof.
  intros Hz. unfold to_string. destruct z as [|p|]; [| |lia].
  - split_and!; [done|done|]. intros s. exists 1. split; [lia|done].
  - change (pretty (Zpos p)) with (pretty (N.pos p)). unfold pretty, pretty_N.
    rewrite decide_False by done.
    destruct (go_digits (N.pos p) "" eq_refl) as [H1 H2]. split_and!; [done|by apply H2|].
    intros s.
    assert (forall x t, pretty_N_go x t +:+ s = pretty_N_go x (t +:+ s)) as Happ.
    { intros x. induction (N.lt_wf_0 x) as [x _ IH]; intros t.
      destruct (decide (0 < x)%N) as [Hx|Hx].
      - rewrite !(pretty_N_go_step x) by done. by rewrite IH by (apply N.div_lt; done || lia).
      - assert (x = 0%N) as -> by lia. by rewrite !pretty_N_go_0. }
    rewrite Happ. destruct (read_digits_go (N.pos p) 0 0 ("" +:+ s)) as (n & -> & Hn).
    exists n. split; [apply Hn; lia|done].
Qed.

Lemma sto_to_string lo hi z rest :
  (0 <= z)%Z -> (lo <= z <= hi)%Z ->
  match rest with EmptyString => True | String c _ => isdigit c = false end ->
  sto lo hi (to_string z +:+ rest) = inr z.
Proof.
  intros Hz Hr Hrest. destruct (to_string_digits z Hz) as (Hd & Hne & Hread).
  destruct (Hread rest) as (n & Hn & E). unfold sto.
  destruct (to_string z) as [|c s] eqn:Es; [done|].
  assert (isdigit c = true) as Hc by (simpl in Hd; by bsplit).
  assert (isspace c = false /\ c <> "-"%char /\ c <> "+"%char) as (Hsp & Hm & Hp).
  { clear -Hc. destruct c as [[] [] [] [] [] [] [] []]; try done; by vm_compute in Hc. }
  change (String c s +:+ rest) with (String c (s +:+ rest)) in E |- *. cbn [skip_space]. rewrite Hsp.
  rewrite !bool_decide_false by done. rewrite E.
  assert (read_digits z n rest = (z, n)) as ->.
  { destruct rest as [|c' r]; [done|]. simpl. by rewrite Hrest. }
  cbn beta iota. rewrite (proj2 (Nat.eqb_neq _ _)) by lia.
  destruct (z <? lo)%Z eqn:E1, (hi <? z)%Z eqn:E2; zb; simpl; try done; lia.
Qed.

Lemma stoll_to_string z : (0 <= z < 2 ^ 63)%Z -> stoll (to_string z) = inr z.
Proof. intros Hz. rewrite <-(sapp_nil_r (to_string z)). apply sto_to_string; [lia|lia|done]. Qed.

Lemma stoi_to_string z : (0 <= z <= INT_MAX)%Z -> stoi (to_string z) = inr z.
Proof.
  intros Hz. rewrite <-(sapp_nil_r (to_string z)).
  apply sto_to_string; [lia|unfold INT_MIN, INT_MAX in *; lia|done].
Qed.

(** the text of a negative number is a sign and the digits *)
Lemma to_string_neg z : (z < 0)%Z -> to_string z = String "-" (to_string (- z)).
Proof. intros Hz. by destruct z. Qed.

Lemma go_head x : forall s, (0 < x)%N -> exists c t, pretty_N_go x s = String c t /\ c <> "0"%char.
Proof.
  induction (N.lt_wf_0 x) as [x _ IH]; intros s Hx. rewrite pretty_N_go_step by done.
  destruct (decide (0 < x / 10)%N) as [Hd|Hd]; [by apply IH; [apply N.div_lt|]|].
  assert (x / 10 = 0)%N as E by (apply N.le_0_r, N.nlt_ge; done). rewrite E, pretty_N_go_0. eexists _, _. split; [done|].
  apply N.div_small_iff in E; [|done]. rewrite N.mod_small by done.
  assert (x = 1 \/ x = 2 \/ x = 3 \/ x = 4 \/ x = 5 \/ x = 6 \/ x = 7 \/ x = 8 \/ x = 9)%N as Hc by lia.
  by repeat destruct Hc as [->|Hc]; [..|subst].
Qed.

Lemma to_string_head z : (0 < z)%Z -> exists c t, to_string z = String c t /\ c <> "0"%char.
Proof.
  intros Hz. destruct z as [|p|]; try lia. unfold to_string. change (pretty (Zpos p)) with (pretty (N.pos p)).
  unfold pretty, pretty_N. rewrite decide_False by done. by apply go_head.
Qed.

(** the number of digits *)
Lemma go_length k : forall x s, (10 ^ N.of_nat k <= x < 10 ^ N.of_nat (S k))%N ->
  slen (pretty_N_go x s) = S k + slen s.
Proof.
  induction k as [|k IH]; intros x s Hx.
  - change (10 ^ N.of_nat 0)%N with 1%N in Hx. change (10 ^ N.of_nat 1)%N with 10%N in Hx.
    rewrite pretty_N_go_step by lia. by rewrite N.div_small by lia.
  - assert (10 ^ N.of_nat k <= x / 10 < 10 ^ N.of_nat (S k))%N as Hq.
    { rewrite !Nat2N.inj_succ, !N.pow_succ_r' in *. split; [apply N.div_le_lower_bound|apply N.Div0.div_lt_upper_bound]; lia. }
    assert (0 < 10 ^ N.of_nat k)%N by (apply N.neq_0_lt_0; by apply N.pow_nonzero).
    rewrite pretty_N_go_step, IH by (done || lia). cbn [slen String.length]. lia.
Qed.

Lemma to_string_four z : (1000 <= z <= 9999)%Z -> slen (to_string z) = 4.
Proof.
  intros Hz. unfold to_string. destruct z as [|p|p]; [lia| |lia].
  apply (go_length 3 (N.pos p) EmptyString). cbn. lia.
Qed.
