(* ===== verification/Helpers.v ===== *)
(** * helpers.cpp: strings, tokens, command lines, JSON field tests *)

From S2P Require Import Prelude Strings Regex OMap Outcome Json Errors State.
From Stdlib Require Import Ascii.

Inductive AppMode := AppModeWindow | AppModeBrowser | AppModeCloud | AppModeChrome.

#[export] Instance AppMode_eq_dec : EqDecision AppMode.
Proof. solve_decision. Defined.

Module helpers.

(** ** Splitting *)

(** The loop of [getline]s of [split]: [cur] holds the characters read since
    the last delimiter, [n] counts the tokens.  [getline] fails when it reaches
    the end without having read a character. *)
Fixpoint split_go (delim : ascii) (stopAfter n : Z) (cur r : list ascii) : list string :=
  match r with
  | [] => match cur with [] => [] | _ :: _ => [of_list cur] end
  | c :: r =>
      if decide (c = delim) then
        let n := (n + 1)%Z in
        let delim := if negb (stopAfter =? wrapU 32 (-1))%Z && (n =? wrapU 32 (stopAfter - 1))%Z
                     then "010"%char else delim in
        of_list cur :: split_go delim stopAfter n [] r
      else split_go delim stopAfter n (cur ++ [c]) r
  end.

(** [stopAfter] is an [unsigned int] whose default is [-1]. *)
Definition split_n (s : string) (delim : ascii) (stopAfter : Z) : list string :=
  split_go delim stopAfter 0 [] (to_list s).
Definition split (s : string) (delim : ascii) : list string :=
  split_n s delim (wrapU 32 (-1)).
Definition splitTwo (s : string) (delim : ascii) : list string := split_n s delim 2.

(** ** Trimming and path slashes *)

Fixpoint drop_while (p : ascii -> bool) (l : list ascii) : list ascii :=
  match l with
  | [] => []
  | c :: l' => if p c then drop_while p l' else l
  end.

Definition trimRight (s : string) : string :=
  of_list (rev (drop_while isspace (rev (to_list s)))).

Definition normalizePath (path : string) : string :=
  if (1 <? slen path) && bool_decide (sback path = Some "/"%char)
  then spop_back path else path.

Definition unNormalizePath (path : string) : string := path.

(** ** URL decoding *)

Definition xdigit_val (c : ascii) : N :=
  let c := if N.leb 97 (code c) then (code c - 32)%N else code c in
  if N.leb 65 c then (c - 55)%N else (c - 48)%N.

(** [src] is the C string without its NUL, so [src[1]] and [src[2]] are
    non-zero exactly when they are there. *)
Fixpoint urldecode (src : list ascii) : list ascii :=
  match src with
  | [] => []
  | c :: src' =>
      match src' with
      | a :: b :: rest =>
          if bool_decide (c = "%"%char) && isxdigit a && isxdigit b
          then chr ((16 * xdigit_val a + xdigit_val b) mod 256) :: urldecode rest
          else c :: urldecode src'
      | _ => c :: urldecode src'
      end
  end.

Definition cStrCopy (str : string) : list ascii := to_list str ++ ["000"%char].

(** ** Tokens *)

Definition characters : string :=
  "-_0123456789ABCDEFGHIJKLMNOPQRSTUVWXYZabcdefghijklmnopqrstuvwxyz".

Section generateToken.
Context `{Platform}.

Fixpoint generateToken_loop (n : nat) (i : nat) (token : string) : M string :=
  match n with
  | 0 => mret token
  | S n =>
      let token := if i =? 47 then token +:+ "." else token in
      d ← sys_call (sys_random (slen characters));
      match to_list characters !! d with
      | Some c => generateToken_loop n (S i) (token +:+ String c EmptyString)
      | None => undef
      end
  end.

Definition generateToken : M string := generateToken_loop 96 0 EmptyString.
End generateToken.

(** ** JSON fields *)

Definition hasField (input : json) (key : string) : bool :=
  contains input key && negb (is_null (jget input key)).

Definition hasRequiredFields (input : json) (keys : list string) : bool :=
  forallb (hasField input) keys.

Definition missingRequiredField (input : json) (keys : list string) : option string :=
  find_first (fun key => negb (hasField input key)) keys.

(** ** Modes *)

Definition getModes : list string := ["window"; "browser"; "cloud"; "chrome"].

Definition appModeToStr (mode : AppMode) : string :=
  match mode with
  | AppModeWindow => "window"
  | AppModeBrowser => "browser"
  | AppModeCloud => "cloud"
  | AppModeChrome => "chrome"
  end.

(** ** Glob patterns *)

Definition glob_specials : list ascii :=
  ["."; "\"; "+"; "("; ")"; "["; "]"; "{"; "}"; "|"; "^"; "$"; "#"]%char.

Definition glob_piece (c : ascii) : list ascii :=
  if decide (c = "*"%char) then [".";"*"]%char
  else if decide (c = "?"%char) then ["."%char]
  else if mem c glob_specials then ["\"%char; c]
  else [c].

Definition globalMatch_re (pattern : string) : string :=
  "^" +:+ of_list (to_list pattern ≫= glob_piece) +:+ "$".

(** a [regex_error] yields [false] *)
Definition globalMatch (value pattern : string) : bool :=
  regex_match value (globalMatch_re pattern).

(** ** Command lines *)

(** [strchr(set, c) != nullptr] also holds for the terminator of [set]. *)
Definition shell_specials : list ascii :=
  [";"; "|"; "&"; ">"; "<"; "$"; "`"; "("; ")"; "{"; "}"; "\"; "010"; "013"; "000"]%char.

Definition flushToken (tokens : list string) (current : string) : list string :=
  if isempty current then tokens else tokens ++ [current].

Fixpoint tokenize_go (inSingle inDouble : bool) (tokens : list string) (current : string)
    (l : list ascii) : list string :=
  match l with
  | [] => if inSingle || inDouble then [] else flushToken tokens current
  | c :: l =>
      if negb inSingle && negb inDouble then
        if isspace c then tokenize_go inSingle inDouble (flushToken tokens current) "" l
        else if decide (c = "'"%char) then tokenize_go true inDouble tokens current l
        else if decide (c = "034"%char) then tokenize_go inSingle true tokens current l
        else if mem c shell_specials then []
        else tokenize_go inSingle inDouble tokens (current +:+ String c EmptyString) l
      else if inSingle then
        if decide (c = "'"%char) then tokenize_go false inDouble tokens current l
        else tokenize_go inSingle inDouble tokens (current +:+ String c EmptyString) l
      else
        if decide (c = "034"%char) then tokenize_go inSingle false tokens current l
        else tokenize_go inSingle inDouble tokens (current +:+ String c EmptyString) l
  end.

Definition tokenizeCommand (command : string) : list string :=
  tokenize_go false false [] "" (to_list command).

(** ** Lemmas on [split] *)

Lemma split_go_app delim stop n cur a r :
  Forall (fun c => c <> delim) a ->
  split_go delim stop n cur (a ++ r) = split_go delim stop n (cur ++ a) r.
Proof.
  intros Ha. revert cur. induction Ha as [|c a Hc _ IH]; intros cur; simpl.
  - by rewrite app_nil_r.
  - rewrite decide_False by done. rewrite IH, <-app_assoc. done.
Qed.

Lemma split_go_end delim stop n a :
  a <> [] -> Forall (fun c => c <> delim) a -> split_go delim stop n [] a = [of_list a].
Proof.
  intros Hne Ha. rewrite <-(app_nil_r a) at 1. rewrite split_go_app by done.
  simpl. by destruct a.
Qed.

(** [split] with the default limit inverts joining. *)
Fixpoint join (delim : ascii) (ts : list (list ascii)) : list ascii :=
  match ts with
  | [] => []
  | [t] => t
  | t :: ts => t ++ delim :: join delim ts
  end.

Lemma split_go_nonempty delim s n cur r :
  cur <> [] \/ r <> [] -> 1 <= length (split_go delim s n cur r).
Proof.
  revert delim n cur; induction r as [|c r IH]; intros delim n cur Hc; simpl.
  - destruct Hc; [|done]. destruct cur; [done|simpl; lia].
  - destruct (decide (c = delim)); simpl; [lia|]. apply IH. left. by destruct cur.
Qed.

Lemma split_go_join delim n ts :
  Forall (Forall (fun c => c <> delim)) ts -> last ts <> Some [] ->
  split_go delim (wrapU 32 (-1)) n [] (join delim ts) = of_list <$> ts.
Proof.
  intros Hts. revert n. induction Hts as [|t ts Ht Hts IH]; intros n Hl; [done|].
  destruct ts as [|t' ts].
  - simpl in *. apply split_go_end; [congruence|done].
  - cbn [join]. rewrite split_go_app by done. cbn [app split_go].
    rewrite decide_True by done. rewrite Z.eqb_refl. cbn [negb andb].
    rewrite IH; [done|exact Hl].
Qed.

(** The delimiter stays between the parts, whatever the input. *)
Lemma split_go_nodelim delim n cur r :
  Forall (fun c => c <> delim) cur ->
  Forall (fun t => Forall (fun c => c <> delim) (to_list t)) (split_go delim (wrapU 32 (-1)) n cur r).
Proof.
  revert n cur; induction r as [|c r IH]; intros n cur Hcur; cbn [split_go].
  - destruct cur; constructor; [|constructor]. by rewrite to_of_list.
  - rewrite Z.eqb_refl. cbn [negb andb]. destruct (decide (c = delim)).
    + constructor; [by rewrite to_of_list|]. by apply IH.
    + apply IH. apply Forall_app; auto.
Qed.

(** [splitTwo] splits at the first delimiter; the rest is read up to a newline. *)
Lemma splitTwo_spec a b delim :
  Forall (fun c => c <> delim) (to_list a) -> b <> EmptyString ->
  Forall (fun c => c <> "010"%char) (to_list b) ->
  splitTwo (a +:+ String delim b) delim = [a; b].
Proof.
  intros Ha Hb Hn. unfold splitTwo, split_n. rewrite to_list_app, split_go_app by done.
  simpl. rewrite decide_True by done. f_equal; [by rewrite of_to_list|].
  rewrite split_go_end; [by rewrite of_to_list|by destruct b|done].
Qed.

Lemma split_one s delim :
  s <> EmptyString -> Forall (fun c => c <> delim) (to_list s) -> split s delim = [s].
Proof.
  intros Hs Hf. unfold split, split_n.
  rewrite split_go_end; [by rewrite of_to_list|by destruct s|done].
Qed.

Lemma splitTwo_one s delim :
  s <> EmptyString -> Forall (fun c => c <> delim) (to_list s) -> splitTwo s delim = [s].
Proof.
  intros Hs Hf. unfold splitTwo, split_n.
  rewrite split_go_end; [by rewrite of_to_list|by destruct s|done].
Qed.

(** ** Lemmas on fields *)

Lemma hasField_spec input key :
  hasField input key = true <-> exists m v, input = JObj m /\ omap_get key m = Some v /\ v <> JNull.
Proof.
  unfold hasField, contains, jget, omap_has. destruct input; simpl; try (split; [done|naive_solver]).
  rewrite andb_true_iff, bool_decide_eq_true, negb_true_iff. split.
  - intros [[v Hv] Hn]. exists m, v. rewrite Hv in *. simpl in Hn. by destruct v.
  - intros (m' & v & [= <-] & Hv & Hn). rewrite Hv. simpl. split; [eauto|by destruct v].
Qed.

(** After a field test, const access returns the member. *)
Lemma hasField_jat input key :
  hasField input key = true -> jat input key = Ret (jget input key) /\ jget input key <> JNull.
Proof.
  rewrite hasField_spec. intros (m & v & -> & Hv & Hn). simpl. by rewrite Hv.
Qed.

Lemma missingRequiredField_None input keys :
  missingRequiredField input keys = None <-> forall k, k ∈ keys -> hasField input k = true.
Proof.
  unfold missingRequiredField. induction keys as [|k keys IH]; simpl.
  - split; [|done]. intros _ k Hk. by apply elem_of_nil in Hk.
  - destruct (hasField input k) eqn:E; simpl.
    + rewrite IH. setoid_rewrite elem_of_cons. naive_solver.
    + split; [done|]. intros Hk. rewrite Hk in E; [done|left].
Qed.

Lemma hasRequiredFields_missing input keys :
  hasRequiredFields input keys = true <-> missingRequiredField input keys = None.
Proof.
  rewrite missingRequiredField_None. unfold hasRequiredFields.
  rewrite forallb_forall. by setoid_rewrite <-list_elem_of_In.
Qed.
End helpers.
