(* ===== verification/Options.v ===== *)
(** * settings.cpp: the options object and the command-line overrides

    Every read of [options] is a non-const [operator[]], so it inserts [null]
    members.  [opt_equiv] identifies options that only differ in such members;
    lookups respect it. *)

From S2P Require Import Prelude Strings Regex OMap Outcome Json Errors State Helpers.
From Stdlib Require Import Ascii.

Module settings.
Import helpers.

Section settings.
Context `{Platform}.

Definition get_options : M json := gets (fun w => options (w_settings w)).
Definition upd_options (f : json -> json) (s : SettingsState) : SettingsState :=
  {| options := f (options s); globalArgs := globalArgs s; appPath := appPath s;
     systemDataPath := systemDataPath s; appDataPath := appDataPath s;
     configFile := configFile s; localeName := localeName s;
     configOverrides := configOverrides s |}.
Definition set_options (o : json) : M unit := modify (upd_settings (upd_options (fun _ => o))).

(** [options[k1][k2]...]: the members on the way are created *)
Fixpoint jref_path (ks : list string) (j : json) : outcome json :=
  match ks with
  | [] => Ret j
  | k :: ks => jref j k (jref_path ks)
  end.
Definition jget_path (ks : list string) (j : json) : json := foldl jget j ks.

Definition read_options (ks : list string) : M json :=
  o ← get_options;
  o ← lift (jref_path ks o);
  set_options o ;;
  mret (jget_path ks o).

(** ** Paths *)

Definition joinAppPath (filename : string) : M string :=
  gets (fun w => appPath (w_settings w) +:+ filename).
Definition joinAppDataPath (filename : string) : M string :=
  gets (fun w => appDataPath (w_settings w) +:+ filename).
Definition joinSystemDataPath (filename : string) : M string :=
  gets (fun w => systemDataPath (w_settings w) +:+ filename).
Definition getAppPath : M string := gets (fun w => appPath (w_settings w)).
Definition getConfigFile : M string := gets (fun w => configFile (w_settings w)).
Definition getConfig : M json := get_options.

(** ** Options *)

Definition mode_of_string (mode : string) : AppMode :=
  if decide (mode = "window") then AppModeWindow
  else if decide (mode = "browser") then AppModeBrowser
  else if decide (mode = "cloud") then AppModeCloud
  else if decide (mode = "chrome") then AppModeChrome
  else AppModeWindow.

Definition getMode : M AppMode :=
  j ← read_options ["defaultMode"];
  mode ← (if negb (is_null j)
          then j ← read_options ["defaultMode"]; lift (get_string j)
          else mret "window");
  mret (mode_of_string mode).

(** Priority: mode -> root -> null *)
Definition getOptionForCurrentMode (key : string) : M json :=
  m ← getMode;
  let mode := appModeToStr m in
  value ← read_options ["modes"; mode; key];
  if is_null value then read_options [key] else mret value.

Definition sanitizeAppId (appId : string) : string :=
  regex_replace (regex_replace appId "[^\w.]" "") "[.]{2,}" ".".

Definition getAppId : M string :=
  j ← read_options ["applicationId"];
  if negb (is_null j) then
    j ← read_options ["applicationId"];
    appId ← lift (get_string j);
    mret (sanitizeAppId appId)
  else mret "js.neutralino.framework".

Definition getNavigationUrl : M string :=
  j ← getOptionForCurrentMode "url";
  if negb (is_null j) then
    j ← getOptionForCurrentMode "url"; lift (get_string j)
  else mret "https://neutralino.js.org".

Definition setPort (port : Z) : M unit :=
  o ← get_options;
  o ← lift (jset o "port" (of_int port));
  set_options o ;;
  mapM_ (fun mode =>
    o ← get_options;
    ptr ← lift (json_pointer.split ("/modes/" +:+ mode +:+ "/port"));
    o ← lift (json_pointer.get_unchecked ptr (fun _ => Ret (of_int port)) o);
    set_options o) ["window"; "browser"; "cloud"; "chrome"].

(** ** Command-line arguments *)

Definition _parseArg (argStr : string) : CliArg :=
  let argParts := splitTwo argStr "="%char in
  match argParts with
  | [k; v] =>
      if 0 <? slen v then {| arg_key := k; arg_value := v |}
      else {| arg_key := argStr; arg_value := EmptyString |}
  | _ => {| arg_key := argStr; arg_value := EmptyString |}
  end.

Definition cliMappings : list (string * (string * string)) :=
  [("--mode", ("/defaultMode", "string"));
   ("--url", ("/url", "string"));
   ("--document-root", ("/documentRoot", "string"));
   ("--port", ("/port", "int"));
   ("--logging-enabled", ("/logging/enabled", "bool"));
   ("--logging-write-to-log-file", ("/logging/writeToLogFile", "bool"));
   ("--enable-server", ("/enableServer", "bool"));
   ("--enable-native-api", ("/enableNativeAPI", "bool"));
   ("--single-page-serve", ("/singlePageServe", "bool"));
   ("--enable-extensions", ("/enableExtensions", "bool"));
   ("--export-auth-info", ("/exportAuthInfo", "bool"));
   ("--data-location", ("/dataLocation", "string"));
   ("--storage-location", ("/storageLocation", "string"));
   ("--window-title", ("/modes/window/title", "string"));
   ("--window-width", ("/modes/window/width", "int"));
   ("--window-height", ("/modes/window/height", "int"));
   ("--window-min-width", ("/modes/window/minWidth", "int"));
   ("--window-min-height", ("/modes/window/minHeight", "int"));
   ("--window-max-width", ("/modes/window/maxWidth", "int"));
   ("--window-max-height", ("/modes/window/maxHeight", "int"));
   ("--window-x", ("/modes/window/x", "int"));
   ("--window-y", ("/modes/window/y", "int"));
   ("--window-full-screen", ("/modes/window/fullScreen", "bool"));
   ("--window-always-on-top", ("/modes/window/alwaysOnTop", "bool"));
   ("--window-enable-inspector", ("/modes/window/enableInspector", "bool"));
   ("--window-open-inspector-on-startup", ("/modes/window/openInspectorOnStartup", "bool"));
   ("--window-borderless", ("/modes/window/borderless", "bool"));
   ("--window-maximize", ("/modes/window/maximize", "bool"));
   ("--window-hidden", ("/modes/window/hidden", "bool"));
   ("--window-resizable", ("/modes/window/resizable", "bool"));
   ("--window-maximizable", ("/modes/window/maximizable", "bool"));
   ("--window-center", ("/modes/window/center", "bool"));
   ("--window-transparent", ("/modes/window/transparent", "bool"));
   ("--window-skip-taskbar", ("/modes/window/skipTaskbar", "bool"));
   ("--window-exit-process-on-close", ("/modes/window/exitProcessOnClose", "bool"));
   ("--window-use-saved-state", ("/modes/window/useSavedState", "bool"));
   ("--window-icon", ("/modes/window/icon", "string"));
   ("--window-extend-user-agent-with", ("/modes/window/extendUserAgentWith", "string"));
   ("--window-inject-globals", ("/modes/window/injectGlobals", "bool"));
   ("--window-inject-client-library", ("/modes/window/injectClientLibrary", "bool"));
   ("--window-inject-script", ("/modes/window/injectScript", "string"));
   ("--chrome-width", ("/modes/chrome/width", "int"));
   ("--chrome-height", ("/modes/chrome/height", "int"));
   ("--chrome-args", ("/modes/chrome/args", "string"));
   ("--chrome-browser-binary", ("/modes/chrome/browserBinary", "string"))].

Definition cliMappingAliases : list string :=
  ["/port"; "/url"; "/documentRoot"; "/logging/enabled"; "/logging/writeToLogFile"; "/enableServer"; "/enableNativeAPI"; "/singlePageServe"; "/enableExtensions"; "/exportAuthInfo"].

Definition push_override (o : ConfigOverride) : M unit :=
  modify (upd_settings (fun s =>
    {| options := options s; globalArgs := globalArgs s; appPath := appPath s;
       systemDataPath := systemDataPath s; appDataPath := appDataPath s;
       configFile := configFile s; localeName := localeName s;
       configOverrides := configOverrides s ++ [o] |})).

Definition applyConfigOverride (arg : CliArg) : M unit :=
  match omap_get (arg_key arg) cliMappings with
  | None => mret tt
  | Some (key, convertTo) =>
      if bool_decide (arg_key arg = "--mode") && negb (mem (arg_value arg) getModes) then
        log_error errors.NE_CF_UNSUPMD (arg_value arg)
      else
        let value :=
          if bool_decide (convertTo = "bool") && isempty (arg_value arg) then "true"
          else arg_value arg in
        push_override {| co_key := key; co_value := value; co_convertTo := convertTo |} ;;
        if mem key cliMappingAliases then
          mapM_ (fun mode => push_override
            {| co_key := "/modes/" +:+ mode +:+ key; co_value := value;
               co_convertTo := convertTo |}) getModes
        else mret tt
  end.
End settings.
End settings.
