(* ===== verification/Folders.v ===== *)
(** * The folders of the user: lib/platformfolders/platform_folders.cpp

    The Linux branches.  The functions read the environment, the password
    database and the file user-dirs.dirs, and change nothing: they are functions
    of the platform state, with the exceptions that the library throws. *)

From S2P Require Import Prelude Strings OMap Outcome Json Errors State.
From Stdlib Require Import Ascii.

Module sago.

(** ** Strings with [size_t] positions *)

Definition npos : Z := (2 ^ 64 - 1)%Z.
(** [s.find(c, pos)] *)
Definition find_from (c : ascii) (s : string) (pos : Z) : Z :=
  if (Z.of_nat (slen s) <? pos)%Z then npos
  else match sfind_char c (sdrop (Z.to_nat pos) s) with
       | Some i => (pos + Z.of_nat i)%Z
       | None => npos
       end.
(** [s.substr(pos, n)] *)
Definition substr_z (s : string) (pos n : Z) : outcome string :=
  if (Z.of_nat (slen s) <? pos)%Z then Throw OutOfRange
  else Ret (stake (Z.to_nat (Z.min n (Z.of_nat (slen s)))) (sdrop (Z.to_nat pos) s)).

(** the lines that [getline] reads from a file *)
Fixpoint lines_go (cur : list ascii) (l : list ascii) : list string :=
  match l with
  | [] => match cur with [] => [] | _ => [of_list (rev cur)] end
  | c :: l =>
      if decide (c = "010"%char) then of_list (rev cur) :: lines_go [] l
      else lines_go (c :: cur) l
  end.
Definition getlines (s : string) : list string := lines_go [] (to_list s).

(** the text of [throwOnRelative], cut to its buffer of 200 characters *)
Definition relative_error (envName envValue : string) : string :=
  stake 199 ("Environment " +:+ quoted envName +:+
    " does not start with an '/'. XDG specifies that the value must be absolute. The current value is: "
    +:+ quoted envValue).
Definition throwOnRelative (envName envValue : string) : outcome unit :=
  if starts_with "/" envValue then Ret tt else Throw (RuntimeError (relative_error envName envValue)).

(** ** user-dirs.dirs *)

Definition skipped_line (line : string) : bool :=
  isempty line || starts_with "#" line || negb (bool_decide (stake 4 line = "XDG_"))
  || negb (bool_decide (is_Some (sfind "_DIR" line))).

(** the [try] block of a line: key and value *)
Definition read_line (line : string) : outcome (string * string) :=
  let splitPos := find_from "="%char line 0 in
  key ← substr_z line 0 splitPos;
  let valueStart := find_from "034"%char line splitPos in
  let valueEnd := find_from "034"%char line (wrapU 64 (valueStart + 1)) in
  value ← substr_z line (wrapU 64 (valueStart + 1)) (wrapU 64 (valueEnd - valueStart - 1));
  Ret (key, value).

(** A line that throws is skipped with a warning; [FoldersFacts.read_line_returns]
    shows that there is none. *)
Definition add_line (folders : list (string * string)) (line : string) : list (string * string) :=
  if skipped_line line then folders
  else match read_line line with
       | Ret (key, value) => omap_set key value folders
       | _ => folders
       end.

Definition default_folders : list (string * string) :=
  foldl (fun m kv => omap_set kv.1 kv.2 m) []
    [("XDG_DOCUMENTS_DIR", "$HOME/Documents"); ("XDG_DESKTOP_DIR", "$HOME/Desktop");
     ("XDG_DOWNLOAD_DIR", "$HOME/Downloads"); ("XDG_MUSIC_DIR", "$HOME/Music");
     ("XDG_PICTURES_DIR", "$HOME/Pictures"); ("XDG_PUBLICSHARE_DIR", "$HOME/Public");
     ("XDG_TEMPLATES_DIR", "$HOME/.Templates"); ("XDG_VIDEOS_DIR", "$HOME/Videos")].

Section sago.
Context `{Platform}.

(** HOME counts for users other than root *)
Definition getHome (y : sys) : outcome string :=
  match (if (sys_getuid y =? 0)%Z then None else sys_getenv "HOME" y) with
  | Some homeEnv => Ret homeEnv
  | None =>
      match sys_getpwuid_r y with
      | PwError => Throw (RuntimeError "Unable to get passwd struct.")
      | PwNone => Undef
      | PwEntry None => Throw (RuntimeError "User has no home directory")
      | PwEntry (Some pw_dir) => Ret pw_dir
      end
  end.

Definition getLinuxFolderDefault (envName defaultRelativePath : string) (y : sys) : outcome string :=
  match sys_getenv envName y with
  | Some tempRes => throwOnRelative envName tempRes ;; Ret tempRes
  | None => home ← getHome y; Ret (home +:+ "/" +:+ defaultRelativePath)
  end.

Definition getDataHome : sys -> outcome string := getLinuxFolderDefault "XDG_DATA_HOME" ".local/share".
Definition getConfigHome : sys -> outcome string := getLinuxFolderDefault "XDG_CONFIG_HOME" ".config".
Definition getCacheDir : sys -> outcome string := getLinuxFolderDefault "XDG_CACHE_HOME" ".cache".

Definition PlatformFoldersAddFromFile (filename : string) (folders : list (string * string))
    (y : sys) : list (string * string) :=
  match sys_read filename y with
  | Some data => foldl add_line folders (getlines data)
  | None => folders
  end.

Definition expand_home (kv : string * string) (y : sys) : outcome (string * string) :=
  if starts_with "$HOME" kv.2 then
    home ← getHome y; rest ← substr kv.2 5; Ret (kv.1, home +:+ rest)
  else Ret kv.

(** the constructor of [PlatformFolders] *)
Definition PlatformFoldersFillData (y : sys) : outcome (list (string * string)) :=
  configHome ← getConfigHome y;
  omapM (fun kv => expand_home kv y)
    (PlatformFoldersAddFromFile (configHome +:+ "/user-dirs.dirs") default_folders y).

Definition platform_folder (key : string) (y : sys) : outcome string :=
  folders ← PlatformFoldersFillData y;
  Ret (default EmptyString (omap_get key folders)).

Definition getDocumentsFolder : sys -> outcome string := platform_folder "XDG_DOCUMENTS_DIR".
Definition getDesktopFolder : sys -> outcome string := platform_folder "XDG_DESKTOP_DIR".
Definition getPicturesFolder : sys -> outcome string := platform_folder "XDG_PICTURES_DIR".
Definition getPublicFolder : sys -> outcome string := platform_folder "XDG_PUBLICSHARE_DIR".
Definition getDownloadFolder : sys -> outcome string := platform_folder "XDG_DOWNLOAD_DIR".
Definition getMusicFolder : sys -> outcome string := platform_folder "XDG_MUSIC_DIR".
Definition getVideoFolder : sys -> outcome string := platform_folder "XDG_VIDEOS_DIR".
Definition getSaveGamesFolder1 (y : sys) : outcome string :=
  _ ← PlatformFoldersFillData y; getDataHome y.
Definition getSaveGamesFolder2 (y : sys) : outcome string := getSaveGamesFolder1 y.
End sago.
End sago.
