(* ===== verification/Paths.v ===== *)
(** * Known folders and path constants ([os::getPath], [fs::applyPathConstants]) *)

From S2P Require Import Prelude Strings Regex OMap Outcome Json Errors State Helpers Options Folders.
From Stdlib Require Import Ascii.

Module paths.
Import helpers settings.

Section paths.
Context `{Platform}.

(** [getpwuid(getuid())]; a null [pw_dir] is no [string] *)
Definition home_folder (y : sys) : outcome string :=
  match sys_getpwuid y with
  | None => Ret EmptyString
  | Some None => Undef
  | Some (Some pw_dir) => Ret pw_dir
  end.

(** the choice of os::getPath *)
Definition known_folder (name : string) (y : sys) : outcome string :=
  if decide (name = "config") then sago.getConfigHome y
  else if decide (name = "data") then sago.getDataHome y
  else if decide (name = "cache") then sago.getCacheDir y
  else if decide (name = "documents") then sago.getDocumentsFolder y
  else if decide (name = "pictures") then sago.getPicturesFolder y
  else if decide (name = "music") then sago.getMusicFolder y
  else if decide (name = "video") then sago.getVideoFolder y
  else if decide (name = "downloads") then sago.getDownloadFolder y
  else if decide (name = "saveGames1") then sago.getSaveGamesFolder1 y
  else if decide (name = "saveGames2") then sago.getSaveGamesFolder2 y
  else if decide (name = "temp") then sys_temp_directory_path y
  else if decide (name = "desktop") then sago.getDesktopFolder y
  else if decide (name = "home") then home_folder y
  else Ret EmptyString.

(** os::getPath *)
Definition getPath (name : string) : M string :=
  r ← sys_get (known_folder name);
  path ← lift r;
  mret (normalizePath path).

Definition pathNames : list string :=
  ["data"; "cache"; "documents"; "pictures"; "music"; "video"; "downloads";
   "saveGames1"; "saveGames2"; "temp"; "home"; "desktop"].

Fixpoint applyPathNames (names : list string) (newPath : string) : M string :=
  match names with
  | [] => mret newPath
  | pathName :: names =>
      let varSegment := smap toupper pathName in
      p ← getPath pathName;
      applyPathNames names
        (regex_replace newPath ("\$\{NL_OS" +:+ varSegment +:+ "PATH\}") p)
  end.

(** fs::applyPathConstants *)
Definition applyPathConstants (path : string) : M string :=
  appPath ← getAppPath;
  applyPathNames pathNames (regex_replace path "\$\{NL_PATH\}" appPath).

(** fs::getDirectoryName, fs::getCurrentDirectory *)
Definition getDirectoryName (filename : string) : string := c_dirname filename.
Definition getCurrentDirectory : M string := sys_get sys_cwd.
End paths.
End paths.
