(* ===== verification/Locale.v ===== *)
(** * api/os/os.cpp: the locale of the environment ([os::getLocaleInfo]) *)

From S2P Require Import Prelude Strings Regex OMap Outcome Json Errors State Helpers.
From Stdlib Require Import Ascii.

Record LocaleInfo := { li_locale : string; li_language : string; li_region : string }.

Module locale.
Import helpers.

(** [localeName.substr(0, localeName.find(c))] when [c] occurs *)
Definition cut_at (c : ascii) (s : string) : string :=
  match sfind_char c s with Some i => stake i s | None => s end.

Definition __parseLocaleInfo (localeName : string) : LocaleInfo :=
  let localeName := cut_at "." localeName in
  let localeName := cut_at "@" localeName in
  let localeName := smap (fun c => if decide (c = "_"%char) then "-"%char else c) localeName in
  let localeParts := split localeName "-"%char in
  {| li_locale := localeName;
     li_language := default EmptyString (head localeParts);
     li_region := if 1 <? length localeParts
                  then default EmptyString (localeParts !! (length localeParts - 1)) else EmptyString |}.

Section locale.
Context `{Platform}.

Definition getLocaleInfo : M LocaleInfo :=
  let getenv k := sys_get (sys_getenv k) in
  let unset v := match v with None | Some EmptyString => true | _ => false end in
  envLocale ← getenv "LC_ALL";
  envLocale ← (if unset envLocale then getenv "LC_MESSAGES" else mret envLocale);
  envLocale ← (if unset envLocale then getenv "LANG" else mret envLocale);
  let locale := default EmptyString envLocale in
  locale ← (if isempty locale
            then c ← sys_get sys_setlocale; mret (default EmptyString c) else mret locale);
  mret (__parseLocaleInfo locale).
End locale.
End locale.
