(* ===== verification/Permission.v ===== *)
(** * auth/permission.cpp: method lists, command patterns, filesystem scopes *)

From S2P Require Import Prelude Strings Regex OMap Outcome Json Errors State Helpers Options Paths.
From Stdlib Require Import Ascii.

Inductive FileSystemAccessPermission :=
| FileSystemAccessPermissionRead
| FileSystemAccessPermissionWrite.

Module permission.
Import helpers settings paths.

(** ** Rules on strings *)

Definition __isWildcardMatch (methodMatch : string) : bool :=
  regex_match methodMatch ".*\.\*".

(** [methodParts[0]] does not exist for the empty string. *)
Definition __getModuleFromMethod (nativeMethod : string) : outcome string :=
  match splitTwo nativeMethod "."%char with
  | m :: _ => Ret m
  | [] => Undef
  end.

(** the comparison of [__isPathInScope], on a normalized path *)
Definition path_in_scope (path scope : string) : bool :=
  bool_decide (path = scope)
  || ((slen scope <? slen path)
      && bool_decide (stake (slen scope) path = scope)
      && bool_decide (to_list path !! slen scope = Some "/"%char)).

(** ** Registration *)

(** Entries [module.*] go to the modules, the others to the methods. *)
Fixpoint split_list (l : list string) : outcome (list string * list string) :=
  match l with
  | [] => Ret ([], [])
  | e :: l =>
      if __isWildcardMatch e then
        m ← __getModuleFromMethod e;
        '(ms, mods) ← split_list l; Ret (ms, m :: mods)
      else '(ms, mods) ← split_list l; Ret (e :: ms, mods)
  end.

Definition set_block (ms mods : list string) (p : PermissionState) : PermissionState :=
  {| blockedMethods := blockedMethods p ++ ms; blockedModules := blockedModules p ++ mods;
     allowedMethods := allowedMethods p; allowedModules := allowedModules p;
     allowedCommandPatterns := allowedCommandPatterns p;
     fileSystemReadScopes := fileSystemReadScopes p;
     fileSystemWriteScopes := fileSystemWriteScopes p;
     shouldCheckBlockList := true; shouldCheckAllowList := shouldCheckAllowList p;
     shouldCheckCommandAllowList := shouldCheckCommandAllowList p;
     shouldCheckScopesLists := shouldCheckScopesLists p |}.

Definition set_allow (ms mods : list string) (p : PermissionState) : PermissionState :=
  {| blockedMethods := blockedMethods p; blockedModules := blockedModules p;
     allowedMethods := allowedMethods p ++ ms; allowedModules := allowedModules p ++ mods;
     allowedCommandPatterns := allowedCommandPatterns p;
     fileSystemReadScopes := fileSystemReadScopes p;
     fileSystemWriteScopes := fileSystemWriteScopes p;
     shouldCheckBlockList := shouldCheckBlockList p; shouldCheckAllowList := true;
     shouldCheckCommandAllowList := shouldCheckCommandAllowList p;
     shouldCheckScopesLists := shouldCheckScopesLists p |}.

Definition set_commands (ps : list string) (p : PermissionState) : PermissionState :=
  {| blockedMethods := blockedMethods p; blockedModules := blockedModules p;
     allowedMethods := allowedMethods p; allowedModules := allowedModules p;
     allowedCommandPatterns := ps;
     fileSystemReadScopes := fileSystemReadScopes p;
     fileSystemWriteScopes := fileSystemWriteScopes p;
     shouldCheckBlockList := shouldCheckBlockList p;
     shouldCheckAllowList := shouldCheckAllowList p;
     shouldCheckCommandAllowList := true;
     shouldCheckScopesLists := shouldCheckScopesLists p |}.

Definition set_scopes (rs ws : list string) (check : bool) (p : PermissionState) : PermissionState :=
  {| blockedMethods := blockedMethods p; blockedModules := blockedModules p;
     allowedMethods := allowedMethods p; allowedModules := allowedModules p;
     allowedCommandPatterns := allowedCommandPatterns p;
     fileSystemReadScopes := rs; fileSystemWriteScopes := ws;
     shouldCheckBlockList := shouldCheckBlockList p;
     shouldCheckAllowList := shouldCheckAllowList p;
     shouldCheckCommandAllowList := shouldCheckCommandAllowList p;
     shouldCheckScopesLists := check |}.

Section permission.
Context `{Platform}.

Definition get_perm : M PermissionState := gets w_perm.

Definition __normalizeScopePath (path : string) : M string :=
  resolved ← applyPathConstants path;
  r ← sys_get (sys_weakly_canonical resolved);
  norm ← lift r;
  r ← sys_get (sys_absolute norm);
  norm ← lift r;
  mret (normalizePath norm).

Definition __isPathInScope (originalPath scope : string) : M bool :=
  path ← __normalizeScopePath originalPath;
  mret (path_in_scope path scope).

(** [push_back]s before an exception stay; [split_list] cannot throw, see
    [split_list_total]. *)
Definition __registerBlockList : M unit :=
  jNativeBlockList ← getOptionForCurrentMode "nativeBlockList";
  if is_null jNativeBlockList then mret tt else
  blockListVector ← lift (get_strings jNativeBlockList);
  '(ms, mods) ← lift (split_list blockListVector);
  modify (upd_perm (set_block ms mods)).

Definition __registerAllowList : M unit :=
  jNativeAllowList ← getOptionForCurrentMode "nativeAllowList";
  if is_null jNativeAllowList then mret tt else
  allowListVector ← lift (get_strings jNativeAllowList);
  '(ms, mods) ← lift (split_list allowListVector);
  modify (upd_perm (set_allow ms mods)).

Definition __regiserCommandAllowList : M unit :=
  jCommandAllowList ← getOptionForCurrentMode "commandAllowList";
  if is_null jCommandAllowList then mret tt else
  patterns ← lift (get_strings jCommandAllowList);
  modify (upd_perm (set_commands patterns)).

Definition register_scope (entry : string * json) : M unit :=
  perm ← lift (get_string entry.2);
  normalizedScope ← __normalizeScopePath entry.1;
  (if decide (perm = "read-write" \/ perm = "read") then
     modify (upd_perm (fun p => set_scopes (fileSystemReadScopes p ++ [normalizedScope])
       (fileSystemWriteScopes p) (shouldCheckScopesLists p) p))
   else mret tt) ;;
  (if decide (perm = "read-write" \/ perm = "write") then
     modify (upd_perm (fun p => set_scopes (fileSystemReadScopes p)
       (fileSystemWriteScopes p ++ [normalizedScope]) (shouldCheckScopesLists p) p))
   else mret tt).

Definition __registerScopesLists : M unit :=
  jScopes ← getOptionForCurrentMode "filesystemScopes";
  if is_null jScopes then mret tt else
  mapM_ register_scope (jitems jScopes) ;;
  modify (upd_perm (fun p => set_scopes (fileSystemReadScopes p) (fileSystemWriteScopes p) true p)).

Definition init : M unit :=
  __registerAllowList ;;
  __registerBlockList ;;
  __regiserCommandAllowList ;;
  __registerScopesLists.

(** ** Checks *)

Definition method_access (p : PermissionState) (module nativeMethod : string) : bool :=
  if shouldCheckBlockList p then
    if mem module (blockedModules p) then false
    else if mem nativeMethod (blockedMethods p) then false
    else true
  else if shouldCheckAllowList p then
    if mem module (allowedModules p) then true
    else if mem nativeMethod (allowedMethods p) then true
    else false
  else true.

Definition hasMethodAccess (nativeMethod : string) : M bool :=
  module ← lift (__getModuleFromMethod nativeMethod);
  p ← get_perm;
  mret (method_access p module nativeMethod).

Definition hasAPIAccess : M bool :=
  jEnableNativeAPI ← getOptionForCurrentMode "enableNativeAPI";
  if negb (is_null jEnableNativeAPI) then lift (get_bool jEnableNativeAPI) else mret false.

Definition command_access (p : PermissionState) (command : string) : bool :=
  if negb (shouldCheckCommandAllowList p)
     || (match allowedCommandPatterns p with [] => true | _ => false end) then true
  else match tokenizeCommand command with
       | [] => false
       | program :: _ =>
           existsb (fun pattern => globalMatch program pattern) (allowedCommandPatterns p)
       end.

Definition hasCommandExecutionAccess (command : string) : M bool :=
  p ← get_perm; mret (command_access p command).

Definition hasFileSystemPathAccess (path : string) (perm : FileSystemAccessPermission) : M bool :=
  p ← get_perm;
  if negb (shouldCheckScopesLists p) then mret true else
  let activeScopes :=
    match perm with
    | FileSystemAccessPermissionWrite => fileSystemWriteScopes p
    | FileSystemAccessPermissionRead => fileSystemReadScopes p
    end in
  match activeScopes with
  | [] => mret false
  | _ =>
      r ← find_mapM (fun scope =>
            b ← __isPathInScope path scope; mret (if (b : bool) then Some tt else None)) activeScopes;
      mret (bool_decide (is_Some r))
  end.
End permission.
End permission.
