(* ===== verification/Auth.v ===== *)
(** * auth/authbasic.cpp: the access token and the connect token *)

From S2P Require Import Prelude Strings Regex OMap Outcome Json Errors State Helpers Options.
From Stdlib Require Import Ascii.

Module authbasic.
Import helpers settings.

Section authbasic.
Context `{Platform}.

Definition set_tokens (t c : string) (a : AuthState) : AuthState :=
  {| token := t; connectToken := c; tokenSecurity := tokenSecurity a; tokenSent := tokenSent a |}.
Definition set_security (s : TokenSecurity) (a : AuthState) : AuthState :=
  {| token := token a; connectToken := connectToken a; tokenSecurity := s; tokenSent := tokenSent a |}.
Definition set_sent (a : AuthState) : AuthState :=
  {| token := token a; connectToken := connectToken a; tokenSecurity := tokenSecurity a; tokenSent := true |}.

Definition init : M unit :=
  t ← generateToken;
  modify (upd_auth (fun a => set_tokens t (connectToken a) a)) ;;
  c ← lift (match splitTwo t "."%char !! 1 with Some c => Ret c | None => Undef end);
  modify (upd_auth (fun a => set_tokens (token a) c a)) ;;
  jTokenSecurity ← getOptionForCurrentMode "tokenSecurity";
  if negb (is_null jTokenSecurity) then
    s ← lift (get_string jTokenSecurity);
    modify (upd_auth (set_security
      (if decide (s = "one-time") then TokenSecurityOneTime else TokenSecurityNone)))
  else mret tt.

Definition getTokenInternal : M string := gets (fun w => token (w_auth w)).
Definition getConnectTokenInternal : M string := gets (fun w => connectToken (w_auth w)).

Definition getToken : M string :=
  a ← gets w_auth;
  if tokenSent a && (match tokenSecurity a with TokenSecurityOneTime => true | _ => false end)
  then mret EmptyString
  else modify (upd_auth set_sent) ;; getTokenInternal.

Definition verifyToken (accessToken : string) : M bool :=
  t ← getTokenInternal; mret (bool_decide (t = accessToken)).

Definition verifyConnectToken (inConnectToken : string) : M bool :=
  t ← getConnectTokenInternal; mret (bool_decide (t = inConnectToken)).

(** the auth_info.json document *)
Definition __makeAuthInfoPayload : M json :=
  t ← getTokenInternal;
  c ← getConnectTokenInternal;
  j ← getOptionForCurrentMode "port";
  port ← lift (get_int j);
  mret (mk_obj [("nlToken", JStr t); ("nlConnectToken", JStr c); ("nlPort", of_int port)]).
End authbasic.
End authbasic.
