(* ===== verification/Connections.v ===== *)
(** * server/neuserver.cpp and api/events/events.cpp: connections and messages

    A connection is the handle the transport gives it, with its resource (the
    request URL) and host.  Handles are ordered by [owner_less], here by number. *)

From S2P Require Import Prelude Strings Regex OMap Outcome Json Errors State Helpers Options Auth.
From Stdlib Require Import Ascii.

Record connection := Connection {
  con_hdl : Z;
  con_resource : string;
  con_host : string
}.

Module extensions.
Section extensions.
Context `{Platform}.

(** extensions_loader.cpp *)
Definition loadOne (extensionId : string) : M unit :=
  modify (upd_ext (fun e => {| loadedExtensions := loadedExtensions e ++ [extensionId];
                               ext_initialized := ext_initialized e |})).
Definition getLoaded : M (list string) := gets (fun w => loadedExtensions (w_ext w)).
Definition isLoaded (extensionId : string) : M bool :=
  gets (fun w => mem extensionId (loadedExtensions (w_ext w))).
Definition isInitialized : M bool := gets (fun w => ext_initialized (w_ext w)).
End extensions.
End extensions.

Module neuserver.
Import helpers settings authbasic.

(** ** URLs and headers *)

Definition __isExtensionEndpoint (url : string) : bool := regex_match url ".*extensionId=.*".
Definition __hasConnectToken (url : string) : bool := regex_match url ".*connectToken=.*".

Definition __getParamValueFromUrl (url param : string) : string :=
  match regex_search url (param +:+ "=([\w.\-_]+)") with
  | Some m => default EmptyString (sub_match url m 1)
  | None => EmptyString
  end.
Definition __getExtensionIdFromUrl (url : string) : string := __getParamValueFromUrl url "extensionId".
Definition __getConnectTokenFromUrl (url : string) : string := __getParamValueFromUrl url "connectToken".

(** [stoll] can throw [out_of_range]; the size is computed in [long long]. *)
Definition __getFileReaderOptionsFromHeaders (range : option string) : outcome FileReaderOptions :=
  match range with
  | None => Ret no_reader_options
  | Some h =>
      match regex_match_caps h "bytes=(\d+)-(\d*)?" with
      | None => Ret no_reader_options
      | Some m =>
          pos ← of_num (stoll (default EmptyString (sub_match h m 1)));
          match sub_match h m 2 with
          | Some e =>
              if isempty e then Ret {| ro_pos := pos; ro_size := -1 |}
              else
                endp ← of_num (stoll e);
                if (pos <=? endp)%Z then
                  if (endp - pos + 1 <=? 2 ^ 63 - 1)%Z then Ret {| ro_pos := pos; ro_size := endp - pos + 1 |}
                  else Undef
                else Ret {| ro_pos := pos; ro_size := -1 |}
          | None => Ret {| ro_pos := pos; ro_size := -1 |}
          end
      end
  end.

(** ** State updates *)

Definition set_apps (f : list (Z * unit) -> list (Z * unit)) (s : ServerState) : ServerState :=
  {| appConnections := f (appConnections s); extConnections := extConnections s;
     wsMode := wsMode s; srv_initialized := srv_initialized s;
     applyConfigHeaders := applyConfigHeaders s; sent := sent s; idleChecks := idleChecks s;
     listening := listening s |}.
Definition set_exts (f : list (string * Z) -> list (string * Z)) (s : ServerState) : ServerState :=
  {| appConnections := appConnections s; extConnections := f (extConnections s);
     wsMode := wsMode s; srv_initialized := srv_initialized s;
     applyConfigHeaders := applyConfigHeaders s; sent := sent s; idleChecks := idleChecks s;
     listening := listening s |}.
Definition set_wsMode (f : list (Z * opcode) -> list (Z * opcode)) (s : ServerState) : ServerState :=
  {| appConnections := appConnections s; extConnections := extConnections s;
     wsMode := f (wsMode s); srv_initialized := srv_initialized s;
     applyConfigHeaders := applyConfigHeaders s; sent := sent s; idleChecks := idleChecks s;
     listening := listening s |}.
Definition set_flags (ini hdrs lst : bool) (s : ServerState) : ServerState :=
  {| appConnections := appConnections s; extConnections := extConnections s;
     wsMode := wsMode s; srv_initialized := ini; applyConfigHeaders := hdrs; sent := sent s;
     idleChecks := idleChecks s; listening := lst |}.
Definition add_sent (m : Z * opcode * string) (s : ServerState) : ServerState :=
  {| appConnections := appConnections s; extConnections := extConnections s;
     wsMode := wsMode s; srv_initialized := srv_initialized s;
     applyConfigHeaders := applyConfigHeaders s; sent := sent s ++ [m]; idleChecks := idleChecks s;
     listening := listening s |}.
Definition set_idle (f : nat -> nat) (s : ServerState) : ServerState :=
  {| appConnections := appConnections s; extConnections := extConnections s;
     wsMode := wsMode s; srv_initialized := srv_initialized s;
     applyConfigHeaders := applyConfigHeaders s; sent := sent s; idleChecks := f (idleChecks s);
     listening := listening s |}.

Section neuserver.
Context `{Platform}.

Definition get_server : M ServerState := gets w_server.

(** [server->send(hdl, payload, op)] *)
Definition send (hdl : Z) (payload : string) (op : opcode) : M unit :=
  ok ← sys_get (ws_can_send hdl);
  if (ok : bool) then modify (upd_server (add_sent (hdl, op, payload))) else throw OtherError.

Definition op_of (hdl : Z) : M opcode :=
  s ← get_server; mret (default OpText (omap_get hdl (wsMode s))).

Definition broadcastToAllExtensions (message : json) : M unit :=
  s ← get_server;
  mapM_ (fun c => op ← op_of c.2; send c.2 (json_dump message) op) (extConnections s).

Definition broadcastToAllApps (message : json) : M unit :=
  s ← get_server;
  mapM_ (fun c => send c.1 (json_dump message) OpText) (appConnections s).

Definition broadcast (message : json) : M unit :=
  broadcastToAllApps message ;;
  broadcastToAllExtensions message.

Definition sendToExtension (extensionId : string) (message : json) : M bool :=
  s ← get_server;
  match omap_get extensionId (extConnections s) with
  | Some hdl =>
      op ← op_of hdl;
      send hdl (json_dump message) op ;;
      mret true
  | None => mret false
  end.

Definition getConnectedExtensions : M (list string) :=
  s ← get_server; mret (extConnections s).*1.

Definition isInitialized : M bool := gets (fun w => srv_initialized (w_server w)).

Definition stop : M unit :=
  modify (upd_server (fun s => set_flags (srv_initialized s) (applyConfigHeaders s) false s)).

(** [documentRoot.back()] is undefined when the configured value is empty. *)
Definition getDocumentRoot : M string :=
  jDocumentRoot ← getOptionForCurrentMode "documentRoot";
  if negb (is_null jDocumentRoot) then
    documentRoot ← lift (get_string jDocumentRoot);
    match sback documentRoot with
    | None => undef
    | Some c => mret (if decide (c = "/"%char) then spop_back documentRoot else documentRoot)
    end
  else mret EmptyString.

(** the thread that sleeps 10 s before it looks *)
Definition __exitProcessIfIdle : M unit := modify (upd_server (set_idle S)).

Definition init : M string :=
  jPort ← getOptionForCurrentMode "port";
  port ← (if negb (is_null jPort) then lift (get_int jPort) else mret 0%Z);
  mode ← getMode;
  let hostAddress := if decide (mode = AppModeCloud) then "0.0.0.0" else "127.0.0.1" in
  r ← sys_get (ws_listen hostAddress port);
  actualPort ← (match r with Some p => mret p | None => throw OtherError end);
  modify (upd_server (fun s => set_flags (srv_initialized s) (applyConfigHeaders s) true s)) ;;
  (if decide (port = actualPort) then mret tt else setPort actualPort) ;;
  let navigationUrl := "http://127.0.0.1:" +:+ to_string actualPort in
  jUrl ← getOptionForCurrentMode "url";
  navigationUrl ←
    (if negb (is_null jUrl) then
       url ← lift (get_string jUrl);
       mret (if regex_match url "^/.*" then navigationUrl +:+ url else url)
     else mret navigationUrl);
  modify (upd_server (fun s => set_flags true (applyConfigHeaders s) (listening s) s)) ;;
  jHeaders ← getOptionForCurrentMode "serverHeaders";
  (if negb (is_null jHeaders) then
     modify (upd_server (fun s => set_flags (srv_initialized s) true (listening s) s))
   else mret tt) ;;
  mret navigationUrl.
End neuserver.
End neuserver.

(** ** api/events/events.cpp *)

Module events.
Import neuserver.

Definition __makeEventPayload (event : string) (data : json) : json :=
  mk_obj [("event", JStr event); ("data", data)].

Section events.
Context `{Platform}.

Definition dispatch (event : string) (data : json) : M unit :=
  broadcast (__makeEventPayload event data).
Definition dispatchToAllExtensions (event : string) (data : json) : M unit :=
  broadcastToAllExtensions (__makeEventPayload event data).
Definition dispatchToAllApps (event : string) (data : json) : M unit :=
  broadcastToAllApps (__makeEventPayload event data).
Definition dispatchToExtension (extensionId event : string) (data : json) : M bool :=
  sendToExtension extensionId (__makeEventPayload event data).
End events.
End events.

(** ** The transport's handlers *)

Module handlers.
Import helpers settings neuserver events.

Section handlers.
Context `{Platform}.

Definition n_clients (s : ServerState) : json :=
  of_uint (Z.of_nat (length (appConnections s) + length (extConnections s))).

Definition handleConnect (con : connection) : M unit :=
  let url := con_resource con in
  (if __isExtensionEndpoint url then
     let extensionId := __getExtensionIdFromUrl url in
     modify (upd_server (set_exts (omap_set extensionId (con_hdl con)))) ;;
     dispatch "extClientConnect" (JStr extensionId)
   else
     modify (upd_server (set_apps (omap_set (con_hdl con) tt))) ;;
     s ← get_server;
     dispatch "appClientConnect" (of_uint (Z.of_nat (length (appConnections s))))) ;;
  s ← get_server;
  dispatch "clientConnect" (n_clients s).

Definition handleDisconnect (con : connection) : M unit :=
  modify (upd_server (set_wsMode (omap_del (con_hdl con)))) ;;
  let url := con_resource con in
  (if __isExtensionEndpoint url then
     let extensionId := __getExtensionIdFromUrl url in
     modify (upd_server (set_exts (omap_del extensionId))) ;;
     dispatch "extClientDisconnect" (JStr extensionId)
   else
     mode ← getMode;
     modify (upd_server (set_apps (omap_del (con_hdl con)))) ;;
     (if decide (mode = AppModeBrowser \/ mode = AppModeChrome)
      then __exitProcessIfIdle else mret tt) ;;
     s ← get_server;
     dispatch "appClientDisconnect" (of_uint (Z.of_nat (length (appConnections s))))) ;;
  s ← get_server;
  dispatch "clientDisconnect" (n_clients s).

Definition handleValidate (con : connection) : M bool :=
  let url := con_resource con in
  let host := con_host con in
  bad ← (if bool_decide (host = "localhost") || bool_decide (host = "127.0.0.1") then mret false
         else mode ← getMode; mret (bool_decide (mode <> AppModeCloud)));
  if (bad : bool) then mret false else
  if negb (__hasConnectToken url) then mret false else
  ok ← authbasic.verifyConnectToken (__getConnectTokenFromUrl url);
  if negb ok then mret false else
  if __isExtensionEndpoint url then extensions.isLoaded (__getExtensionIdFromUrl url)
  else mret true.
End handlers.
End handlers.
