(* ===== verification/Base64.v ===== *)
(** * lib/base64/base64.hpp: the codec of the binary file calls *)

From S2P Require Import Prelude Strings.
From Stdlib Require Import Ascii.

Module base64.
Local Open Scope Z_scope.

Definition base64_chars : string :=
  "ABCDEFGHIJKLMNOPQRSTUVWXYZabcdefghijklmnopqrstuvwxyz0123456789+/".

(** [base64_chars.at(i)]; [i] is masked to 6 bits *)
Definition char_at (i : Z) : ascii :=
  default "A"%char (to_list base64_chars !! Z.to_nat i).

Definition byte_val (c : ascii) : Z := Z.of_N (code c).

(** [bits >> n & mask] *)
Definition field (bits n mask : Z) : Z := Z.land (Z.shiftr bits n) mask.

(** The loop: [counter] and the 32-bit [bit_stream] are carried, [offset] is
    what the last iteration left. *)
Fixpoint enc_go (counter bit_stream offset : Z) (data : list ascii) : list ascii :=
  match data with
  | [] =>
      if offset =? 16 then [char_at (field bit_stream 12 63); "="; "="]%char
      else if offset =? 8 then [char_at (field bit_stream 6 63); "="]%char
      else []
  | c :: data =>
      let num_val := byte_val c in
      let offset := 16 - counter mod 3 * 8 in
      let bit_stream := wrapU 32 (bit_stream + Z.shiftl num_val offset) in
      (if offset =? 16 then [char_at (field bit_stream 18 63)] else [])
      ++ (if offset =? 8 then [char_at (field bit_stream 12 63)] else [])
      ++ (if (offset =? 0) && negb (counter =? 3)
          then char_at (field bit_stream 6 63) :: char_at (field bit_stream 0 63)
               :: enc_go (counter + 1) 0 offset data
          else enc_go (counter + 1) bit_stream offset data)
  end.

Definition to_base64 (data : string) : string := of_list (enc_go 0 0 0 (to_list data)).

(** [base64_chars.find(c)] *)
Fixpoint find_char (c : ascii) (i : Z) (l : list ascii) : option Z :=
  match l with
  | [] => None
  | x :: l => if decide (x = c) then Some i else find_char c (i + 1) l
  end.

Definition to_char (z : Z) : ascii := chr (Z.to_N z).

(** [None] is the early return of an empty string. *)
Fixpoint dec_go (counter bit_stream : Z) (data : list ascii) : option (list ascii) :=
  match data with
  | [] => Some []
  | c :: data =>
      match find_char c 0 (to_list base64_chars) with
      | Some num_val =>
          let offset := 18 - counter mod 4 * 6 in
          let bit_stream := wrapU 32 (bit_stream + Z.shiftl num_val offset) in
          let out :=
            (if offset =? 12 then [to_char (field bit_stream 16 255)] else [])
            ++ (if offset =? 6 then [to_char (field bit_stream 8 255)] else [])
            ++ (if (offset =? 0) && negb (counter =? 4) then [to_char (field bit_stream 0 255)] else []) in
          let bit_stream := if (offset =? 0) && negb (counter =? 4) then 0 else bit_stream in
          (fun r => out ++ r) <$> dec_go (counter + 1) bit_stream data
      | None => if decide (c = "="%char) then dec_go (counter + 1) bit_stream data else None
      end
  end.

Definition from_base64 (data : string) : string :=
  match dec_go 0 0 (to_list data) with
  | Some l => of_list l
  | None => EmptyString
  end.

(** ** Round trip *)

Lemma find_char_at i :
  0 <= i < 64 -> find_char (char_at i) 0 (to_list base64_chars) = Some i.
Proof.
  intros Hi.
  assert (forallb (fun n => bool_decide
    (find_char (char_at (Z.of_nat n)) 0 (to_list base64_chars) = Some (Z.of_nat n))) (seq 0 64) = true)
    as H by by vm_compute.
  rewrite forallb_forall in H. specialize (H (Z.to_nat i)).
  rewrite bool_decide_eq_true, Z2Nat.id in H by lia. apply H, in_seq. lia.
Qed.

Lemma byte_val_range c : 0 <= byte_val c < 256.
Proof.
  unfold byte_val, code. pose proof (N_ascii_bounded c). lia.
Qed.

Lemma to_char_byte_val c : to_char (byte_val c) = c.
Proof.
  unfold to_char, byte_val, chr, code. rewrite N2Z.id. apply ascii_N_embedding.
Qed.

Lemma field_63 x n : 0 <= n -> field x n 63 = (x / 2 ^ n) mod 64.
Proof.
  intros. unfold field. change 63 with (Z.ones 6). rewrite Z.land_ones by lia.
  by rewrite Z.shiftr_div_pow2.
Qed.

Lemma field_255 x n : 0 <= n -> field x n 255 = (x / 2 ^ n) mod 256.
Proof.
  intros. unfold field. change 255 with (Z.ones 8). rewrite Z.land_ones by lia.
  by rewrite Z.shiftr_div_pow2.
Qed.

Lemma to_char_eq z c : z = byte_val c -> to_char z = c.
Proof. intros ->. apply to_char_byte_val. Qed.

(** One step of the encoder, one of the decoder, as equations in the offset. *)
Lemma enc_step k bs off0 c r off :
  16 - k mod 3 * 8 = off ->
  enc_go k bs off0 (c :: r) =
  let bs' := wrapU 32 (bs + Z.shiftl (byte_val c) off) in
  (if off =? 16 then [char_at (field bs' 18 63)] else [])
  ++ (if off =? 8 then [char_at (field bs' 12 63)] else [])
  ++ (if (off =? 0) && negb (k =? 3)
      then char_at (field bs' 6 63) :: char_at (field bs' 0 63) :: enc_go (k + 1) 0 off r
      else enc_go (k + 1) bs' off r).
Proof. by intros <-. Qed.

Lemma dec_step k bs i r off :
  18 - k mod 4 * 6 = off -> 0 <= i < 64 ->
  dec_go k bs (char_at i :: r) =
  let bs' := wrapU 32 (bs + Z.shiftl i off) in
  let out :=
    (if off =? 12 then [to_char (field bs' 16 255)] else [])
    ++ (if off =? 6 then [to_char (field bs' 8 255)] else [])
    ++ (if (off =? 0) && negb (k =? 4) then [to_char (field bs' 0 255)] else []) in
  (fun r => out ++ r) <$> dec_go (k + 1) (if (off =? 0) && negb (k =? 4) then 0 else bs') r.
Proof. intros <- Hi. cbn [dec_go]. by rewrite find_char_at. Qed.

Ltac b64_arith :=
  rewrite ?field_63, ?field_255 by lia; unfold wrapU; rewrite ?Z.shiftl_mul_pow2 by lia;
  change (2 ^ 32) with 4294967296; change (2 ^ 18) with 262144; change (2 ^ 16) with 65536;
  change (2 ^ 12) with 4096; change (2 ^ 8) with 256; change (2 ^ 6) with 64;
  change (2 ^ 0) with 1; Z.div_mod_to_equations; lia.

Ltac b64_out :=
  simpl; apply (f_equal Some); repeat (apply (f_equal2 cons); [apply to_char_eq; b64_arith|]); reflexivity.

(** the 6-bit groups of one to three bytes *)
Lemma enc_one k off a :
  k mod 3 = 0 -> enc_go k 0 off [a] =
  [char_at (byte_val a / 4); char_at (byte_val a mod 4 * 16); "="; "="]%char.
Proof.
  intros Hk. pose proof (byte_val_range a). rewrite (enc_step _ _ _ _ _ 16) by lia. simpl.
  repeat f_equal; b64_arith.
Qed.

Lemma enc_two k off a b :
  k mod 3 = 0 -> enc_go k 0 off [a; b] =
  [char_at (byte_val a / 4); char_at (byte_val a mod 4 * 16 + byte_val b / 16);
   char_at (byte_val b mod 16 * 4); "="]%char.
Proof.
  intros Hk. pose proof (byte_val_range a). pose proof (byte_val_range b).
  rewrite (enc_step _ _ _ _ _ 16) by lia. cbn [Z.eqb Pos.eqb andb app].
  rewrite (enc_step _ _ _ _ _ 8) by (Z.div_mod_to_equations; lia). simpl.
  repeat f_equal; b64_arith.
Qed.

Lemma enc_three k off a b c r :
  0 <= k -> k mod 3 = 0 -> enc_go k 0 off (a :: b :: c :: r) =
  char_at (byte_val a / 4) :: char_at (byte_val a mod 4 * 16 + byte_val b / 16)
  :: char_at (byte_val b mod 16 * 4 + byte_val c / 64) :: char_at (byte_val c mod 64)
  :: enc_go (k + 3) 0 0 r.
Proof.
  intros Hk0 Hk.
  pose proof (byte_val_range a). pose proof (byte_val_range b). pose proof (byte_val_range c).
  rewrite (enc_step _ _ _ _ _ 16) by lia. cbn [Z.eqb Pos.eqb andb app].
  rewrite (enc_step _ _ _ _ _ 8) by (Z.div_mod_to_equations; lia). cbn [Z.eqb Pos.eqb andb app].
  rewrite (enc_step _ _ _ _ _ 0) by (Z.div_mod_to_equations; lia). cbn [Z.eqb Pos.eqb andb app].
  destruct (Z.eqb_spec (k + 1 + 1) 3); [Z.div_mod_to_equations; lia|]. cbn [negb].
  replace (k + 1 + 1 + 1) with (k + 3) by lia.
  repeat f_equal; b64_arith.
Qed.

Lemma dec_enc_go n k d data :
  (length data <= n)%nat -> 0 <= k -> 0 <= d -> k mod 3 = 0 -> d mod 4 = 0 ->
  dec_go d 0 (enc_go k 0 0 data) = Some data.
Proof.
  revert k d data; induction n as [|n IH]; intros k d data Hn Hk0 Hd0 Hk Hd;
    destruct data as [|a [|b [|c r]]]; simpl in Hn; try lia; try done.
  - pose proof (byte_val_range a). rewrite enc_one by done.
    rewrite (dec_step _ _ _ _ 18) by (Z.div_mod_to_equations; lia). cbn [Z.eqb Pos.eqb andb app].
    rewrite (dec_step _ _ _ _ 12) by (Z.div_mod_to_equations; lia). b64_out.
  - pose proof (byte_val_range a). pose proof (byte_val_range b). rewrite enc_two by done.
    rewrite (dec_step _ _ _ _ 18) by (Z.div_mod_to_equations; lia). cbn [Z.eqb Pos.eqb andb app].
    rewrite (dec_step _ _ _ _ 12) by (Z.div_mod_to_equations; lia). cbn [Z.eqb Pos.eqb andb app].
    rewrite (dec_step _ _ _ _ 6) by (Z.div_mod_to_equations; lia). b64_out.
  - pose proof (byte_val_range a). pose proof (byte_val_range b). pose proof (byte_val_range c).
    rewrite enc_three by done.
    rewrite (dec_step _ _ _ _ 18) by (Z.div_mod_to_equations; lia). cbn [Z.eqb Pos.eqb andb app].
    rewrite (dec_step _ _ _ _ 12) by (Z.div_mod_to_equations; lia). cbn [Z.eqb Pos.eqb andb app].
    rewrite (dec_step _ _ _ _ 6) by (Z.div_mod_to_equations; lia). cbn [Z.eqb Pos.eqb andb app].
    rewrite (dec_step _ _ _ _ 0) by (Z.div_mod_to_equations; lia). cbn [Z.eqb Pos.eqb andb app].
    destruct (Z.eqb_spec (d + 1 + 1 + 1) 4); [Z.div_mod_to_equations; lia|]. cbn [negb].
    rewrite IH by (Z.div_mod_to_equations; lia). b64_out.
Qed.

Local Close Scope Z_scope.

Lemma decode_encode data : from_base64 (to_base64 data) = data.
Proof.
  unfold from_base64, to_base64. rewrite to_of_list.
  rewrite (dec_enc_go (length (to_list data))) by (done || lia).
  apply of_to_list.
Qed.

(** [from_base64] inverts [to_base64] on every byte string. *)
Theorem from_to_base64 (data : string) : from_base64 (to_base64 data) = data.
Proof. apply decode_encode. Qed.
End base64.
