(* ===== verification/Fs.v ===== *)
(** * api/fs/fs.cpp: files, opened files, watchers *)

From S2P Require Import Efsw.
From S2P Require Import Prelude Strings Regex OMap Outcome Json Errors State Helpers Options Paths Auth Connections Base64.
From Stdlib Require Import Ascii.

Inductive EntryType := EntryTypeFile | EntryTypeDir | EntryTypeOther.
#[export] Instance EntryType_eq_dec : EqDecision EntryType.
Proof. solve_decision. Defined.

Record FileReaderResult := { fr_status : errors.StatusCode; fr_data : string; fr_size : Z }.
Record FileWriterOptions := { fw_filename : string; fw_data : string; fw_append : bool }.
Record OpenedFileEvent := { ev_id : Z; ev_type : string; ev_pos : Z; ev_size : Z }.
(** [size], [createdAt] and [modifiedAt] are not initialised on an error, nor read. *)
Record FileStats := {
  fst_status : errors.StatusCode; fst_size : Z; fst_entryType : EntryType;
  fst_createdAt : Z; fst_modifiedAt : Z
}.
Record DirReaderEntry := { dr_name : string; dr_path : string; dr_type : EntryType }.
Record DirReaderResult := { dr_status : errors.StatusCode; dr_entries : list DirReaderEntry }.

(** ** [ifstream] *)

Module stream.
Definition open (data : string) : ifstream :=
  {| if_data := data; if_pos := 0; if_eof := false; if_fail := false; if_gcount := 0 |}.

Definition good (r : ifstream) : bool := negb (if_eof r) && negb (if_fail r).

(** [read(buffer, n)]: the bytes read ([gcount] of them) and the new state *)
Definition read (n : Z) (r : ifstream) : string * ifstream :=
  if good r then
    let avail := slen (if_data r) - if_pos r in
    let k := Z.to_nat (Z.min n (Z.of_nat avail)) in
    let short := (Z.of_nat avail <? n)%Z in
    (stake k (sdrop (if_pos r) (if_data r)),
     {| if_data := if_data r; if_pos := if_pos r + k; if_eof := short; if_fail := short;
        if_gcount := k |})
  else
    (EmptyString,
     {| if_data := if_data r; if_pos := if_pos r; if_eof := if_eof r; if_fail := true;
        if_gcount := 0 |}).

(** [peek() != eof] *)
Definition peek (r : ifstream) : bool * ifstream :=
  if good r then
    let more := if_pos r <? slen (if_data r) in
    (more, {| if_data := if_data r; if_pos := if_pos r; if_eof := negb more; if_fail := false;
              if_gcount := 0 |})
  else
    (false, {| if_data := if_data r; if_pos := if_pos r; if_eof := if_eof r; if_fail := true;
               if_gcount := 0 |}).

(** [clear(); seekg(pos, beg)] *)
Definition clear_seekg (pos : nat) (r : ifstream) : ifstream :=
  {| if_data := if_data r; if_pos := pos; if_eof := false; if_fail := false;
     if_gcount := if_gcount r |}.

(** [tellg()]: its sentry fails on a stream at end of file *)
Definition tellg (r : ifstream) : Z * ifstream :=
  if good r then (Z.of_nat (if_pos r), r)
  else (-1, {| if_data := if_data r; if_pos := if_pos r; if_eof := if_eof r; if_fail := true;
               if_gcount := if_gcount r |})%Z.
End stream.

Module fs.
Import helpers settings paths events.

Definition NEU_DEFAULT_STREAM_BUF_SIZE : Z := 256.

Definition is_read_type (type : string) : bool :=
  mem type ["read"; "readAll"; "readBinary"; "readAllBinary"].

Section fs.
Context `{Platform}.

Definition get_fs : M FsState := gets w_fs.
Definition set_opened (f : list (Z * ifstream) -> list (Z * ifstream)) (s : FsState) : FsState :=
  {| openedFiles := f (openedFiles s); fileWatcher := fileWatcher s;
     watchListeners := watchListeners s; listeners := listeners s; nextListener := nextListener s |}.
Definition set_watchers (f : list (Z * (nat * string)) -> list (Z * (nat * string))) (s : FsState) : FsState :=
  {| openedFiles := openedFiles s; fileWatcher := fileWatcher s; watchListeners := f (watchListeners s);
     listeners := listeners s; nextListener := nextListener s |}.
(** [new __WatcherListener()] and [delete] *)
Definition new_listener (s : FsState) : FsState :=
  {| openedFiles := openedFiles s; fileWatcher := fileWatcher s; watchListeners := watchListeners s;
     listeners := nextListener s :: listeners s; nextListener := S (nextListener s) |}.
Definition delete_listener (l : nat) (s : FsState) : FsState :=
  {| openedFiles := openedFiles s; fileWatcher := fileWatcher s; watchListeners := watchListeners s;
     listeners := filter (fun l' => l' <> l) (listeners s); nextListener := nextListener s |}.

(** ** Whole files *)

Definition readFile (filename : string) (fileReaderOptions : FileReaderOptions) : M FileReaderResult :=
  r ← sys_get (sys_read filename);
  match r with
  | None => mret {| fr_status := errors.NE_FS_FILRDER; fr_data := EmptyString; fr_size := -1 |}
  | Some content =>
      let origSize := Z.of_nat (slen content) in
      let '(pos, size) :=
        if (-1 <? ro_pos fileReaderOptions)%Z then
          let pos := Z.min (ro_pos fileReaderOptions) origSize in (pos, origSize - pos)%Z
        else (0, origSize)%Z in
      let size :=
        if (-1 <? ro_size fileReaderOptions)%Z
        then Z.min (ro_size fileReaderOptions) size else size in
      mret {| fr_status := errors.NE_ST_OK;
              fr_data := stake (Z.to_nat size) (sdrop (Z.to_nat pos) content);
              fr_size := origSize |}
  end.

Definition writeFile (o : FileWriterOptions) : M bool := fun w =>
  match sys_write (fw_filename o) (fw_data o) (fw_append o) (w_sys w) with
  | Some s => (Ret true, upd_sys (fun _ => s) w)
  | None => (Ret false, w)
  end.

Definition getStats (path : string) : M FileStats :=
  r ← sys_get (sys_stat path);
  mret
    match r with
    | Some st =>
        {| fst_status := errors.NE_ST_OK; fst_size := st_size st;
           fst_entryType := match st_kind st with
                            | KFile => EntryTypeFile | KDir => EntryTypeDir | KOther => EntryTypeOther
                            end;
           fst_createdAt := st_ctime st * 1000; fst_modifiedAt := st_mtime st * 1000 |}
    | None =>
        {| fst_status := errors.NE_FS_NOPATHE; fst_size := 0; fst_entryType := EntryTypeOther;
           fst_createdAt := 0; fst_modifiedAt := 0 |}
    end.

Definition reader_entry (e : dir_entry) : DirReaderEntry :=
  {| dr_name := de_name e; dr_path := normalizePath (de_path e);
     dr_type := match de_kind e with
                | KDir => EntryTypeDir | KFile => EntryTypeFile | KOther => EntryTypeOther
                end |}.

Definition readDirectory (path : string) (recursive : bool) : M DirReaderResult :=
  fileStats ← getStats path;
  if decide (fst_status fileStats <> errors.NE_ST_OK) then
    mret {| dr_status := fst_status fileStats; dr_entries := [] |}
  else
    r ← sys_get (sys_list path recursive);
    entries ← lift r;
    mret {| dr_status := errors.NE_ST_OK; dr_entries := reader_entry <$> entries |}.

(** ** Opened files *)

Definition __dispatchOpenedFileEvt (virtualFileId : Z) (action : string) (data : json) : M unit :=
  dispatch "openedFile"
    (mk_obj [("id", of_int virtualFileId); ("action", JStr action); ("data", data)]).

(** The new state of the stream is stored before the event is sent. *)
Definition put_stream (id : Z) (r : ifstream) : M unit :=
  modify (upd_fs (set_opened (omap_set id r))).

Definition __readStreamBlock (evt : OpenedFileEvent) (reader : ifstream) : M ifstream :=
  let size := if (-1 <? ev_size evt)%Z then ev_size evt else NEU_DEFAULT_STREAM_BUF_SIZE in
  let '(result, reader) := stream.read size reader in
  put_stream (ev_id evt) reader ;;
  (if regex_match (ev_type evt) ".*Binary$" then
     __dispatchOpenedFileEvt (ev_id evt) "dataBinary" (JStr (base64.to_base64 result))
   else
     __dispatchOpenedFileEvt (ev_id evt) "data" (JStr result)) ;;
  mret reader.

Fixpoint __readStream_loop (fuel : nat) (evt : OpenedFileEvent) (reader : ifstream) : M ifstream :=
  match fuel with
  | 0 => lift NoFuel
  | S fuel =>
      let '(more, reader) := stream.peek reader in
      put_stream (ev_id evt) reader ;;
      if more then
        reader ← __readStreamBlock evt reader;
        if mem (ev_type evt) ["read"; "readBinary"] then mret reader
        else __readStream_loop fuel evt reader
      else mret reader
  end.

(** One iteration more than there are bytes is enough, unless the block size is 0. *)
Definition __readStream (evt : OpenedFileEvent) (reader : ifstream) : M unit :=
  if if_eof reader then __dispatchOpenedFileEvt (ev_id evt) "end" JNull
  else
    reader ← __readStream_loop (S (S (slen (if_data reader) - if_pos reader))) evt reader;
    if if_eof reader then __dispatchOpenedFileEvt (ev_id evt) "end" JNull else mret tt.

Definition openFile (filename : string) : M Z :=
  s ← get_fs;
  let virtualFileId := Z.of_nat (length (openedFiles s)) in
  r ← sys_get (sys_read filename);
  match r with
  | None => mret (-1)%Z
  | Some data => put_stream virtualFileId (stream.open data) ;; mret virtualFileId
  end.

Definition updateOpenedFile (evt : OpenedFileEvent) : M bool :=
  s ← get_fs;
  match omap_get (ev_id evt) (openedFiles s) with
  | None => mret false
  | Some reader =>
      if decide (ev_type evt = "close") then
        modify (upd_fs (set_opened (omap_del (ev_id evt)))) ;; mret true
      else if is_read_type (ev_type evt) then
        __readStream evt reader ;; mret true
      else if decide (ev_type evt = "seek") then
        let pos := if (-1 <? ev_pos evt)%Z then ev_pos evt else 0%Z in
        put_stream (ev_id evt) (stream.clear_seekg (Z.to_nat pos) reader) ;; mret true
      else mret false
  end.

(** ** Watchers *)

Definition __dispatchWatcherEvt (watcherId : Z) (dir filename : string) (action : WatchAction)
    (oldFilename : string) : M unit :=
  ts ← sys_get sys_timestamp;
  let evt := [("id", of_int watcherId); ("dir", JStr (normalizePath dir));
              ("filename", JStr filename); ("timestamp", JStr ts)] in
  dispatch "watchFile" (mk_obj (evt ++
    match action with
    | WatchAdd => [("action", JStr "add")]
    | WatchDelete => [("action", JStr "delete")]
    | WatchModified => [("action", JStr "modified")]
    | WatchMoved => [("action", JStr "moved"); ("oldFilename", JStr oldFilename)]
    end)).

(** class [__WatcherListener] *)
#[export] Instance __WatcherListener : FileWatchListener := {|
  handleFileAction watcher watcherId dir filename action oldFilename :=
    s ← get_fs;
    if mem watcher (listeners s) then __dispatchWatcherEvt watcherId dir filename action oldFilename else undef
|}.

Definition get_watcher : M watcher_impl :=
  s ← get_fs;
  match fileWatcher s with
  | Some impl => mret impl
  | None => impl ← efsw.FileWatcher; modify (upd_fs (efsw.set_impl impl)) ;; mret impl
  end.

Definition createWatcher (path : string) : M Z :=
  impl ← get_watcher;
  s ← get_fs;
  match find_first (fun e => bool_decide (e.2.2 = path)) (watchListeners s) with
  | Some (wid, _) => mret wid
  | None =>
      let listener := nextListener s in
      modify (upd_fs new_listener) ;;
      watcherId ← efsw.FileWatcher_addWatch impl path listener true;
      modify (upd_fs (set_watchers (omap_set watcherId (listener, path)))) ;;
      efsw.FileWatcher_watch impl ;;
      mret watcherId
  end.

Definition removeWatcher (watcherId : Z) : M bool :=
  s ← get_fs;
  match fileWatcher s with
  | None => mret false
  | Some impl =>
      if negb (omap_has watcherId (watchListeners s)) then mret false
      else
        efsw.FileWatcher_removeWatch impl watcherId ;;
        s ← get_fs;
        (match omap_get watcherId (watchListeners s) with
         | Some e => modify (upd_fs (delete_listener e.1))
         | None => mret tt
         end) ;;
        modify (upd_fs (set_watchers (omap_del watcherId))) ;;
        mret true
  end.

(** a turn of the watcher's thread *)
Definition watch_turn (received : option (list efsw.inotify_event)) : M unit :=
  s ← get_fs;
  match fileWatcher s with
  | Some (ImplInotify f) => if mThread f then efsw.run_turn received else mret tt
  | _ => mret tt
  end.
End fs.
End fs.
