(* ===== verification/FsControllers.v ===== *)
(** * api/fs/fs.cpp, namespace controllers: the filesystem methods

    Every controller takes the request data and returns the response object.
    Missing fields and paths outside the configured scopes are answered with
    an error object; ill-typed fields and filesystem errors throw. *)

From S2P Require Import Prelude Strings Regex OMap Outcome Json Errors State Helpers Options Paths.
From S2P Require Import Permission Auth Connections Base64 Fs.
From Stdlib Require Import Ascii.

(** ** Response objects *)

Section responses.
Context `{Platform}.

(** [output["error"] = e; return output;] *)
Definition ret_error (e : json) : M json := mret (mk_obj [("error", e)]).
Definition ret_missing (arg : string) : M json := ret_error (errors.makeMissingArgErrorPayload arg).
(** [output["success"] = true] *)
Definition ret_success : M json := mret (mk_obj [("success", JBool true)]).
Definition ret_message (m : string) : M json :=
  mret (mk_obj [("success", JBool true); ("message", JStr m)]).
Definition ret_value (v : json) : M json :=
  mret (mk_obj [("returnValue", v); ("success", JBool true)]).

(** [input[k].get<T>()] *)
Definition field {A} (input : json) (k : string) (get : json -> outcome A) : M A :=
  lift (jat input k ≫= get).
(** the same for an optional field *)
Definition field_or {A} (input : json) (k : string) (get : json -> outcome A) (d : A) : M A :=
  if helpers.hasField input k then field input k get else mret d.
End responses.

Module fs_controllers.
Import helpers settings paths permission events fs.

(** [filesystem::perms] *)
Definition perms_all : Z := 511.
Definition owner_all : Z := 448.
Definition owner_read : Z := 256.
Definition owner_write : Z := 128.
Definition owner_exec : Z := 64.
Definition group_all : Z := 56.
Definition group_read : Z := 32.
Definition group_write : Z := 16.
Definition group_exec : Z := 8.
Definition others_all : Z := 7.
Definition others_read : Z := 4.
Definition others_write : Z := 2.
Definition others_exec : Z := 1.

Section fs_controllers.
Context `{Platform}.

Definition scope_error (path : string) : M json :=
  ret_error (errors.makeErrorPayload errors.NE_FS_SCOPERR path).

Definition __writeOrAppendFile (input : json) (append : bool) : M json :=
  match missingRequiredField input ["path"; "data"] with
  | Some arg => ret_missing arg
  | None =>
      filename ← field input "path" get_string;
      data ← field input "data" get_string;
      ok ← hasFileSystemPathAccess filename FileSystemAccessPermissionWrite;
      if negb ok then scope_error filename else
      w ← writeFile {| fw_filename := filename; fw_data := data; fw_append := append |};
      if (w : bool) then ret_success
      else ret_error (errors.makeErrorPayload errors.NE_FS_FILWRER filename)
  end.

Definition __writeOrAppendBinaryFile (input : json) (append : bool) : M json :=
  match missingRequiredField input ["path"; "data"] with
  | Some arg => ret_missing arg
  | None =>
      filename ← field input "path" get_string;
      data ← field input "data" get_string;
      let data := base64.from_base64 data in
      ok ← hasFileSystemPathAccess filename FileSystemAccessPermissionWrite;
      if negb ok then scope_error filename else
      w ← writeFile {| fw_filename := filename; fw_data := data; fw_append := append |};
      if (w : bool) then ret_success
      else ret_error (errors.makeErrorPayload errors.NE_FS_FILWRER filename)
  end.

Definition createDirectory (input : json) : M json :=
  if negb (hasRequiredFields input ["path"]) then ret_missing "path" else
  path ← field input "path" get_string;
  ok ← hasFileSystemPathAccess path FileSystemAccessPermissionWrite;
  if negb ok then scope_error path else
  created ← sys_call_o (sys_create_directories path);
  if (created : bool) then ret_message ("Directory " +:+ path +:+ " was created")
  else ret_error (errors.makeErrorPayload errors.NE_FS_DIRCRER path).

Definition remove (input : json) : M json :=
  if negb (hasRequiredFields input ["path"]) then ret_missing "path" else
  path ← field input "path" get_string;
  ok ← hasFileSystemPathAccess path FileSystemAccessPermissionWrite;
  if negb ok then scope_error path else
  n ← sys_call_o (sys_remove_all path);
  if decide (n <> 0%Z) then ret_message (path +:+ " was removed")
  else ret_error (errors.makeErrorPayload errors.NE_FS_REMVERR path).

Definition reader_options (input : json) : M FileReaderOptions :=
  pos ← field_or input "pos" get_llong (-1)%Z;
  size ← field_or input "size" get_llong (-1)%Z;
  mret {| ro_pos := pos; ro_size := size |}.

Definition readFile (input : json) : M json :=
  if negb (hasRequiredFields input ["path"]) then ret_missing "path" else
  readerOptions ← reader_options input;
  path ← field input "path" get_string;
  ok ← hasFileSystemPathAccess path FileSystemAccessPermissionRead;
  if negb ok then scope_error path else
  r ← fs.readFile path readerOptions;
  if decide (fr_status r <> errors.NE_ST_OK)
  then ret_error (errors.makeErrorPayload (fr_status r) path)
  else ret_value (JStr (fr_data r)).

Definition readBinaryFile (input : json) : M json :=
  if negb (hasRequiredFields input ["path"]) then ret_missing "path" else
  readerOptions ← reader_options input;
  path ← field input "path" get_string;
  ok ← hasFileSystemPathAccess path FileSystemAccessPermissionRead;
  if negb ok then scope_error path else
  r ← fs.readFile path readerOptions;
  if decide (fr_status r <> errors.NE_ST_OK)
  then ret_error (errors.makeErrorPayload (fr_status r) path)
  else ret_value (JStr (base64.to_base64 (fr_data r))).

Definition writeFile (input : json) : M json := __writeOrAppendFile input false.
Definition appendFile (input : json) : M json := __writeOrAppendFile input true.
Definition writeBinaryFile (input : json) : M json := __writeOrAppendBinaryFile input false.
Definition appendBinaryFile (input : json) : M json := __writeOrAppendBinaryFile input true.

Definition openFile (input : json) : M json :=
  if negb (hasRequiredFields input ["path"]) then ret_missing "path" else
  path ← field input "path" get_string;
  ok ← hasFileSystemPathAccess path FileSystemAccessPermissionRead;
  if negb ok then scope_error path else
  fileId ← fs.openFile path;
  if decide (fileId = -1)%Z then ret_error (errors.makeErrorPayload errors.NE_FS_FILOPER path)
  else ret_value (of_int fileId).

Definition updateOpenedFile (input : json) : M json :=
  match missingRequiredField input ["id"; "event"] with
  | Some arg => ret_missing arg
  | None =>
      id ← field input "id" get_int;
      type ← field input "event" get_string;
      size ← (if hasField input "data" && is_read_type type
              then field input "data" get_llong else mret (-1)%Z);
      pos ← (if hasField input "data" && negb (is_read_type type) && bool_decide (type = "seek")
             then field input "data" get_llong else mret (-1)%Z);
      ok ← fs.updateOpenedFile {| ev_id := id; ev_type := type; ev_pos := pos; ev_size := size |};
      if (ok : bool) then ret_success
      else ret_error (errors.makeErrorPayload errors.NE_FS_UNLTOUP (to_string id))
  end.

Definition getOpenedFileInfo (input : json) : M json :=
  if negb (hasRequiredFields input ["id"]) then ret_missing "id" else
  fileId ← field input "id" get_int;
  s ← get_fs;
  match omap_get fileId (openedFiles s) with
  | None => ret_error (errors.makeErrorPayload errors.NE_FS_UNLTFOP (to_string fileId))
  | Some reader =>
      let '(pos, reader) := stream.tellg reader in
      put_stream fileId reader ;;
      ret_value (mk_obj [("id", of_int fileId); ("eof", JBool (if_eof reader));
                         ("pos", of_int pos); ("lastRead", of_int (Z.of_nat (if_gcount reader)))])
  end.

Definition entry_json (e : DirReaderEntry) : json :=
  let type := match dr_type e with
              | EntryTypeDir => "DIRECTORY" | EntryTypeFile => "FILE" | EntryTypeOther => "OTHER"
              end in
  mk_obj [("entry", JStr (dr_name e)); ("path", JStr (dr_path e)); ("type", JStr type)].

(** the error answers of this controller keep the empty array *)
Definition ret_dir_error (e : json) : M json :=
  mret (mk_obj [("returnValue", JArr []); ("error", e)]).

Definition readDirectory (input : json) : M json :=
  if negb (hasRequiredFields input ["path"])
  then ret_dir_error (errors.makeMissingArgErrorPayload "path") else
  path ← field input "path" get_string;
  recursive ← field_or input "recursive" get_bool false;
  ok ← hasFileSystemPathAccess path FileSystemAccessPermissionRead;
  if negb ok then ret_dir_error (errors.makeErrorPayload errors.NE_FS_SCOPERR path) else
  r ← fs.readDirectory path recursive;
  if decide (dr_status r <> errors.NE_ST_OK)
  then ret_dir_error (errors.makeErrorPayload (dr_status r) path)
  else ret_value (JArr (entry_json <$> dr_entries r)).

Definition copy (input : json) : M json :=
  match missingRequiredField input ["source"; "destination"] with
  | Some arg => ret_missing arg
  | None =>
      source ← field input "source" get_string;
      destination ← field input "destination" get_string;
      ok ← hasFileSystemPathAccess source FileSystemAccessPermissionRead;
      if negb ok then scope_error source else
      ok ← hasFileSystemPathAccess destination FileSystemAccessPermissionWrite;
      if negb ok then scope_error destination else
      recursive ← field_or input "recursive" get_bool true;
      overwrite ← field_or input "overwrite" get_bool true;
      skip ← field_or input "skip" get_bool false;
      ec ← sys_call (sys_copy source destination
             {| co_recursive := recursive; co_overwrite := overwrite; co_skip := skip |});
      if negb ec then ret_message "Copy operation was successful"
      else ret_error (errors.makeErrorPayload errors.NE_FS_COPYERR (source +:+ " -> " +:+ destination))
  end.

Definition move (input : json) : M json :=
  match missingRequiredField input ["source"; "destination"] with
  | Some arg => ret_missing arg
  | None =>
      source ← field input "source" get_string;
      destination ← field input "destination" get_string;
      ok ← hasFileSystemPathAccess source FileSystemAccessPermissionWrite;
      if negb ok then scope_error source else
      ok ← hasFileSystemPathAccess destination FileSystemAccessPermissionWrite;
      if negb ok then scope_error destination else
      ec ← sys_call (sys_rename source destination);
      if negb ec then ret_message "File move operation was successful"
      else ret_error (errors.makeErrorPayload errors.NE_FS_MOVEERR (source +:+ " -> " +:+ destination))
  end.

Definition getStats (input : json) : M json :=
  if negb (hasRequiredFields input ["path"]) then ret_missing "path" else
  path ← field input "path" get_string;
  ok ← hasFileSystemPathAccess path FileSystemAccessPermissionRead;
  if negb ok then scope_error path else
  st ← fs.getStats path;
  if decide (fst_status st = errors.NE_ST_OK) then
    ret_value (mk_obj [("size", of_int (fst_size st));
      ("isFile", JBool (bool_decide (fst_entryType st = EntryTypeFile)));
      ("isDirectory", JBool (bool_decide (fst_entryType st = EntryTypeDir)));
      ("createdAt", of_int (fst_createdAt st)); ("modifiedAt", of_int (fst_modifiedAt st))])
  else ret_error (errors.makeErrorPayload (fst_status st) path).

Definition createWatcher (input : json) : M json :=
  if negb (hasRequiredFields input ["path"]) then ret_missing "path" else
  path ← field input "path" get_string;
  ok ← hasFileSystemPathAccess path FileSystemAccessPermissionWrite;
  if negb ok then scope_error path else
  watcherId ← fs.createWatcher path;
  if (watcherId <=? 0)%Z then ret_error (errors.makeErrorPayload errors.NE_FS_UNLCWAT path)
  else ret_value (of_int watcherId).

Definition removeWatcher (input : json) : M json :=
  if negb (hasRequiredFields input ["id"]) then ret_missing "id" else
  watcherId ← field input "id" get_long;
  ok ← fs.removeWatcher watcherId;
  if negb ok then ret_error (errors.makeErrorPayload errors.NE_FS_NOWATID (to_string watcherId))
  else ret_value (of_int watcherId).

Definition getWatchers (input : json) : M json :=
  s ← get_fs;
  ret_value (JArr ((fun e => mk_obj [("id", of_int e.1); ("path", JStr e.2.2)]) <$> watchListeners s)).

(** ** Paths *)

Definition getAbsolutePath (input : json) : M json :=
  if negb (hasRequiredFields input ["path"]) then ret_missing "path" else
  path ← field input "path" get_string;
  r ← sys_get (sys_absolute path);
  absPath ← lift r;
  ret_value (JStr absPath).

Definition getRelativePath (input : json) : M json :=
  if negb (hasRequiredFields input ["path"]) then ret_missing "path" else
  path ← field input "path" get_string;
  cwd ← sys_get sys_cwd;
  base ← field_or input "base" get_string cwd;
  r ← sys_get (sys_relative path base);
  relPath ← lift r;
  ret_value (JStr relPath).

Definition getPathParts (input : json) : M json :=
  if negb (hasRequiredFields input ["path"]) then ret_missing "path" else
  path ← field input "path" get_string;
  ret_value (mk_obj
    [("rootName", JStr (path_root_name path));
     ("rootDirectory", JStr (path_root_directory path));
     ("rootPath", JStr (path_root_path path));
     ("relativePath", JStr (path_relative_path path));
     ("parentPath", JStr (path_parent_path path));
     ("filename", JStr (path_filename path));
     ("stem", JStr (path_stem path));
     ("extension", JStr (path_extension path))]).

Definition getJoinedPath (input : json) : M json :=
  if negb (hasRequiredFields input ["paths"]) then ret_missing "paths" else
  paths ← field input "paths" get_strings;
  let joinedPath := foldl path_join EmptyString paths in
  r ← sys_get (sys_weakly_canonical joinedPath);
  p ← lift r;
  ret_value (JStr p).

Definition getNormalizedPath (input : json) : M json :=
  if negb (hasRequiredFields input ["path"]) then ret_missing "path" else
  path ← field input "path" get_string;
  ret_value (JStr (normalizePath path)).

Definition getUnnormalizedPath (input : json) : M json :=
  if negb (hasRequiredFields input ["path"]) then ret_missing "path" else
  path ← field input "path" get_string;
  ret_value (JStr (unNormalizePath path)).

(** ** Permission bits *)

Definition perm_has (perms mask : Z) : json := JBool (negb (Z.land perms mask =? 0)%Z).
Definition perm_is (perms mask : Z) : json := JBool (mask =? Z.land perms mask)%Z.

Definition perms_json (perms : Z) : json :=
  mk_obj [("all", perm_is perms perms_all); ("ownerAll", perm_is perms owner_all);
    ("ownerRead", perm_has perms owner_read); ("ownerWrite", perm_has perms owner_write);
    ("ownerExec", perm_has perms owner_exec); ("groupAll", perm_is perms group_all);
    ("groupRead", perm_has perms group_read); ("groupWrite", perm_has perms group_write);
    ("groupExec", perm_has perms group_exec); ("othersAll", perm_is perms others_all);
    ("othersRead", perm_has perms others_read); ("othersWrite", perm_has perms others_write);
    ("othersExec", perm_has perms others_exec)].

Definition getPermissions (input : json) : M json :=
  if negb (hasRequiredFields input ["path"]) then ret_missing "path" else
  path ← field input "path" get_string;
  ok ← hasFileSystemPathAccess path FileSystemAccessPermissionRead;
  if negb ok then scope_error path else
  st ← fs.getStats path;
  if decide (fst_status st <> errors.NE_ST_OK)
  then ret_error (errors.makeErrorPayload (fst_status st) path) else
  r ← sys_get (sys_perms path);
  perms ← lift r;
  ret_value (perms_json perms).

Definition perm_fields : list (string * Z) :=
  [("all", perms_all); ("ownerAll", owner_all); ("groupAll", group_all); ("othersAll", others_all);
   ("ownerRead", owner_read); ("ownerWrite", owner_write); ("ownerExec", owner_exec);
   ("groupRead", group_read); ("groupWrite", group_write); ("groupExec", group_exec);
   ("othersRead", others_read); ("othersWrite", others_write); ("othersExec", others_exec)].

Fixpoint collect_perms (input : json) (l : list (string * Z)) (permissions : Z) : outcome Z :=
  match l with
  | [] => Ret permissions
  | (k, bits) :: l =>
      b ← (if hasField input k then jat input k ≫= get_bool else Ret false);
      collect_perms input l (if (b : bool) then Z.lor permissions bits else permissions)
  end.

Definition perm_mode (mode : string) (d : perm_options) : perm_options :=
  let d := if decide (mode = "ADD") then PermAdd else d in
  let d := if decide (mode = "REPLACE") then PermReplace else d in
  if decide (mode = "REMOVE") then PermRemove else d.

Definition setPermissions (input : json) : M json :=
  if negb (hasRequiredFields input ["path"]) then ret_missing "path" else
  path ← field input "path" get_string;
  ok ← hasFileSystemPathAccess path FileSystemAccessPermissionWrite;
  if negb ok then scope_error path else
  permissions ← lift (collect_perms input perm_fields 0);
  permMode ← (if hasField input "mode"
              then m ← field input "mode" get_string; mret (perm_mode m PermReplace)
              else mret PermReplace);
  ec ← sys_call (sys_permissions path permissions permMode);
  if negb ec then ret_value (of_int permissions)
  else ret_error (errors.makeErrorPayload errors.NE_FS_UNLSTPR path).

Definition access (input : json) : M json :=
  if negb (hasRequiredFields input ["path"]) then ret_missing "path" else
  path ← field input "path" get_string;
  ok ← hasFileSystemPathAccess path FileSystemAccessPermissionRead;
  if negb ok then scope_error path else
  mode ← field_or input "mode" get_int 0%Z;
  result ← sys_get (sys_access path mode);
  if decide (result = 0%Z) then ret_success
  else ret_error (errors.makeErrorPayload errors.NE_FS_ACSFAIL path).

Definition chmod (input : json) : M json :=
  match missingRequiredField input ["path"; "mode"] with
  | Some arg => ret_missing arg
  | None =>
      path ← field input "path" get_string;
      ok ← hasFileSystemPathAccess path FileSystemAccessPermissionWrite;
      if negb ok then scope_error path else
      mode ← field input "mode" get_int;
      result ← sys_call (sys_chmod path mode);
      if decide (result = 0%Z) then ret_success
      else ret_error (errors.makeErrorPayload errors.NE_FS_CHMDERR path)
  end.

Definition chown (input : json) : M json :=
  match missingRequiredField input ["path"; "uid"; "gid"] with
  | Some arg => ret_missing arg
  | None =>
      path ← field input "path" get_string;
      ok ← hasFileSystemPathAccess path FileSystemAccessPermissionWrite;
      if negb ok then scope_error path else
      uid ← field input "uid" get_int;
      gid ← field input "gid" get_int;
      result ← sys_call (sys_chown path uid gid);
      if decide (result = 0%Z) then ret_success
      else ret_error (errors.makeErrorPayload errors.NE_FS_CHWNERR path)
  end.
End fs_controllers.
End fs_controllers.
