(* ===== verification/Resources.v ===== *)
(** * resources.cpp: application resources from a bundle, the executable or a directory *)

From S2P Require Import Prelude Strings Regex OMap Outcome Json Errors State Helpers Options Paths.
From S2P Require Import Auth Connections Base64 Fs.
From Stdlib Require Import Ascii.

Module resources.
Import helpers settings fs.

Definition NEU_APP_RES_FILE : string := "/resources.neu".

(** ** Bytes *)

(** [*(unsigned int * )p], little endian *)
Fixpoint le_bytes (l : list ascii) : Z :=
  match l with
  | [] => 0
  | c :: l => (base64.byte_val c + 256 * le_bytes l)%Z
  end.

(** [n] bytes from [off]; a stream leaves the rest of the buffer zero. *)
Definition read_padded (data : string) (off n : Z) : string :=
  let avail := if (off <=? Z.of_nat (slen data))%Z then sdrop (Z.to_nat off) data else EmptyString in
  let got := if (n <=? Z.of_nat (slen avail))%Z then stake (Z.to_nat n) avail else avail in
  got +:+ of_list (replicate (Z.to_nat n - slen got) "000"%char).

(** [n] bytes from [off] of a memory region; reading past it is undefined. *)
Definition read_region (data : string) (off n : Z) : outcome string :=
  if (n =? 0)%Z then Ret EmptyString
  else if (off + n <=? Z.of_nat (slen data))%Z
  then Ret (stake (Z.to_nat n) (sdrop (Z.to_nat off) data))
  else Undef.

(** ** The file tree *)

Definition seek_step (j : json) (pathSegment : string) : outcome json :=
  if isempty pathSegment || is_null j then Ret j
  else
    '(j', files) ← jread j "files";
    if is_null files then Ret j'
    else '(_, child) ← jread files pathSegment; Ret child.

Fixpoint seek_steps (j : json) (pathSegments : list string) : outcome json :=
  match pathSegments with
  | [] => Ret j
  | s :: ss => j ← seek_step j s; seek_steps j ss
  end.

(** The size is an [unsigned long]; its [-1] is read back as a [long]. *)
Definition __seekFilePos (path : string) (node : json) : outcome (Z * string) :=
  json ← seek_steps node (split path "/"%char);
  if negb (is_null json) then
    '(json, size) ← jread json "size";
    size ← get_ulong size;
    '(json, offset) ← jread json "offset";
    offset ← get_string offset;
    Ret (size, offset)
  else Ret (wrapU 64 (-1), EmptyString).

(** position and size of the part to read *)
Definition __applyFileReaderOptions (origSize : Z) (o : FileReaderOptions) : Z * Z :=
  let '(readPos, readSize) :=
    if (-1 <? ro_pos o)%Z then
      let readPos := Z.min (ro_pos o) origSize in (readPos, origSize - readPos)%Z
    else (0, origSize)%Z in
  let readSize := if (-1 <? ro_size o)%Z then Z.min (ro_size o) readSize else readSize in
  (wrapU 64 readPos, wrapU 64 readSize).

Definition reader_error (c : errors.StatusCode) : FileReaderResult :=
  {| fr_status := c; fr_data := EmptyString; fr_size := -1 |}.

Section resources.
Context `{Platform}.

Definition get_res : M ResourcesState := gets w_resources.
Definition set_mode (m : ResourceMode) (r : ResourcesState) : ResourcesState :=
  {| fileTree := fileTree r; asarHeaderSize := asarHeaderSize r; res_mode := m |}.
Definition set_header (h : Z) (r : ResourcesState) : ResourcesState :=
  {| fileTree := fileTree r; asarHeaderSize := h; res_mode := res_mode r |}.
Definition set_tree (t : json) (r : ResourcesState) : ResourcesState :=
  {| fileTree := t; asarHeaderSize := asarHeaderSize r; res_mode := res_mode r |}.

Definition setMode (m : ResourceMode) : M unit := modify (upd_resources (set_mode m)).
Definition getMode : M ResourceMode := gets (fun w => res_mode (w_resources w)).
Definition isDirMode : M bool :=
  m ← getMode; mret (match m with ResourceModeDir => true | _ => false end).
Definition isBundleMode : M bool :=
  m ← getMode; mret (match m with ResourceModeBundle => true | _ => false end).
Definition isEmbeddedMode : M bool :=
  m ← getMode; mret (match m with ResourceModeEmbedded => true | _ => false end).
Definition getFileTree : M json := gets (fun w => fileTree (w_resources w)).

Definition getModeString : M string :=
  d ← isDirMode;
  b ← isBundleMode;
  mret (if (d : bool) then "directory" else if (b : bool) then "bundle" else "embedded").

Definition __openResourceFile : M (option string) :=
  resFileName ← joinAppPath NEU_APP_RES_FILE;
  r ← sys_get (sys_read resFileName);
  match r with
  | Some data => mret (Some data)
  | None => log_error errors.NE_RS_TREEGER resFileName ;; mret None
  end.

(** the position behind the header of a file of the archive, and the size to
    read; a [vector] longer than its [max_size] throws *)
Definition locate (size : Z) (offset : string) (o : FileReaderOptions) : M (Z * Z) :=
  uOffset ← lift (of_num (stoi offset));
  let '(pos, n) := __applyFileReaderOptions size o in
  r ← get_res;
  if (2 ^ 63 - 1 <? n)%Z then throw LengthError
  else mret (wrapU 64 (asarHeaderSize r + wrapU 64 uOffset + pos), n).

Definition __getFileFromBundle (filename : string) (o : FileReaderOptions) : M FileReaderResult :=
  tree ← getFileTree;
  '(usize, offset) ← lift (__seekFilePos filename tree);
  let size := wrapS 64 usize in
  if decide (size <> -1)%Z then
    asarArchive ← __openResourceFile;
    match asarArchive with
    | None => mret (reader_error errors.NE_RS_TREEGER)
    | Some archive =>
        '(off, n) ← locate size offset o;
        mret {| fr_status := errors.NE_ST_OK; fr_data := read_padded archive off n; fr_size := size |}
    end
  else mret (reader_error errors.NE_RS_NOPATHE).

Definition __getFileFromEmbedded (filename : string) (o : FileReaderOptions) : M FileReaderResult :=
  tree ← getFileTree;
  '(usize, offset) ← lift (__seekFilePos filename tree);
  let size := wrapS 64 usize in
  if decide (size <> -1)%Z then
    match embedded_resource with
    | None => mret (reader_error errors.NE_RS_TREEGER)
    | Some bytes =>
        '(off, n) ← locate size offset o;
        data ← lift (read_region bytes off n);
        mret {| fr_status := errors.NE_ST_OK; fr_data := data; fr_size := size |}
    end
  else mret (reader_error errors.NE_RS_NOPATHE).

(** the header text of an archive, and [asarHeaderSize] *)
Definition header_size (data : string) : Z :=
  wrapU 32 (le_bytes (take 4 (drop 4 (to_list data))) - 8).

(** the text of a parse error is its [what()] *)
Definition store_tree (headerContent : string) : M bool :=
  files ← try_catch (lift (json_parse headerContent))
             (fun e => log LogTypeError (match e with JsonParseError what => what | _ => "" end) ;;
                       mret JNull);
  modify (upd_resources (set_tree files)) ;;
  mret (negb (is_null files)).

Definition __makeBundleFileTree : M bool :=
  asarArchive ← __openResourceFile;
  match asarArchive with
  | None => mret false
  | Some archive =>
      if slen archive <? 8 then undef else
      let size := header_size archive in
      modify (upd_resources (set_header (wrapU 32 (size + 16)))) ;;
      store_tree (read_padded archive 16 size)
  end.

Definition __makeEmbeddedFileTree : M bool :=
  match embedded_resource with
  | None => mret false
  | Some bytes =>
      if slen bytes <? 8 then undef else
      let size := header_size bytes in
      modify (upd_resources (set_header (wrapU 32 (size + 16)))) ;;
      headerContent ← lift (read_region bytes 16 size);
      store_tree headerContent
  end.

Definition getFile (filename : string) (o : FileReaderOptions) : M FileReaderResult :=
  e ← isEmbeddedMode;
  if (e : bool) then __getFileFromEmbedded filename o else
  b ← isBundleMode;
  if (b : bool) then __getFileFromBundle filename o else
  path ← joinAppPath filename;
  fs.readFile path o.

Definition extractFile (filename outputFilename : string) : M bool :=
  r ← getFile filename no_reader_options;
  if decide (fr_status r <> errors.NE_ST_OK) then mret false else
  let parent := path_parent_path outputFilename in
  (if negb (isempty parent)
   then _ ← sys_call_o (sys_create_directories parent); mret tt else mret tt) ;;
  fs.writeFile {| fw_filename := outputFilename; fw_data := fr_data r; fw_append := false |}.

Definition init : M unit :=
  d ← isDirMode;
  if (d : bool) then mret tt else
  e ← isEmbeddedMode;
  loaded ← (if (e : bool) then
              ok ← (if postject_has_resource then __makeEmbeddedFileTree else mret false);
              if (ok : bool) then mret true
              else setMode ResourceModeBundle ;; mret false
            else mret false);
  if (loaded : bool) then mret tt else
  resourceLoaderStatus ← __makeBundleFileTree;
  if negb resourceLoaderStatus then setMode ResourceModeDir else mret tt.
End resources.
End resources.
