(* ===== verification/Settings.v ===== *)
(** * settings.cpp: startup ([setGlobalArgs], [init]) and the globals script *)

From S2P Require Import Prelude Strings Regex OMap Outcome Json Errors State Helpers Options Folders Paths.
From S2P Require Import Locale Auth Connections Fs Resources.
From Stdlib Require Import Ascii.

Module settings_init.
Import helpers settings paths.

Definition NEU_OS_NAME : string := "Linux".

(** router::methodMap's part in custom::getMethods is a parameter of the script. *)
Section settings_init.
Context `{Platform}.

Definition upd_fields (f : SettingsState -> SettingsState) : M unit := modify (upd_settings f).
Definition set_appPath (p : string) (s : SettingsState) : SettingsState :=
  {| options := options s; globalArgs := globalArgs s; appPath := p;
     systemDataPath := systemDataPath s; appDataPath := appDataPath s;
     configFile := configFile s; localeName := localeName s; configOverrides := configOverrides s |}.
Definition set_globalArgs (a : json) (s : SettingsState) : SettingsState :=
  {| options := options s; globalArgs := a; appPath := appPath s;
     systemDataPath := systemDataPath s; appDataPath := appDataPath s;
     configFile := configFile s; localeName := localeName s; configOverrides := configOverrides s |}.
Definition set_configFile (p : string) (s : SettingsState) : SettingsState :=
  {| options := options s; globalArgs := globalArgs s; appPath := appPath s;
     systemDataPath := systemDataPath s; appDataPath := appDataPath s;
     configFile := p; localeName := localeName s; configOverrides := configOverrides s |}.
Definition set_dataPaths (sysd app : string) (s : SettingsState) : SettingsState :=
  {| options := options s; globalArgs := globalArgs s; appPath := appPath s;
     systemDataPath := sysd; appDataPath := app;
     configFile := configFile s; localeName := localeName s; configOverrides := configOverrides s |}.
Definition set_locale (l : string) (s : SettingsState) : SettingsState :=
  {| options := options s; globalArgs := globalArgs s; appPath := appPath s;
     systemDataPath := systemDataPath s; appDataPath := appDataPath s;
     configFile := configFile s; localeName := l; configOverrides := configOverrides s |}.

(** One argument; the result is whether [argIndex] is incremented, i.e. no
    [continue] was reached. *)
Definition handle_arg (argIndex : nat) (arg : string) : M bool :=
  let cliArg := _parseArg arg in
  (if decide (argIndex = 0) then
     let dir := getDirectoryName arg in
     upd_fields (set_appPath dir) ;;
     if isempty dir then cwd ← getCurrentDirectory; upd_fields (set_appPath cwd) else mret tt
   else mret tt) ;;
  if decide (arg_key cliArg = "--load-dir-res") then
    resources.setMode ResourceModeDir ;; mret false
  else if decide (arg_key cliArg = "--res-mode") then
    (if decide (arg_value cliArg = "directory") then resources.setMode ResourceModeDir
     else if decide (arg_value cliArg = "bundle") then resources.setMode ResourceModeBundle
     else if decide (arg_value cliArg = "embedded") then resources.setMode ResourceModeEmbedded
     else mret tt) ;; mret false
  else if decide (arg_key cliArg = "--path") then
    upd_fields (set_appPath (arg_value cliArg)) ;; mret false
  else if decide (arg_key cliArg = "--config-file") then
    upd_fields (set_configFile (arg_value cliArg)) ;; mret false
  else
    b ← resources.isBundleMode;
    e ← resources.isEmbeddedMode;
    if bool_decide (arg_key cliArg = "--neu-dev-extension") && negb b && negb e then
      extensions.loadOne "js.neutralino.devtools" ;; mret false
    else applyConfigOverride cliArg ;; mret true.

Fixpoint handle_args (argIndex : nat) (args : list string) : M unit :=
  match args with
  | [] => mret tt
  | arg :: args =>
      inc ← handle_arg argIndex arg;
      handle_args (if (inc : bool) then S argIndex else argIndex) args
  end.

Definition setGlobalArgs (args : list string) : M unit :=
  upd_fields (set_globalArgs (of_strings args)) ;;
  handle_args 0 args.

(** ** init *)

Definition override_value (o : ConfigOverride) : outcome json :=
  if decide (co_convertTo o = "int") then of_int <$> of_num (stoi (co_value o))
  else if decide (co_convertTo o = "bool") then Ret (JBool (bool_decide (co_value o = "true")))
  else Ret (JStr (co_value o)).

(** The test of [options[json_pointer(key)]] creates the location; no key has an array
    index. *)
Definition make_patch (o : ConfigOverride) : M json :=
  opts ← get_options;
  ptr ← lift (json_pointer.split (co_key o));
  opts ← lift (json_pointer.get_unchecked ptr Ret opts);
  set_options opts ;;
  old ← lift (json_pointer.at_pointer ptr opts);
  let op := if is_null old then "add" else "replace" in
  v ← lift (override_value o);
  mret (mk_obj [("op", JStr op); ("path", JStr (co_key o)); ("value", v)]).

Fixpoint make_patches (os : list ConfigOverride) : M (list json) :=
  match os with
  | [] => mret []
  | o :: os => p ← make_patch o; ps ← make_patches os; mret (p :: ps)
  end.

Definition apply_overrides : M unit :=
  os ← gets (fun w => configOverrides (w_settings w));
  patches ← make_patches os;
  match patches with
  | [] => mret tt
  | _ => opts ← get_options; opts ← lift (json_patch.patch (JArr patches) opts); set_options opts
  end.

Definition init : M bool :=
  localeInfo ← locale.getLocaleInfo;
  upd_fields (set_locale (li_locale localeInfo)) ;;
  set_options (JObj []) ;;
  configFile ← getConfigFile;
  r ← resources.getFile configFile no_reader_options;
  ok ← (if decide (fr_status r = errors.NE_ST_OK) then
          try_catch (config ← lift (json_parse (fr_data r)); set_options config ;; mret true)
            (fun _ => log_error errors.NE_CF_UNBPRCF configFile ;; mret false)
        else log_error errors.NE_CF_UNBLDCF configFile ;; mret true);
  if negb ok then mret false else
  apply_overrides ;;
  r ← sys_get sago.getDataHome;
  dataHome ← lift r;
  appId ← getAppId;
  let sysd := normalizePath (dataHome +:+ "/" +:+ appId) in
  jLoc ← getOptionForCurrentMode "dataLocation";
  dataLoc ← (if negb (is_null jLoc) then lift (get_string jLoc) else mret "app");
  appPath ← getAppPath;
  upd_fields (set_dataPaths sysd (if decide (dataLoc = "system") then sysd else appPath)) ;;
  mret true.

(** ** The globals script *)

Definition js_var (name value : string) : string :=
  "var NL_" +:+ name +:+ "='" +:+ value +:+ "';".
Definition js_expr (name value : string) : string :=
  "var NL_" +:+ name +:+ "=" +:+ value +:+ ";".

Definition getGlobalVars (customMethods : list string) (savedStateLoaded : bool) : M string :=
  appId ← getAppId;
  jVersion ← read_options ["version"];
  version ← (if negb (is_null jVersion)
             then v ← lift (get_string jVersion); mret (js_var "APPVERSION" v) else mret EmptyString);
  jPort ← getOptionForCurrentMode "port";
  port ← lift (get_int jPort);
  mode ← getMode;
  token ← authbasic.getToken;
  cwd ← getCurrentDirectory;
  s ← gets w_settings;
  resMode ← resources.getModeString;
  ext ← extensions.isInitialized;
  let script :=
    js_var "OS" NEU_OS_NAME +:+ js_var "ARCH" cpu_arch +:+ js_var "VERSION" NEU_VERSION
    +:+ js_var "COMMIT" NEU_COMMIT +:+ js_var "APPID" appId +:+ version
    +:+ js_expr "PORT" (to_string port) +:+ js_var "MODE" (appModeToStr mode)
    +:+ js_var "TOKEN" token +:+ js_var "CWD" cwd
    +:+ js_expr "ARGS" (json_dump (globalArgs s)) +:+ js_var "PATH" (appPath s)
    +:+ js_var "DATAPATH" (appDataPath s) +:+ js_expr "PID" (to_string process_id)
    +:+ js_var "RESMODE" resMode +:+ js_expr "EXTENABLED" (json_dump (JBool ext))
    +:+ js_expr "CMETHODS" (json_dump (of_strings customMethods))
    +:+ js_expr "WSAVSTLOADED" (json_dump (JBool savedStateLoaded))
    +:+ js_var "CONFIGFILE" (configFile s) +:+ js_var "LOCALE" (localeName s)
    +:+ js_var "COMPDATA" NEU_COMPILATION_DATA in
  jGlobalVariables ← getOptionForCurrentMode "globalVariables";
  mret (if negb (is_null jGlobalVariables) then
          foldl (fun js it => js +:+ "var NL_" +:+ it.1 +:+ "=JSON.parse('"
                              +:+ json_dump it.2 +:+ "');") script (jitems jGlobalVariables)
        else script).
End settings_init.
End settings_init.
