(* ===== verification/Storage.v ===== *)
(** * api/storage/storage.cpp: one file per key in the storage directory *)

From S2P Require Import Prelude Strings Regex OMap Outcome Json Errors State Helpers Options Paths.
From S2P Require Import Permission Auth Connections Base64 Fs FsControllers.
From Stdlib Require Import Ascii.

Module storage.
Import helpers settings fs.

Definition NEU_STORAGE_DIR : string := "/.storage".
Definition NEU_STORAGE_EXT : string := ".neustorage".
Definition NEU_STORAGE_EXT_REGEX : string := ".*neustorage$".
Definition NEU_STORAGE_KEY_REGEX : string := "^[a-zA-Z-_0-9]{1,50}$".

(** the class of [NEU_STORAGE_KEY_REGEX] *)
Definition is_key_char (c : ascii) : bool :=
  isalpha c || isdigit c || bool_decide (c = "-"%char) || bool_decide (c = "_"%char).

(** the file of a key, relative to nothing: [storagePath + "/" + key + NEU_STORAGE_EXT] *)
Definition bucket (storagePath key : string) : string :=
  storagePath +:+ "/" +:+ key +:+ NEU_STORAGE_EXT.

Definition valid_key (key : string) : bool := regex_match key NEU_STORAGE_KEY_REGEX.

(** the name [getKeys] reports for a directory entry *)
Definition key_of_entry (name : string) : string := regex_replace name NEU_STORAGE_EXT "".

Section storage.
Context `{Platform}.

Definition get_storagePath : M string := gets w_storagePath.

Definition init : M unit :=
  jLoc ← getOptionForCurrentMode "storageLocation";
  storageLoc ← (if negb (is_null jLoc) then lift (get_string jLoc) else mret "app");
  p ← (if decide (storageLoc = "system") then joinSystemDataPath NEU_STORAGE_DIR
       else joinAppPath NEU_STORAGE_DIR);
  modify (upd_storagePath (fun _ => p)).

(** the error answer, or nothing *)
Definition __validateStorageBucket (key : string) : option json :=
  if valid_key key then None
  else Some (mk_obj [("error", errors.makeErrorPayload errors.NE_ST_INVSTKY NEU_STORAGE_KEY_REGEX)]).

Definition __removeStorageBucket (key : string) : M json :=
  storagePath ← get_storagePath;
  removed ← sys_call_o (sys_remove (bucket storagePath key));
  if negb removed then ret_error (errors.makeErrorPayload errors.NE_ST_STKEYRE key)
  else ret_message ("Storage key " +:+ key +:+ " was removed").

Definition getData (input : json) : M json :=
  if negb (hasRequiredFields input ["key"]) then ret_missing "key" else
  key ← field input "key" get_string;
  match __validateStorageBucket key with
  | Some e => mret e
  | None =>
      storagePath ← get_storagePath;
      r ← fs.readFile (bucket storagePath key) no_reader_options;
      if decide (fr_status r <> errors.NE_ST_OK)
      then ret_error (errors.makeErrorPayload errors.NE_ST_NOSTKEX key)
      else ret_value (JStr (fr_data r))
  end.

Definition setData (input : json) : M json :=
  if negb (hasRequiredFields input ["key"]) then ret_missing "key" else
  key ← field input "key" get_string;
  match __validateStorageBucket key with
  | Some e => mret e
  | None =>
      storagePath ← get_storagePath;
      _ ← sys_call_o (sys_create_directories storagePath);
      if negb (hasField input "data") then __removeStorageBucket key
      else
        data ← field input "data" get_string;
        ok ← fs.writeFile {| fw_filename := bucket storagePath key; fw_data := data; fw_append := false |};
        if negb ok then ret_error (errors.makeErrorPayload errors.NE_ST_STKEYWE key)
        else ret_success
  end.

Definition removeData (input : json) : M json :=
  if negb (hasRequiredFields input ["key"]) then ret_missing "key" else
  key ← field input "key" get_string;
  match __validateStorageBucket key with
  | Some e => mret e
  | None => __removeStorageBucket key
  end.

Definition is_bucket_entry (e : DirReaderEntry) : bool :=
  bool_decide (dr_type e = EntryTypeFile) && regex_match (dr_name e) NEU_STORAGE_EXT_REGEX.

(** the error answer keeps the empty array *)
Definition getKeys (input : json) : M json :=
  storagePath ← get_storagePath;
  dirResult ← fs.readDirectory storagePath false;
  if decide (dr_status dirResult <> errors.NE_ST_OK) then
    mret (mk_obj [("returnValue", JArr []);
                  ("error", errors.makeErrorPayload errors.NE_ST_NOSTDIR storagePath)])
  else
    ret_value (of_strings ((fun e => key_of_entry (dr_name e)) <$> filter is_bucket_entry (dr_entries dirResult))).

Definition clear (input : json) : M json :=
  storagePath ← get_storagePath;
  _ ← sys_call_o (sys_remove_all storagePath);
  ret_message "Storage was cleared".
End storage.
End storage.
