(* ===== verification/Os.v ===== *)
(** * api/os/os.cpp: commands, child processes, environment, dialogs, tray *)

From S2P Require Import Prelude Strings Regex OMap Outcome Json Errors State Tray Helpers Options Paths.
From S2P Require Import Process Permission Auth Connections Base64 Fs FsControllers Resources.
From Stdlib Require Import Ascii.

Record CommandResult := { cr_pid : Z; cr_exitCode : Z; cr_stdErr : string; cr_stdOut : string }.
Record SpawnedProcessEvent := { pe_id : Z; pe_type : string; pe_stdIn : string }.
Record ChildProcessOptions := {
  po_background : bool; po_events : bool; po_cwd : string; po_stdIn : string;
  po_envs : list (string * string); po_echo : bool
}.
Definition default_process_options : ChildProcessOptions :=
  {| po_background := false; po_events := true; po_cwd := ""; po_stdIn := "";
     po_envs := []; po_echo := false |}.

Module os.
Import helpers settings events.

Section os.
Context `{Platform}.

Definition get_os : M OsState := gets w_os.
Definition set_procs (f : list (Z * ChildProcess) -> list (Z * ChildProcess)) (s : OsState) : OsState :=
  {| spawnedProcesses := f (spawnedProcesses s); nextVirtualPid := nextVirtualPid s;
     trayInitialized := trayInitialized s; useOtherTempTrayIcon := useOtherTempTrayIcon s;
     tray_menus := tray_menus s; tray_icon := tray_icon s;
     loop_result := loop_result s |}.
Definition set_nextPid (n : Z) (s : OsState) : OsState :=
  {| spawnedProcesses := spawnedProcesses s; nextVirtualPid := n;
     trayInitialized := trayInitialized s; useOtherTempTrayIcon := useOtherTempTrayIcon s;
     tray_menus := tray_menus s; tray_icon := tray_icon s;
     loop_result := loop_result s |}.
Definition set_tray (ini : bool) (icon : option string) (s : OsState) : OsState :=
  {| spawnedProcesses := spawnedProcesses s; nextVirtualPid := nextVirtualPid s;
     trayInitialized := ini; useOtherTempTrayIcon := useOtherTempTrayIcon s;
     tray_menus := tray_menus s; tray_icon := icon; loop_result := loop_result s |}.
Definition set_menus (f : list tray_menu -> list tray_menu) (s : OsState) : OsState :=
  {| spawnedProcesses := spawnedProcesses s; nextVirtualPid := nextVirtualPid s;
     trayInitialized := trayInitialized s; useOtherTempTrayIcon := useOtherTempTrayIcon s;
     tray_menus := f (tray_menus s); tray_icon := tray_icon s;
     loop_result := loop_result s |}.
Definition flip_tempIcon (s : OsState) : OsState :=
  {| spawnedProcesses := spawnedProcesses s; nextVirtualPid := nextVirtualPid s;
     trayInitialized := trayInitialized s; useOtherTempTrayIcon := negb (useOtherTempTrayIcon s);
     tray_menus := tray_menus s; tray_icon := tray_icon s;
     loop_result := loop_result s |}.

Definition cleanupTray : M unit :=
  s ← get_os;
  if negb (trayInitialized s) then mret tt else
  tray.tray_exit ;;
  modify (upd_os (set_tray false None)).

Definition getEnv (key : string) : M string :=
  v ← sys_get (sys_getenv (c_str key)); mret (default EmptyString v).
Definition setEnv (key value : string) : M bool :=
  sys_call (sys_setenv (c_str key) (c_str value)).

(** ** Commands *)

(** what a process is started with: no environment of its own when none is given *)
Definition environment_of (envs : list (string * string)) : option (list (string * string)) :=
  match envs with [] => None | _ => Some envs end.

(** the text of one of the outputs *)
Definition output_of (is_stdout : bool) (calls : list (bool * string)) : string :=
  foldr (fun c s => if Bool.eqb c.1 is_stdout then c.2 +:+ s else s) EmptyString calls.

Definition execCommand (command : string) (options : ChildProcessOptions) : M CommandResult :=
  let stdIn := po_stdIn options in
  p ← tinyprocess.Process command (po_cwd options) (environment_of (po_envs options))
        (negb (isempty stdIn)) (negb (po_background options));
  let pid := p_id p in
  p ← (if negb (isempty stdIn) then _ ← tinyprocess.write stdIn p; tinyprocess.close_stdin p else mret p);
  '(exitCode, calls, p) ← (if negb (po_background options) then tinyprocess.get_exit_status p
                           else mret ((-1)%Z, [], p));
  '(calls', _) ← tinyprocess.close_fds p;
  mret {| cr_pid := pid; cr_exitCode := exitCode; cr_stdErr := output_of false (calls ++ calls');
          cr_stdOut := output_of true (calls ++ calls') |}.

Definition open (url : string) : M unit :=
  let q := String "034"%char EmptyString in
  _ ← execCommand ("xdg-open " +:+ q +:+ url +:+ q)
        {| po_background := true; po_events := true; po_cwd := ""; po_stdIn := "";
           po_envs := []; po_echo := false |};
  mret tt.

(** ** Spawned processes *)

Definition __dispatchSpawnedProcessEvt (virtualPid : Z) (action : string) (data : json) : M unit :=
  dispatch "spawnedProcess"
    (mk_obj [("id", of_int virtualPid); ("action", JStr action); ("data", data)]).

Definition spawnProcess (command : string) (options : ChildProcessOptions) : M (Z * Z) :=
  s ← get_os;
  let virtualPid := nextVirtualPid s in
  modify (upd_os (set_nextPid
    (if decide (virtualPid = INT_MAX) then 0%Z else wrapS 32 (virtualPid + 1)))) ;;
  childProcess ← tinyprocess.Process command (po_cwd options) (environment_of (po_envs options)) true true;
  modify (upd_os (set_procs (omap_set virtualPid
    {| cp_process := childProcess; cp_command := command; cp_events := po_events options;
       cp_echo := po_echo options; cp_input := [] |}))) ;;
  mret (virtualPid, p_id childProcess).

(** the handlers of the reading thread *)
Definition on_output (virtualPid : Z) (p : ChildProcess) (stdErr : bool) (bytes : string) : M unit :=
  (if cp_events p
   then __dispatchSpawnedProcessEvt virtualPid (if stdErr then "stdErr" else "stdOut") (JStr bytes)
   else mret tt) ;;
  (if cp_echo p
   then sys_call (fun y => (tt, if stdErr then sys_stderr bytes y else sys_stdout bytes y))
   else mret tt).

(** the thread of the process: it waits for the end, joins the reading thread and deletes
    the object *)
Definition process_thread (virtualPid : Z) (p : ChildProcess) : M unit :=
  '(exitCode, calls, childProcess) ← tinyprocess.get_exit_status (cp_process p);
  mapM_ (fun c => on_output virtualPid p (negb c.1) c.2) calls ;;
  (if cp_events p then __dispatchSpawnedProcessEvt virtualPid "exit" (of_int exitCode) else mret tt) ;;
  modify (upd_os (set_procs (omap_del virtualPid))) ;;
  '(calls, _) ← tinyprocess.close_fds childProcess;
  mapM_ (fun c => on_output virtualPid p (negb c.1) c.2) calls.

Definition add_input (i : child_input) (childProcess : State.Process) (p : ChildProcess) : ChildProcess :=
  {| cp_process := childProcess; cp_command := cp_command p; cp_events := cp_events p;
     cp_echo := cp_echo p; cp_input := cp_input p ++ [i] |}.

Definition process_input (evt : SpawnedProcessEvent) : option child_input :=
  if decide (pe_type evt = "exit") then Some InKill
  else if decide (pe_type evt = "stdIn") then Some (InWrite (pe_stdIn evt))
  else if decide (pe_type evt = "stdInEnd") then Some InClose
  else None.

Definition updateSpawnedProcess (evt : SpawnedProcessEvent) : M bool :=
  s ← get_os;
  match omap_get (pe_id evt) (spawnedProcesses s) with
  | None => mret false
  | Some childProcess =>
      match process_input evt with
      | None => mret false
      | Some i =>
          let p := cp_process childProcess in
          p ← match i with
              | InKill => tinyprocess.kill p ;; mret p
              | InWrite bytes => _ ← tinyprocess.write bytes p; mret p
              | InClose => tinyprocess.close_stdin p
              end;
          modify (upd_os (set_procs (omap_set (pe_id evt) (add_input i p childProcess)))) ;;
          mret true
      end
  end.
End os.
End os.
