(* ===== verification/OsControllers.v ===== *)
(** * api/os/os.cpp, namespace controllers: the os methods *)

From S2P Require Import Trash.
From S2P Require Import Prelude Strings Regex OMap Outcome Json Errors State Tray Helpers Options Paths.
From S2P Require Import Locale Permission Auth Connections Base64 Fs FsControllers Resources Dialogs Os.
From Stdlib Require Import Ascii.

Definition NEU_MAX_TRAY_MENU_ITEMS : nat := 50.

Module os_controllers.
Import helpers settings events os.

(** the labels and patterns of a dialog *)
Fixpoint join_exts (exts : list string) : string :=
  match exts with
  | [] => EmptyString
  | [e] => "*." +:+ e
  | e :: es => "*." +:+ e +:+ " " +:+ join_exts es
  end.

(** [exts[i]] of a value that is not an array throws; [null] and [{}] have no elements. *)
Definition ext_list (exts : json) : outcome (list json) :=
  match exts with
  | JArr l => Ret l
  | JNull => Ret []
  | JObj [] => Ret []
  | _ => Throw JsonTypeError
  end.

Fixpoint __extensionsToVector (filters : list json) : outcome (list string) :=
  match filters with
  | [] => Ret []
  | f :: fs =>
      name ← jat f "name" ≫= get_string;
      exts ← jat f "extensions" ≫= ext_list;
      exts ← omapM get_string exts;
      rest ← __extensionsToVector fs;
      Ret (name :: join_exts exts :: rest)
  end.

Definition icon_of (icon : string) : option pfd_icon :=
  if decide (icon = "INFO") then Some PfdInfo
  else if decide (icon = "WARNING") then Some PfdWarning
  else if decide (icon = "ERROR") then Some PfdError
  else if decide (icon = "QUESTION") then Some PfdQuestion
  else None.

Definition choice_of (choice : string) : option pfd_choice :=
  if decide (choice = "OK") then Some PfdOk
  else if decide (choice = "OK_CANCEL") then Some PfdOkCancel
  else if decide (choice = "YES_NO") then Some PfdYesNo
  else if decide (choice = "YES_NO_CANCEL") then Some PfdYesNoCancel
  else if decide (choice = "RETRY_CANCEL") then Some PfdRetryCancel
  else if decide (choice = "ABORT_RETRY_IGNORE") then Some PfdAbortRetryIgnore
  else None.

Definition button_name (b : pfd_button) : string :=
  match b with
  | BtnCancel => "CANCEL" | BtnOk => "OK" | BtnYes => "YES" | BtnNo => "NO"
  | BtnAbort => "ABORT" | BtnRetry => "RETRY" | BtnIgnore => "IGNORE"
  end.

Section os_controllers.
Context `{Platform}.

Definition read_envs (input : json) : M (list (string * string)) :=
  if hasField input "envs" then
    envs ← field input "envs" (fun j =>
      omapM (fun kv => v ← get_string kv.2; Ret (kv.1, v)) (jitems j));
    mret (foldl (fun m kv => omap_set kv.1 kv.2 m) [] envs)
  else mret [].

Definition execCommand (input : json) : M json :=
  if negb (hasRequiredFields input ["command"]) then ret_missing "command" else
  command ← field input "command" get_string;
  ok ← permission.hasCommandExecutionAccess command;
  if negb ok then ret_error (errors.makeErrorPayload errors.NE_OS_CMDNALW command) else
  stdIn ← field_or input "stdIn" get_string "";
  background ← field_or input "background" get_bool false;
  cwd ← field_or input "cwd" get_string "";
  envs ← read_envs input;
  r ← os.execCommand command
        {| po_background := background; po_events := true; po_cwd := cwd; po_stdIn := stdIn;
           po_envs := envs; po_echo := false |};
  ret_value (mk_obj [("pid", of_int (cr_pid r)); ("exitCode", of_int (cr_exitCode r));
                     ("stdOut", JStr (cr_stdOut r)); ("stdErr", JStr (cr_stdErr r))]).

Definition spawnProcess (input : json) : M json :=
  if negb (hasRequiredFields input ["command"]) then ret_missing "command" else
  command ← field input "command" get_string;
  ok ← permission.hasCommandExecutionAccess command;
  if negb ok then ret_error (errors.makeErrorPayload errors.NE_OS_CMDNALW command) else
  cwd ← field_or input "cwd" get_string "";
  envs ← read_envs input;
  '(vpid, pid) ← os.spawnProcess command
    {| po_background := false; po_events := true; po_cwd := cwd; po_stdIn := "";
       po_envs := envs; po_echo := false |};
  ret_value (mk_obj [("id", of_int vpid); ("pid", of_int pid)]).

Definition updateSpawnedProcess (input : json) : M json :=
  match missingRequiredField input ["id"; "event"] with
  | Some arg => ret_missing arg
  | None =>
      id ← field input "id" get_int;
      type ← field input "event" get_string;
      stdIn ← (if hasField input "data" && bool_decide (type = "stdIn")
               then field input "data" get_string else mret "");
      ok ← os.updateSpawnedProcess {| pe_id := id; pe_type := type; pe_stdIn := stdIn |};
      if (ok : bool) then ret_success
      else ret_error (errors.makeErrorPayload errors.NE_OS_UNLTOUP (to_string id))
  end.

Definition getSpawnedProcesses (input : json) : M json :=
  s ← get_os;
  ret_value (JArr ((fun e => mk_obj [("id", of_int e.1); ("pid", of_int (p_id (cp_process e.2)))])
                   <$> spawnedProcesses s)).

Definition getEnv (input : json) : M json :=
  if negb (hasRequiredFields input ["key"]) then ret_missing "key" else
  key ← field input "key" get_string;
  v ← os.getEnv key;
  ret_value (JStr v).

Definition setEnv (input : json) : M json :=
  match missingRequiredField input ["key"; "value"] with
  | Some arg => ret_missing arg
  | None =>
      key ← field input "key" get_string;
      value ← field input "value" get_string;
      ok ← os.setEnv key value;
      if (ok : bool) then ret_success else ret_error (errors.makeErrorPayload errors.NE_OS_UNLTOUV "")
  end.

(** an entry of [environ]; [env[0]] of an empty one does not exist *)
Definition env_entry (e : string) : outcome (string * string) :=
  match splitTwo e "="%char with
  | [] => Undef
  | [key; value] => Ret (key, value)
  | key :: _ => Ret (key, EmptyString)
  end.

Definition getEnvs (input : json) : M json :=
  l ← sys_get sys_environ;
  envs ← lift (omapM env_entry l);
  match envs with
  | [] => ret_success
  | _ => ret_value (mk_obj ((fun kv => (kv.1, JStr kv.2)) <$> envs))
  end.

Definition getLocaleInfo (input : json) : M json :=
  l ← locale.getLocaleInfo;
  ret_value (mk_obj [("locale", JStr (li_locale l)); ("language", JStr (li_language l));
                     ("region", JStr (li_region l))]).

(** ** Dialogs *)

Definition read_filters (input : json) : M (list string) :=
  if hasField input "filters" then
    field input "filters" (fun j => __extensionsToVector (jelems j))
  else mret ["All files"; "*"].

Definition read_defaultPath (input : json) : M string :=
  if hasField input "defaultPath" then
    p ← field input "defaultPath" get_string; mret (unNormalizePath p)
  else mret "".

Definition showOpenDialog (input : json) : M json :=
  title ← field_or input "title" get_string "Open a file";
  multi ← field_or input "multiSelections" get_bool false;
  filters ← read_filters input;
  defaultPath ← read_defaultPath input;
  selected ← pfd.open_file title defaultPath filters
    (if (multi : bool) then pfd.opt_multiselect else pfd.opt_none);
  ret_value (of_strings (normalizePath <$> selected)).

Definition showFolderDialog (input : json) : M json :=
  title ← field_or input "title" get_string "Select a folder";
  defaultPath ← read_defaultPath input;
  selected ← pfd.select_folder title defaultPath pfd.opt_none;
  ret_value (JStr (normalizePath selected)).

Definition showSaveDialog (input : json) : M json :=
  title ← field_or input "title" get_string "Save a file";
  force ← field_or input "forceOverwrite" get_bool false;
  filters ← read_filters input;
  defaultPath ← read_defaultPath input;
  selected ← pfd.save_file title defaultPath filters
    (if (force : bool) then pfd.opt_force_overwrite else pfd.opt_none);
  ret_value (JStr (normalizePath selected)).

Definition showNotification (input : json) : M json :=
  match missingRequiredField input ["title"; "content"] with
  | Some arg => ret_missing arg
  | None =>
      title ← field input "title" get_string;
      content ← field input "content" get_string;
      icon ← field_or input "icon" get_string "INFO";
      match icon_of icon with
      | None => ret_error (errors.makeErrorPayload errors.NE_OS_INVNOTA icon)
      | Some i => pfd.notify title content i ;; ret_success
      end
  end.

Definition showMessageBox (input : json) : M json :=
  match missingRequiredField input ["title"; "content"] with
  | Some arg => ret_missing arg
  | None =>
      title ← field input "title" get_string;
      content ← field input "content" get_string;
      icon ← field_or input "icon" get_string "INFO";
      choice ← field_or input "choice" get_string "OK";
      match choice_of choice, icon_of icon with
      | Some c, Some i =>
          b ← pfd.message title content c i;
          ret_value (JStr (button_name b))
      | _, _ => ret_error (errors.makeErrorPayload errors.NE_OS_INVMSGA (choice +:+ "/" +:+ icon))
      end
  end.

(** ** Tray *)

(** a tray item's texts end at the first NUL for the tray library *)
Definition __handleTrayMenuItem (item : tray_menu) : M unit :=
  match ti_id item with
  | None => mret tt
  | Some id =>
      text ← (match ti_text item with Some t => mret t | None => undef end);
      dispatch "trayMenuItemClicked"
        (mk_obj [("id", JStr id); ("text", JStr text); ("isChecked", JBool (ti_checked item));
                 ("isDisabled", JBool (ti_disabled item))])
  end.

Definition read_tray_item (menuItem : json) : M tray_menu :=
  text ← field menuItem "text" get_string;
  id ← (if hasField menuItem "id" then i ← field menuItem "id" get_string; mret (Some (c_str i))
        else mret None);
  disabled ← field_or menuItem "isDisabled" get_bool false;
  checked ← field_or menuItem "isChecked" get_bool false;
  mret (TrayMenu id (Some (c_str text)) disabled checked).

(** [menus[i] = ...] for the first items *)
Fixpoint fill_menus (i : nat) (items : list json) : M unit :=
  match items with
  | [] => mret tt
  | item :: items =>
      m ← read_tray_item item;
      modify (upd_os (set_menus (fun l => <[i := m]> l))) ;;
      fill_menus (S i) items
  end.

Definition setTray_menus (menuItems : json) : M unit :=
  let menuCount := Nat.min (jsize menuItems) NEU_MAX_TRAY_MENU_ITEMS in
  fill_menus 0 (take menuCount (jelems menuItems)) ;;
  if menuCount <? NEU_MAX_TRAY_MENU_ITEMS
  then modify (upd_os (set_menus (fun l => <[menuCount := no_tray_menu]> l)))
  else mret tt.

Definition setTray_icon (iconPath : string) : M unit :=
  d ← resources.isDirMode;
  fullIconPath ←
    (if (d : bool) then
       p ← joinAppPath iconPath;
       r ← sys_get (sys_absolute p); lift r
     else
       modify (upd_os flip_tempIcon) ;;
       s ← get_os;
       tempIconPath ← joinAppDataPath
         (if useOtherTempTrayIcon s then "/.tmp/tray_icon_linux_01.png"
          else "/.tmp/tray_icon_linux_02.png");
       _ ← resources.extractFile iconPath tempIconPath;
       r ← sys_get (sys_absolute tempIconPath); lift r);
  modify (upd_os (fun s => set_tray (trayInitialized s) (Some (c_str fullIconPath)) s)).

Definition setTray (input : json) : M json :=
  (if hasField input "menuItems"
   then menuItems ← field input "menuItems" Ret; setTray_menus menuItems else mret tt) ;;
  (if hasField input "icon"
   then iconPath ← field input "icon" get_string; setTray_icon iconPath else mret tt) ;;
  s ← get_os;
  (if negb (trayInitialized s) then
     rc ← tray.tray_init (tray_menus s) (tray_icon s);
     modify (upd_os (fun s => set_tray (bool_decide (rc = 0%Z)) (tray_icon s) s))
   else tray.tray_update (tray_menus s) (tray_icon s)) ;;
  s ← get_os;
  if trayInitialized s then ret_success
  else ret_error (errors.makeErrorPayload errors.NE_OS_TRAYIER "").

(** ** The rest *)

Definition open (input : json) : M json :=
  if negb (hasRequiredFields input ["url"]) then ret_missing "url" else
  url ← field input "url" get_string;
  os.open url ;;
  ret_success.

Definition getPath (input : json) : M json :=
  if negb (hasRequiredFields input ["name"]) then ret_missing "name" else
  name ← field input "name" get_string;
  path ← paths.getPath name;
  if negb (isempty path) then ret_value (JStr path)
  else ret_error (errors.makeErrorPayload errors.NE_OS_INVKNPT name).

Definition trashItem (input : json) : M json :=
  if negb (hasRequiredFields input ["path"]) then ret_missing "path" else
  path ← field input "path" get_string;
  rc ← trashcan.trashcan_soft_delete (c_str path);
  if decide (rc = 0%Z) then ret_message (path +:+ " was moved to trash")
  else ret_error (errors.makeErrorPayload errors.NE_OS_UNLTRAS path).
End os_controllers.
End os_controllers.
