(* ===== verification/Methods.v ===== *)
(** * The names of the native methods (server/router.cpp), api/custom/custom.cpp

    The controllers that the names stand for come in Router.v, which shows that
    its map has exactly these keys. *)

From S2P Require Import Prelude Strings Regex OMap Outcome Json Errors State Helpers Options Paths.
From S2P Require Import Permission Auth Connections Base64 Fs FsControllers Resources Settings.
From Stdlib Require Import Ascii.

(** the keys of [router::methodMap], in the order of the initialiser *)
Definition method_ids : list string :=
  ["app.exit"; "app.killProcess"; "app.getProcessId";
   "app.getConfig"; "app.broadcast"; "app.readProcessInput";
   "app.writeProcessOutput"; "app.writeProcessError"; "window.setTitle";
   "window.getTitle"; "window.maximize"; "window.isMaximized";
   "window.unmaximize"; "window.minimize"; "window.unminimize";
   "window.isMinimized"; "window.isVisible"; "window.show";
   "window.hide"; "window.isFullScreen"; "window.setFullScreen";
   "window.exitFullScreen"; "window.focus"; "window.setIcon";
   "window.setBadge"; "window.move"; "window.beginDrag";
   "window.center"; "window.setSize"; "window.getSize";
   "window.getPosition"; "window.setAlwaysOnTop"; "window.setBorderless";
   "window.snapshot"; "window.setMainMenu"; "window.print";
   "computer.getMemoryInfo"; "computer.getArch"; "computer.getKernelInfo";
   "computer.getOSInfo"; "computer.getCPUInfo"; "computer.getGPUs";
   "computer.getDisplays"; "computer.getDisks"; "computer.getMousePosition";
   "computer.getHostname"; "computer.getMachineId"; "computer.setMousePosition";
   "computer.setMouseGrabbing"; "computer.sendKey"; "computer.getNetworkInterfaces";
   "debug.log"; "filesystem.createDirectory"; "filesystem.remove";
   "filesystem.readFile"; "filesystem.readBinaryFile"; "filesystem.writeFile";
   "filesystem.writeBinaryFile"; "filesystem.appendFile"; "filesystem.appendBinaryFile";
   "filesystem.openFile"; "filesystem.createWatcher"; "filesystem.removeWatcher";
   "filesystem.getWatchers"; "filesystem.updateOpenedFile"; "filesystem.getOpenedFileInfo";
   "filesystem.readDirectory"; "filesystem.copy"; "filesystem.move";
   "filesystem.getStats"; "filesystem.getAbsolutePath"; "filesystem.getRelativePath";
   "filesystem.getPathParts"; "filesystem.getPermissions"; "filesystem.setPermissions";
   "filesystem.getJoinedPath"; "filesystem.getNormalizedPath"; "filesystem.getUnnormalizedPath";
   "filesystem.access"; "filesystem.chmod"; "filesystem.chown";
   "os.execCommand"; "os.spawnProcess"; "os.updateSpawnedProcess";
   "os.getSpawnedProcesses"; "os.getEnv"; "os.setEnv";
   "os.getEnvs"; "os.getLocaleInfo"; "os.showOpenDialog";
   "os.showFolderDialog"; "os.showSaveDialog"; "os.showNotification";
   "os.showMessageBox"; "os.setTray"; "os.open";
   "os.getPath"; "os.trashItem"; "storage.setData";
   "storage.getData"; "storage.removeData"; "storage.getKeys";
   "storage.clear"; "events.broadcast"; "extensions.dispatch";
   "extensions.broadcast"; "extensions.getStats"; "clipboard.getFormat";
   "clipboard.readText"; "clipboard.readImage"; "clipboard.writeText";
   "clipboard.writeHTML"; "clipboard.readHTML"; "clipboard.writeImage";
   "clipboard.clear"; "resources.getFiles"; "resources.getStats";
   "resources.extractFile"; "resources.extractDirectory"; "resources.readFile";
   "resources.readBinaryFile"; "server.mount"; "server.unmount";
   "server.getMounts"; "net.request"; "custom.getMethods"].

Module custom.

Definition NEU_CMETHOD_REGEX : string := "(^custom\.)(.*)".

(** the keys of the [std::map] in its order *)
Definition sorted_ids (ids : list string) : list string :=
  (foldl (fun m k => omap_set k tt m) [] ids).*1.

Definition custom_names (ids : list string) : list string :=
  (fun k => regex_replace k NEU_CMETHOD_REGEX "$2") <$>
    filter (fun k => k <> "custom.getMethods" /\ regex_match k NEU_CMETHOD_REGEX = true) (sorted_ids ids).

Definition getMethods : list string := custom_names method_ids.

Section custom.
Context `{Platform}.

(** controllers::getMethods *)
Definition c_getMethods (input : json) : M json := ret_value (of_strings getMethods).
End custom.
End custom.

Section globals.
Context `{Platform}.

(** settings::getGlobalVars with the two values it asks other components for *)
Definition globalVars : M string :=
  s ← gets w_window;
  settings_init.getGlobalVars custom.getMethods (savedState s).
End globals.
