(* ===== verification/Window.v ===== *)
(** * api/window/window.cpp: the window's options, saved state and event handlers

    The calls into GTK and the webview library are [gui_call]s on the
    platform's state, in program order; the library's answers are parameters. *)

From S2P Require Import Prelude Strings Regex OMap Outcome Json Errors State Helpers Options Paths.
From S2P Require Import Permission Auth Connections Base64 Fs FsControllers Resources Settings Os.
From S2P Require Import Methods.
From Stdlib Require Import Ascii.

Inductive window_event :=
| WEBVIEW_WINDOW_CLOSE | WEBVIEW_WINDOW_FOCUS | WEBVIEW_WINDOW_BLUR | WEBVIEW_WINDOW_FULLSCREEN
| WEBVIEW_WINDOW_UNFULLSCREEN | WEBVIEW_WINDOW_MINIMIZED | WEBVIEW_WINDOW_RESTORED
| WEBVIEW_WINDOW_SHOW | WEBVIEW_WINDOW_HIDE | WEBVIEW_WINDOW_MAXIMIZE | WEBVIEW_WINDOW_ACTIVATE.

Module window.
Import helpers settings events.

Definition NEU_WIN_CONFIG_FILE : string := "/.tmp/window_state.config.json".

(** ** Options *)

(** [if(hasField(input, k)) x = input[k].get<T>()] *)
Definition opt {A} (input : json) (k : string) (get : json -> outcome A) (d : A) : outcome A :=
  if hasField input k then jat input k ≫= get else Ret d.

Definition __jsonToSizeOptions (input : json) (useDefaultRect : bool) : outcome SizeOptions :=
  w ← opt input "width" get_int (if useDefaultRect then 800 else -1)%Z;
  h ← opt input "height" get_int (if useDefaultRect then 600 else -1)%Z;
  miw ← opt input "minWidth" get_int (-1)%Z;
  mih ← opt input "minHeight" get_int (-1)%Z;
  maw ← opt input "maxWidth" get_int (-1)%Z;
  mah ← opt input "maxHeight" get_int (-1)%Z;
  r ← opt input "resizable" get_bool true;
  Ret {| width := w; height := h; minWidth := miw; minHeight := mih; maxWidth := maw;
         maxHeight := mah; resizable := r |}.

Definition size_fields (o : SizeOptions) : list (string * json) :=
  [("width", of_int (width o)); ("height", of_int (height o)); ("minWidth", of_int (minWidth o));
   ("minHeight", of_int (minHeight o)); ("maxWidth", of_int (maxWidth o));
   ("maxHeight", of_int (maxHeight o)); ("resizable", JBool (resizable o))].
Definition __sizeOptionsToJson (o : SizeOptions) : json := mk_obj (size_fields o).

Definition policy_of (policy : string) (d : NewWindowPolicy) : NewWindowPolicy :=
  if decide (policy = "browser") then NewWindowPolicyBrowser
  else if decide (policy = "custom") then NewWindowPolicyCustom else d.

(** the reads of [window::init]; what an ill-typed option leaves unread is not
    seen, since the process ends with the exception *)
Definition read_windowProps (input : json) (p : WindowOptions) : outcome WindowOptions :=
  so ← __jsonToSizeOptions input true;
  x ← opt input "x" get_int (win_x p);
  logical ← opt input "useLogicalPixels" get_bool (useLogicalPixels p);
  y ← opt input "y" get_int (win_y p);
  fs ← opt input "fullScreen" get_bool (fullScreen p);
  top ← opt input "alwaysOnTop" get_bool (alwaysOnTop p);
  title ← opt input "title" get_string (win_title p);
  url ← opt input "url" get_string (win_url p);
  icon ← opt input "icon" get_string (win_icon p);
  ua ← opt input "extendUserAgentWith" get_string (extendUserAgentWith p);
  script ← opt input "injectScript" get_string (injectScript p);
  insp ← opt input "enableInspector" get_bool (enableInspector p);
  openInsp ← opt input "openInspectorOnStartup" get_bool (openInspectorOnStartup p);
  bl ← opt input "borderless" get_bool (borderless p);
  mx ← opt input "maximize" get_bool (win_maximize p);
  hid ← opt input "hidden" get_bool (hidden p);
  cen ← opt input "center" get_bool (win_center p);
  tr ← opt input "transparent" get_bool (transparent p);
  ex ← opt input "exitProcessOnClose" get_bool (exitProcessOnClose p);
  saved ← opt input "useSavedState" get_bool (useSavedState p);
  globals ← opt input "injectGlobals" get_bool (injectGlobals p);
  lib ← opt input "injectClientLibrary" get_bool (injectClientLibrary p);
  args ← opt input "webviewArgs" get_string (webviewArgs p);
  skip ← opt input "skipTaskbar" get_bool (skipTaskbar p);
  drops ← opt input "emitDropEvents" get_bool (emitDropEvents p);
  policy ← opt input "newWindowPolicy" (fun j => s ← get_string j; Ret (policy_of s (newWindowPolicy p)))
             (newWindowPolicy p);
  Ret {| sizeOptions := so; fullScreen := fs; alwaysOnTop := top; enableInspector := insp;
         openInspectorOnStartup := openInsp; borderless := bl; win_maximize := mx; hidden := hid;
         win_center := cen; transparent := tr; exitProcessOnClose := ex; useSavedState := saved;
         injectGlobals := globals; injectClientLibrary := lib; useLogicalPixels := logical;
         skipTaskbar := skip; emitDropEvents := drops; webviewArgs := args; win_title := title;
         win_url := url; win_icon := icon; extendUserAgentWith := ua; injectScript := script;
         win_x := x; win_y := y; newWindowPolicy := policy |}.

(** the part of the options that the saved state replaces *)
Definition set_saved (so : SizeOptions) (x y : Z) (mx : bool) (p : WindowOptions) : WindowOptions :=
  {| sizeOptions := so; fullScreen := fullScreen p; alwaysOnTop := alwaysOnTop p;
     enableInspector := enableInspector p; openInspectorOnStartup := openInspectorOnStartup p;
     borderless := borderless p; win_maximize := mx; hidden := hidden p; win_center := win_center p;
     transparent := transparent p; exitProcessOnClose := exitProcessOnClose p;
     useSavedState := useSavedState p; injectGlobals := injectGlobals p;
     injectClientLibrary := injectClientLibrary p; useLogicalPixels := useLogicalPixels p;
     skipTaskbar := skipTaskbar p; emitDropEvents := emitDropEvents p; webviewArgs := webviewArgs p;
     win_title := win_title p; win_url := win_url p; win_icon := win_icon p;
     extendUserAgentWith := extendUserAgentWith p; injectScript := injectScript p;
     win_x := x; win_y := y; newWindowPolicy := newWindowPolicy p |}.
Definition set_size (so : SizeOptions) (p : WindowOptions) : WindowOptions :=
  set_saved so (win_x p) (win_y p) (win_maximize p) p.
Definition with_rect (w h : Z) (o : SizeOptions) : SizeOptions :=
  {| width := w; height := h; minWidth := minWidth o; minHeight := minHeight o;
     maxWidth := maxWidth o; maxHeight := maxHeight o; resizable := resizable o |}.

(** a conversion of a [double] to [int], and [int] subtraction *)
Definition to_int (z : Z) : outcome Z :=
  if (INT_MIN <=? z)%Z && (z <=? INT_MAX)%Z then Ret z else Undef.
Definition scale_up (v scale : Z) : outcome Z :=
  if (0 <? v)%Z then to_int (v * scale) else Ret v.
Definition scale_down (v scale : Z) : outcome Z :=
  if (scale =? 0)%Z then Undef else to_int (Z.quot v scale).

(** ** The main menu *)

Definition menu_item (j : json) : outcome WindowMenuItem :=
  id ← opt j "id" get_string "";
  text ← opt j "text" get_string "";
  dis ← opt j "isDisabled" get_bool false;
  chk ← opt j "isChecked" get_bool false;
  '(short, text) ←
    (if hasField j "shortcut" then
       s ← jat j "shortcut" ≫= get_string;
       Ret (s, text +:+ String "009" (String "009" s))
     else Ret ("", text));
  Ret {| mi_id := id; mi_text := text; mi_disabled := dis; mi_checked := chk; mi_shortcut := short |}.

(** The fuel bounds the nesting of "menuItems". *)
Fixpoint __createMenu (fuel : nat) (menu : json) : outcome (list gtk_menu) :=
  match fuel with
  | 0 => NoFuel
  | S fuel =>
      omapM (fun j =>
        i ← menu_item j;
        if decide (mi_text i = "-") then Ret GtkSeparator
        else if hasField j "menuItems" then
          sub ← jat j "menuItems";
          l ← __createMenu fuel sub; Ret (GtkSubmenu i l)
        else if mi_checked i then Ret (GtkCheckItem i) else Ret (GtkItem i)) (jelems menu)
  end.

Section window.
Context `{Platform}.

Definition get_window : M WindowState := gets w_window.
Definition set_props (f : WindowOptions -> WindowOptions) (s : WindowState) : WindowState :=
  {| windowProps := f (windowProps s); savedState := savedState s; nativeWindow := nativeWindow s;
     isGtkWindowFullScreen := isGtkWindowFullScreen s;
     isGtkWindowMinimized := isGtkWindowMinimized s; dispatched := dispatched s |}.
Definition set_flags (sv nw fs mn : bool) (d : nat) (s : WindowState) : WindowState :=
  {| windowProps := windowProps s; savedState := sv; nativeWindow := nw;
     isGtkWindowFullScreen := fs; isGtkWindowMinimized := mn; dispatched := d |}.
Definition upd_props (f : WindowOptions -> WindowOptions) : M unit := modify (upd_window (set_props f)).
Definition set_native (b : bool) : M unit :=
  modify (upd_window (fun s => set_flags (savedState s) b (isGtkWindowFullScreen s)
    (isGtkWindowMinimized s) (dispatched s) s)).
Definition set_state (fs mn : bool) : M unit :=
  modify (upd_window (fun s => set_flags (savedState s) (nativeWindow s) fs mn (dispatched s) s)).

Definition gui_do (c : gui_call) : M unit := sys_call (fun y => (tt, gui c y)).
(** [nativeWindow->...] *)
Definition native_do (c : gui_call) : M unit :=
  s ← get_window; if nativeWindow s then gui_do c else undef.

(** ** Geometry *)

Definition getSize : M SizeOptions :=
  '(w, h) ← sys_get gtk_window_size;
  s ← get_window;
  scale ← sys_get gtk_scale_factor;
  w ← (if useLogicalPixels (windowProps s) then lift (scale_down w scale) else mret w);
  h ← (if useLogicalPixels (windowProps s) then lift (scale_down h scale) else mret h);
  upd_props (fun p => set_size (with_rect w h (sizeOptions p)) p) ;;
  s ← get_window;
  mret (sizeOptions (windowProps s)).

Definition getPosition : M (Z * Z) := sys_get gtk_root_origin.
Definition isMaximized : M bool := sys_get gtk_is_maximized.
Definition isVisible : M bool := sys_get gtk_is_visible.
Definition isMinimized : M bool := s ← get_window; mret (isGtkWindowMinimized s).
Definition isFullScreen : M bool := s ← get_window; mret (isGtkWindowFullScreen s).

Definition __getCenterPos (useConfigSizes : bool) : M (Z * Z) :=
  s ← get_window;
  so ← (if useConfigSizes then mret (sizeOptions (windowProps s)) else getSize);
  '(sw, sh) ← sys_get gtk_workarea;
  dx ← lift (to_int (sw - width so));
  dy ← lift (to_int (sh - height so));
  mret (Z.quot dx 2, Z.quot dy 2).

Definition move (x y : Z) : M unit := gui_do (GtkMove x y).
Definition center (useConfigSizes : bool) : M unit :=
  '(x, y) ← __getCenterPos useConfigSizes; move x y.

Definition maximize : M unit :=
  b ← isMaximized; if (b : bool) then mret tt else gui_do GtkMaximize.
Definition unmaximize : M unit :=
  b ← isMaximized; if negb b then mret tt else gui_do GtkUnmaximize.
Definition unminimize : M unit := gui_do GtkPresent.
Definition focus : M unit := gui_do GtkPresent.
Definition setFullScreen : M unit :=
  b ← isFullScreen; if (b : bool) then mret tt else gui_do GtkFullscreen.
Definition exitFullScreen : M unit :=
  b ← isFullScreen; if negb b then mret tt else gui_do GtkUnfullscreen.
Definition setAlwaysOnTop (onTop : bool) : M unit := gui_do (GtkKeepAbove onTop).
Definition setBorderless (b : bool) : M unit := gui_do (GtkDecorated (negb b)).
Definition setSkipTaskbar (b : bool) : M unit := gui_do (GdkSkipTaskbar b).
Definition setIcon (iconFile : string) : M unit :=
  r ← resources.getFile iconFile no_reader_options;
  gui_do (GtkSetIcon (fr_data r)).
Definition setBadge (count : Z) : M unit := mret tt.
Definition snapshot (filename : string) : M bool := sys_call (gtk_snapshot (c_str filename)).
Definition beginDragNative : M unit :=
  '(x, y) ← sys_get gtk_mouse_position; gui_do (GtkBeginMoveDrag x y).
Definition setMainMenu (menu : json) : M unit :=
  gui_do GtkMenuReset ;;
  m ← lift (__createMenu (S (json_depth menu)) menu);
  gui_do (GtkMenuBar m).

(** [nativeWindow->set_size] with the scaled width and height *)
Definition apply_size : M unit :=
  s ← get_window;
  let p := windowProps s in
  let so := sizeOptions p in
  scale ← sys_get gtk_scale_factor;
  w ← (if useLogicalPixels p then lift (scale_up (width so) scale) else mret (width so));
  h ← (if useLogicalPixels p then lift (scale_up (height so) scale) else mret (height so));
  native_do (SetSize w h so).

(** ** Saved state *)

Definition __saveWindowProps : M unit :=
  so ← getSize;
  upd_props (set_size so) ;;
  '(x, y) ← getPosition;
  mx ← isMaximized;
  dir ← joinAppDataPath "/.tmp";
  _ ← sys_call_o (sys_create_directories dir);
  file ← joinAppDataPath NEU_WIN_CONFIG_FILE;
  _ ← fs.writeFile
    {| fw_filename := file;
       fw_data := json_dump (mk_obj (size_fields so ++
         [("x", of_int x); ("y", of_int y); ("maximize", JBool mx)]));
       fw_append := false |};
  mret tt.

(** the assignments of the [try] block: those before an exception stay *)
Definition restore_props (options : json) : M unit :=
  let get {A} k (g : json -> outcome A) : M A :=
    '(_, v) ← lift (jread options k); lift (g v) in
  x ← get "x" get_int;
  upd_props (fun p => set_saved (sizeOptions p) x (win_y p) (win_maximize p) p) ;;
  y ← get "y" get_int;
  upd_props (fun p => set_saved (sizeOptions p) (win_x p) y (win_maximize p) p) ;;
  mx ← get "maximize" get_bool;
  upd_props (fun p => set_saved (sizeOptions p) (win_x p) (win_y p) mx p) ;;
  w ← get "width" get_int;
  upd_props (fun p => set_size (with_rect w (height (sizeOptions p)) (sizeOptions p)) p) ;;
  h ← get "height" get_int;
  upd_props (fun p => set_size (with_rect (width (sizeOptions p)) h (sizeOptions p)) p).

Definition __loadSavedWindowProps : M bool :=
  file ← joinAppDataPath NEU_WIN_CONFIG_FILE;
  r ← fs.readFile file no_reader_options;
  if decide (fr_status r <> errors.NE_ST_OK) then mret false else
  try_catch
    (options ← lift (json_parse (fr_data r));
     restore_props options ;; mret true)
    (fun _ => log_error errors.NE_CF_UNBLWCF NEU_WIN_CONFIG_FILE ;; mret false).

Definition _close (exitCode : Z) : M unit :=
  s ← get_window;
  if nativeWindow s then
    (if useSavedState (windowProps s) then __saveWindowProps else mret tt) ;;
    gui_do (Terminate exitCode) ;;
    set_native false
  else mret tt.
End window.
End window.
