(* ===== verification/App.v ===== *)
(** * api/app/app.cpp, extensions_loader.cpp, and the event-sending controllers

    Also the part of window.cpp that calls [app::exit]: the window's event
    handlers and its creation. *)

From S2P Require Import Prelude Strings Regex OMap Outcome Json Errors State Helpers Options Paths.
From S2P Require Import Permission Auth Connections Base64 Fs FsControllers Resources Settings Os.
From S2P Require Import OsControllers Methods Window.
From Stdlib Require Import Ascii.

Module app.
Import helpers settings.

Section app.
Context `{Platform}.

(** [std::exit] ends the call, [window::_close] returns *)
Definition exit (code : Z) : M unit :=
  i ← neuserver.isInitialized;
  (if (i : bool) then neuserver.stop else mret tt) ;;
  mode ← getMode;
  if decide (mode = AppModeWindow) then
    os.cleanupTray ;;
    window._close code
  else lift (Exited code).

(** the thread of [__exitProcessIfIdle] after its sleep *)
Definition idle_check : M unit :=
  modify (upd_server (neuserver.set_idle pred)) ;;
  s ← neuserver.get_server;
  match appConnections s with
  | [] => exit 0
  | _ => mret tt
  end.

(** ** Controllers *)

Definition c_exit (input : json) : M json :=
  code ← field_or input "code" get_int 0%Z;
  exit code ;;
  mret JNull.

(** the handler of SIGINT cleans up and calls [_Exit(128 + 2)] *)
Definition c_killProcess (input : json) : M json :=
  os.cleanupTray ;;
  lift (Exited 130).

Definition c_getProcessId (input : json) : M json := ret_value (of_uint process_id).

Definition c_getConfig (input : json) : M json := c ← getConfig; ret_value c.

Definition event_data (input : json) : M json :=
  if hasField input "data" then field input "data" Ret else mret JNull.

Definition c_broadcast (input : json) : M json :=
  if negb (hasRequiredFields input ["event"]) then ret_missing "event" else
  event ← field input "event" get_string;
  data ← event_data input;
  events.dispatchToAllApps event data ;;
  ret_success.

(** the lines up to an empty one or the end; the standard input may not end,
    so the loop has fuel *)
Fixpoint read_lines (fuel : nat) (readAll : bool) (lines : string) : M string :=
  match fuel with
  | 0 => lift NoFuel
  | S fuel =>
      line ← sys_call sys_getline;
      match line with
      | None | Some EmptyString => mret lines
      | Some l =>
          if negb readAll then mret (lines +:+ l)
          else read_lines fuel readAll (lines +:+ l +:+ String "010" EmptyString)
      end
  end.

Definition c_readProcessInput (fuel : nat) (input : json) : M json :=
  readAll ← field_or input "readAll" get_bool false;
  lines ← read_lines fuel readAll "";
  ret_value (JStr lines).

Definition c_writeProcessOutput (input : json) : M json :=
  if negb (hasRequiredFields input ["data"]) then ret_missing "data" else
  data ← field input "data" get_string;
  sys_call (fun y => (tt, sys_stdout data y)) ;;
  ret_message "Wrote data to stdout".

Definition c_writeProcessError (input : json) : M json :=
  if negb (hasRequiredFields input ["data"]) then ret_missing "data" else
  data ← field input "data" get_string;
  sys_call (fun y => (tt, sys_stderr data y)) ;;
  ret_message "Wrote data to stderr".
End app.
End app.

(** ** api/events/events.cpp, api/extensions/extensions.cpp, api/debug/debug.cpp *)

Module message_controllers.
Import helpers settings app.

Section controllers.
Context `{Platform}.

Definition events_broadcast (input : json) : M json :=
  if negb (hasRequiredFields input ["event"]) then ret_missing "event" else
  event ← field input "event" get_string;
  data ← event_data input;
  events.dispatch event data ;;
  ret_success.

Definition extensions_dispatch (input : json) : M json :=
  match missingRequiredField input ["extensionId"; "event"] with
  | Some arg => ret_missing arg
  | None =>
      extensionId ← field input "extensionId" get_string;
      event ← field input "event" get_string;
      data ← event_data input;
      ok ← events.dispatchToExtension extensionId event data;
      if (ok : bool) then ret_success
      else ret_error (errors.makeErrorPayload errors.NE_EX_EXTNOTC extensionId)
  end.

Definition extensions_broadcast (input : json) : M json :=
  if negb (hasRequiredFields input ["event"]) then ret_missing "event" else
  event ← field input "event" get_string;
  data ← event_data input;
  events.dispatchToAllExtensions event data ;;
  ret_success.

Definition extensions_getStats (input : json) : M json :=
  loaded ← extensions.getLoaded;
  connected ← neuserver.getConnectedExtensions;
  ret_value (mk_obj [("loaded", of_strings loaded); ("connected", of_strings connected)]).

Definition log_type (type : string) : LogType :=
  if decide (type = "ERROR") then LogTypeError
  else if decide (type = "WARNING") then LogTypeWarning
  else if decide (type = "DEBUG") then LogTypeDebug
  else LogTypeInfo.

Definition debug_log (input : json) : M json :=
  if negb (hasRequiredFields input ["message"]) then ret_missing "message" else
  type ← field_or input "type" get_string "INFO";
  message ← field input "message" get_string;
  log (log_type type) message ;;
  ret_message "Wrote to the log file: neutralino.log".
End controllers.
End message_controllers.

(** ** extensions_loader.cpp *)

Module extensions_loader.
Import helpers settings.

Section loader.
Context `{Platform}.

Definition __buildExtensionProcessInput (extensionId : string) : M json :=
  j ← getOptionForCurrentMode "port";
  port ← lift (get_int j);
  t ← authbasic.getTokenInternal;
  c ← authbasic.getConnectTokenInternal;
  mret (mk_obj [("nlPort", JStr (to_string port)); ("nlToken", JStr t);
                ("nlConnectToken", JStr c); ("nlExtensionId", JStr extensionId)]).

Definition process_options : ChildProcessOptions :=
  {| po_background := false; po_events := false; po_cwd := ""; po_stdIn := "";
     po_envs := []; po_echo := true |}.

Definition commandKeyForOs : string := "command" +:+ settings_init.NEU_OS_NAME.

Definition start_extension (extensionId : string) (extension : json) : M unit :=
  command ← (if hasField extension commandKeyForOs
             then field extension commandKeyForOs get_string
             else field extension "command" get_string);
  command ← paths.applyPathConstants command;
  '(vpid, _) ← os.spawnProcess command process_options;
  payload ← __buildExtensionProcessInput extensionId;
  _ ← os.updateSpawnedProcess {| pe_id := vpid; pe_type := "stdIn"; pe_stdIn := json_dump payload |};
  _ ← os.updateSpawnedProcess {| pe_id := vpid; pe_type := "stdInEnd"; pe_stdIn := "" |};
  mret tt.

Definition init_one (extension : json) : M unit :=
  if negb (hasField extension "id") then mret tt else
  extensionId ← field extension "id" get_string;
  (if hasField extension "command" || hasField extension commandKeyForOs
   then start_extension extensionId extension else mret tt) ;;
  extensions.loadOne extensionId.

Definition init : M unit :=
  jExtensions ← getOptionForCurrentMode "extensions";
  if is_null jExtensions then mret tt else
  l ← lift (get_array jExtensions);
  mapM_ init_one l ;;
  modify (upd_ext (fun e => {| loadedExtensions := loadedExtensions e; ext_initialized := true |})).
End loader.
End extensions_loader.

(** ** window.cpp: handlers, creation, controllers *)

Module window_handlers.
Import helpers settings events window.

Section handlers.
Context `{Platform}.

Definition windowStateChange (state : window_event) : M unit :=
  match state with
  | WEBVIEW_WINDOW_CLOSE =>
      s ← get_window;
      quit ← (if exitProcessOnClose (windowProps s) then mret true else
              i ← neuserver.isInitialized;
              if negb i then mret true else a ← permission.hasAPIAccess; mret (negb a));
      if (quit : bool) then app.exit 0 else dispatch "windowClose" JNull
  | WEBVIEW_WINDOW_FOCUS => dispatch "windowFocus" JNull
  | WEBVIEW_WINDOW_BLUR => dispatch "windowBlur" JNull
  | WEBVIEW_WINDOW_FULLSCREEN =>
      s ← get_window; set_state true (isGtkWindowMinimized s) ;;
      dispatch "windowFullScreenEnter" JNull
  | WEBVIEW_WINDOW_UNFULLSCREEN =>
      s ← get_window; set_state false (isGtkWindowMinimized s) ;;
      dispatch "windowFullScreenExit" JNull
  | WEBVIEW_WINDOW_MINIMIZED =>
      s ← get_window; set_state (isGtkWindowFullScreen s) true ;;
      dispatch "windowMinimize" JNull
  | WEBVIEW_WINDOW_RESTORED =>
      s ← get_window; set_state (isGtkWindowFullScreen s) false ;;
      dispatch "windowRestore" JNull
  | WEBVIEW_WINDOW_SHOW => dispatch "windowShow" JNull
  | WEBVIEW_WINDOW_HIDE => dispatch "windowHide" JNull
  | WEBVIEW_WINDOW_MAXIMIZE => dispatch "windowMaximize" JNull
  | WEBVIEW_WINDOW_ACTIVATE => focus
  end.

Definition decideNewWindowPolicy (url : string) : M bool :=
  s ← get_window;
  match newWindowPolicy (windowProps s) with
  | NewWindowPolicySystem => mret false
  | NewWindowPolicyBrowser => os.open url ;; mret true
  | NewWindowPolicyCustom => dispatch "newWindowRequest" (JStr url) ;; mret true
  end.

Definition on_files_dropped (paths : list string) : M unit :=
  dispatch "filesDropped" (of_strings paths).

Definition __handleMainMenuItem (item : WindowMenuItem) : M unit :=
  dispatch "mainMenuItemClicked"
    (mk_obj [("id", JStr (mi_id item)); ("text", JStr (mi_text item));
             ("isChecked", JBool (mi_checked item)); ("isDisabled", JBool (mi_disabled item))]).

Definition show : M unit :=
  b ← isVisible; if (b : bool) then mret tt else
  gui_do GtkShow ;; windowStateChange WEBVIEW_WINDOW_SHOW.
Definition hide : M unit :=
  b ← isVisible; if negb b then mret tt else
  gui_do GtkHide ;; windowStateChange WEBVIEW_WINDOW_HIDE.

(** the GUI thread runs a queued [window::show] *)
Definition run_dispatched : M unit :=
  modify (upd_window (fun s => set_flags (savedState s) (nativeWindow s) (isGtkWindowFullScreen s)
    (isGtkWindowMinimized s) (pred (dispatched s)) s)) ;;
  show.

(** ** Creation *)

Definition __injectClientLibrary : M unit :=
  o ← getConfig;
  '(_, cli) ← lift (jread o "cli");
  '(_, lib) ← lift (jread cli "clientLibrary");
  if is_null lib then mret tt else
  p ← lift (get_string lib);
  r ← resources.getFile p no_reader_options;
  if decide (fr_status r = errors.NE_ST_OK) then
    g ← globalVars; native_do (InitScript (g +:+ "var NL_CINJECTED = true;" +:+ fr_data r))
  else mret tt.

Definition __injectScript : M unit :=
  j ← getOptionForCurrentMode "injectScript";
  if is_null j then mret tt else
  p ← lift (get_string j);
  r ← resources.getFile p no_reader_options;
  if decide (fr_status r = errors.NE_ST_OK) then
    native_do (InitScript ("var NL_SINJECTED = true;" +:+ fr_data r))
  else mret tt.

Definition when (b : bool) (m : M unit) : M unit := if b then m else mret tt.

Definition __createWindow : M bool :=
  s ← get_window;
  sv ← (if useSavedState (windowProps s) then __loadSavedWindowProps else mret false);
  modify (upd_window (fun s => set_flags sv (nativeWindow s) (isGtkWindowFullScreen s)
    (isGtkWindowMinimized s) (dispatched s) s)) ;;
  s ← get_window;
  let p := windowProps s in
  gui_do (WebviewNew (enableInspector p) (openInspectorOnStartup p) (transparent p)
    (webviewArgs p) (emitDropEvents p)) ;;
  set_native true ;;
  code ← sys_get webview_init_code;
  if decide (code = 1%Z) then mret false else
  gui_do (SetTitle (win_title p)) ;;
  when (negb (isempty (extendUserAgentWith p))) (gui_do (ExtendUserAgent (extendUserAgentWith p))) ;;
  apply_size ;;
  when (injectGlobals p) (g ← globalVars; gui_do (InitScript (g +:+ "var NL_GINJECTED = true;"))) ;;
  when (injectClientLibrary p) __injectClientLibrary ;;
  when (negb (isempty (injectScript p))) __injectScript ;;
  (if negb sv && win_center p then center true else move (win_x p) (win_y p)) ;;
  when (hidden p) hide ;;
  when (win_maximize p) maximize ;;
  when (fullScreen p) setFullScreen ;;
  when (negb (isempty (win_icon p))) (setIcon (win_icon p)) ;;
  when (alwaysOnTop p) (setAlwaysOnTop true) ;;
  when (borderless p) (setBorderless true) ;;
  when (skipTaskbar p) (setSkipTaskbar true) ;;
  gui_do (Navigate (win_url p)) ;;
  mret true.

Definition init (windowOptions : json) : M bool :=
  s ← get_window;
  p ← lift (read_windowProps windowOptions (windowProps s));
  upd_props (fun _ => p) ;;
  ok ← __createWindow;
  if negb ok then mret false else
  gui_do WebviewRun ;;
  mret true.
End handlers.
End window_handlers.
