(* ===== verification/ApiControllers.v ===== *)
(** * The controllers of the window and resources namespaces *)

From S2P Require Import Prelude Strings Regex OMap Outcome Json Errors State Helpers Options Paths.
From S2P Require Import Permission Auth Connections Base64 Fs FsControllers Resources Settings Os.
From S2P Require Import OsControllers Methods Window App.
From Stdlib Require Import Ascii.

Module window_controllers.
Import helpers window window_handlers.

Section controllers.
Context `{Platform}.

(** [action(); output["success"] = true;] *)
Definition done (m : M unit) : M json := m ;; ret_success.
Definition answer (m : M bool) : M json := b ← m; ret_value (JBool b).

Definition setTitle (input : json) : M json :=
  title ← field_or input "title" get_string "";
  done (native_do (SetTitle title)).
Definition getTitle (input : json) : M json :=
  s ← get_window;
  if nativeWindow s then t ← sys_get webview_title; ret_value (JStr t) else undef.

Definition c_maximize (input : json) : M json := done maximize.
Definition c_unmaximize (input : json) : M json := done unmaximize.
Definition c_isMaximized (input : json) : M json := answer isMaximized.
Definition c_minimize (input : json) : M json := done (gui_do GtkIconify).
Definition c_unminimize (input : json) : M json := done unminimize.
Definition c_isMinimized (input : json) : M json := answer isMinimized.

(** queued on the GUI thread: see [run_dispatched] *)
Definition c_show (input : json) : M json :=
  s ← get_window;
  if nativeWindow s then
    done (modify (upd_window (fun s => set_flags (savedState s) (nativeWindow s)
      (isGtkWindowFullScreen s) (isGtkWindowMinimized s) (S (dispatched s)) s)))
  else undef.
Definition c_hide (input : json) : M json := done hide.
Definition c_isVisible (input : json) : M json := answer isVisible.
Definition c_setFullScreen (input : json) : M json := done setFullScreen.
Definition c_exitFullScreen (input : json) : M json := done exitFullScreen.
Definition c_isFullScreen (input : json) : M json := answer isFullScreen.
Definition c_focus (input : json) : M json := done focus.

Definition c_setIcon (input : json) : M json :=
  if negb (hasRequiredFields input ["icon"]) then ret_missing "icon" else
  icon ← field input "icon" get_string;
  done (setIcon icon).

Definition is_number_integer (j : json) : bool :=
  match j with JInt _ | JUInt _ => true | _ => false end.

Definition c_setBadge (input : json) : M json :=
  if negb (hasRequiredFields input ["count"]) then ret_missing "count" else
  j ← field input "count" Ret;
  if negb (is_number_integer j) then ret_missing "count" else
  count ← lift (get_int j);
  if (count <? 0)%Z then ret_missing "count" else
  done (setBadge count).

Definition c_move (input : json) : M json :=
  match missingRequiredField input ["x"; "y"] with
  | Some arg => ret_missing arg
  | None =>
      x ← field input "x" get_int;
      y ← field input "y" get_int;
      done (move x y)
  end.

Definition c_center (input : json) : M json := done (center false).

Definition c_setSize (input : json) : M json :=
  so ← lift (__jsonToSizeOptions input false);
  upd_props (set_size so) ;;
  done apply_size.

Definition c_getSize (input : json) : M json :=
  so ← getSize;
  upd_props (set_size so) ;;
  ret_value (__sizeOptionsToJson so).

Definition c_setAlwaysOnTop (input : json) : M json :=
  onTop ← field_or input "onTop" get_bool true;
  done (setAlwaysOnTop onTop).
Definition c_setBorderless (input : json) : M json :=
  borderless ← field_or input "borderless" get_bool true;
  done (setBorderless borderless).

Definition c_getPosition (input : json) : M json :=
  '(x, y) ← getPosition;
  ret_value (mk_obj [("x", of_int x); ("y", of_int y)]).

Definition c_snapshot (input : json) : M json :=
  if negb (hasRequiredFields input ["path"]) then ret_missing "path" else
  imageFile ← field input "path" get_string;
  ok ← snapshot imageFile;
  if (ok : bool) then ret_success
  else ret_error (errors.makeErrorPayload errors.NE_WI_UNBSWSR imageFile).

Definition c_setMainMenu (input : json) : M json := done (setMainMenu input).
Definition c_beginDrag (input : json) : M json := done beginDragNative.
Definition c_print (input : json) : M json := done (native_do WebkitPrint).
End controllers.
End window_controllers.

(** ** api/res/res.cpp *)

Module res_controllers.
Import helpers settings resources.

(** The recursion goes down one "files" object; the fuel is its nesting. *)
Fixpoint getAllFiles_from (fuel : nat) (basePath : string) (data : json) : outcome (list string) :=
  match fuel with
  | 0 => NoFuel
  | S fuel =>
      if negb (hasField data "files") then Ret [] else
      l ← omapM (fun kv =>
            let path := basePath +:+ "/" +:+ kv.1 in
            r ← getAllFiles_from fuel path kv.2; Ret (path :: r)) (jitems (jget data "files"));
      Ret (concat l)
  end.

Fixpoint getFiles_from (fuel : nat) (rootPath path : string) (data : json) : outcome (list string) :=
  match fuel with
  | 0 => NoFuel
  | S fuel =>
      if negb (hasField data "files") then
        Ret (if starts_with rootPath path then [path] else [])
      else if negb (starts_with path rootPath) && negb (starts_with rootPath path) then Ret []
      else
        l ← omapM (fun kv => getFiles_from fuel rootPath (path +:+ "/" +:+ kv.1) kv.2)
              (jitems (jget data "files"));
        Ret (concat l)
  end.

(** the tree of an archive is a map of maps: its depth bounds the recursion *)
Definition __getAllFiles (tree : json) : outcome (list string) :=
  getAllFiles_from (S (json_depth tree)) "" tree.
Definition __getFiles (tree : json) (rootPath : string) : outcome (list string) :=
  getFiles_from (S (json_depth tree)) rootPath "" tree.

(** [json = json["files"][segment]]; an empty segment is skipped, [null] stops *)
Fixpoint stats_steps (j : json) (pathSegments : list string) : outcome json :=
  match pathSegments with
  | [] => Ret j
  | s :: ss =>
      if isempty s then stats_steps j ss
      else if is_null j then Ret j
      else
        '(_, files) ← jread j "files";
        '(_, child) ← jread files s;
        stats_steps child ss
  end.

(** size and whether it is a file; [-1] for a missing path *)
Definition __getStats (path : string) (tree : json) : outcome (Z * bool) :=
  json ← stats_steps tree (split path "/"%char);
  if negb (is_null json) then
    '(json, files) ← jread json "files";
    if is_null files then
      '(_, size) ← jread json "size"; n ← get_ulong size; Ret (n, true)
    else Ret (4096%Z, false)
  else Ret (wrapU 64 (-1), false).

Section controllers.
Context `{Platform}.

Definition __getResourcesDirectory : M string :=
  o ← getConfig;
  '(_, cli) ← lift (jread o "cli");
  '(_, p) ← lift (jread cli "resourcesPath");
  resourcesPath ← (if negb (is_null p) then lift (get_string p) else mret "");
  joinAppPath resourcesPath.

Definition __convertPath (path : string) : M string :=
  appPath ← getAppPath;
  r ← sys_get (sys_relative path appPath);
  resPath ← lift r;
  mret ("/" +:+ normalizePath resPath).

Definition packed : M bool :=
  b ← isBundleMode; if (b : bool) then mret true else isEmbeddedMode.

Fixpoint convert_all (l : list DirReaderEntry) : M (list string) :=
  match l with
  | [] => mret []
  | e :: l => p ← __convertPath (dr_path e); ps ← convert_all l; mret (p :: ps)
  end.

Definition getFiles (input : json) : M json :=
  b ← packed;
  files ←
    (if (b : bool) then tree ← getFileTree; lift (__getAllFiles tree)
     else
       resourcesPath ← __getResourcesDirectory;
       c ← getConfigFile;
       p ← __convertPath resourcesPath;
       dirResult ← fs.readDirectory resourcesPath true;
       ps ← convert_all (dr_entries dirResult);
       mret (c :: p :: ps));
  ret_value (of_strings files).

Definition stats_json (size : Z) (isFile isDirectory : bool) : json :=
  mk_obj [("size", of_int size); ("isFile", JBool isFile); ("isDirectory", JBool isDirectory)].

Definition getStats (input : json) : M json :=
  if negb (hasRequiredFields input ["path"]) then ret_missing "path" else
  path ← field input "path" get_string;
  b ← packed;
  if (b : bool) then
    tree ← getFileTree;
    '(size, isFile) ← lift (__getStats path tree);
    if decide (size <> wrapU 64 (-1)) then
      ret_value (mk_obj [("size", of_uint size); ("isFile", JBool isFile);
                         ("isDirectory", JBool (negb isFile))])
    else ret_error (errors.makeErrorPayload errors.NE_RS_NOPATHE path)
  else
    path ← joinAppPath path;
    st ← fs.getStats path;
    if decide (fst_status st = errors.NE_ST_OK) then
      ret_value (stats_json (fst_size st) (bool_decide (fst_entryType st = EntryTypeFile))
                            (bool_decide (fst_entryType st = EntryTypeDir)))
    else ret_error (errors.makeErrorPayload (fst_status st) path).

Definition copy_resource (path destination : string) (code : errors.StatusCode) : M json :=
  path ← joinAppPath path;
  ec ← sys_call (sys_copy path destination
         {| co_recursive := true; co_overwrite := true; co_skip := false |});
  if negb ec then ret_success else ret_error (errors.makeErrorPayload code destination).

(** In bundle or embedded mode a failed extraction falls to the last branch. *)
Definition extractFile (input : json) : M json :=
  match missingRequiredField input ["path"; "destination"] with
  | Some arg => ret_missing arg
  | None =>
      path ← field input "path" get_string;
      destination ← field input "destination" get_string;
      b ← packed;
      ok ← (if (b : bool) then resources.extractFile path destination else mret false);
      if (ok : bool) then ret_success else
      d ← isDirMode;
      if (d : bool) then copy_resource path destination errors.NE_RS_FILEXTF
      else ret_error (errors.makeErrorPayload errors.NE_RS_FILEXTF destination)
  end.

Definition extract_one (path destination resPath : string) : M unit :=
  extractPath ← lift (substr (normalizePath resPath)
    (if decide (path = "/") then 1 else slen path + 1));
  _ ← resources.extractFile resPath (path_join destination extractPath);
  mret tt.

Definition extractDirectory (input : json) : M json :=
  match missingRequiredField input ["path"; "destination"] with
  | Some arg => ret_missing arg
  | None =>
      path ← field input "path" get_string;
      destination ← field input "destination" get_string;
      b ← packed;
      if (b : bool) then
        tree ← getFileTree;
        resPaths ← lift (__getFiles tree path);
        mapM_ (extract_one path destination) resPaths ;;
        ret_success
      else
        copy_resource path destination errors.NE_RS_DIREXTF
  end.

Definition read_resource (input : json) (encode : string -> string) : M json :=
  if negb (hasRequiredFields input ["path"]) then ret_missing "path" else
  path ← field input "path" get_string;
  r ← resources.getFile path no_reader_options;
  if decide (fr_status r <> errors.NE_ST_OK)
  then ret_error (errors.makeErrorPayload (fr_status r) path)
  else ret_value (JStr (encode (fr_data r))).

Definition readFile (input : json) : M json := read_resource input (fun s => s).
Definition readBinaryFile (input : json) : M json := read_resource input base64.to_base64.
End controllers.
End res_controllers.
