(* ===== verification/Net.v ===== *)
(** * api/net/net.cpp: requests to other servers

    [HttpLib] is the HTTP client library: what a configured client answers to a
    call, and the look-up of a header.  The controller takes the URL apart,
    configures the client from the request's fields and picks the call. *)

From S2P Require Import Prelude Strings Regex OMap Outcome Json Errors State Helpers FsControllers.
From Stdlib Require Import Ascii.

(** [httplib::Client] with the settings that were made *)
Record HttpClient := {
  hc_host : string; hc_system_ca : bool; hc_max_timeout : option Z;
  hc_basic_auth : option (string * string); hc_follow_location : option bool;
  hc_path_encode : option bool; hc_keep_alive : option bool
}.

Inductive http_verb := Get | Post | Head | Options | Put | Patch | Delete.
#[export] Instance http_verb_eq_dec : EqDecision http_verb.
Proof. solve_decision. Defined.

(** the overloads in use: a query string, a form, a body with its type, nothing *)
Inductive http_payload :=
| PayloadNone
| PayloadQuery (params : list (string * string))
| PayloadForm (params : list (string * string))
| PayloadBody (body contentType : string).

Record HttpCall := {
  call_verb : http_verb; call_path : string; call_headers : list (string * string);
  call_payload : http_payload
}.

Inductive http_error :=
| SSLConnection (ssl_error : Z)
| SSLLoadingCerts (ssl_backend_error : Z)
| SSLServerVerification (ssl_backend_error : Z)
| SSLServerHostnameVerification (ssl_backend_error : Z)
| OtherHttpError (name : string).

(** [httplib::Response]; the headers are listed as an iteration visits them *)
Record HttpResponse := {
  http_version : string; http_status : Z; http_reason : string;
  http_headers : list (string * string); http_body : string; http_location : string
}.

Class HttpLib `{Platform} := {
  http_send : HttpClient -> HttpCall -> sys -> (http_error + HttpResponse) * sys;
  get_header_value : list (string * string) -> string -> string
}.

Module net.
Import helpers.

(** a [Result] that no call has set *)
Definition no_result : http_error + HttpResponse := inl (OtherHttpError "Unknown").

Definition url_regex : string := "^(https?)://([^/]+)(/.*)?$".

(** protocol, host and path; no path is the root *)
Definition parse_url (url : string) : option (string * string * string) :=
  m ← regex_match_caps url url_regex;
  let sub n := default EmptyString (sub_match url m n) in
  Some (sub 1, sub 2, default "/" (sub_match url m 3)).

(** the string members of a field; [emplace] keeps the first of equal keys *)
Definition string_items (j : json) : list (string * string) :=
  omap (fun kv => match kv.2 with JStr v => Some (kv.1, v) | _ => None end) (jitems j).
Definition read_items (input : json) (k : string) : outcome (list (string * string)) :=
  if hasField input k then j ← jat input k; Ret (string_items j) else Ret [].

(** the [multimap] of parameters is kept in key order *)
Definition params_of (l : list (string * string)) : list (string * string) :=
  foldl (fun m kv => omap_set kv.1 kv.2 m) [] l.

Definition opt_field {A} (input : json) (k : string) (get : json -> outcome A) : outcome (option A) :=
  if hasField input k then j ← jat input k; v ← get j; Ret (Some v) else Ret None.

Definition read_auth (input : json) : outcome (option (string * string)) :=
  if negb (hasField input "auth") then Ret None else
  auth ← jat input "auth";
  if hasField auth "username" && hasField auth "password" then
    u ← jat auth "username" ≫= get_string;
    p ← jat auth "password" ≫= get_string;
    Ret (Some (u, p))
  else Ret None.

Record request_options := {
  rq_client : HttpClient; rq_params : list (string * string); rq_headers : list (string * string);
  rq_body : string; rq_contentType : string; rq_method : string
}.

(** the reads of the fields, in the order of the code *)
Definition read_request (protocol host : string) (input : json) : outcome request_options :=
  timeout ← opt_field input "timeout" get_int;
  params ← read_items input "params";
  headers ← read_items input "headers";
  auth ← read_auth input;
  body ← opt_field input "body" get_string;
  follow ← opt_field input "allowRedirects" get_bool;
  encode ← opt_field input "encodePath" get_bool;
  keep ← opt_field input "keepAlive" get_bool;
  contentType ← opt_field input "contentType" get_string;
  method ← opt_field input "method" get_string;
  Ret {| rq_client :=
           {| hc_host := protocol +:+ "://" +:+ host;
              hc_system_ca := bool_decide (protocol = "https"); hc_max_timeout := timeout;
              hc_basic_auth := auth; hc_follow_location := follow; hc_path_encode := encode;
              hc_keep_alive := keep |};
         rq_params := params_of params; rq_headers := headers; rq_body := default "" body;
         rq_contentType :=
           match contentType with
           | None => "" | Some t => if isempty t then "application/json" else t
           end;
         rq_method := default "GET" method |}.

(** the call that a method stands for; another method makes none *)
Definition call_of (o : request_options) (path : string) : option HttpCall :=
  let call v p := Some {| call_verb := v; call_path := path; call_headers := rq_headers o;
                          call_payload := p |} in
  let with_body v := call v (if negb (isempty (rq_body o)) then PayloadBody (rq_body o) (rq_contentType o)
                             else PayloadNone) in
  let method := rq_method o in
  if decide (method = "GET") then call Get (PayloadQuery (rq_params o))
  else if decide (method = "POST") then
    call Post (if negb (isempty (rq_body o)) then PayloadBody (rq_body o) (rq_contentType o)
               else match rq_params o with [] => PayloadNone | l => PayloadForm l end)
  else if decide (method = "HEAD") then call Head PayloadNone
  else if decide (method = "OPTIONS") then call Options PayloadNone
  else if decide (method = "PUT") then with_body Put
  else if decide (method = "PATCH") then with_body Patch
  else if decide (method = "DELETE") then with_body Delete
  else None.

Definition error_payload (e : http_error) : json :=
  match e with
  | SSLConnection n => errors.makeErrorPayload errors.NE_NW_SSLCONN (to_string n)
  | SSLLoadingCerts n => errors.makeErrorPayload errors.NE_NW_SSLLOAD (to_string n)
  | SSLServerVerification n => errors.makeErrorPayload errors.NE_NW_SSLVERI (to_string n)
  | SSLServerHostnameVerification n => errors.makeErrorPayload errors.NE_NW_SSLHOST (to_string n)
  | OtherHttpError name => errors.makeErrorPayload errors.NE_NW_HTTPERR name
  end.

(** the headers as an object: the first of equal names stays *)
Definition headers_json (l : list (string * string)) : json :=
  JObj (foldl (fun m kv => if omap_has kv.1 m then m else omap_set kv.1 (JStr kv.2) m) [] l).

Section net.
Context `{HttpLib}.

Definition response_value (r : HttpResponse) : json :=
  mk_obj [("status", of_int (http_status r)); ("statusText", JStr (http_reason r));
          ("body", JStr (http_body r)); ("headers", headers_json (http_headers r));
          ("cookies", JStr (get_header_value (http_headers r) "Set-Cookie"));
          ("contentType", JStr (get_header_value (http_headers r) "Content-Type"));
          ("location", JStr (http_location r)); ("version", JStr (http_version r))].

Definition request (input : json) : M json :=
  if negb (hasRequiredFields input ["url"]) then ret_missing "url" else
  url ← field input "url" get_string;
  match parse_url url with
  | None => ret_missing "url"
  | Some (protocol, host, path) =>
      o ← lift (read_request protocol host input);
      res ← (match call_of o path with
             | Some c => sys_call (http_send (rq_client o) c)
             | None => mret no_result
             end);
      match res with
      | inl e => ret_error (error_payload e)
      | inr r => ret_value (response_value r)
      end
  end.
End net.
End net.
