(* ===== verification/Clipboard.v ===== *)
(** * api/clipboard/clipboard.cpp

    [ClipLib] is the clipboard library.  A text or an image that cannot be read
    leaves the variable that should receive it as it was: empty. *)

From S2P Require Import Prelude Strings OMap Outcome Json Errors State Helpers Base64 FsControllers.
From Stdlib Require Import Ascii.

Inductive clip_format := clip_text | clip_html | clip_image.

(** [clip::image_spec]: the fields are [unsigned long] *)
Record ImageSpec := {
  im_width : Z; im_height : Z; bits_per_pixel : Z; bytes_per_row : Z;
  red_mask : Z; green_mask : Z; blue_mask : Z; alpha_mask : Z;
  red_shift : Z; green_shift : Z; blue_shift : Z; alpha_shift : Z
}.
Definition no_spec : ImageSpec :=
  {| im_width := 0; im_height := 0; bits_per_pixel := 0; bytes_per_row := 0; red_mask := 0;
     green_mask := 0; blue_mask := 0; alpha_mask := 0; red_shift := 0; green_shift := 0;
     blue_shift := 0; alpha_shift := 0 |}.

(** [image_spec::required_data_size] *)
Definition required_data_size (s : ImageSpec) : Z :=
  let n := wrapU 64 (bytes_per_row s * im_height s) in
  if (bits_per_pixel s =? 24)%Z
  then wrapU 64 (if (0 <? n mod 4)%Z then n + (4 - n mod 4) else n + 1)%Z
  else n.

(** [clip_get_image] is the memory of the image, [clip_set_image] gets the
    memory behind the pointer that it is given *)
Class ClipLib `{Platform} := {
  clip_has : clip_format -> sys -> bool;
  clip_get_text : sys -> option string;
  clip_get_html : sys -> option string;
  clip_set_text : string -> sys -> sys;
  clip_set_html : string -> sys -> sys;
  clip_get_image : sys -> option string;
  clip_get_image_spec : sys -> option ImageSpec;
  clip_set_image : string -> ImageSpec -> sys -> sys;
  clip_clear : sys -> sys
}.

Module clipboard.
Import helpers.

Definition spec_fields (s : ImageSpec) : list (string * json) :=
  [("width", of_uint (im_width s)); ("height", of_uint (im_height s));
   ("bpp", of_uint (bits_per_pixel s)); ("bpr", of_uint (bytes_per_row s));
   ("redMask", of_uint (red_mask s)); ("greenMask", of_uint (green_mask s));
   ("blueMask", of_uint (blue_mask s)); ("redShift", of_uint (red_shift s));
   ("greenShift", of_uint (green_shift s)); ("blueShift", of_uint (blue_shift s));
   ("alphaMask", of_uint (alpha_mask s)); ("alphaShift", of_uint (alpha_shift s))].

Definition image_keys : list string :=
  ["width"; "height"; "bpp"; "bpr"; "redMask"; "greenMask"; "blueMask"; "redShift"; "greenShift";
   "blueShift"; "data"; "alphaShift"; "alphaMask"].

Definition read_spec (input : json) : outcome ImageSpec :=
  let get k := jat input k ≫= get_ulong in
  w ← get "width"; h ← get "height"; bpp ← get "bpp"; bpr ← get "bpr";
  rm ← get "redMask"; gm ← get "greenMask"; bm ← get "blueMask";
  rs ← get "redShift"; gs ← get "greenShift"; bs ← get "blueShift";
  am ← get "alphaMask"; als ← get "alphaShift";
  Ret {| im_width := w; im_height := h; bits_per_pixel := bpp; bytes_per_row := bpr;
         red_mask := rm; green_mask := gm; blue_mask := bm; alpha_mask := am;
         red_shift := rs; green_shift := gs; blue_shift := bs; alpha_shift := als |}.

(** reading [n] bytes from a pointer to [data] *)
Definition read_memory (data : string) (n : Z) : outcome string :=
  if (n <=? Z.of_nat (slen data))%Z then Ret (stake (Z.to_nat n) data) else Undef.

Section clipboard.
Context `{ClipLib}.

Definition getFormat (input : json) : M json :=
  image ← sys_get (clip_has clip_image);
  html ← sys_get (clip_has clip_html);
  text ← sys_get (clip_has clip_text);
  ret_value (JStr (if (image : bool) then "image" else if (html : bool) then "html"
                   else if (text : bool) then "text" else "unknown")).

Definition readText (input : json) : M json :=
  b ← sys_get (clip_has clip_text);
  t ← (if (b : bool) then sys_get clip_get_text else mret None);
  ret_value (JStr (default "" t)).

Definition readImage (input : json) : M json :=
  b ← sys_get (clip_has clip_image);
  if negb b then ret_value JNull else
  image ← sys_get clip_get_image;
  s ← sys_get clip_get_image_spec;
  let spec := default no_spec s in
  let size := required_data_size spec in
  if (2 ^ 63 - 1 <? size)%Z then throw LengthError else
  clipData ← lift (read_memory (default "" image) size);
  ret_value (mk_obj (spec_fields spec ++ [("data", JStr (base64.to_base64 clipData))])).

(** The library reads as many bytes as the fields ask for behind the decoded data. *)
Definition writeImage (input : json) : M json :=
  match missingRequiredField input image_keys with
  | Some arg => ret_missing arg
  | None =>
      spec ← lift (read_spec input);
      d ← field input "data" get_string;
      let clipData := base64.from_base64 d in
      image ← lift (read_memory clipData (required_data_size spec));
      sys_call (fun y => (tt, clip_set_image image spec y)) ;;
      ret_message "Image wrote to the system clipboard"
  end.

Definition writeText (input : json) : M json :=
  if negb (hasRequiredFields input ["data"]) then ret_missing "data" else
  data ← field input "data" get_string;
  sys_call (fun y => (tt, clip_set_text data y)) ;;
  ret_success.

Definition readHTML (input : json) : M json :=
  b ← sys_get (clip_has clip_html);
  t ← (if (b : bool) then sys_get clip_get_html else mret None);
  ret_value (JStr (default "" t)).

Definition writeHTML (input : json) : M json :=
  if negb (hasRequiredFields input ["data"]) then ret_missing "data" else
  data ← field input "data" get_string;
  sys_call (fun y => (tt, clip_set_html data y)) ;;
  ret_success.

Definition clear (input : json) : M json :=
  sys_call (fun y => (tt, clip_clear y)) ;;
  ret_message "Clipboard cleared".
End clipboard.
End clipboard.
