(* ===== verification/Computer.v ===== *)
(** * api/computer/computer.cpp: hardware, pointer, keyboard, network interfaces

    [ComputerLib] has what the hardware libraries, the X server and the C library
    answer; the calls into the X server change the platform's state in program
    order.  The code that is modelled builds the answers from them. *)

From S2P Require Import Prelude Strings OMap Outcome Json Errors State Helpers Fs FsControllers.
From S2P Require Import Os Window.
From Stdlib Require Import Ascii SpecFloat.

Inductive architecture_t := arch_x64 | arch_arm | arch_itanium | arch_x86 | arch_unknown.
Inductive kernel_t := kernel_windows_nt | kernel_linux | kernel_darwin | kernel_unknown.
Inductive SendKeyState := SendKeyStatePress | SendKeyStateDown | SendKeyStateUp.

Record memory_t := {
  physical_available : Z; physical_total : Z; virtual_available : Z; virtual_total : Z
}.
Record version_t := { v_major : Z; v_minor : Z; v_patch : Z; v_build_number : Z }.
Record OS_info_t := { os_name : string; os_full_name : string; os_version : version_t }.
Record cpu_t := {
  cpu_vendor : string; cpu_model : string; cpu_frequency : Z; cpu_logical : Z; cpu_physical : Z;
  cpu_packages : Z
}.
Record gpu_t := {
  gpu_device_id : string; gpu_vendor_id : string; gpu_vendor : string; gpu_dedicated : Z; gpu_shared : Z
}.
Record display_t := {
  d_width : Z; d_height : Z; d_dpi : Z; d_bpp : Z; d_refresh_rate : spec_float
}.
Record disk_t := {
  disk_id : Z; disk_vendor : string; disk_model : string; disk_serial : string;
  disk_mount_points : list string; disk_size : Z; disk_free : Z
}.

(** an address of [getifaddrs]: the text of [inet_ntop], or the bytes of a
    hardware address with its length *)
Inductive sockaddr :=
| AF_INET (text : string)
| AF_INET6 (text : string)
| AF_PACKET (halen : Z) (bytes : list Z)
| AF_OTHER.
Record ifaddr := { ifa_name : string; ifa_flags : Z; ifa_addr : option sockaddr }.

Class ComputerLib `{Platform} := {
  iware_architecture : architecture_t;
  iware_memory : sys -> memory_t;
  iware_kernel : sys -> kernel_t * version_t;
  iware_OS : sys -> OS_info_t;
  iware_cpu : sys -> cpu_t;
  iware_displays : sys -> list display_t;
  hwinfo_gpus : sys -> list gpu_t;
  hwinfo_disks : sys -> list disk_t;
  (** [gethostname] with a buffer of 255 bytes: the bytes, [None] for an error *)
  c_gethostname : sys -> option string;
  (** [getifaddrs]; [None] for an error *)
  c_getifaddrs : sys -> option (list ifaddr);
  (** whether a display can be opened; the calls on it *)
  x_open_display : sys -> bool;
  x_warp_pointer : Z -> Z -> sys -> sys;
  x_grab_pointer : sys -> bool * sys;
  x_ungrab_pointer : sys -> sys;
  x_fake_key : Z -> bool -> sys -> sys
}.

Module computer.
Import helpers.

Definition arch_name (architecture : architecture_t) : string :=
  match architecture with
  | arch_x64 => "x64" | arch_arm => "arm" | arch_itanium => "itanium" | arch_x86 => "ia32"
  | arch_unknown => "unknown"
  end.

Definition __getKernelVariant (variant : kernel_t) : string :=
  match variant with
  | kernel_windows_nt => "Windows NT" | kernel_linux => "Linux" | kernel_darwin => "Darwin"
  | kernel_unknown => "Unknown"
  end.

Definition version_string (v : version_t) : string :=
  to_string (v_major v) +:+ "." +:+ to_string (v_minor v) +:+ "." +:+ to_string (v_patch v)
  +:+ "-" +:+ to_string (v_build_number v).

Definition gpu_json (gpuId : nat) (g : gpu_t) : json :=
  mk_obj [("id", of_uint (wrapU 32 (Z.of_nat gpuId))); ("deviceId", JStr (gpu_device_id g));
          ("vendorId", JStr (gpu_vendor_id g)); ("vendor", JStr (gpu_vendor g));
          ("dedicatedMemory", of_uint (gpu_dedicated g)); ("sharedMemory", of_uint (gpu_shared g))].

Definition display_json (displayId : nat) (d : display_t) : json :=
  mk_obj [("id", of_uint (wrapU 32 (Z.of_nat displayId)));
          ("resolution", mk_obj [("width", of_uint (d_width d)); ("height", of_uint (d_height d))]);
          ("dpi", of_uint (d_dpi d)); ("bpp", of_uint (d_bpp d));
          ("refreshRate", JFloat (d_refresh_rate d))].

Definition disk_json (d : disk_t) : json :=
  mk_obj [("id", of_uint (disk_id d)); ("vendor", JStr (disk_vendor d)); ("model", JStr (disk_model d));
          ("serial", JStr (disk_serial d)); ("mountPoint", JStr (default "" (head (disk_mount_points d))));
          ("total", of_uint (disk_size d)); ("free", of_uint (disk_free d))].

(** ** Network interfaces *)

Definition IFF_LOOPBACK : Z := 8.

(** the addresses, by the name of their interface *)
Definition interface_info (flags : Z) (address family : string) : json :=
  mk_obj [("isInternal", JBool (negb (Z.land flags IFF_LOOPBACK =? 0)%Z));
          ("address", JStr address); ("family", JStr family)].

Definition add_interface (interfaces : json) (i : ifaddr) : outcome json :=
  match ifa_addr i with
  | Some (AF_INET text) =>
      jref interfaces (ifa_name i) (fun l => jpush_back l (interface_info (ifa_flags i) text "ipv4"))
  | Some (AF_INET6 text) =>
      jref interfaces (ifa_name i) (fun l => jpush_back l (interface_info (ifa_flags i) text "ipv6"))
  | _ => Ret interfaces
  end.

Fixpoint add_interfaces (interfaces : json) (l : list ifaddr) : outcome json :=
  match l with
  | [] => Ret interfaces
  | i :: l => interfaces ← add_interface interfaces i; add_interfaces interfaces l
  end.

Definition hex_digit (n : Z) : ascii :=
  if (n <? 10)%Z then chr (Z.to_N (48 + n)) else chr (Z.to_N (87 + n)).
Definition hex_byte (b : Z) : string := of_list [hex_digit (b / 16); hex_digit (b mod 16)].

(** the first six bytes, two digits each, with colons between them *)
Fixpoint __formatMac (bytes : list Z) : string :=
  match bytes with
  | [] => ""
  | [b] => hex_byte b
  | b :: bytes => hex_byte b +:+ ":" +:+ __formatMac bytes
  end.

(** for every array of the object and every item of it *)
Definition set_macs (mac : string) (arr : json) : outcome json :=
  match arr with
  | JArr l => l ← omapM (fun item => jset item "mac" (JStr mac)) l; Ret (JArr l)
  | arr => Ret arr
  end.
Definition __updateMac (name mac : string) (interfaces : json) : outcome json :=
  match interfaces with
  | JObj m => m ← omapM (fun kv => arr ← set_macs mac kv.2; Ret (kv.1, arr)) m; Ret (JObj m)
  | interfaces => Ret interfaces
  end.

(** the second loop reads the family of every address *)
Fixpoint add_macs (interfaces : json) (l : list ifaddr) : outcome json :=
  match l with
  | [] => Ret interfaces
  | i :: l =>
      match ifa_addr i with
      | None => Undef
      | Some (AF_PACKET halen bytes) =>
          interfaces ← (if (halen =? 6)%Z
                        then __updateMac (ifa_name i) (__formatMac (take 6 bytes)) interfaces
                        else Ret interfaces);
          add_macs interfaces l
      | Some _ => add_macs interfaces l
      end
  end.

Section computer.
Context `{ComputerLib}.

Definition __isWayland : M bool := v ← os.getEnv "XDG_SESSION_TYPE"; mret (bool_decide (v = "wayland")).
Definition getArch : string := arch_name iware_architecture.
Definition getMousePosition : M (Z * Z) := sys_get gtk_mouse_position.

(** the first file that can be read *)
Fixpoint first_file (paths : list string) : M string :=
  match paths with
  | [] => mret ""
  | path :: paths =>
      r ← fs.readFile path no_reader_options;
      if decide (fr_status r = errors.NE_ST_OK) then mret (trimRight (fr_data r)) else first_file paths
  end.
Definition getMachineId : M string := first_file ["/etc/machine-id"; "/var/lib/dbus/machine-id"].

(** the calls that need an X display *)
Definition on_display (m : M unit) : M bool :=
  wayland ← __isWayland;
  if (wayland : bool) then mret false else
  display ← sys_get x_open_display;
  if negb display then mret false else m ;; mret true.

Definition x_do (f : sys -> sys) : M unit := sys_call (fun y => (tt, f y)).

Definition setMousePosition (x y : Z) : M bool := on_display (x_do (x_warp_pointer x y)).

(** the GDK window of a window handle that is null does not exist *)
Definition setMouseGrabbing (grabbing : bool) : M bool :=
  wayland ← __isWayland;
  if (wayland : bool) then mret false else
  s ← window.get_window;
  if negb (nativeWindow s) then undef else
  if grabbing then sys_call x_grab_pointer
  else x_do x_ungrab_pointer ;; mret true.

Definition sendKey (keyCode : Z) (keyState : SendKeyState) : M bool :=
  on_display
    ((match keyState with
      | SendKeyStatePress | SendKeyStateDown => x_do (x_fake_key keyCode true)
      | SendKeyStateUp => mret tt
      end) ;;
     match keyState with
     | SendKeyStatePress | SendKeyStateUp => x_do (x_fake_key keyCode false)
     | SendKeyStateDown => mret tt
     end).
End computer.
End computer.

Module computer_controllers.
Import helpers computer.

Section controllers.
Context `{ComputerLib}.

Definition getMemoryInfo (input : json) : M json :=
  memory ← sys_get iware_memory;
  ret_value (mk_obj
    [("physical", mk_obj [("total", of_uint (physical_total memory));
                          ("available", of_uint (physical_available memory))]);
     ("virtual", mk_obj [("total", of_uint (virtual_total memory));
                         ("available", of_uint (virtual_available memory))])]).

Definition c_getArch (input : json) : M json := ret_value (JStr getArch).

Definition getKernelInfo (input : json) : M json :=
  '(variant, version) ← sys_get iware_kernel;
  ret_value (mk_obj [("variant", JStr (__getKernelVariant variant));
                     ("version", JStr (version_string version))]).

Definition getOSInfo (input : json) : M json :=
  osInfo ← sys_get iware_OS;
  ret_value (mk_obj [("name", JStr (os_name osInfo)); ("description", JStr (os_full_name osInfo));
                     ("version", JStr (version_string (os_version osInfo)))]).

Definition getCPUInfo (input : json) : M json :=
  cpu ← sys_get iware_cpu;
  ret_value (mk_obj
    [("vendor", JStr (cpu_vendor cpu)); ("model", JStr (cpu_model cpu));
     ("frequency", of_uint (cpu_frequency cpu)); ("architecture", JStr getArch);
     ("logicalThreads", of_uint (cpu_logical cpu)); ("physicalCores", of_uint (cpu_physical cpu));
     ("physicalUnits", of_uint (cpu_packages cpu))]).

Definition getGPUs (input : json) : M json :=
  gpus ← sys_get hwinfo_gpus; ret_value (JArr (imap gpu_json gpus)).
Definition getDisplays (input : json) : M json :=
  displays ← sys_get iware_displays; ret_value (JArr (imap display_json displays)).
Definition getDisks (input : json) : M json :=
  disks ← sys_get hwinfo_disks; ret_value (JArr (disk_json <$> disks)).

Definition c_getMousePosition (input : json) : M json :=
  '(x, y) ← getMousePosition;
  ret_value (mk_obj [("x", of_int x); ("y", of_int y)]).

Definition getHostname (input : json) : M json :=
  hostname ← sys_get c_gethostname; ret_value (JStr (default "" hostname)).

Definition c_getMachineId (input : json) : M json := id ← getMachineId; ret_value (JStr id).

Definition c_setMousePosition (input : json) : M json :=
  match missingRequiredField input ["x"; "y"] with
  | Some arg => ret_missing arg
  | None =>
      x ← field input "x" get_int;
      y ← field input "y" get_int;
      ok ← setMousePosition x y;
      if negb ok then ret_error (errors.makeErrorPayload errors.NE_CO_UNLTOSC "") else ret_success
  end.

Definition c_setMouseGrabbing (input : json) : M json :=
  grabbing ← field_or input "grabbing" get_bool true;
  ok ← setMouseGrabbing grabbing;
  if negb ok then ret_error (errors.makeErrorPayload errors.NE_CO_UNLTOMG "") else ret_success.

Definition key_state (st : string) : SendKeyState :=
  if decide (st = "up") then SendKeyStateUp
  else if decide (st = "down") then SendKeyStateDown else SendKeyStatePress.

Definition c_sendKey (input : json) : M json :=
  match missingRequiredField input ["key"] with
  | Some arg => ret_missing arg
  | None =>
      key ← field input "key" get_int;
      st ← field_or input "state" get_string "press";
      ok ← sendKey (wrapU 32 key) (key_state st);
      if negb ok then ret_error (errors.makeErrorPayload errors.NE_CO_UNLTOSK "") else ret_success
  end.

Definition getNetworkInterfaces (input : json) : M json :=
  ifap ← sys_get c_getifaddrs;
  match ifap with
  | None => ret_error (errors.makeErrorPayload errors.NE_CO_UNLTONI "")
  | Some ifap =>
      interfaces ← lift (add_interfaces (JObj []) ifap);
      interfaces ← lift (add_macs interfaces ifap);
      ret_value interfaces
  end.
End controllers.
End computer_controllers.
