(* ===== verification/Router.v ===== *)
(** * server/router.cpp: native calls, mounts, assets; neuserver's message and HTTP handlers *)

From S2P Require Import Prelude Strings Regex OMap Outcome Json Errors State Helpers Options Paths.
From S2P Require Import Permission Auth Connections Base64 Fs FsControllers Resources Settings.
From S2P Require Import Storage Os OsControllers Methods Window App ApiControllers Net Clipboard.
From S2P Require Import Computer.
From Stdlib Require Import Ascii.

Record Response := {
  rs_status : Z;
  rs_contentType : string;
  rs_data : string;
  rs_headers : list (string * string)
}.
Definition default_response : Response :=
  {| rs_status := 200; rs_contentType := "application/octet-stream"; rs_data := ""; rs_headers := [] |}.

Record NativeMessage := {
  nm_id : string; nm_method : string; nm_accessToken : string; nm_data : json
}.

(** The libraries behind the controllers, and [stdin_fuel], which bounds the
    lines that one app.readProcessInput reads. *)
Class NativeApi `{Platform} := {
  na_http : HttpLib;
  na_clip : ClipLib;
  na_computer : ComputerLib;
  stdin_fuel : nat
}.
#[export] Existing Instance na_http.
#[export] Existing Instance na_clip.
#[export] Existing Instance na_computer.

Module router.
Import helpers settings.

(** ** Mounts *)

Section mounts.
Context `{Platform}.

Definition isMounted (path : string) : M bool := gets (fun w => omap_has path (w_mounts w)).
Definition getMounts : M (list (string * string)) := gets w_mounts.

(** The path and the target are references: their new values are returned. *)
Definition mountPath (path target : string) : M (errors.StatusCode * string * string) :=
  let path := normalizePath path in
  let target := normalizePath target in
  let path := if isempty path then "/" else path in
  st ← sys_get (sys_stat target);
  match st with
  | None => mret (errors.NE_FS_NOPATHE, path, target)
  | Some st =>
      match st_kind st with
      | KDir =>
          b ← isMounted path;
          if (b : bool) then mret (errors.NE_SR_MPINUSE, path, target)
          else
            modify (upd_mounts (omap_set path target)) ;;
            mret (errors.NE_ST_OK, path, target)
      | _ => mret (errors.NE_FS_NOTADIR, path, target)
      end
  end.

Definition unmountPath (path : string) : M (bool * string) :=
  let path := normalizePath path in
  let path := if isempty path then "/" else path in
  b ← isMounted path;
  if negb b then mret (false, path)
  else modify (upd_mounts (omap_del path)) ;; mret (true, path).

(** api/server/server.cpp *)
Definition mount (input : json) : M json :=
  match missingRequiredField input ["path"; "target"] with
  | Some arg => ret_missing arg
  | None =>
      path ← field input "path" get_string;
      target ← field input "target" get_string;
      '(mountStatus, path, target) ← mountPath path target;
      if decide (mountStatus <> errors.NE_ST_OK)
      then ret_error (errors.makeErrorPayload mountStatus target)
      else ret_message (path +:+ " mounts to " +:+ target)
  end.

Definition unmount (input : json) : M json :=
  path ← field input "path" get_string;
  '(ok, path) ← unmountPath path;
  if negb ok then ret_error (errors.makeErrorPayload errors.NE_SR_NOMTPTH path)
  else ret_message (path +:+ " unmounted").

Definition c_getMounts (input : json) : M json :=
  m ← getMounts;
  ret_value (JObj ((fun kv => (kv.1, JStr kv.2)) <$> m)).
End mounts.

(** ** Assets *)

Definition mimeTypes : list (string * string) :=
  [("css", "text/css"); ("csv", "text/csv");
   ("txt", "text/plain"); ("vtt", "text/vtt");
   ("htm", "text/html"); ("html", "text/html");
   ("apng", "image/apng"); ("avif", "image/avif");
   ("bmp", "image/bmp"); ("gif", "image/gif");
   ("png", "image/png"); ("svg", "image/svg+xml");
   ("webp", "image/webp"); ("ico", "image/x-icon");
   ("tif", "image/tiff"); ("tiff", "image/tiff");
   ("jpg", "image/jpeg"); ("jpeg", "image/jpeg");
   ("mp4", "video/mp4"); ("mpeg", "video/mpeg");
   ("webm", "video/webm"); ("mp3", "audio/mp3");
   ("mpga", "audio/mpeg"); ("weba", "audio/webm");
   ("wav", "audio/wave"); ("otf", "font/otf");
   ("ttf", "font/ttf"); ("woff", "font/woff");
   ("woff2", "font/woff2"); ("7z", "application/x-7z-compressed");
   ("atom", "application/atom+xml"); ("pdf", "application/pdf");
   ("js", "application/javascript"); ("mjs", "application/javascript");
   ("json", "application/json"); ("rss", "application/rss+xml");
   ("tar", "application/x-tar"); ("xht", "application/xhtml+xml");
   ("xhtml", "application/xhtml+xml"); ("xslt", "application/xslt+xml");
   ("xml", "application/xml"); ("gz", "application/gzip");
   ("zip", "application/zip"); ("wasm", "application/wasm")].

(** what the mounts make of a pathname: the first mount that is a prefix *)
Fixpoint mounted_file (mounts : list (string * string)) (pathname : string) : option string :=
  match mounts with
  | [] => None
  | (mountedPath, mountTarget) :: mounts =>
      if starts_with mountedPath pathname
      then Some (mountTarget +:+ "/" +:+ sdrop (slen mountedPath) pathname)
      else mounted_file mounts pathname
  end.

(** the status, the body and the headers for a file that was read *)
Definition file_response (o : FileReaderOptions) (r : FileReaderResult) : Response :=
  if (-1 <? ro_pos o)%Z then
    if (fr_size r <=? ro_pos o)%Z then
      {| rs_status := 416; rs_contentType := rs_contentType default_response; rs_data := "";
         rs_headers := [("Accept-Ranges", "bytes"); ("Content-Length", "0");
                        ("Content-Range", "bytes */" +:+ to_string (fr_size r))] |}
    else
      let bytesRead := Z.of_nat (slen (fr_data r)) in
      let endp := (ro_pos o + bytesRead - 1)%Z in
      {| rs_status := 206; rs_contentType := rs_contentType default_response; rs_data := fr_data r;
         rs_headers := [("Accept-Ranges", "bytes"); ("Content-Length", to_string bytesRead);
                        ("Content-Range", "bytes " +:+ to_string (ro_pos o) +:+ "-" +:+ to_string endp
                                          +:+ "/" +:+ to_string (fr_size r))] |}
  else {| rs_status := 200; rs_contentType := rs_contentType default_response; rs_data := fr_data r;
          rs_headers := [] |}.

Definition not_found_response (r : FileReaderResult) : Response :=
  {| rs_status := 404; rs_contentType := rs_contentType default_response; rs_data := fr_data r;
     rs_headers := [] |}.

(** prepended data and the content type of the extension *)
Definition finish_response (extension prependData : string) (r : Response) : Response :=
  {| rs_status := rs_status r;
     rs_contentType := default (rs_contentType r) (omap_get extension mimeTypes);
     rs_data := prependData +:+ rs_data r; rs_headers := rs_headers r |}.

Section assets.
Context `{Platform}.

(** the file behind a path: from a mount, or else from the resources *)
Definition find_file (path : string) (o : FileReaderOptions) : M FileReaderResult :=
  mounts ← getMounts;
  match mounts with
  | [] => resources.getFile path o
  | _ =>
      documentRoot ← neuserver.getDocumentRoot;
      pathname ← (if negb (isempty documentRoot)
                  then lift (substr path (slen documentRoot)) else mret path);
      match mounted_file mounts pathname with
      | Some adjustedPath => fs.readFile adjustedPath o
      | None => resources.getFile path o
      end
  end.

(** the path that a single page application serves instead of a missing one *)
Definition spa_path (path : string) : M (option string) :=
  jSpaServing ← getOptionForCurrentMode "singlePageServe";
  b ← (if negb (is_null jSpaServing) then lift (get_bool jSpaServing) else mret false);
  if b && regex_match path ".*index.html$" then
    jDocumentRoot ← getOptionForCurrentMode "documentRoot";
    newPath ← (if negb (is_null jDocumentRoot)
               then d ← lift (get_string jDocumentRoot); mret (d +:+ "index.html")
               else getNavigationUrl);
    mret (if decide (newPath <> path) then Some newPath else None)
  else mret None.

(** Each call that recurs takes one unit of fuel. *)
Fixpoint getAsset (fuel : nat) (path prependData : string) (o : FileReaderOptions) : M Response :=
  match fuel with
  | 0 => lift NoFuel
  | S fuel =>
      let split := split path "."%char in
      if length split <? 2 then
        match sback path with
        | None => undef
        | Some c =>
            let path := if decide (c = "/"%char) then path else path +:+ "/" in
            getAsset fuel (path +:+ "index.html") prependData o
        end
      else
        let extension := default EmptyString (split !! (length split - 1)) in
        r ← find_file path o;
        spa ← (if decide (fr_status r <> errors.NE_ST_OK) then spa_path path else mret None);
        match spa with
        | Some newPath => getAsset fuel newPath prependData o
        | None =>
            if decide (fr_status r <> errors.NE_ST_OK) then
              log_error errors.NE_RS_UNBLDRE path ;;
              mret (finish_response extension prependData (not_found_response r))
            else mret (finish_response extension prependData (file_response o r))
        end
  end.

(** the decoded path without its query *)
Definition request_path (path : string) : string :=
  let path := c_str (of_list (urldecode (to_list (c_str path)))) in
  match sfind "?" path with Some i => stake i path | None => path end.

Definition serve (fuel : nat) (path : string) (o : FileReaderOptions) : M Response :=
  let path := request_path path in
  let isClientLibrary := regex_match path ".*neutralino.js$" in
  let isGlobalsRequest := regex_match path ".*__neutralino_globals.js$" in
  if isClientLibrary then g ← globalVars; getAsset fuel path g o
  else if isGlobalsRequest then
    g ← globalVars;
    mret {| rs_status := 200; rs_contentType := "application/javascript"; rs_data := g; rs_headers := [] |}
  else getAsset fuel path "" o.

(** neuserver::__applyConfigHeaders and handleHTTP: the headers are the calls
    of [replace_header], in order *)
Definition config_headers : M (list (string * string)) :=
  jHeaders ← getOptionForCurrentMode "serverHeaders";
  lift (omapM (fun it => v ← get_string it.2; Ret (it.1, v)) (jitems jHeaders)).

Definition handleHTTP (fuel : nat) (resource : string) (range : option string) : M Response :=
  documentRoot ← neuserver.getDocumentRoot;
  let resource := if negb (isempty documentRoot) then documentRoot +:+ resource else resource in
  o ← lift (neuserver.__getFileReaderOptionsFromHeaders range);
  r ← serve fuel resource o;
  s ← neuserver.get_server;
  extra ← (if applyConfigHeaders s then config_headers else mret []);
  mret {| rs_status := rs_status r; rs_contentType := rs_contentType r; rs_data := rs_data r;
          rs_headers := ("Content-Type", rs_contentType r) :: rs_headers r ++ extra |}.
End assets.

(** ** Native methods *)

Section native.
Context `{NativeApi}.

Definition methodMap : list (string * (json -> M json)) :=
  [("app.exit", app.c_exit);
   ("app.killProcess", app.c_killProcess);
   ("app.getProcessId", app.c_getProcessId);
   ("app.getConfig", app.c_getConfig);
   ("app.broadcast", app.c_broadcast);
   ("app.readProcessInput", app.c_readProcessInput stdin_fuel);
   ("app.writeProcessOutput", app.c_writeProcessOutput);
   ("app.writeProcessError", app.c_writeProcessError);
   ("window.setTitle", window_controllers.setTitle);
   ("window.getTitle", window_controllers.getTitle);
   ("window.maximize", window_controllers.c_maximize);
   ("window.isMaximized", window_controllers.c_isMaximized);
   ("window.unmaximize", window_controllers.c_unmaximize);
   ("window.minimize", window_controllers.c_minimize);
   ("window.unminimize", window_controllers.c_unminimize);
   ("window.isMinimized", window_controllers.c_isMinimized);
   ("window.isVisible", window_controllers.c_isVisible);
   ("window.show", window_controllers.c_show);
   ("window.hide", window_controllers.c_hide);
   ("window.isFullScreen", window_controllers.c_isFullScreen);
   ("window.setFullScreen", window_controllers.c_setFullScreen);
   ("window.exitFullScreen", window_controllers.c_exitFullScreen);
   ("window.focus", window_controllers.c_focus);
   ("window.setIcon", window_controllers.c_setIcon);
   ("window.setBadge", window_controllers.c_setBadge);
   ("window.move", window_controllers.c_move);
   ("window.beginDrag", window_controllers.c_beginDrag);
   ("window.center", window_controllers.c_center);
   ("window.setSize", window_controllers.c_setSize);
   ("window.getSize", window_controllers.c_getSize);
   ("window.getPosition", window_controllers.c_getPosition);
   ("window.setAlwaysOnTop", window_controllers.c_setAlwaysOnTop);
   ("window.setBorderless", window_controllers.c_setBorderless);
   ("window.snapshot", window_controllers.c_snapshot);
   ("window.setMainMenu", window_controllers.c_setMainMenu);
   ("window.print", window_controllers.c_print);
   ("computer.getMemoryInfo", computer_controllers.getMemoryInfo);
   ("computer.getArch", computer_controllers.c_getArch);
   ("computer.getKernelInfo", computer_controllers.getKernelInfo);
   ("computer.getOSInfo", computer_controllers.getOSInfo);
   ("computer.getCPUInfo", computer_controllers.getCPUInfo);
   ("computer.getGPUs", computer_controllers.getGPUs);
   ("computer.getDisplays", computer_controllers.getDisplays);
   ("computer.getDisks", computer_controllers.getDisks);
   ("computer.getMousePosition", computer_controllers.c_getMousePosition);
   ("computer.getHostname", computer_controllers.getHostname);
   ("computer.getMachineId", computer_controllers.c_getMachineId);
   ("computer.setMousePosition", computer_controllers.c_setMousePosition);
   ("computer.setMouseGrabbing", computer_controllers.c_setMouseGrabbing);
   ("computer.sendKey", computer_controllers.c_sendKey);
   ("computer.getNetworkInterfaces", computer_controllers.getNetworkInterfaces);
   ("debug.log", message_controllers.debug_log);
   ("filesystem.createDirectory", fs_controllers.createDirectory);
   ("filesystem.remove", fs_controllers.remove);
   ("filesystem.readFile", fs_controllers.readFile);
   ("filesystem.readBinaryFile", fs_controllers.readBinaryFile);
   ("filesystem.writeFile", fs_controllers.writeFile);
   ("filesystem.writeBinaryFile", fs_controllers.writeBinaryFile);
   ("filesystem.appendFile", fs_controllers.appendFile);
   ("filesystem.appendBinaryFile", fs_controllers.appendBinaryFile);
   ("filesystem.openFile", fs_controllers.openFile);
   ("filesystem.createWatcher", fs_controllers.createWatcher);
   ("filesystem.removeWatcher", fs_controllers.removeWatcher);
   ("filesystem.getWatchers", fs_controllers.getWatchers);
   ("filesystem.updateOpenedFile", fs_controllers.updateOpenedFile);
   ("filesystem.getOpenedFileInfo", fs_controllers.getOpenedFileInfo);
   ("filesystem.readDirectory", fs_controllers.readDirectory);
   ("filesystem.copy", fs_controllers.copy);
   ("filesystem.move", fs_controllers.move);
   ("filesystem.getStats", fs_controllers.getStats);
   ("filesystem.getAbsolutePath", fs_controllers.getAbsolutePath);
   ("filesystem.getRelativePath", fs_controllers.getRelativePath);
   ("filesystem.getPathParts", fs_controllers.getPathParts);
   ("filesystem.getPermissions", fs_controllers.getPermissions);
   ("filesystem.setPermissions", fs_controllers.setPermissions);
   ("filesystem.getJoinedPath", fs_controllers.getJoinedPath);
   ("filesystem.getNormalizedPath", fs_controllers.getNormalizedPath);
   ("filesystem.getUnnormalizedPath", fs_controllers.getUnnormalizedPath);
   ("filesystem.access", fs_controllers.access);
   ("filesystem.chmod", fs_controllers.chmod);
   ("filesystem.chown", fs_controllers.chown);
   ("os.execCommand", os_controllers.execCommand);
   ("os.spawnProcess", os_controllers.spawnProcess);
   ("os.updateSpawnedProcess", os_controllers.updateSpawnedProcess);
   ("os.getSpawnedProcesses", os_controllers.getSpawnedProcesses);
   ("os.getEnv", os_controllers.getEnv);
   ("os.setEnv", os_controllers.setEnv);
   ("os.getEnvs", os_controllers.getEnvs);
   ("os.getLocaleInfo", os_controllers.getLocaleInfo);
   ("os.showOpenDialog", os_controllers.showOpenDialog);
   ("os.showFolderDialog", os_controllers.showFolderDialog);
   ("os.showSaveDialog", os_controllers.showSaveDialog);
   ("os.showNotification", os_controllers.showNotification);
   ("os.showMessageBox", os_controllers.showMessageBox);
   ("os.setTray", os_controllers.setTray);
   ("os.open", os_controllers.open);
   ("os.getPath", os_controllers.getPath);
   ("os.trashItem", os_controllers.trashItem);
   ("storage.setData", storage.setData);
   ("storage.getData", storage.getData);
   ("storage.removeData", storage.removeData);
   ("storage.getKeys", storage.getKeys);
   ("storage.clear", storage.clear);
   ("events.broadcast", message_controllers.events_broadcast);
   ("extensions.dispatch", message_controllers.extensions_dispatch);
   ("extensions.broadcast", message_controllers.extensions_broadcast);
   ("extensions.getStats", message_controllers.extensions_getStats);
   ("clipboard.getFormat", clipboard.getFormat);
   ("clipboard.readText", clipboard.readText);
   ("clipboard.readImage", clipboard.readImage);
   ("clipboard.writeText", clipboard.writeText);
   ("clipboard.writeHTML", clipboard.writeHTML);
   ("clipboard.readHTML", clipboard.readHTML);
   ("clipboard.writeImage", clipboard.writeImage);
   ("clipboard.clear", clipboard.clear);
   ("resources.getFiles", res_controllers.getFiles);
   ("resources.getStats", res_controllers.getStats);
   ("resources.extractFile", res_controllers.extractFile);
   ("resources.extractDirectory", res_controllers.extractDirectory);
   ("resources.readFile", res_controllers.readFile);
   ("resources.readBinaryFile", res_controllers.readBinaryFile);
   ("server.mount", mount);
   ("server.unmount", unmount);
   ("server.getMounts", c_getMounts);
   ("net.request", net.request);
   ("custom.getMethods", custom.c_getMethods)].

Definition find_method (id : string) : option (json -> M json) :=
  snd <$> find_first (fun e => bool_decide (e.1 = id)) methodMap.

Definition reply (request : NativeMessage) (data : json) : NativeMessage :=
  {| nm_id := nm_id request; nm_method := nm_method request; nm_accessToken := "";
     nm_data := data |}.
Definition reply_error (request : NativeMessage) (c : errors.StatusCode) (param : string) : NativeMessage :=
  reply request (mk_obj [("error", errors.makeErrorPayload c param)]).

Definition discard_data (id : string) : json :=
  mk_obj [("success", JBool true);
          ("message", JStr ("Discarded. " +:+ id +:+ " works within the window mode only"))].

(** the [try] block *)
Definition call_method (nativeMethod : json -> M json) (request : NativeMessage) : M json :=
  mode ← getMode;
  if bool_decide (mode <> AppModeWindow) && regex_match (nm_method request) "^window.*"
  then mret (discard_data (nm_method request))
  else nativeMethod (nm_data request).

Definition executeNativeMethod (request : NativeMessage) : M NativeMessage :=
  let nativeMethodId := nm_method request in
  tokenOk ← authbasic.verifyToken (nm_accessToken request);
  if negb tokenOk then mret (reply_error request errors.NE_RT_INVTOKN "") else
  apiOk ← permission.hasAPIAccess;
  if negb apiOk then mret (reply_error request errors.NE_RT_APIPRME "") else
  methodOk ← permission.hasMethodAccess nativeMethodId;
  if negb methodOk then mret (reply_error request errors.NE_RT_NATPRME nativeMethodId) else
  match find_method nativeMethodId with
  | None => mret (reply_error request errors.NE_RT_NATNTIM nativeMethodId)
  | Some nativeMethod =>
      try_catch (data ← call_method nativeMethod request; mret (reply request data))
        (fun _ => mret (reply_error request errors.NE_RT_NATRTER ""))
  end.

(** ** neuserver::handleMessage *)

Definition read_message (payload : string) : M NativeMessage :=
  msg ← lift (json_parse payload);
  '(msg, id) ← lift (jread msg "id");
  id ← lift (get_string id);
  '(msg, method) ← lift (jread msg "method");
  method ← lift (get_string method);
  '(msg, accessToken) ← lift (jread msg "accessToken");
  accessToken ← lift (get_string accessToken);
  '(_, data) ← lift (jread msg "data");
  mret {| nm_id := id; nm_method := method; nm_accessToken := accessToken; nm_data := data |}.

Definition response_json (r : NativeMessage) : json :=
  mk_obj [("id", JStr (nm_id r)); ("method", JStr (nm_method r)); ("data", nm_data r)].

Definition handleMessage (con : connection) (op : opcode) (payload : string) : M unit :=
  let url := con_resource con in
  let ext := neuserver.__isExtensionEndpoint url in
  s ← neuserver.get_server;
  (if ext && negb (omap_has (con_hdl con) (wsMode s))
   then modify (upd_server (neuserver.set_wsMode (omap_set (con_hdl con) op))) else mret tt) ;;
  try_catch
    (request ← read_message payload;
     response ← executeNativeMethod request;
     try_catch
       (op ← (if ext then neuserver.op_of (con_hdl con) else mret OpText);
        neuserver.send (con_hdl con) (json_dump (response_json response)) op)
       (fun _ => log_error errors.NE_SR_UNBSEND ""))
    (fun _ => log_error errors.NE_SR_UNBPARS "").
End native.
End router.
