(* ===== verification/MemLibs.v ===== *)
(** * The libraries behind the controllers, in memory

    Concrete instances of [HttpLib], [ClipLib] and [ComputerLib] on [demo],
    on which the examples of native calls run: a server that answers every call
    with its host and path, a clipboard that is kept with the files, and a
    machine with a few network interfaces. *)

From S2P Require Import Prelude Strings Regex OMap Outcome Json Errors State MemPlatform Helpers.
From S2P Require Import Net Clipboard Computer Router.
From Stdlib Require Import Ascii.

Section libs.
#[local] Existing Instance demo.

Definition mem_http : HttpLib := {|
  http_send c call y :=
    (inr {| http_version := "HTTP/1.1"; http_status := 200; http_reason := "OK"; http_headers := [];
            http_body := ""; http_location := "" |}, mem_call (hc_host c +:+ call_path call) y);
  get_header_value headers name := default "" (omap_get name headers)
|}.

(** The text, the markup and the memory of the image are the files [clip:text],
    [clip:html] and [clip:image]; images have one pixel row of one byte pixels. *)
Definition row_spec (n : Z) : ImageSpec :=
  {| im_width := n; im_height := 1; bits_per_pixel := 8; bytes_per_row := n; red_mask := 0;
     green_mask := 0; blue_mask := 0; alpha_mask := 0; red_shift := 0; green_shift := 0;
     blue_shift := 0; alpha_shift := 0 |}.
Definition clip_file (k : string) (y : mem_sys) : option string := omap_get k (ms_files y).
Definition set_clip_file (k v : string) (y : mem_sys) : mem_sys :=
  set_files (omap_set k v (ms_files y)) y.
Definition mem_clip : ClipLib := {|
  clip_has f y :=
    omap_has (match f with clip_text => "clip:text" | clip_html => "clip:html"
              | clip_image => "clip:image" end) (ms_files y);
  clip_get_text := clip_file "clip:text";
  clip_get_html := clip_file "clip:html";
  clip_set_text := set_clip_file "clip:text";
  clip_set_html := set_clip_file "clip:html";
  clip_get_image := clip_file "clip:image";
  clip_get_image_spec y := (fun d => row_spec (Z.of_nat (slen d))) <$> clip_file "clip:image" y;
  clip_set_image d _ := set_clip_file "clip:image" d;
  clip_clear y := set_files [] y
|}.

Definition mem_interfaces : list ifaddr :=
  [{| ifa_name := "lo"; ifa_flags := 73; ifa_addr := Some (AF_PACKET 6 [0; 0; 0; 0; 0; 0]%Z) |};
   {| ifa_name := "eth0"; ifa_flags := 4163;
      ifa_addr := Some (AF_PACKET 6 [2; 66; 172; 17; 0; 2]%Z) |};
   {| ifa_name := "lo"; ifa_flags := 73; ifa_addr := Some (AF_INET "127.0.0.1") |};
   {| ifa_name := "eth0"; ifa_flags := 4163; ifa_addr := Some (AF_INET "172.17.0.2") |}].

Definition mem_computer : ComputerLib := {|
  iware_architecture := arch_x64;
  iware_memory _ := {| physical_available := 1; physical_total := 2; virtual_available := 3;
                       virtual_total := 4 |};
  iware_kernel _ := (kernel_linux, {| v_major := 6; v_minor := 1; v_patch := 0; v_build_number := 0 |});
  iware_OS _ := {| os_name := "Linux"; os_full_name := "GNU/Linux";
                   os_version := {| v_major := 6; v_minor := 1; v_patch := 0; v_build_number := 0 |} |};
  iware_cpu _ := {| cpu_vendor := "v"; cpu_model := "m"; cpu_frequency := 1; cpu_logical := 2;
                    cpu_physical := 1; cpu_packages := 1 |};
  iware_displays _ := [];
  hwinfo_gpus _ := [];
  hwinfo_disks _ := [];
  c_gethostname _ := Some "host";
  c_getifaddrs _ := Some mem_interfaces;
  x_open_display _ := true;
  x_warp_pointer x y := mem_call ("warp " +:+ to_string x +:+ " " +:+ to_string y);
  x_grab_pointer y := (true, mem_call "grab" y);
  x_ungrab_pointer := mem_call "ungrab";
  x_fake_key k down := mem_call ((if down then "down " else "up ") +:+ to_string k)
|}.

Definition mem_api : NativeApi :=
  {| na_http := mem_http; na_clip := mem_clip; na_computer := mem_computer; stdin_fuel := 10 |}.
End libs.
