(* ===== verification/Main.v ===== *)
(** * main.cpp and chrome.cpp: the start of the process *)

From S2P Require Import Prelude Strings Regex OMap Outcome Json Errors State Helpers Options Paths.
From S2P Require Import Permission Auth Connections Base64 Fs FsControllers Resources Settings.
From S2P Require Import Storage Dialogs Os OsControllers Methods Window App.
From Stdlib Require Import Ascii.

(** ** auth/authbasic.cpp: exportAuthInfo *)

Module auth_export.
Import helpers settings.

Section export.
Context `{Platform}.

Definition exportAuthInfo : M unit :=
  tempDirPath ← joinAppDataPath "/.tmp";
  made ← try_catch (_ ← sys_call_o (sys_create_directories tempDirPath); mret true)
           (fun e => match e with
                     | FilesystemError =>
                         log LogTypeError ("Failed to create " +:+ tempDirPath) ;; mret false
                     | _ => throw e
                     end);
  if negb made then mret tt else
  tempAuthInfoPath ← joinAppDataPath "/.tmp/auth_info.json";
  payload ← authbasic.__makeAuthInfoPayload;
  data ← lift (json_dump_strict payload);
  _ ← fs.writeFile {| fw_filename := tempAuthInfoPath; fw_data := data; fw_append := false |};
  log LogTypeInfo ("Auth info was exported to " +:+ tempAuthInfoPath).
End export.
End auth_export.

(** ** chrome.cpp *)

Module chrome.
Import helpers settings.

Definition __getDefaultChromeArgs : string :=
  "--disable-background-networking "
  +:+ "--disable-background-timer-throttling "
  +:+ "--disable-backgrounding-occluded-windows "
  +:+ "--disable-breakpad "
  +:+ "--disable-client-side-phishing-detection "
  +:+ "--disable-default-apps "
  +:+ "--disable-dev-shm-usage "
  +:+ "--disable-infobars "
  +:+ "--disable-extensions "
  +:+ "--disable-features=site-per-process "
  +:+ "--disable-hang-monitor "
  +:+ "--disable-ipc-flooding-protection "
  +:+ "--disable-popup-blocking "
  +:+ "--disable-prompt-on-repost "
  +:+ "--disable-renderer-backgrounding "
  +:+ "--disable-sync "
  +:+ "--disable-translate "
  +:+ "--disable-windows10-custom-titlebar "
  +:+ "--metrics-recording-only "
  +:+ "--no-first-run "
  +:+ "--no-default-browser-check "
  +:+ "--safebrowsing-disable-auto-update "
  +:+ "--password-store=basic "
  +:+ "--use-mock-keychain".

Definition chromeBins : list string :=
  ["/usr/bin/google-chrome-stable";
   "/usr/bin/google-chrome";
   "/usr/bin/chromium";
   "/usr/bin/chromium-browser";
   "/snap/bin/chromium"].

Section chrome.
Context `{Platform}.

Definition browserBinaryKeyForOs : string := "browserBinary" +:+ settings_init.NEU_OS_NAME.

Definition is_program (cmd : string) : M (option string) :=
  stats ← fs.getStats cmd;
  mret (if bool_decide (fst_status stats = errors.NE_ST_OK)
           && bool_decide (fst_entryType stats = EntryTypeFile) then Some cmd else None).

Definition __findChrome (input : json) : M string :=
  bins ←
    (if hasField input "browserBinary" || hasField input browserBinaryKeyForOs then
       customBin ← (if hasField input browserBinaryKeyForOs
                    then field input browserBinaryKeyForOs get_string
                    else field input "browserBinary" get_string);
       p ← paths.applyPathConstants customBin;
       mret (p :: chromeBins)
     else mret chromeBins);
  r ← find_mapM is_program bins;
  mret (default EmptyString r).

Definition quote (s : string) : string :=
  let q := String "034"%char EmptyString in q +:+ s +:+ q.

Definition init (input : json) : M unit :=
  chromeCmd ← __findChrome input;
  if isempty chromeCmd then
    _ ← pfd.message_box "Unable to start Chrome mode"
          "You need to install Google Chrome to run this Neutralinojs application" PfdOk PfdError;
    lift (Exited 1)
  else
    let chromeCmd := if bool_decide (is_Some (regex_search chromeCmd " "))
                     then quote chromeCmd else chromeCmd in
    dataDir ← joinAppDataPath "/.tmp/chromedata";
    url ← field input "url" get_string;
    size ←
      (if hasRequiredFields input ["width"; "height"] then
         w ← field input "width" get_int;
         h ← field input "height" get_int;
         mret (" --window-size=" +:+ to_string w +:+ "," +:+ to_string h)
       else mret "");
    args ← (if hasField input "args"
            then a ← field input "args" get_string; mret (" " +:+ a) else mret "");
    _ ← os.execCommand
          (chromeCmd +:+ " " +:+ __getDefaultChromeArgs
           +:+ " --user-data-dir=" +:+ quote dataDir +:+ " --app=" +:+ quote url +:+ size +:+ args)
          {| po_background := true; po_events := true; po_cwd := ""; po_stdIn := "";
             po_envs := []; po_echo := false |};
    mret tt.
End chrome.
End chrome.

(** ** main.cpp *)

Module main.
Import helpers settings.

Section main.
Context `{Platform}.

Definition option_bool (key : string) : M bool :=
  j ← getOptionForCurrentMode key;
  if is_null j then mret false else lift (get_bool j).

Definition fatal (title text : string) {A} : M A :=
  _ ← pfd.message_box title text PfdOk PfdError;
  lift (Exited 1).

Definition __initFramework (args : list string) : M unit :=
  settings_init.setGlobalArgs args ;;
  resources.init ;;
  settingsStatus ← settings_init.init;
  if negb settingsStatus then
    fatal "Unable to load configuration"
      "The application configuration file cannot be loaded due to a JSON parsing error."
  else
    authbasic.init ;;
    permission.init ;;
    storage.init ;;
    jEnvs ← getOptionForCurrentMode "systemEnvs";
    if is_null jEnvs then mret tt else
    mapM_ (fun entry =>
      value ← lift (get_string entry.2);
      _ ← os.setEnv entry.1 value; mret tt) (jitems jEnvs).

(** Only the server library's exceptions are caught; the result is [navigationUrl]. *)
Definition __startServerAsync : M string :=
  navigationUrl ← getNavigationUrl;
  enable ← option_bool "enableServer";
  if negb enable then mret navigationUrl else
  try_catch neuserver.init
    (fun e => match e with
     | OtherError =>
         jPort ← getOptionForCurrentMode "port";
         suffix ← (if negb (is_null jPort)
                   then p ← lift (get_int jPort); mret (" on port: " +:+ to_string p) else mret "");
         fatal "Unable to start server"
           ("Neutralinojs can't initialize the application server" +:+ suffix)
     | _ => throw e
     end).

(** the settings given to the logging library: enabled, to a file, the format *)
Definition __configureLogger : M (bool * bool * string) :=
  logging ← getOptionForCurrentMode "logging";
  let get {A} (k : string) (g : json -> outcome A) (d : A) : M A :=
    '(_, v) ← lift (jread logging k); if is_null v then mret d else lift (g v) in
  enabled ← get "enabled" get_bool true;
  toFile ← get "writeToLogFile" get_bool true;
  format ← get "format" get_string "%level %datetime %msg %loc %user@%host";
  mret (enabled, toFile, format).

Definition __initExtra : M unit :=
  enableExtensions ← option_bool "enableExtensions";
  exportAuthInfo ← option_bool "exportAuthInfo";
  (if (exportAuthInfo : bool) then auth_export.exportAuthInfo else mret tt) ;;
  (if (enableExtensions : bool) then extensions_loader.init else mret tt).

(** the options of a mode, with the URL to show *)
Definition mode_options (options : json) (mode navigationUrl : string) : outcome json :=
  '(_, modes) ← jread options "modes";
  '(_, m) ← jread modes mode;
  jset m "url" (JStr navigationUrl).

(** up to the wait, or the end of the window's main loop *)
Definition __startApp (navigationUrl : string) : M unit :=
  options ← getConfig;
  mode ← getMode;
  match mode with
  | AppModeBrowser => os.open navigationUrl
  | AppModeWindow =>
      windowOptions ← lift (mode_options options "window" navigationUrl);
      ok ← window_handlers.init windowOptions;
      if (ok : bool) then mret tt else
      fatal "Unable to create a webview instance"
        "Please install libwebkit2gtk-4.0-37 or libwebkit2gtk-4.1-0 library to run this application."
  | AppModeCloud =>
      i ← neuserver.isInitialized;
      if (i : bool) then
        appId ← getAppId;
        log LogTypeInfo (appId +:+ " is available at " +:+ navigationUrl)
      else mret tt
  | AppModeChrome =>
      chromeOptions ← lift (mode_options options "chrome" navigationUrl);
      chrome.init chromeOptions
  end.

Definition main (args : list string) : M unit :=
  __initFramework args ;;
  navigationUrl ← __startServerAsync;
  _ ← __configureLogger;
  __initExtra ;;
  __startApp navigationUrl.
End main.
End main.
