(* ===== verification/JsonLexFacts.v ===== *)
(** * Facts about the lexer of lib/json/json.hpp: the input, and that every token ends

    [pending] is the text that is still to be read: the rest of the input, behind
    the character that was put back.  A scanner never puts back more than it read,
    and a token other than an error or the end of the input takes a character. *)

From S2P Require Import Prelude Strings OMap Outcome Json JsonLex.
From Stdlib Require Import Ascii SpecFloat.
Import json_lexer.

Definition pending (l : lexer) : list ascii :=
  if next_unget l then match current l with Some c => c :: input l | None => [] end else input l.

(** how many characters that is, behind the end of the input too *)
Definition left_over (l : lexer) : nat :=
  length (input l) + (if next_unget l then match current l with Some _ => 1 | None => 0 end else 0).

(** ** [get] and [unget] *)

Lemma get_pending l :
  match pending l with
  | [] => current (get l) = None
  | c :: r => current (get l) = Some c /\ pending (get l) = r
  end.
Proof. unfold pending, get. by destruct (next_unget l), (current l), (input l). Qed.

Lemma get_next_unget l : next_unget (get l) = false.
Proof. unfold get. by destruct (next_unget l), (current l), (input l). Qed.

Lemma get_cons l c r :
  pending l = c :: r -> current (get l) = Some c /\ pending (get l) = r /\ next_unget (get l) = false.
Proof. intros E. pose proof (get_pending l) as H. rewrite E in H. split_and!; try apply H. apply get_next_unget. Qed.

Lemma get_nil l : pending l = [] -> current (get l) = None.
Proof. intros E. pose proof (get_pending l) as H. by rewrite E in H. Qed.

Lemma unget_get l : pending (unget (get l)) = pending l.
Proof. unfold pending, get, unget. by destruct (next_unget l), (current l), (input l). Qed.

Lemma left_over_get l : left_over (get l) <= left_over l.
Proof. unfold left_over, get. destruct (next_unget l), (current l), (input l); simpl; lia. Qed.

(** a character was read *)
Lemma left_over_read l c : current (get l) = Some c -> left_over (get l) < left_over l.
Proof.
  unfold left_over, get.
  destruct (next_unget l), (current l) as [c0|], (input l) as [|c1 r]; simpl; intros ?; try done; lia.
Qed.

Lemma left_over_unget l : left_over (unget (get l)) = left_over l.
Proof. unfold left_over, get, unget. destruct (next_unget l), (current l), (input l); simpl; lia. Qed.

Lemma left_over_input l : left_over l <= S (length (input l)).
Proof. unfold left_over. destruct (next_unget l); [destruct (current l)|]; lia. Qed.

Lemma left_over_fresh l : next_unget l = false -> left_over l = length (input l).
Proof. unfold left_over. intros ->. lia. Qed.

(** the members that are not input do not matter *)
Lemma pending_set_buffer b t l : pending (set_buffer b t l) = pending l.
Proof. done. Qed.
Lemma pending_add_current l : pending (add_current l) = pending l.
Proof. unfold add_current. by destruct (current l) eqn:E. Qed.
Lemma current_add_current l : current (add_current l) = current l.
Proof. unfold add_current. by destruct (current l) eqn:E. Qed.
Lemma next_unget_add_current l : next_unget (add_current l) = next_unget l.
Proof. unfold add_current. by destruct (current l) eqn:E. Qed.
Lemma left_over_add_current l : left_over (add_current l) = left_over l.
Proof. unfold add_current. by destruct (current l) eqn:E. Qed.

Lemma add_codepoint_pending c l : pending (add_codepoint c l) = pending l.
Proof.
  unfold add_codepoint. generalize (utf8_bytes c). intros bs.
  by revert l; induction bs as [|b bs IH]; intros l; simpl; rewrite ?IH.
Qed.
Lemma left_over_add_codepoint c l : left_over (add_codepoint c l) = left_over l.
Proof.
  unfold add_codepoint. generalize (utf8_bytes c). intros bs.
  by revert l; induction bs as [|b bs IH]; intros l; simpl; rewrite ?IH.
Qed.
Lemma add_codepoint_next_unget c l : next_unget (add_codepoint c l) = next_unget l.
Proof.
  unfold add_codepoint. generalize (utf8_bytes c). intros bs.
  by revert l; induction bs as [|b bs IH]; intros l; simpl; rewrite ?IH.
Qed.

(** ** Every scanner ends *)

(** a scanner reads on from [l]: nothing is put back, and no more is left over *)
Definition reads (l l' : lexer) : Prop := next_unget l' = false /\ left_over l' <= left_over l.

Lemma reads_refl l : next_unget l = false -> reads l l.
Proof. by split. Qed.
Lemma reads_trans l1 l2 l3 : reads l1 l2 -> reads l2 l3 -> reads l1 l3.
Proof. intros [] []. split; [done|lia]. Qed.
Lemma reads_get l : reads l (get l).
Proof. split; [apply get_next_unget|apply left_over_get]. Qed.
Lemma reads_get_from l l' : reads l l' -> reads l (get l').
Proof. intros H. eapply reads_trans; [done|apply reads_get]. Qed.

Create HintDb lexer.
#[export] Hint Resolve reads_refl reads_get reads_get_from get_next_unget : lexer.

Lemma reads_error m l l' : reads l l' -> reads l (error m l').2.
Proof. done. Qed.
Lemma reads_add c l l' : reads l l' -> reads l (add c l').
Proof. done. Qed.
Lemma reads_add_current l l' : reads l l' -> reads l (add_current l').
Proof. intros []. split; [by rewrite next_unget_add_current|by rewrite left_over_add_current]. Qed.
Lemma reads_add_codepoint c l l' : reads l l' -> reads l (add_codepoint c l').
Proof. intros []. split; [by rewrite add_codepoint_next_unget|by rewrite left_over_add_codepoint]. Qed.
#[export] Hint Resolve reads_error reads_add reads_add_current reads_add_codepoint : lexer.

(** by the hints, for a lexer with other members too *)
Ltac reads_go :=
  simpl; try done;
  match goal with
  | |- reads ?l0 ?l' =>
      let l := constr:(ltac:(match l' with
        | {| input := input ?l |} => exact l
        | ?l => exact l
        end)) in
      change (reads l0 l); auto 6 with lexer
  end.

Lemma reads_codepoint factors : forall cp l0 l, reads l0 l -> reads l0 (codepoint_loop factors cp l).2.
Proof.
  induction factors as [|f factors IH]; intros cp l0 l H; simpl; [done|].
  destruct (hex_val _); reads_go.
Qed.

Lemma reads_ranges rs : forall l0 l, reads l0 l -> reads l0 (ranges_loop rs l).2.
Proof.
  induction rs as [|[lo hi] rs IH]; intros l0 l H; simpl; [done|].
  destruct (byte_in _ _ _); simpl; [apply IH|]; reads_go.
Qed.

Lemma reads_unicode l0 l : reads l0 l -> reads l0 (scan_unicode l).2.
Proof.
  intros H. unfold scan_unicode, get_codepoint.
  pose proof (reads_codepoint [12; 8; 4; 0]%Z 0%Z _ _ H) as H1.
  destruct (codepoint_loop _ _ l) as [[c1|] l1]; simpl in H1; [|reads_go].
  pose proof (reads_codepoint [12; 8; 4; 0]%Z 0%Z l0 (get (get l1))) as H2.
  case_match; [case_match; [reads_go|case_match; [reads_go|]]|case_match; reads_go].
  destruct (codepoint_loop _ _ (get (get l1))) as [[c2|] l2]; simpl in H2; [|reads_go].
  case_match; reads_go.
Qed.

(** a turn of [scan_string] takes a character, or ends the string *)
Lemma scan_string_step_reads l :
  reads l (scan_string_step l).2 /\
  ((scan_string_step l).1 = None -> left_over (scan_string_step l).2 < left_over l).
Proof.
  assert (forall l', reads (get l) l' -> current (get l) <> None ->
    reads l l' /\ left_over l' < left_over l) as Hlt.
  { intros l' H Hc. split; [eauto using reads_trans with lexer|].
    destruct (current (get l)) as [c|] eqn:E; [|done]. apply left_over_read in E. destruct H. lia. }
  assert (forall l', reads (get l) l' -> reads l l') as Hle by eauto using reads_trans with lexer.
  unfold scan_string_step. destruct (current (get l)) as [c|] eqn:Ec; [|split; [reads_go|done]].
  assert (forall l' P, reads (get l) l' -> reads l l' /\ (P -> left_over l' < left_over l)) as Hok.
  { intros l' P H. split; [auto|]. intros _. apply Hlt; [done|congruence]. }
  destruct (_ =? 34)%N; [split; [reads_go|done]|].
  destruct (_ =? 92)%N.
  { destruct (current (get (get l))) as [e|]; [|apply Hok; reads_go].
    case_bool_decide; [apply Hok, reads_unicode; auto with lexer|].
    destruct (simple_escape e); apply Hok; reads_go. }
  destruct (_ <=? 31)%N; [apply Hok; reads_go|].
  destruct (_ <=? 127)%N; [apply Hok; reads_go|].
  destruct (utf8_tail _) as [rs|]; [|apply Hok; reads_go].
  pose proof (reads_ranges rs (get l) (add_current (get l))) as H.
  unfold next_byte_in_range. destruct (ranges_loop _ _) as [ok l']; simpl in *. apply Hok. reads_go.
Qed.

Lemma scan_string_loop_reads fuel : forall l, left_over l < fuel ->
  exists t l', scan_string_loop fuel l = Ret (t, l') /\ reads l l'.
Proof.
  induction fuel as [|fuel IH]; intros l Hf; simpl; [lia|].
  destruct (scan_string_step_reads l) as [Hr Hn].
  destruct (scan_string_step l) as [[t|] l']; simpl in *; [eauto|].
  destruct (IH l') as (t & l2 & E & H); [specialize (Hn eq_refl); lia|].
  exists t, l2. eauto using reads_trans.
Qed.

Lemma reset_reads l : next_unget l = false -> reads l (reset l).
Proof. by split. Qed.

Lemma scan_string_reads l : next_unget l = false ->
  exists t l', scan_string l = Ret (t, l') /\ reads l l'.
Proof.
  intros H. unfold scan_string. apply (scan_string_loop_reads _ (reset l)).
  rewrite left_over_fresh by done. lia.
Qed.

Lemma reads_literal text t : forall l0 l, reads l0 l -> reads l0 (scan_literal text t l).2.
Proof.
  induction text as [|c text IH]; intros l0 l H; simpl; [done|].
  destruct (is_char _ _); [apply IH|]; reads_go.
Qed.

Section lexer.
Context `{FloatLib}.

Lemma scan_number_done_left t l : left_over (scan_number_done t (get l)).2 = left_over l.
Proof.
  unfold scan_number_done. set (u := unget (get l)).
  destruct t; repeat case_match; simpl; apply left_over_unget.
Qed.

Lemma left_over_add_number s l : left_over (add_number s l) = left_over l.
Proof. destruct s; try apply left_over_add_current. done. Qed.

Lemma number_next_end s s' : number_next s None <> num_goto s'.
Proof. by destruct s. Qed.

Lemma scan_number_loop_ends fuel : forall s t l, left_over l < fuel ->
  exists t' l', scan_number_loop fuel s t l = Ret (t', l') /\ left_over l' <= left_over l.
Proof.
  induction fuel as [|fuel IH]; intros s t l Hf; cbn [scan_number_loop]; [lia|].
  destruct (number_next s (current (get l))) as [s'| |m] eqn:Em.
  - destruct (current (get l)) as [c|] eqn:Ec; [|by apply number_next_end in Em].
    pose proof (left_over_read l c Ec).
    destruct (IH s' (enter s' t) (add_number s' (get l))) as (t' & l' & E & Hl).
    { rewrite left_over_add_number. lia. }
    exists t', l'. split; [done|]. rewrite left_over_add_number in Hl. lia.
  - destruct (scan_number_done t (get l)) as [t' l'] eqn:E. exists t', l'. split; [done|].
    pose proof (scan_number_done_left t l) as Hl. rewrite E in Hl. simpl in Hl. lia.
  - eexists _, _. split; [done|]. apply left_over_get.
Qed.

Lemma scan_number_ends l : next_unget l = false ->
  exists t l', scan_number l = Ret (t, l') /\ left_over l' <= left_over l.
Proof.
  intros Hn. unfold scan_number.
  destruct (scan_number_loop_ends (S (length (input (reset l))))
    (if is_char "-"%char (reset l) then num_minus
     else if is_char "0"%char (reset l) then num_zero else num_any1)
    (enter (if is_char "-"%char (reset l) then num_minus
     else if is_char "0"%char (reset l) then num_zero else num_any1) value_unsigned)
    (add_current (reset l))) as (t & l' & E & Hl).
  - rewrite left_over_add_current, left_over_fresh by done. simpl. lia.
  - exists t, l'. split; [done|]. by rewrite left_over_add_current in Hl.
Qed.

Lemma skip_whitespace_loop_ends fuel : forall l, left_over l < fuel ->
  exists l0 l', skip_whitespace_loop fuel l = Ret l' /\ l' = get l0 /\ left_over l0 <= left_over l.
Proof.
  induction fuel as [|fuel IH]; intros l Hf; simpl; [lia|].
  destruct (is_space (current (get l))) eqn:E; [|by exists l, (get l)].
  destruct (current (get l)) as [c|] eqn:Ec; [|done].
  pose proof (left_over_read l c Ec).
  destruct (IH (get l)) as (l0 & l' & E' & -> & Hl); [lia|]. exists l0, (get l0). split_and!; [done..|lia].
Qed.

Lemma scan_token_ends l : next_unget l = false ->
  exists t l', scan_token l = Ret (t, l') /\
    (left_over l' <= left_over l) /\ (current l = None -> t = end_of_input).
Proof.
  intros Hn. unfold scan_token.
  assert (forall text t, exists t' l', Ret (scan_literal text t l) = Ret (t', l') /\ left_over l' <= left_over l) as Hlit.
  { intros text t. pose proof (reads_literal text t l l (reads_refl _ Hn)) as [_ Hl].
    destruct (scan_literal text t l) as [t' l']. eauto. }
  destruct (scan_string_reads l Hn) as (ts & ls & Es & _ & Hs).
  destruct (scan_number_ends l Hn) as (tn & ln & En & Hl).
  destruct (current l) as [c|] eqn:Ec; [|by eauto 6].
  assert (forall r : outcome (token_type * lexer),
    (exists t' l', r = Ret (t', l') /\ left_over l' <= left_over l) ->
    exists t' l', r = Ret (t', l') /\ left_over l' <= left_over l /\ (Some c = None -> t' = end_of_input)) as Hw.
  { intros r (t' & l' & -> & ?). by exists t', l'. }
  apply Hw. clear Hw.
  assert (exists t' l', (if bool_decide (c = "-"%char) || is_digit (Some c) then scan_number l
      else Ret (error "invalid literal" l)) = Ret (t', l') /\ left_over l' <= left_over l) as Hd.
  { destruct (_ || _); [eauto|]. eexists _, _. split; [done|]. done. }
  clear Ec.
  destruct c as [[] [] [] [] [] [] [] []]; try exact Hd; try apply Hlit; try (by exists ts, ls);
    eexists _, _; (split; [reflexivity|lia]).
Qed.

Lemma skip_bom_left l : left_over (skip_bom l).2 <= left_over l.
Proof.
  unfold skip_bom. destruct (is_char _ (get l)); simpl.
  - destruct (negb _); simpl.
    + do 2 (etrans; [apply left_over_get|]). done.
    + do 3 (etrans; [apply left_over_get|]). done.
  - by rewrite left_over_unget.
Qed.

(** a token that goes on takes a character *)
Definition takes (t : token_type) (l l' : lexer) : Prop :=
  t = end_of_input \/ t = parse_error \/ left_over l' < left_over l.

Lemma scan_ends l : exists t l', scan l = Ret (t, l') /\ takes t l l'.
Proof.
  unfold scan.
  assert (exists ok l1, (if chars_read_total l =? 0 then skip_bom l else (true, l)) = (ok, l1) /\
    left_over l1 <= left_over l) as (ok & l1 & -> & Hl1).
  { destruct (_ =? 0); [|eauto]. pose proof (skip_bom_left l). destruct (skip_bom l); eauto. }
  destruct ok; simpl; [|eexists _, _; split; [done|by right; left]].
  unfold skip_whitespace. pose proof (left_over_input l1).
  destruct (skip_whitespace_loop_ends (S (S (length (input l1)))) l1) as (l0 & l2 & -> & -> & Hl0); [lia|].
  simpl. destruct (scan_token_ends (get l0)) as (t & l' & E & Hl & Hend); [auto with lexer|].
  exists t, l'. split; [done|]. destruct (current (get l0)) as [c|] eqn:Ec.
  - right. right. apply left_over_read in Ec. lia.
  - left. auto.
Qed.
End lexer.
