(* ===== verification/JsonParseFacts.v ===== *)
(** * Facts about the parser of lib/json/json.hpp: it ends, with a value or an error

    The stack of states follows the open containers, so no access of the consumer
    fails an assertion, and each turn of the loop takes a character. *)

From S2P Require Import Prelude Strings OMap Outcome Json JsonLex JsonParse JsonLexFacts.
From Stdlib Require Import Ascii SpecFloat.
Import json_lexer json_parser.
#[local] Transparent json_parse.

(** a value that satisfies [Q], or a parse error *)
Definition gives {A} (Q : A -> Prop) (m : outcome A) : Prop :=
  match m with
  | Ret a => Q a
  | Throw (JsonParseError _) => True
  | _ => False
  end.

Lemma gives_bind {A B} (Q : A -> Prop) (R : B -> Prop) (m : outcome A) (f : A -> outcome B) :
  gives Q m -> (forall a, Q a -> gives R (f a)) -> gives R (m ≫= f).
Proof. destruct m as [a|[]| | |]; simpl; auto. Qed.

Section parser.
Context `{FloatLib}.

(** the open containers, as the parser's stack has them *)
Definition is_array (c : container) : bool :=
  match c with OpenArray _ => true | OpenObject _ _ => false end.
Definition matched (p : parser) : Prop := states p = is_array <$> ref_stack (sax p).

(** a token that ends every production *)
Definition stops (p : parser) : Prop := last_token p = end_of_input \/ last_token p = parse_error.
Definition left_of (p : parser) : nat := left_over (m_lexer p).

(** how one token follows another *)
Definition follows (p p' : parser) : Prop := stops p' \/ left_of p' < left_of p.

Lemma get_token_spec p :
  exists p', get_token p = Ret p' /\ states p' = states p /\ sax p' = sax p /\ follows p p'.
Proof.
  unfold get_token. destruct (scan_ends (m_lexer p)) as (t & l' & -> & Ht). simpl.
  eexists. split; [done|]. split_and!; [done|done|].
  destruct Ht as [->|[->|Hl]]; [by left; left|by left; right|by right].
Qed.

Lemma gives_get_token {B} (R : B -> Prop) (f : parser -> outcome B) p :
  (forall p', states p' = states p -> sax p' = sax p -> follows p p' -> gives R (f p')) ->
  gives R (get_token p ≫= f).
Proof. intros Hf. destruct (get_token_spec p) as (p' & -> & ? & ? & ?). simpl. auto. Qed.

Lemma follows_token p p' : follows p p' -> ~ stops p' -> left_of p' < left_of p.
Proof. by intros [|]. Qed.

Lemma handle_value_shape v d : is_array <$> ref_stack (handle_value v d) = is_array <$> ref_stack d.
Proof. by destruct d as [r [|[] ?]]. Qed.

Lemma matched_value v p : matched p -> matched (value v p).
Proof. unfold matched. simpl. by rewrite handle_value_shape. Qed.

(** a state above an open container can be closed *)
Lemma pop_spec b st d : b :: st = is_array <$> ref_stack d ->
  exists d', pop d = Ret d' /\ st = is_array <$> ref_stack d'.
Proof.
  unfold pop. destruct d as [r [|c cs]]; simpl; [done|]. intros [= -> ->].
  eexists. split; [done|]. by rewrite handle_value_shape.
Qed.

Lemma key_spec k st d : false :: st = is_array <$> ref_stack d ->
  exists d', key k d = Ret d' /\ false :: st = is_array <$> ref_stack d'.
Proof.
  unfold key. destruct d as [r [|[l|m k0] cs]]; simpl; try done. intros [= ->]. by eexists.
Qed.

Lemma parse_member_spec p st : false :: st = is_array <$> ref_stack (sax p) ->
  gives (fun p' => states p' = states p /\ false :: st = is_array <$> ref_stack (sax p') /\
                   left_of p' < left_of p) (parse_member p).
Proof.
  intros Hs. unfold parse_member. case_decide as Ht; [done|].
  destruct (key_spec (get_string (m_lexer p)) st (sax p) Hs) as (d & -> & Hd). cbn [mbind outcome_bind].
  apply gives_get_token. intros p' E1 E2 Hf. case_decide as Hn; [done|]. simpl. split_and!; [done|by rewrite E2|].
  apply (follows_token (with_sax d p) p'); [done|].
  unfold stops. rewrite Hn. by intros [].
Qed.

Lemma parse_value_spec p : matched p ->
  gives (fun bp : bool * parser => let '(b, p') := bp in
    matched p' /\ ~ stops p /\
    if b then left_of p' <= left_of p else follows p p') (parse_value p).
Proof.
  intros Hm. unfold parse_value. pose proof Hm as Hp. unfold matched in Hp.
  assert (forall v, ~ stops p -> gives (fun bp : bool * parser => let '(b, p') := bp in
    matched p' /\ ~ stops p /\ if b then left_of p' <= left_of p else follows p p')
    (Ret (true, value v p))) as Hval.
  { intros v Hs. split_and!; [by apply matched_value|done|]. apply Nat.le_refl. }
  destruct (last_token p) eqn:Et; try done;
    assert (~ stops p) as Hns by (unfold stops; rewrite Et; by intros []); try by apply Hval.
  - destruct (negb _); [done|]. by apply Hval.
  - (* an array *)
    apply gives_get_token. intros p' E1 E2 Hf. simpl in E1, E2. case_decide as Ha.
    + destruct (pop_spec true (states p) (sax p')) as (d & E & Hd); [by rewrite E2, Hp|].
      unfold end_array. rewrite E. simpl. split_and!; [unfold matched; simpl; congruence|done|].
      apply Nat.lt_le_incl, (follows_token (with_sax (start_array (sax p)) p) p' Hf). unfold stops.
      rewrite Ha. by intros [].
    + simpl. split_and!; [|done|exact Hf]. change (true :: states p' = is_array <$> ref_stack (sax p')). by rewrite E1, E2, Hp.
  - (* an object *)
    apply gives_get_token. intros p' E1 E2 Hf. simpl in E1, E2. case_decide as Ha.
    + destruct (pop_spec false (states p) (sax p')) as (d & E & Hd); [by rewrite E2, Hp|].
      unfold end_object. rewrite E. simpl. split_and!; [unfold matched; simpl; congruence|done|].
      apply Nat.lt_le_incl, (follows_token (with_sax (start_object (sax p)) p) p' Hf). unfold stops.
      rewrite Ha. by intros [].
    + assert (last_token p' = value_string -> left_of p' < left_of p) as Hlt.
      { intros E. apply (follows_token (with_sax (start_object (sax p)) p) p' Hf). unfold stops.
        rewrite E. by intros []. }
      destruct (decide (last_token p' = value_string)) as [Ev|Ev];
        [|by unfold parse_member; rewrite decide_True by done].
      eapply gives_bind; [apply (parse_member_spec p' (states p)); by rewrite E2, Hp|].
      intros p2 (Es & Hd & Hl). apply gives_get_token. intros p3 E3 E4 Hf3.
      simpl in E3, E4. split_and!; [unfold matched; by rewrite E3, E4, <-Hd, Es, E1|done|].
      specialize (Hlt Ev). destruct Hf3 as [|Hf3]; [by left|right]. change (left_of p3 < left_of p2) in Hf3. lia.
Qed.

Lemma evaluate_state_spec p : matched p ->
  gives (fun cp : control * parser => let '(c, p') := cp in
    match c with
    | finished => p' = p
    | next_value => matched p' /\ 1 <= left_of p /\ (stops p' \/ left_of p' + 2 <= left_of p)
    | skip_to_state_evaluation => matched p' /\ left_of p' < left_of p
    end) (evaluate_state p).
Proof.
  intros Hm. unfold evaluate_state. pose proof Hm as Hp. unfold matched in Hp.
  destruct (states p) as [|b st] eqn:Es; [done|].
  destruct b.
  - apply gives_get_token. intros p1 E1 E2 Hf1. case_decide as Hv.
    + assert (left_of p1 < left_of p) as H1.
      { apply (follows_token p p1 Hf1). unfold stops. rewrite Hv. by intros []. }
      apply gives_get_token. intros p2 E3 E4 Hf2. simpl. split_and!; [|lia|].
      * unfold matched. congruence.
      * destruct Hf2 as [|]; [by left|right; lia].
    + case_decide as Ha; [|done].
      destruct (pop_spec true st (sax p1)) as (d & E & Hd); [congruence|].
      unfold end_array. rewrite E. simpl. split; [done|]. apply (follows_token p p1 Hf1).
      unfold stops. rewrite Ha. by intros [].
  - apply gives_get_token. intros p1 E1 E2 Hf1. case_decide as Hv.
    + assert (left_of p1 < left_of p) as H1.
      { apply (follows_token p p1 Hf1). unfold stops. rewrite Hv. by intros []. }
      apply gives_get_token. intros p2 E3 E4 Hf2.
      destruct (decide (last_token p2 = value_string)) as [Ev|Ev];
        [|by unfold parse_member; rewrite decide_True by done].
      assert (left_of p2 < left_of p1) as H2.
      { apply (follows_token p1 p2 Hf2). unfold stops. rewrite Ev. by intros []. }
      eapply gives_bind; [apply (parse_member_spec p2 st); congruence|].
      intros p3 (Es3 & Hd & Hl). apply gives_get_token. intros p4 E5 E6 Hf4. simpl. split_and!; [|lia|].
      * unfold matched. congruence.
      * destruct Hf4 as [|]; [by left|right; lia].
    + case_decide as Ha; [|done].
      destruct (pop_spec false st (sax p1)) as (d & E & Hd); [congruence|].
      unfold end_object. rewrite E. simpl. split; [done|]. apply (follows_token p p1 Hf1).
      unfold stops. rewrite Ha. by intros [].
Qed.

(** enough turns: those that the rest of the text can take *)
Definition enough (fuel : nat) (skip : bool) (p : parser) : Prop :=
  if skip then left_of p + 1 <= fuel else (stops p /\ 1 <= fuel) \/ left_of p + 2 <= fuel.

Lemma sax_parse_internal_gives fuel : forall skip p, matched p -> enough fuel skip p ->
  gives (fun _ => True) (sax_parse_internal fuel skip p).
Proof.
  induction fuel as [|fuel IH]; intros skip p Hm Hf; [unfold enough in Hf; destruct skip; lia|].
  cbn [sax_parse_internal].
  assert (forall p', matched p' -> left_of p' <= fuel -> (fuel = 0 -> skip = true) ->
    gives (fun _ => True) ('(c, p) ← evaluate_state p';
      match c with
      | finished => Ret p
      | next_value => sax_parse_internal fuel false p
      | skip_to_state_evaluation => sax_parse_internal fuel true p
      end)) as Heval.
  { intros p' Hm' Hl Hz. eapply gives_bind; [by apply evaluate_state_spec|].
    intros [[] p2]; cbn beta iota; [done| |].
    - intros (Hm2 & H1 & H2). apply IH; [done|]. destruct H2; [left|right]; [split; [done|]|]; lia.
    - intros (Hm2 & H1). apply IH; [done|]. simpl. lia. }
  destruct skip; cbn [mbind outcome_bind negb].
  - apply Heval; [done| |done]. simpl in Hf. lia.
  - eapply gives_bind; [by apply parse_value_spec|].
    intros [b p'] (Hm' & Hns & Hb). destruct Hf as [[]|Hf]; [done|].
    destruct b; cbn [negb].
    + apply Heval; [done|lia|lia].
    + apply IH; [done|]. destruct Hb as [|]; [left; split; [done|lia]|right; lia].
Qed.

Definition parser0 (s : string) : parser :=
  {| m_lexer := lexer0 s; last_token := uninitialized; states := []; sax := dom0 |}.

(** the turns that [parse] allows are enough *)
Lemma parse_turns s p : get_token (parser0 s) = Ret p ->
  gives (fun _ => True) (sax_parse_internal (S (S (slen s))) false p).
Proof.
  intros E. destruct (get_token_spec (parser0 s)) as (p' & E' & E1 & E2 & Hf).
  rewrite E in E'. injection E' as <-. apply sax_parse_internal_gives; [unfold matched; by rewrite E1, E2|].
  destruct Hf as [|Hl]; [left; split; [done|lia]|right].
  change (left_of p < left_over (lexer0 s)) in Hl. unfold left_over in Hl. simpl in Hl.
  rewrite length_to_list in Hl. lia.
Qed.

Lemma json_parse_gives s : gives (fun _ => True) (json_parse s).
Proof.
  unfold json_parse, parse. fold (parser0 s).
  destruct (get_token_spec (parser0 s)) as (p & E & _). rewrite E. cbn [mbind outcome_bind].
  eapply gives_bind; [by apply parse_turns|].
  intros p' _. apply gives_get_token. intros p2 _ _ _. by case_decide.
Qed.

(** more turns do not change the result *)
Lemma sax_parse_internal_more fuel : forall k skip p,
  sax_parse_internal fuel skip p <> NoFuel ->
  sax_parse_internal (fuel + k) skip p = sax_parse_internal fuel skip p.
Proof.
  induction fuel as [|fuel IH]; intros k skip p; cbn [sax_parse_internal Nat.add]; [done|].
  assert (forall p', evaluate_state p' ≫= (fun '(c, p) =>
      match c with
      | finished => Ret p
      | next_value => sax_parse_internal fuel false p
      | skip_to_state_evaluation => sax_parse_internal fuel true p
      end) <> NoFuel ->
    evaluate_state p' ≫= (fun '(c, p) =>
      match c with
      | finished => Ret p
      | next_value => sax_parse_internal (fuel + k) false p
      | skip_to_state_evaluation => sax_parse_internal (fuel + k) true p
      end) =
    evaluate_state p' ≫= (fun '(c, p) =>
      match c with
      | finished => Ret p
      | next_value => sax_parse_internal fuel false p
      | skip_to_state_evaluation => sax_parse_internal fuel true p
      end)) as Heval.
  { intros p'. destruct (evaluate_state p') as [[[] p2]| | | |]; simpl; auto. }
  destruct skip; [apply Heval|].
  destruct (parse_value p) as [[[] p']| | | |]; simpl; auto.
Qed.
End parser.
