(* ===== verification/JsonStringFacts.v ===== *)
(** * Facts about the strings of lib/json/json.hpp: what is written is read back

    [repair] is what a string becomes in transit: every ill-formed sequence of
    bytes is replaced by U+FFFD.  The serializer's table of states and the ranges of
    the lexer both accept what [utf8_ok] accepts. *)

From S2P Require Import Prelude Strings OMap Outcome Json JsonLex JsonDump JsonLexFacts.
From Stdlib Require Import Ascii SpecFloat.
Import json_lexer json_serializer.

(** ** Well-formed text *)

Definition in_bounds (r : N * N) (c : ascii) : bool := ((r.1 <=? code c) && (code c <=? r.2))%N.

(** well-formed UTF-8, with the ranges of the bytes that complete the first code point *)
Fixpoint utf8_ok (rs : list (N * N)) (l : list ascii) : bool :=
  match l, rs with
  | [], [] => true
  | [], _ => false
  | c :: l, [] =>
      if (code c <? 128)%N then utf8_ok [] l
      else match utf8_tail (code c) with Some rs => utf8_ok rs l | None => false end
  | c :: l, r :: rs => in_bounds r c && utf8_ok rs l
  end.

Definition fffd : list ascii := ["239"; "191"; "189"]%char.

(** [inc] are the bytes of the code point that is being read *)
Fixpoint repair (rs : list (N * N)) (inc l : list ascii) : list ascii :=
  match l with
  | [] => match rs with [] => [] | _ => fffd end
  | c :: l =>
      let start :=
        if (code c <? 128)%N then c :: repair [] [] l
        else match utf8_tail (code c) with Some rs => repair rs [c] l | None => fffd ++ repair [] [] l end in
      match rs with
      | [] => start
      | r :: rs =>
          if in_bounds r c then
            match rs with [] => inc ++ c :: repair [] [] l | _ => repair rs (inc ++ [c]) l end
          else fffd ++ start
      end
  end.
Definition repaired (s : string) : string := of_list (repair [] [] (to_list s)).

(** the text of a string that is well-formed *)
Definition escape_char (c : ascii) : string :=
  if (code c <? 128)%N then escape_codepoint false (Z.of_N (code c)) c else String c EmptyString.
Definition escape_text (l : list ascii) : string :=
  foldr (fun c r => escape_char c +:+ r) EmptyString l.

Lemma escape_text_app l m : escape_text (l ++ m) = escape_text l +:+ escape_text m.
Proof. induction l as [|c l IH]; simpl; [done|]. by rewrite IH, sapp_assoc. Qed.

(** the ranges that follow a byte, the serializer's state and the least code point *)
Definition utf8_shapes : list (list (N * N) * Z * Z) :=
  let c := (128, 191)%N in
  [([c], 2, 2); ([c; c], 3, 1); ([(160, 191)%N; c], 4, 0); ([(128, 159)%N; c], 5, 1);
   ([(144, 191)%N; c; c], 6, 0); ([c; c; c], 7, 1); ([(128, 143)%N; c; c], 8, 1); ([], 0, 128)]%Z.

(** the state [st] and the code point [cp] stand for the ranges [rs] *)
Definition stands (rs : list (N * N)) (st cp : Z) : bool :=
  existsb (fun '(rs', st', low) => bool_decide (rs = rs') && (st =? st')%Z && (low <=? cp)%Z) utf8_shapes.

Definition next_state (st : Z) (c : ascii) : Z := utf8d_at (256 + st * 16 + utf8d_at (Z.of_N (code c))).
Definition first_bits (c : ascii) : Z :=
  Z.land (Z.shiftr 255 (utf8d_at (Z.of_N (code c)))) (Z.of_N (code c)).

Definition check_start (c : ascii) : bool :=
  if (code c <? 128)%N then (next_state 0 c =? 0)%Z && (first_bits c =? Z.of_N (code c))%Z
  else match utf8_tail (code c) with
       | None => (next_state 0 c =? 1)%Z
       | Some rs => stands rs (next_state 0 c) (first_bits c) && (first_bits c <? 64)%Z &&
                    negb (bool_decide (rs = [])) && (length rs <=? 3)
       end.
Definition check_step (sh : list (N * N) * Z * Z) (c : ascii) : bool :=
  match sh with
  | ([], _, _) => true
  | (r :: rs, st, low) =>
      if in_bounds r c
      then stands rs (next_state st c) (64 * low + Z.land (Z.of_N (code c)) 63) && (127 <? code c)%N
      else (next_state st c =? 1)%Z
  end.

Lemma start_spec c : check_start c = true.
Proof. by apply (all_chars_spec check_start); vm_compute. Qed.
Lemma step_spec sh c : sh ∈ utf8_shapes -> check_step sh c = true.
Proof.
  intros Hs. apply (all_chars_spec (check_step sh)).
  assert (forallb (fun sh => forallb (check_step sh) all_chars) utf8_shapes = true) as H by by vm_compute.
  rewrite forallb_forall in H. by apply H, list_elem_of_In.
Qed.

Lemma stands_elim rs st cp : stands rs st cp = true ->
  exists low, (rs, st, low) ∈ utf8_shapes /\ (low <= cp)%Z.
Proof.
  intros H. apply existsb_exists in H as ([[rs' st'] low] & Hin & Hb).
  rewrite !andb_true_iff in Hb. destruct Hb as [[->%bool_decide_eq_true ->%Z.eqb_eq] Hl%Z.leb_le].
  exists low. by split; [apply list_elem_of_In|].
Qed.
Lemma stands_intro rs st cp low : (rs, st, low) ∈ utf8_shapes -> (low <= cp)%Z -> stands rs st cp = true.
Proof.
  intros Hin Hl. apply existsb_exists. exists (rs, st, low). split; [by apply list_elem_of_In|].
  rewrite bool_decide_true, Z.eqb_refl by done. by apply Z.leb_le.
Qed.

Lemma stands_mono rs st cp cp' : stands rs st cp = true -> (cp <= cp')%Z -> stands rs st cp' = true.
Proof. intros (low & ? & ?)%stands_elim ?. eapply stands_intro; [done|lia]. Qed.

Lemma stands_accept rs cp : stands rs 0 cp = true -> rs = [] /\ (128 <= cp)%Z.
Proof.
  intros (low & Hin & Hl)%stands_elim. unfold utf8_shapes in Hin.
  repeat (apply elem_of_cons in Hin as [[= ]|Hin]); try done; [|by apply elem_of_nil in Hin]. by subst.
Qed.
Lemma stands_reject rs st cp : stands rs st cp = true -> st <> 1%Z /\ (rs = [] -> st = 0%Z).
Proof.
  intros (low & Hin & Hl)%stands_elim. unfold utf8_shapes in Hin.
  repeat (apply elem_of_cons in Hin as [[= ]|Hin]); subst; try (by split); by apply elem_of_nil in Hin.
Qed.

(** ** What [dump_escaped] writes *)

Lemma lor_shift a b : (0 <= a < 64)%Z -> (0 <= b < 2 ^ 26)%Z ->
  Z.lor a (wrapU 32 (Z.shiftl b 6)) = (64 * b + a)%Z.
Proof.
  intros Ha Hb. rewrite Z.shiftl_mul_pow2 by lia. rewrite wrapU_small by lia.
  change (2 ^ 6)%Z with 64%Z. rewrite Z.lor_comm. pose proof (Z.add_lor_land (b * 64) a) as E.
  assert (Z.land (b * 64) a = 0)%Z as H0; [|lia].
  apply Z.bits_inj'. intros n Hn. rewrite Z.land_spec, Z.bits_0.
  destruct (Z.ltb_spec n 6).
  - change 64%Z with (2 ^ 6)%Z. by rewrite Z.mul_pow2_bits_low.
  - rewrite (Z.bits_above_log2 a n), andb_false_r; [done|lia|].
    destruct (decide (a = 0)%Z) as [->|]; [simpl; lia|]. apply Z.log2_lt_pow2; [lia|].
    apply Z.lt_le_trans with (2 ^ 6)%Z; [lia|]. by apply Z.pow_le_mono_r.
Qed.

Lemma low_bits c : (0 <= Z.land (Z.of_N (code c)) 63 < 64)%Z.
Proof. change 63%Z with (Z.ones 6). rewrite Z.land_ones by lia. by apply Z.mod_pos_bound. Qed.

Lemma escape_raw cp c : (128 <= cp)%Z -> escape_codepoint false cp c = String c EmptyString.
Proof.
  intros H. unfold escape_codepoint. rewrite !decide_False by lia.
  assert ((cp <=? 31)%Z = false) as -> by (apply Z.leb_gt; lia). done.
Qed.

(** the serializer inside a code point *)
Definition inside (rs : list (N * N)) (inc : list ascii) (e : escape_state) : Prop :=
  incomplete e = inc /\ undumped_chars e = length inc /\ utf8_state e <> 1%Z /\
  match rs with
  | [] => inc = [] /\ utf8_state e = 0%Z
  | _ => stands rs (utf8_state e) (utf8_codepoint e) = true /\ utf8_state e <> 0%Z /\
         inc <> [] /\ Forall (fun c => (code c <? 128)%N = false) inc /\ length rs <= 3 /\
         (0 <= utf8_codepoint e < 64 ^ Z.of_nat (4 - length rs))%Z
  end.

(** the text of [dump_escaped] from a state on *)
Definition flush (m : outcome escape_state) : outcome string :=
  e ← m;
  if decide (utf8_state e = UTF8_ACCEPT) then Ret (written e +:+ of_list (incomplete e))
  else Ret (written e +:+ replacement false).

Lemma escape_text_raw inc : Forall (fun c => (code c <? 128)%N = false) inc -> escape_text inc = of_list inc.
Proof. induction 1 as [|c inc Hc _ IH]; simpl; [done|]. unfold escape_char. by rewrite Hc, IH. Qed.

Lemma decode_state st cp c : (decode st cp c).1 = next_state st c.
Proof. done. Qed.

Lemma decode_start cp c : (decode 0 cp c).2 = first_bits c.
Proof. done. Qed.

Lemma decode_step st cp c : st <> 0%Z -> (0 <= cp < 2 ^ 26)%Z ->
  (decode st cp c).2 = (64 * cp + Z.land (Z.of_N (code c)) 63)%Z.
Proof.
  intros Hs Hc. unfold decode. cbn [snd]. rewrite decide_True by done. apply lor_shift; [apply low_bits|done].
Qed.

(** the ranges that follow a byte that is in place *)
Definition next_ranges (rs : list (N * N)) (c : ascii) : option (list (N * N)) :=
  match rs with
  | [] => if (code c <? 128)%N then Some [] else utf8_tail (code c)
  | r :: rs => if in_bounds r c then Some rs else None
  end.

Lemma utf8_ok_cons rs c l :
  utf8_ok rs (c :: l) = match next_ranges rs c with Some rs' => utf8_ok rs' l | None => false end.
Proof. destruct rs; cbn [utf8_ok next_ranges]; [by destruct (code c <? 128)%N|by destruct (in_bounds _ _)]. Qed.

Lemma inside_start w cp :
  inside [] [] {| written := w; incomplete := []; utf8_state := UTF8_ACCEPT; utf8_codepoint := cp;
                  undumped_chars := 0 |}.
Proof. by split_and!. Qed.

(** after a byte that is in place *)
Definition advanced (rs inc' : _) (e e' : escape_state) : Prop :=
  match rs with
  | [] => written e' = written e +:+ escape_text inc' /\ inside [] [] e'
  | _ => written e' = written e /\ inside rs inc' e'
  end.

Lemma first_byte h c e rs : inside [] [] e -> next_ranges [] c = Some rs ->
  exists e', dump_byte h false e c = Ret (false, e') /\ advanced rs [c] e e'.
Proof.
  intros (Hi & Hu & _ & _ & Hs) Hn. pose proof (start_spec c) as Hc. unfold check_start in Hc.
  unfold dump_byte. rewrite (surjective_pairing (decode _ _ c)), Hs, decode_state, decode_start, Hi.
  unfold next_ranges in Hn. destruct (code c <? 128)%N eqn:Ec.
  - injection Hn as <-. apply andb_true_iff in Hc as [->%Z.eqb_eq ->%Z.eqb_eq]. rewrite decide_True by done.
    eexists. split; [done|]. split; [|apply inside_start]. cbn [written escape_text foldr].
    unfold escape_char. by rewrite Ec, sapp_nil_r.
  - rewrite Hn in Hc. rewrite !andb_true_iff in Hc. destruct Hc as [[[Hst Hlt%Z.ltb_lt] Hne] Hlen%Nat.leb_le].
    apply negb_true_iff, bool_decide_eq_false in Hne. destruct (stands_reject _ _ _ Hst) as [H1 _].
    assert (next_state 0 c <> 0%Z) as H0 by (intros E; rewrite E in Hst; by apply stands_accept in Hst as []).
    rewrite !decide_False by done. eexists. split; [done|]. destruct rs as [|r rs]; [done|].
    split; [done|]. unfold inside. cbn [incomplete undumped_chars utf8_state utf8_codepoint app].
    split_and!; [done|by rewrite Hu|done|done|done|done|repeat constructor; done|done| |].
    + unfold first_bits. apply Z.land_nonneg. right. lia.
    + apply Z.lt_le_trans with 64%Z; [done|]. change 64%Z with (64 ^ 1)%Z at 1.
      apply Z.pow_le_mono_r; simpl in *; lia.
Qed.

Lemma inside_bound r rs inc e : inside (r :: rs) inc e -> (0 <= utf8_codepoint e < 2 ^ 26)%Z.
Proof.
  intros (_ & _ & _ & _ & _ & _ & _ & _ & Hcp). split; [lia|]. apply Z.lt_le_trans with (1 := proj2 Hcp).
  change (2 ^ 26)%Z with (4 * 64 ^ 4)%Z. transitivity (64 ^ 4)%Z; [|lia]. apply Z.pow_le_mono_r; simpl; lia.
Qed.

Lemma later_byte h r rs inc c e rs' : inside (r :: rs) inc e -> next_ranges (r :: rs) c = Some rs' ->
  exists e', dump_byte h false e c = Ret (false, e') /\ advanced rs' (inc ++ [c]) e e'.
Proof.
  intros He Hn. pose proof (inside_bound _ _ _ _ He) as Hcp'.
  destruct He as (Hi & Hu & H1 & Hst & H0 & Hne & Hraw & Hlen & Hcp).
  destruct (stands_elim _ _ _ Hst) as (low & Hin & Hlow). pose proof (step_spec _ c Hin) as Hc.
  unfold dump_byte. rewrite (surjective_pairing (decode _ _ c)), decode_state, decode_step by done.
  pose proof (low_bits c) as Hb. unfold check_step in Hc. cbn [next_ranges] in Hn.
  destruct (in_bounds r c) eqn:Er; [|done]. injection Hn as <-.
  apply andb_true_iff in Hc as [Hst' Hge%N.ltb_lt].
  assert ((code c <? 128)%N = false) as Hc128 by (apply N.ltb_ge; lia).
  apply stands_mono with (cp' := (64 * utf8_codepoint e + Z.land (Z.of_N (code c)) 63)%Z) in Hst'; [|lia].
  destruct rs as [|r' rs].
  - destruct (stands_reject _ _ _ Hst') as [_ E]. rewrite (E eq_refl) in Hst' |- *. rewrite decide_True by done.
    eexists. split; [done|]. split; [|apply inside_start].
    apply stands_accept in Hst' as [_ Hge']. cbn [written]. rewrite escape_raw by done.
    rewrite escape_text_raw, of_list_app, Hi by (apply Forall_app; by repeat constructor). done.
  - assert (next_state (utf8_state e) c <> 0%Z) as H0'
      by (intros E; rewrite E in Hst'; by apply stands_accept in Hst' as []).
    destruct (stands_reject _ _ _ Hst') as [H1' _]. rewrite !decide_False by done.
    eexists. split; [done|]. split; [done|]. unfold inside. simpl. rewrite Hi, Hu. split_and!; try done.
    + rewrite length_app. simpl. lia.
    + by destruct inc.
    + apply Forall_app. split; [done|by constructor].
    + simpl in *. lia.
    + lia.
    + revert Hcp Hlen. clear -Hb. do 3 (destruct rs as [|? rs]; simpl; try lia).
Qed.

(** a byte that is in place is taken by both handlers *)
Lemma good_byte h rs inc c e rs' : inside rs inc e -> next_ranges rs c = Some rs' ->
  exists e', dump_byte h false e c = Ret (false, e') /\ advanced rs' (inc ++ [c]) e e'.
Proof.
  destruct rs as [|r rs]; [|apply later_byte]. intros He. assert (inc = []) as -> by (by destruct He as (?&?&?&->&?)).
  by apply first_byte.
Qed.

(** a byte that is not is replaced, and read again when it ends a code point *)
Lemma bad_byte rs inc c e : inside rs inc e -> next_ranges rs c = None ->
  exists e', dump_byte replace false e c = Ret (match rs with [] => false | _ => true end, e') /\
    written e' = written e +:+ escape_text fffd /\ inside [] [] e'.
Proof.
  intros He Hn. assert (next_state (utf8_state e) c = 1%Z) as E.
  { destruct rs as [|r rs]; unfold next_ranges in Hn.
    - destruct He as (_ & _ & _ & _ & ->). pose proof (start_spec c) as Hc. unfold check_start in Hc.
      destruct (code c <? 128)%N; [done|]. rewrite Hn in Hc. by apply Z.eqb_eq.
    - destruct He as (_ & _ & _ & Hst & _). destruct (stands_elim _ _ _ Hst) as (low & Hin & _).
      pose proof (step_spec _ c Hin) as Hc. unfold check_step in Hc. destruct (in_bounds r c); [done|].
      by apply Z.eqb_eq. }
  unfold dump_byte. rewrite (surjective_pairing (decode _ _ c)), decode_state, E.
  rewrite decide_False, decide_True by done. eexists. split; [|by split; [|apply inside_start]].
  do 2 f_equal. destruct He as (_ & Hu & _ & He). rewrite Hu. destruct rs as [|r rs]; [by destruct He as [-> _]|].
  destruct inc; [|done]. by destruct He as (_ & _ & [] & _).
Qed.

Definition writes_repaired (l : list ascii) : Prop := forall rs inc e, inside rs inc e ->
  flush (dump_bytes replace false e l) = Ret (written e +:+ escape_text (repair rs inc l)).

(** what the loop makes of a byte that is in place *)
Lemma advanced_repaired l rs inc' e e' : writes_repaired l -> advanced rs inc' e e' ->
  flush (dump_bytes replace false e' l) =
  Ret (written e +:+ escape_text (match rs with [] => inc' ++ repair [] [] l | _ => repair rs inc' l end)).
Proof.
  intros IH H. destruct rs as [|r rs]; destruct H as [Hw Hin]; rewrite (IH _ _ _ Hin), Hw; [|done].
  by rewrite escape_text_app, sapp_assoc.
Qed.

Lemma repair_first c l : repair [] [] (c :: l) =
  match next_ranges [] c with
  | Some [] => c :: repair [] [] l
  | Some rs => repair rs [c] l
  | None => fffd ++ repair [] [] l
  end.
Proof.
  cbn [repair next_ranges]. destruct (code c <? 128)%N; [done|].
  destruct (utf8_tail (code c)) as [[|r rs]|] eqn:E; [|done..]. unfold utf8_tail in E. by repeat case_match.
Qed.

Lemma first_repaired c l e : writes_repaired l -> inside [] [] e ->
  exists e', dump_byte replace false e c = Ret (false, e') /\
    flush (dump_bytes replace false e' l) = Ret (written e +:+ escape_text (repair [] [] (c :: l))).
Proof.
  intros IH He. rewrite repair_first. destruct (next_ranges [] c) as [rs|] eqn:En.
  - destruct (first_byte replace c e rs He En) as (e' & E & Ha). exists e'. split; [done|].
    rewrite (advanced_repaired l rs [c] e e' IH Ha). by destruct rs.
  - destruct (bad_byte [] [] c e He En) as (e' & E & Hw & Hin). exists e'. split; [done|].
    by rewrite (IH _ _ _ Hin), Hw, escape_text_app, sapp_assoc.
Qed.

Lemma dump_bytes_repair l : writes_repaired l.
Proof.
  induction l as [|c l IH]; intros rs inc e He.
  { destruct He as (Hi & _ & _ & Hm). simpl. destruct rs as [|r rs].
    - destruct Hm as [-> ->]. by rewrite Hi.
    - by rewrite decide_False by apply Hm. }
  cbn [dump_bytes]. destruct rs as [|r rs].
  { assert (inc = []) as -> by (by destruct He as (?&?&?&->&?)).
    destruct (first_repaired c l e IH He) as (e' & -> & H). exact H. }
  destruct (next_ranges (r :: rs) c) as [rs'|] eqn:En.
  - destruct (later_byte replace r rs inc c e rs' He En) as (e' & -> & Ha). cbn [mbind outcome_bind].
    rewrite (advanced_repaired l rs' _ e e' IH Ha). cbn [repair]. cbn [next_ranges] in En.
    destruct (in_bounds r c); [|done]. injection En as <-. destruct rs; [|done]. by rewrite <-app_assoc.
  - destruct (bad_byte (r :: rs) inc c e He En) as (e1 & -> & Hw & Hin). cbn [mbind outcome_bind].
    destruct (first_repaired c l e1 IH Hin) as (e' & -> & H). cbn [mbind outcome_bind]. rewrite H, Hw.
    cbn [next_ranges] in En.
    assert (repair (r :: rs) inc (c :: l) = fffd ++ repair [] [] (c :: l)) as ->
      by (cbn [repair]; by destruct (in_bounds r c)).
    by rewrite (escape_text_app fffd), sapp_assoc.
Qed.

(** well-formed text passes the strict handler *)
Lemma dump_bytes_strict l : forall rs inc e, inside rs inc e -> utf8_ok rs l = true ->
  exists e', dump_bytes strict false e l = Ret e' /\ dump_bytes replace false e l = Ret e' /\ utf8_state e' = 0%Z.
Proof.
  induction l as [|c l IH]; intros rs inc e He Hok.
  { destruct rs as [|r rs]; [|done]. exists e. by destruct He as (?&?&?&?&?). }
  rewrite utf8_ok_cons in Hok. destruct (next_ranges rs c) as [rs'|] eqn:En; [|done]. cbn [dump_bytes].
  destruct (good_byte strict rs inc c e rs' He En) as (e1 & E1 & H1).
  destruct (good_byte replace rs inc c e rs' He En) as (e2 & E2 & _).
  assert (e2 = e1) as ->.
  { unfold dump_byte in E1, E2. destruct (decode _ _ _) as [st cp]. repeat case_decide; by simplify_eq. }
  rewrite E1, E2. cbn [mbind outcome_bind].
  destruct rs' as [|r' rs']; destruct H1 as [_ Hin]; by apply (IH _ _ e1 Hin).
Qed.

Lemma dump_escaped_strict s : utf8_ok [] (to_list s) = true ->
  dump_escaped strict false s = dump_escaped replace false s.
Proof.
  intros H. unfold dump_escaped. destruct (dump_bytes_strict (to_list s) [] [] escape0 (inside_start _ _) H)
    as (e & -> & -> & Hs). cbn [mbind outcome_bind]. by rewrite Hs.
Qed.

(** a string is written with its ill-formed bytes repaired *)
Lemma dump_escaped_eq s : dump_escaped replace false s = Ret (escape_text (to_list (repaired s))).
Proof.
  unfold repaired. rewrite to_of_list. exact (dump_bytes_repair (to_list s) [] [] escape0 (inside_start _ _)).
Qed.

(** ** What [scan_string] reads *)

(** [buf] has been read, reversed, and [rest] comes next *)
Definition reading (buf rest : list ascii) (l : lexer) : Prop :=
  token_buffer l = buf /\ pending l = rest /\ next_unget l = false.

Lemma get_buffer l : token_buffer (get l) = token_buffer l.
Proof. unfold get. by destruct (next_unget l), (input l). Qed.

Lemma reading_get buf c rest l : token_buffer l = buf -> pending l = c :: rest ->
  current (get l) = Some c /\ reading buf rest (get l).
Proof. intros Hb (Hc & Hp & Hn)%get_cons. split; [done|]. split_and!; [by rewrite get_buffer|done|done]. Qed.

Lemma reading_add buf rest l c : reading buf rest l -> reading (c :: buf) rest (add c l).
Proof. intros (<- & <- & Hn). by split_and!. Qed.

Lemma reading_add_current buf rest l c :
  current l = Some c -> reading buf rest l -> reading (c :: buf) rest (add_current l).
Proof. intros Hc H. unfold add_current. rewrite Hc. by apply reading_add. Qed.

(** one character more, with the equation for [current] *)
Ltac next_char H :=
  let Hc := fresh "Hc" in
  let H' := fresh H in
  destruct (reading_get _ _ _ _ (proj1 H) (proj1 (proj2 H))) as [Hc H'].

Lemma reading_ranges rs : forall l, utf8_ok rs l = true -> Forall (fun r : N * N => (128 <= r.1)%N) rs ->
  exists l1 l2, l = l1 ++ l2 /\ utf8_ok [] l2 = true /\ Forall (fun c => (code c <? 128)%N = false) l1 /\
    forall lx buf rest, reading buf (l1 ++ rest) lx ->
      exists lx', ranges_loop rs lx = (true, lx') /\ reading (rev l1 ++ buf) rest lx'.
Proof.
  induction rs as [|[lo hi] rs IH]; intros l Hok Hlo.
  { exists [], l. split_and!; [done..|]. intros lx buf rest H. by exists lx. }
  destruct l as [|c l]; [done|]. cbn [utf8_ok] in Hok. apply andb_true_iff in Hok as [Hc Hok].
  apply Forall_cons in Hlo as [Hlo1 Hlo]. destruct (IH l Hok Hlo) as (l1 & l2 & -> & Hok2 & Hraw & Hr).
  exists (c :: l1), l2. split_and!; [done|done| |].
  { constructor; [|done]. unfold in_bounds in Hc. apply andb_true_iff in Hc as [H1%N.leb_le _].
    apply N.ltb_ge. simpl in *. lia. }
  intros lx buf rest H. cbn [app] in H. next_char H. cbn [ranges_loop]. rewrite Hc0.
  unfold byte_in. change ((lo <=? code c) && (code c <=? hi))%N with (in_bounds (lo, hi) c). rewrite Hc.
  destruct (Hr (add_current (get lx)) (c :: buf) rest) as (lx' & E & Hx); [by apply reading_add_current|].
  exists lx'. split; [done|]. simpl. by rewrite <-app_assoc.
Qed.

Definition hex_of (l : list ascii) : option Z :=
  match l with
  | [h1; h2; h3; h4] =>
      d1 ← hex_val (Some h1); d2 ← hex_val (Some h2); d3 ← hex_val (Some h3); d4 ← hex_val (Some h4);
      Some (Z.shiftl d1 12 + Z.shiftl d2 8 + Z.shiftl d3 4 + Z.shiftl d4 0)%Z
  | _ => None
  end.

Lemma reading_codepoint h z buf rest l : hex_of h = Some z -> reading buf (h ++ rest) l ->
  exists l', get_codepoint l = (Some z, l') /\ reading buf rest l'.
Proof.
  intros Hh H. destruct h as [|h1 [|h2 [|h3 [|h4 [|]]]]]; try done. unfold hex_of in Hh.
  apply bind_Some in Hh as (d1 & E1 & (d2 & E2 & (d3 & E3 & (d4 & E4 & [= <-])%bind_Some)%bind_Some)%bind_Some).
  cbn [app] in H. unfold get_codepoint. cbn [codepoint_loop].
  next_char H. rewrite Hc, E1. next_char H0. rewrite Hc0, E2.
  next_char H1. rewrite Hc1, E3. next_char H2. rewrite Hc2, E4. by eexists.
Qed.

(** how a character below 128 is written *)
Definition check_escape (c : ascii) : bool :=
  (128 <=? code c)%N ||
  match to_list (escape_char c) with
  | [d] => bool_decide (d = c) && (32 <=? code c)%N && negb (code c =? 34)%N && negb (code c =? 92)%N
  | d :: e :: h =>
      bool_decide (d = "\"%char) &&
      match h with
      | [] => bool_decide (simple_escape e = Some c) && bool_decide (e <> "u"%char)
      | _ => bool_decide (e = "u"%char) && bool_decide (hex_of h = Some (Z.of_N (code c)))
      end
  | [] => false
  end.
Lemma check_escape_spec c : check_escape c = true.
Proof. apply (all_chars_spec check_escape). by vm_compute. Qed.

Lemma escape_cases c : (code c <? 128)%N = true ->
  (to_list (escape_char c) = [c] /\ (32 <= code c)%N /\ code c <> 34%N /\ code c <> 92%N) \/
  (exists e, to_list (escape_char c) = ["\"%char; e] /\ simple_escape e = Some c /\ e <> "u"%char) \/
  (exists h, to_list (escape_char c) = "\"%char :: "u"%char :: h /\ hex_of h = Some (Z.of_N (code c))).
Proof.
  intros H128%N.ltb_lt. pose proof (check_escape_spec c) as H. unfold check_escape in H.
  assert ((128 <=? code c)%N = false) as E by (apply N.leb_gt; lia). rewrite E in H. simpl orb in H.
  destruct (to_list (escape_char c)) as [|d [|e l]]; [done| |].
  - left. rewrite !andb_true_iff, !negb_true_iff in H.
    destruct H as [[[->%bool_decide_eq_true H1%N.leb_le] H2%N.eqb_neq] H3%N.eqb_neq]. done.
  - right. apply andb_true_iff in H as [->%bool_decide_eq_true H].
    destruct l as [|x l]; apply andb_true_iff in H as [H1%bool_decide_eq_true H2%bool_decide_eq_true].
    + left. by exists e.
    + right. exists (x :: l). by rewrite H1.
Qed.

Lemma char_step c buf rest l : (code c <? 128)%N = true ->
  reading buf (to_list (escape_char c) ++ rest) l ->
  exists l', scan_string_step l = (None, l') /\ reading (c :: buf) rest l'.
Proof.
  intros Hc128 H. unfold scan_string_step.
  destruct (escape_cases c Hc128) as [(E & H32 & H34 & H92)|[(e & E & He & Hu)|(h & E & Hh)]];
    rewrite E in H; cbn [app] in H; next_char H; rewrite Hc.
  - rewrite (proj2 (N.eqb_neq _ _) H34), (proj2 (N.eqb_neq _ _) H92).
    apply N.ltb_lt in Hc128. rewrite (proj2 (N.leb_gt _ _)) by lia. rewrite (proj2 (N.leb_le _ _)) by lia.
    eexists. split; [done|]. by apply reading_add.
  - simpl (_ =? _)%N. cbn iota. next_char H0. rewrite Hc0, bool_decide_false, He by done.
    eexists. split; [done|]. by apply reading_add.
  - simpl (_ =? _)%N. cbn iota. next_char H0. rewrite Hc0, bool_decide_true by done.
    destruct (reading_codepoint h _ buf rest _ Hh H1) as (l' & E' & H').
    unfold scan_unicode. rewrite E'. apply N.ltb_lt in Hc128.
    assert ((55296 <=? Z.of_N (code c))%Z = false /\ (56320 <=? Z.of_N (code c))%Z = false) as [-> ->]
      by (split; apply Z.leb_gt; lia).
    cbn [andb]. eexists. split; [done|]. unfold add_codepoint, utf8_bytes.
    rewrite (proj2 (Z.ltb_lt _ _)) by lia. cbn [foldl].
    assert (byte (Z.of_N (code c)) = c) as -> by (unfold byte; rewrite N2Z.id; apply ascii_N_embedding).
    by apply reading_add.
Qed.

Lemma utf8_tail_ranges n rs : utf8_tail n = Some rs -> Forall (fun r : N * N => (128 <= r.1)%N) rs.
Proof. unfold utf8_tail. intros H. repeat case_match; simplify_eq; repeat constructor; simpl; lia. Qed.

(** one turn reads one code point *)
Lemma code_point_step c l : utf8_ok [] (c :: l) = true ->
  exists l1 l2, l = l1 ++ l2 /\ utf8_ok [] l2 = true /\
    forall buf rest lx, reading buf (to_list (escape_text (c :: l1)) ++ rest) lx ->
      exists lx', scan_string_step lx = (None, lx') /\ reading (rev l1 ++ c :: buf) rest lx'.
Proof.
  cbn [utf8_ok]. destruct (code c <? 128)%N eqn:Ec; intros Hok.
  { exists [], l. split_and!; [done..|]. intros buf rest lx H. cbn [escape_text foldr] in H.
    rewrite sapp_nil_r in H. by apply char_step. }
  destruct (utf8_tail (code c)) as [rs|] eqn:Et; [|done].
  destruct (reading_ranges rs l Hok) as (l1 & l2 & -> & Hok2 & Hraw & Hr); [by eapply utf8_tail_ranges|].
  exists l1, l2. split_and!; [done..|]. intros buf rest lx H.
  rewrite escape_text_raw, to_of_list in H by (by constructor). cbn [app] in H.
  next_char H. unfold scan_string_step. rewrite Hc. apply N.ltb_ge in Ec.
  rewrite (proj2 (N.eqb_neq _ 34)), (proj2 (N.eqb_neq _ 92)) by lia.
  rewrite (proj2 (N.leb_gt _ 31)), (proj2 (N.leb_gt _ 127)) by lia. rewrite Et.
  unfold next_byte_in_range.
  destruct (Hr (add_current (get lx)) (c :: buf) rest) as (lx' & -> & Hx); [by apply reading_add_current|].
  by exists lx'.
Qed.

(** the rest of a string, up to the quotation mark *)
Lemma scan_string_body fuel : forall l buf rest lx, utf8_ok [] l = true ->
  left_over lx < fuel -> reading buf (to_list (escape_text l) ++ "034"%char :: rest) lx ->
  exists lx', scan_string_loop fuel lx = Ret (value_string, lx') /\ reading (rev l ++ buf) rest lx'.
Proof.
  induction fuel as [|fuel IH]; intros l buf rest lx Hok Hf H; [lia|]. cbn [scan_string_loop].
  destruct l as [|c l].
  { cbn [escape_text foldr to_list app] in H. next_char H. unfold scan_string_step. rewrite Hc.
    exists (get lx). done. }
  destruct (code_point_step c l Hok) as (l1 & l2 & -> & Hok2 & Hs).
  rewrite app_comm_cons, escape_text_app, to_list_app, <-app_assoc in H.
  destruct (Hs _ _ _ H) as (lx' & E & H'). rewrite E.
  pose proof (scan_string_step_reads lx) as [_ Hlt]. rewrite E in Hlt. specialize (Hlt eq_refl).
  destruct (IH l2 (rev l1 ++ c :: buf) rest lx' Hok2) as (lx2 & E2 & H2); [simpl in Hlt; lia|done|].
  exists lx2. split; [done|]. cbn [rev]. rewrite rev_app_distr, <-!app_assoc. exact H2.
Qed.

(** what [dump_escaped] writes is well-formed *)
Lemma repair_ok l : forall rs inc, (forall x, utf8_ok [] (inc ++ x) = utf8_ok rs x) ->
  utf8_ok [] (repair rs inc l) = true.
Proof.
  assert (forall x, utf8_ok [] (fffd ++ x) = utf8_ok [] x) as Hfffd by done.
  induction l as [|c l IH]; intros rs inc H; cbn [repair].
  { by destruct rs. }
  assert (utf8_ok [] (if (code c <? 128)%N then c :: repair [] [] l
    else match utf8_tail (code c) with
         | Some rs => repair rs [c] l
         | None => fffd ++ repair [] [] l
         end) = true) as Hstart.
  { destruct (code c <? 128)%N eqn:Ec; [cbn [utf8_ok]; rewrite Ec; by apply IH|].
    destruct (utf8_tail (code c)) as [rs'|] eqn:Et.
    - apply IH. intros x. cbn [app utf8_ok]. by rewrite Ec, Et.
    - rewrite Hfffd. by apply IH. }
  destruct rs as [|r rs]; [done|]. destruct (in_bounds r c) eqn:Er; [|by rewrite Hfffd].
  assert (forall x, utf8_ok [] ((inc ++ [c]) ++ x) = utf8_ok rs x) as H'.
  { intros x. rewrite <-app_assoc, H. cbn [app utf8_ok]. by rewrite Er. }
  destruct rs as [|r' rs]; [|by apply IH].
  change (c :: repair [] [] l) with ([c] ++ repair [] [] l). rewrite app_assoc, H'. by apply IH.
Qed.

Lemma repaired_ok s : utf8_ok [] (to_list (repaired s)) = true.
Proof. unfold repaired. rewrite to_of_list. by apply repair_ok. Qed.

(** well-formed text is left alone *)
Lemma repair_id l : forall rs inc, utf8_ok rs l = true -> repair rs inc l = match rs with [] => l | _ => inc ++ l end.
Proof.
  induction l as [|c l IH]; intros rs inc H; cbn [repair]; cbn [utf8_ok] in H.
  { by destruct rs. }
  destruct rs as [|r rs].
  - destruct (code c <? 128)%N; [by rewrite (IH [])|].
    destruct (utf8_tail (code c)) as [rs|] eqn:Et; [|done]. rewrite (IH rs) by done.
    destruct rs; [|done]. unfold utf8_tail in Et. by repeat case_match.
  - apply andb_true_iff in H as [-> H]. destruct rs as [|r' rs]; [by rewrite (IH [])|].
    rewrite (IH (r' :: rs)) by done. by rewrite <-app_assoc.
Qed.

Lemma repaired_id s : utf8_ok [] (to_list s) = true -> repaired s = s.
Proof. intros H. unfold repaired. rewrite repair_id by done. apply of_to_list. Qed.
