(* ===== verification/JsonTextFacts.v ===== *)
(** * Facts about the JSON text of lib/json/json.hpp: what is written is read back

    [read_back j] is the value that the parser makes of the text of [j]: a number
    that is not negative becomes unsigned, an infinity or a NaN becomes [null], and
    ill-formed bytes of the strings become U+FFFD. *)

From S2P Require Import Prelude Strings OMap Outcome NumFacts Json JsonLex JsonParse JsonDump.
From S2P Require Import JsonLexFacts JsonParseFacts JsonStringFacts.
From Stdlib Require Import Ascii SpecFloat.
Import json_lexer json_parser json_serializer.
#[local] Transparent json_parse json_dump json_dump_strict.

(** ** Tokens *)

Section tokens.
Context `{FloatLib}.

(** the first token of the text is [t], and [rest] comes after it *)
Definition lexes (l : lexer) (t : token_type) (l' : lexer) (rest : list ascii) : Prop :=
  scan l = Ret (t, l') /\ pending l' = rest.

Lemma skip_bom_other l : is_char "239"%char (get l) = false -> skip_bom l = (true, unget (get l)).
Proof. intros E. unfold skip_bom. by rewrite E. Qed.

Lemma skip_whitespace_other l : is_space (current (get l)) = false -> skip_whitespace l = Ret (get l).
Proof. intros E. unfold skip_whitespace. cbn [skip_whitespace_loop]. by rewrite E. Qed.

Lemma scan_char l c r : pending l = c :: r -> is_space (Some c) = false -> c <> "239"%char ->
  exists l1, scan l = scan_token l1 /\ current l1 = Some c /\ pending l1 = r /\ next_unget l1 = false.
Proof.
  intros Hp Hs Hb. unfold scan.
  assert (exists l0, (if chars_read_total l =? 0 then skip_bom l else (true, l)) = (true, l0) /\ pending l0 = c :: r)
    as (l0 & -> & Hp0).
  { destruct (_ =? 0); [|by exists l]. rewrite skip_bom_other.
    - eexists. split; [done|]. by rewrite unget_get.
    - apply get_cons in Hp as (Hc & _). unfold is_char. rewrite Hc. apply bool_decide_false. congruence. }
  apply get_cons in Hp0 as (Hc & Hp0 & Hn). cbn [negb]. rewrite skip_whitespace_other by (by rewrite Hc).
  cbn [mbind outcome_bind]. by exists (get l0).
Qed.

Lemma scan_end l : pending l = [] -> exists l', scan l = Ret (end_of_input, l').
Proof.
  intros Hp. unfold scan.
  assert (exists l0, (if chars_read_total l =? 0 then skip_bom l else (true, l)) = (true, l0) /\ pending l0 = [])
    as (l0 & -> & Hp0).
  { destruct (_ =? 0); [|by exists l]. rewrite skip_bom_other.
    - eexists. split; [done|]. by rewrite unget_get.
    - apply get_nil in Hp. unfold is_char. rewrite Hp. by apply bool_decide_false. }
  apply get_nil in Hp0. cbn [negb]. rewrite skip_whitespace_other by (by rewrite Hp0).
  cbn [mbind outcome_bind]. unfold scan_token. rewrite Hp0. by eexists.
Qed.

(** ** Punctuation and literals *)

Definition punctuation (c : ascii) : option token_type :=
  match c with
  | "[" => Some begin_array | "]" => Some json_lexer.end_array
  | "{" => Some begin_object | "}" => Some json_lexer.end_object
  | ":" => Some name_separator | "," => Some value_separator
  | _ => None
  end%char.

Lemma lexes_punctuation l c r t : pending l = c :: r -> punctuation c = Some t ->
  exists l', lexes l t l' r.
Proof.
  intros Hp Ht.
  assert (is_space (Some c) = false /\ c <> "239"%char) as [Hs Hb]
    by (clear -Ht; destruct c as [[] [] [] [] [] [] [] []]; done).
  destruct (scan_char l c r Hp Hs Hb) as (l1 & E & Hc & Hr & _). exists l1. split; [|done].
  rewrite E. unfold scan_token. rewrite Hc.
  clear -Ht. destruct c as [[] [] [] [] [] [] [] []]; simplify_eq/=; done.
Qed.

Lemma scan_literal_text text : forall t l r, pending l = text ++ r ->
  exists l', scan_literal text t l = (t, l') /\ pending l' = r.
Proof.
  induction text as [|c text IH]; intros t l r Hp; simpl; [by exists l|].
  apply get_cons in Hp as (Hc & Hp & _). unfold is_char. rewrite Hc, bool_decide_true by done. by apply IH.
Qed.

Definition literal (t : token_type) : string :=
  match t with literal_true => "true" | literal_false => "false" | literal_null => "null" | _ => "" end.

Lemma lexes_literal_at l c text t r : pending l = (c :: text) ++ r ->
  is_space (Some c) = false -> c <> "239"%char ->
  (forall l1, current l1 = Some c -> scan_token l1 = Ret (scan_literal text t l1)) ->
  exists l', lexes l t l' r.
Proof.
  intros Hp Hs Hb Ht. destruct (scan_char l c (text ++ r) Hp Hs Hb) as (l1 & E & Hc & Hr & _).
  destruct (scan_literal_text text t l1 r Hr) as (l' & E' & Hr').
  exists l'. split; [|done]. by rewrite E, Ht, E'.
Qed.

Lemma lexes_literal l t r : t ∈ [literal_true; literal_false; literal_null] ->
  pending l = to_list (literal t) ++ r -> exists l', lexes l t l' r.
Proof.
  intros Ht Hp. repeat (apply elem_of_cons in Ht as [->|Ht]); [..|by apply elem_of_nil in Ht];
    (eapply lexes_literal_at; [exact Hp|done|done|]); intros l1 Hc; unfold scan_token; by rewrite Hc.
Qed.

(** ** Strings *)

Lemma lexes_string l s r : pending l = to_list (quoted (escape_text (to_list (repaired s)))) ++ r ->
  exists l', lexes l value_string l' r /\ get_string l' = repaired s.
Proof.
  intros Hp. unfold quoted in Hp. cbn [to_list app] in Hp. rewrite to_list_app, <-app_assoc in Hp.
  eapply scan_char in Hp as (l1 & E & Hc & Hr & Hn); [|done..].
  destruct (scan_string_body (S (length (input (reset l1)))) (to_list (repaired s)) [] r (reset l1))
    as (l' & E' & Hb & Hp' & _).
  - apply repaired_ok.
  - rewrite left_over_fresh by done. lia.
  - by split_and!.
  - exists l'. split; [split; [|done]|].
    + rewrite E. unfold scan_token. rewrite Hc. unfold scan_string. by rewrite E'.
    + unfold get_string. rewrite Hb, app_nil_r, rev_involutive. apply of_to_list.
Qed.
End tokens.

(** ** Numbers *)

Definition accepting (s : number_state) : bool :=
  match s with num_zero | num_any1 | num_decimal2 | num_any2 => true | _ => false end.

Fixpoint run_number (s : number_state) (t : token_type) (l : list ascii) : option (number_state * token_type) :=
  match l with
  | [] => Some (s, t)
  | c :: l => match number_next s (Some c) with num_goto s' => run_number s' (enter s' t) l | _ => None end
  end.

Definition number_start (c : ascii) : number_state :=
  if decide (c = "-"%char) then num_minus else if decide (c = "0"%char) then num_zero else num_any1.

(** the type of a text that is a number *)
Definition number_text (l : list ascii) : option token_type :=
  match l with
  | c :: l =>
      if bool_decide (c = "-"%char) || is_digit (Some c) then
        '(s, t) ← run_number (number_start c) (enter (number_start c) value_unsigned) l;
        if accepting s then Some t else None
      else None
  | [] => None
  end.

(** what may follow a value *)
Definition ends_value (r : list ascii) : Prop :=
  match r with [] => True | c :: _ => mem c [","; "]"; "}"]%char = true end.

Lemma number_ends s r : accepting s = true -> ends_value r -> number_next s (head r) = num_done.
Proof.
  intros Hs Hr. destruct r as [|c r]; [by destruct s|]. apply mem_spec in Hr.
  repeat (apply elem_of_cons in Hr as [->|Hr]); [by destruct s..|by apply elem_of_nil in Hr].
Qed.

Section numbers.
Context `{FloatLib}.

Definition localize (l : list ascii) : list ascii :=
  (fun c => if decide (c = "."%char) then decimal_point else c) <$> l.

Lemma number_next_dot s c s' : number_next s (Some c) = num_goto s' ->
  (s' = num_decimal1 <-> c = "."%char).
Proof.
  destruct s; simpl; repeat case_bool_decide; repeat case_match; intros [= <-]; naive_solver.
Qed.

Lemma add_number_reading s c s' buf rest l : number_next s (Some c) = num_goto s' ->
  current l = Some c -> reading buf rest l ->
  reading ((if decide (c = "."%char) then decimal_point else c) :: buf) rest (add_number s' l).
Proof.
  intros Hs%number_next_dot Hc H1. case_decide as Hd.
  - apply Hs in Hd as ->. by apply reading_add.
  - assert (add_number s' l = add_current l) as ->; [|by apply reading_add_current].
    destruct s'; try done. by destruct Hd; apply Hs.
Qed.

Lemma reading_end buf l : token_buffer l = buf -> pending l = [] -> current (get l) = None.
Proof. intros _. apply get_nil. Qed.

Lemma scan_number_run fuel : forall s t l buf cs rest s' t', left_over l < fuel ->
  token_buffer l = buf -> pending l = cs ++ rest ->
  run_number s t cs = Some (s', t') -> accepting s' = true -> ends_value rest ->
  exists l', scan_number_loop fuel s t l = Ret (scan_number_done t' (get l')) /\
    token_buffer l' = rev (localize cs) ++ buf /\ pending l' = rest.
Proof.
  induction fuel as [|fuel IH]; intros s t l buf cs rest s' t' Hf Hb Hp Hr Ha He; [lia|].
  cbn [scan_number_loop]. destruct cs as [|c cs].
  - injection Hr as <- <-. cbn [app] in Hp. exists l. split_and!; [|done|done].
    assert (current (get l) = head rest) as ->; [|by rewrite number_ends].
    destruct rest; [by apply get_nil|by apply get_cons in Hp as []].
  - cbn [run_number] in Hr. destruct (number_next s (Some c)) as [s1| |] eqn:En; try done.
    cbn [app] in Hp. destruct (reading_get _ _ _ _ Hb Hp) as [Hc Hrd]. rewrite Hc, En.
    pose proof (add_number_reading _ _ _ _ _ _ En Hc Hrd) as (Hb1 & Hp1 & _).
    apply left_over_read in Hc. destruct (IH s1 (enter s1 t) (add_number s1 (get l))
      (token_buffer (add_number s1 (get l))) cs rest s' t')
      as (l' & E & Hb' & Hp'); [rewrite left_over_add_number; lia|done..|].
    exists l'. split_and!; [done| |done]. rewrite Hb', Hb1. cbn. by rewrite <-app_assoc.
Qed.

Lemma is_digit_localize c : is_digit (Some c) = true -> c <> "."%char.
Proof. by intros H' ->. Qed.

(** a number is read to its end, and its text kept *)
Lemma scan_number_text l n r t : pending l = n ++ r -> number_text n = Some t -> ends_value r ->
  exists l', scan l = Ret (scan_number_done t (get l')) /\ pending l' = r /\
    token_buffer l' = rev (localize n).
Proof.
  intros Hp Hn He. destruct n as [|c n]; [done|]. unfold number_text in Hn.
  destruct (bool_decide (c = "-"%char) || is_digit (Some c)) eqn:Ec; [|done].
  apply bind_Some in Hn as ([s' t'] & Hrun & Hacc). destruct (accepting s') eqn:Es; [|done].
  injection Hacc as ->. cbn [app] in Hp.
  assert (is_space (Some c) = false /\ c <> "239"%char /\ c <> "."%char) as (Hsp & Hb & Hdot)
    by (clear -Ec; destruct c as [[] [] [] [] [] [] [] []]; done).
  destruct (scan_char l c _ Hp Hsp Hb) as (l1 & E & Hc & Hr & Hnu).
  assert (scan_token l1 = scan_number l1) as E1.
  { unfold scan_token. rewrite Hc, Ec. clear -Ec. destruct c as [[] [] [] [] [] [] [] []]; done. }
  set (l2 := add_current (reset l1)).
  assert (reading [c] (n ++ r) l2) as (Hb2 & Hp2 & Hn2).
  { apply reading_add_current; [done|]. by split_and!. }
  destruct (scan_number_run (S (length (input (reset l1)))) (number_start c)
    (enter (number_start c) value_unsigned) l2 [c] n r s' t) as (l' & E2 & Hb' & Hp').
  - rewrite left_over_fresh by done. unfold l2, add_current. simpl. rewrite Hc. simpl. lia.
  - done.
  - done.
  - done.
  - done.
  - done.
  - exists l'. split_and!; [|done|].
    + rewrite E, E1. unfold scan_number.
      assert ((if is_char "-"%char (reset l1) then num_minus
               else if is_char "0"%char (reset l1) then num_zero else num_any1) = number_start c) as ->; [|done].
      unfold is_char, number_start. simpl. rewrite Hc. repeat case_bool_decide; repeat case_decide; naive_solver.
    + rewrite Hb'. cbn. by rewrite decide_False.
Qed.
End numbers.

(** ** Integers *)

Lemma digit_char_pretty d : (0 <= d < 10)%Z -> digit_char d = pretty_N_char (Z.to_N d).
Proof.
  intros Hd. assert (d = 0 \/ d = 1 \/ d = 2 \/ d = 3 \/ d = 4 \/ d = 5 \/ d = 6 \/ d = 7 \/ d = 8 \/ d = 9)%Z
    as H by lia. by repeat destruct H as [->|H]; [..|subst].
Qed.

Lemma pretty_go_Z z s : (0 < z)%Z ->
  pretty_N_go (Z.to_N z) s = pretty_N_go (Z.to_N (z / 10)) (String (digit_char (z mod 10)) s).
Proof.
  intros Hz. rewrite pretty_N_go_step by lia. rewrite digit_char_pretty by (apply Z.mod_pos_bound; lia).
  by rewrite Z2N.inj_div, Z2N.inj_mod by lia.
Qed.

(** two digits at a time are the digits one at a time *)
Lemma fill_digits_go fuel : forall z s, (0 < z < 100 ^ Z.of_nat fuel)%Z ->
  fill_digits fuel z s = pretty_N_go (Z.to_N z) s.
Proof.
  induction fuel as [|fuel IH]; intros z s Hz; [simpl in Hz; lia|].
  rewrite Nat2Z.inj_succ, Z.pow_succ_r in Hz by lia. cbn [fill_digits].
  assert (forall x t, (0 < x < 10)%Z -> pretty_N_go (Z.to_N x) t = String (digit_char x) t) as H1.
  { intros x t Hx. rewrite pretty_go_Z, Z.mod_small, Z.div_small by lia. done. }
  destruct (100 <=? z)%Z eqn:E; zb.
  - rewrite IH by (split; [apply Z.div_str_pos; lia|apply Z.div_lt_upper_bound; lia]).
    rewrite (pretty_go_Z z), (pretty_go_Z (z / 10)) by (try apply Z.div_str_pos; lia).
    rewrite Z.div_div by lia.
    assert ((z mod 100) mod 10 = z mod 10)%Z as -> by (apply Z.mod_mod_divide; by exists 10%Z).
    assert ((z mod 100) / 10 = (z / 10) mod 10)%Z as ->; [|done].
    pose proof (Z.div_mod z 100). pose proof (Z.mod_pos_bound z 100).
    apply Z.mod_unique_pos with (q := (z / 100)%Z); [|].
    + split; [apply Z.div_pos; lia|apply Z.div_lt_upper_bound; lia].
    + rewrite (Z.div_mod z 100) at 1 by lia.
      replace (100 * (z / 100) + z mod 100)%Z with (z mod 100 + (10 * (z / 100)) * 10)%Z by lia.
      rewrite Z.div_add by lia. lia.
  - destruct (10 <=? z)%Z eqn:E1; zb.
    + rewrite pretty_go_Z by lia. rewrite H1; [done|].
      split; [apply Z.div_str_pos; lia|apply Z.div_lt_upper_bound; lia].
    + by rewrite H1 by lia.
Qed.

Lemma remove_sign_neg z : (- 2 ^ 63 <= z < 0)%Z -> remove_sign z = (- z)%Z.
Proof. intros Hz. unfold remove_sign. rewrite (wrapU_small 64 (- (z + 1))), wrapU_small by lia. lia. Qed.

(** the integer text of the library is that of [to_string] *)
Lemma dump_integer_eq z : (- 2 ^ 63 <= z < 2 ^ 64)%Z -> dump_integer z = to_string z.
Proof.
  intros Hz. assert (2 ^ 64 < 100 ^ Z.of_nat 10)%Z as H100 by done.
  unfold dump_integer. case_decide as H0; [by subst|]. destruct (z <? 0)%Z eqn:E; zb.
  - rewrite remove_sign_neg, fill_digits_go by lia. unfold to_string. destruct z as [|p|p]; try lia.
    change (pretty (Z.neg p)) with (String "-" (pretty (N.pos p))). change (- Z.neg p)%Z with (Z.pos p).
    unfold pretty, pretty_N. by rewrite decide_False.
  - rewrite fill_digits_go by lia. unfold to_string. destruct z as [|p|p]; try lia.
    change (pretty (Zpos p)) with (pretty (N.pos p)). unfold pretty, pretty_N. by rewrite decide_False.
Qed.

Lemma isdigit_is_digit c : isdigit c = is_digit (Some c).
Proof. done. Qed.

Lemma run_digits t l : forallb isdigit l = true -> run_number num_any1 t l = Some (num_any1, t).
Proof.
  induction l as [|c l IH]; [done|]. intros [Hc Hl]%andb_true_iff. cbn [run_number number_next].
  rewrite <-isdigit_is_digit, Hc. by apply IH.
Qed.

(** a text of digits that does not start with a zero *)
Lemma digits_text c s : sforall isdigit (String c s) = true -> c <> "0"%char ->
  is_digit (Some c) = true /\ c <> "-"%char /\
  forall t, run_number num_any1 t (to_list s) = Some (num_any1, t).
Proof.
  cbn [sforall]. intros [Hc Hs]%andb_true_iff H0. split_and!; [done|by intros ->|].
  intros t. apply run_digits. by rewrite <-sforall_forallb.
Qed.

Lemma number_text_to_string z :
  number_text (to_list (to_string z)) = Some (if (z <? 0)%Z then value_integer else value_unsigned).
Proof.
  assert (forall z, (0 < z)%Z -> exists c s, to_string z = String c s /\ c <> "0"%char /\
    is_digit (Some c) = true /\ c <> "-"%char /\
    forall t, run_number num_any1 t (to_list s) = Some (num_any1, t)) as Hpos.
  { intros x Hx. destruct (to_string_head x Hx) as (c & s & E & Hc). exists c, s. split_and!; [done..| | |];
      (destruct (digits_text c s) as (? & ? & ?); [rewrite <-E; apply to_string_digits; lia|done|done]). }
  destruct (z <? 0)%Z eqn:Ez; zb.
  - destruct (Hpos (- z)%Z) as (c & s & E & H0 & Hd & Hm & Hr); [lia|].
    rewrite to_string_neg, E by done. cbn [to_list number_text]. rewrite bool_decide_true by done. cbn [orb].
    unfold number_start. rewrite decide_True by done. cbn [run_number number_next].
    rewrite bool_decide_false by congruence. rewrite Hd, Hr. done.
  - destruct (decide (z = 0)%Z) as [->|Hz]; [done|].
    destruct (Hpos z) as (c & s & E & H0 & Hd & Hm & Hr); [lia|].
    rewrite E. cbn [to_list number_text]. rewrite Hd, orb_true_r. unfold number_start.
    rewrite !decide_False by done. cbn [enter]. rewrite Hr. done.
Qed.

Section values.
Context `{FloatLib}.

Lemma scan_number_done_pending t l : pending (scan_number_done t (get l)).2 = pending l.
Proof. unfold scan_number_done. destruct t; repeat case_match; simpl; apply unget_get. Qed.

Lemma localize_digits l : forallb isdigit l = true -> localize l = l.
Proof.
  intros Hl. unfold localize. rewrite forallb_forall in Hl. rewrite <-(list_fmap_id l) at 2.
  apply list_fmap_ext. intros i c Hc. case_decide as Hd; [|done]. subst.
  apply list_elem_of_lookup_2, list_elem_of_In, Hl in Hc. done.
Qed.

Lemma get_string_unget l n : token_buffer l = rev (localize n) -> get_string (unget (get l)) = of_list (localize n).
Proof.
  intros Hb. unfold get_string. assert (token_buffer (unget (get l)) = token_buffer l) as ->.
  { exact (get_buffer l). }
  by rewrite Hb, rev_involutive.
Qed.

(** the token of an integer in the range of its type *)
Lemma lexes_integer l z r : (- 2 ^ 63 <= z < 2 ^ 64)%Z -> pending l = to_list (dump_integer z) ++ r ->
  ends_value r -> exists l', lexes l (if (z <? 0)%Z then value_integer else value_unsigned) l' r /\
    if (z <? 0)%Z then number_integer l' = z else number_unsigned l' = z.
Proof.
  intros Hz Hp He. rewrite dump_integer_eq in Hp by done.
  destruct (scan_number_text l _ r _ Hp (number_text_to_string z) He) as (l' & E & Hp' & Hb).
  pose proof (scan_number_done_pending (if (z <? 0)%Z then value_integer else value_unsigned) l') as Hd.
  destruct (z <? 0)%Z eqn:Ez; zb.
  - rewrite to_string_neg in Hb by done. cbn [to_list] in Hb.
    destruct (to_string_digits (- z)) as (Hs & _ & Hread); [lia|]. rewrite sforall_forallb in Hs.
    assert (localize ("-"%char :: to_list (to_string (- z))) = "-"%char :: to_list (to_string (- z))) as Hl
      by exact (f_equal (cons "-"%char) (localize_digits _ Hs)).
    unfold scan_number_done in E, Hd. rewrite (get_string_unget _ _ Hb), Hl in E, Hd.
    cbn [of_list sdrop] in E, Hd. rewrite of_to_list in E, Hd.
    destruct (Hread "") as (k & _ & Hr). rewrite sapp_nil_r in Hr. rewrite Hr in E, Hd. simpl fst in E, Hd.
    rewrite (proj2 (Z.leb_le _ _)) in E, Hd by lia. eexists. split; [split; [exact E|]|].
    + rewrite <-Hp'. exact Hd.
    + simpl. lia.
  - destruct (to_string_digits z) as (Hs & _ & Hread); [lia|]. rewrite sforall_forallb in Hs.
    unfold scan_number_done in E, Hd. rewrite (get_string_unget _ _ Hb), localize_digits, of_to_list in E, Hd by done.
    destruct (Hread "") as (k & _ & Hr). rewrite sapp_nil_r in Hr. rewrite Hr in E, Hd. simpl fst in E, Hd.
    rewrite (proj2 (Z.ltb_lt _ _)) in E, Hd by lia. eexists. split; [split; [exact E|]|].
    + rewrite <-Hp'. exact Hd.
    + done.
Qed.

(** a finite number whose text is a number that is converted back *)
Definition float_text (f : spec_float) : bool :=
  bool_decide (number_text (to_list (float_to_chars f)) = Some value_float) &&
  bool_decide (c_strtod (of_list (localize (to_list (float_to_chars f)))) = f).

Lemma lexes_float l f r : float_text f = true -> pending l = to_list (float_to_chars f) ++ r -> ends_value r ->
  exists l', lexes l value_float l' r /\ number_float l' = f.
Proof.
  intros [Hn%bool_decide_eq_true Hf%bool_decide_eq_true]%andb_true_iff Hp He.
  destruct (scan_number_text l _ r _ Hp Hn He) as (l' & E & Hp' & Hb).
  unfold scan_number_done in E. eexists. split; [split; [exact E|]|].
  - rewrite <-Hp'. exact (unget_get l').
  - cbn [number_float set_numbers snd]. by rewrite (get_string_unget _ _ Hb).
Qed.

(** ** Values *)

(** the numbers are in the ranges of their types *)
Fixpoint fits (j : json) : bool :=
  match j with
  | JInt z => (- 2 ^ 63 <=? z)%Z && (z <? 2 ^ 63)%Z
  | JUInt z => (0 <=? z)%Z && (z <? 2 ^ 64)%Z
  | JFloat f => if is_finite f then float_text f else true
  | JArr l => forallb fits l
  | JObj m => forallb (fun kv => fits kv.2) m
  | _ => true
  end.

Fixpoint read_back (j : json) : json :=
  match j with
  | JInt z => if (z <? 0)%Z then JInt z else JUInt z
  | JFloat f => if is_finite f then JFloat f else JNull
  | JStr s => JStr (repaired s)
  | JArr l => JArr (read_back <$> l)
  | JObj m => JObj (foldl (fun m kv => omap_set (repaired kv.1) (read_back kv.2) m) [] m)
  | j => j
  end.

(** the text, as a function *)
Fixpoint text (j : json) : string :=
  match j with
  | JNull => "null"
  | JBool b => if b then "true" else "false"
  | JInt z | JUInt z => dump_integer z
  | JFloat f => dump_float f
  | JStr s => quoted (escape_text (to_list (repaired s)))
  | JArr l => "[" +:+ join "," (text <$> l) +:+ "]"
  | JObj m =>
      "{" +:+ join "," ((fun kv => quoted (escape_text (to_list (repaired kv.1))) +:+ ":" +:+ text kv.2) <$> m) +:+ "}"
  end.

Lemma dump_text j : dump replace false j = Ret (text j).
Proof.
  induction j as [| | | | |s|l IH|m IH] using json_ind'; try done.
  - cbn [dump]. by rewrite dump_escaped_eq.
  - assert (omapM (dump replace false) l = Ret (text <$> l)) as E.
    { apply omapM_Ret. by rewrite Forall_forall in IH. }
    cbn [dump text]. rewrite E. by destruct l.
  - assert (omapM (fun kv => k ← dump_escaped replace false kv.1; v ← dump replace false kv.2;
        Ret (quoted k +:+ ":" +:+ v)) m =
      Ret ((fun kv => quoted (escape_text (to_list (repaired kv.1))) +:+ ":" +:+ text kv.2) <$> m)) as E.
    { apply omapM_Ret. rewrite Forall_forall in IH. intros kv Hkv. rewrite dump_escaped_eq. cbn [mbind outcome_bind].
      by rewrite (IH kv Hkv). }
    cbn [dump text]. rewrite E. by destruct m.
Qed.

Lemma json_dump_text j : json_dump j = text j.
Proof. unfold json_dump. by rewrite dump_text. Qed.

(** the elements behind the first *)
Definition tail_text (close : string) (l : list string) : string :=
  foldr (fun x r => "," +:+ x +:+ r) close l.
Lemma join_tail close x l : join "," (x :: l) +:+ close = x +:+ tail_text close l.
Proof.
  revert x; induction l as [|y l IH]; intros x; [done|].
  change (join "," (x :: y :: l)) with (x +:+ "," +:+ join "," (y :: l)).
  rewrite <-!sapp_assoc, IH. done.
Qed.

Lemma get_token_lexes p t l' r : lexes (m_lexer p) t l' r ->
  get_token p = Ret {| m_lexer := l'; last_token := t; states := states p; sax := sax p |}.
Proof. intros [E _]. unfold get_token. by rewrite E. Qed.

Lemma get_token_states s p : get_token (with_states s p) = with_states s <$> get_token p.
Proof. unfold get_token. cbn. by destruct (scan (m_lexer p)) as [[]| | | |]. Qed.

Definition closes (t : token_type) : bool :=
  match t with json_lexer.end_array | json_lexer.end_object => true | _ => false end.

(** the parser reads [cs] as the value [v], whatever comes next *)
Definition reads_value (cs : list ascii) (v : json) : Prop := forall p rest,
  pending (m_lexer p) = cs ++ rest -> ends_value rest ->
  exists p1 m p', get_token p = Ret p1 /\ closes (last_token p1) = false /\
    (forall n, sax_parse_internal (m + S n) false p1 = sax_parse_internal (S n) true p') /\
    pending (m_lexer p') = rest /\ states p' = states p /\ sax p' = handle_value v (sax p).

(** one turn of the loop *)
Lemma turn_value n p : sax_parse_internal (S n) false p =
  '(complete, p) ← parse_value p;
  if negb complete then sax_parse_internal n false p else sax_parse_internal (S n) true p.
Proof. cbn [sax_parse_internal]. by destruct (parse_value p) as [[[]]| | | |]. Qed.

Lemma turn_state n p : sax_parse_internal (S n) true p =
  '(c, p) ← evaluate_state p;
  match c with
  | finished => Ret p
  | next_value => sax_parse_internal n false p
  | skip_to_state_evaluation => sax_parse_internal n true p
  end.
Proof. done. Qed.

(** a value of one token *)
Lemma reads_token cs v :
  (forall l rest, pending l = cs ++ rest -> ends_value rest ->
     exists t l', lexes l t l' rest /\ closes t = false /\
       forall s d, parse_value {| m_lexer := l'; last_token := t; states := s; sax := d |}
                   = Ret (true, value v {| m_lexer := l'; last_token := t; states := s; sax := d |})) ->
  reads_value cs v.
Proof.
  intros Ht p rest Hp He. destruct (Ht _ _ Hp He) as (t & l' & Hl & Hne & Hv).
  exists {| m_lexer := l'; last_token := t; states := states p; sax := sax p |}, 0,
    (value v {| m_lexer := l'; last_token := t; states := states p; sax := sax p |}).
  split_and!; [by eapply get_token_lexes|done| |apply Hl|done|done].
  intros n. cbn [Nat.add]. by rewrite turn_value, Hv.
Qed.

Lemma reads_null : reads_value (to_list "null") JNull.
Proof.
  apply reads_token. intros l rest Hp _.
  destruct (lexes_literal l literal_null rest) as (l' & Hl); [set_solver|done|].
  exists literal_null, l'. by split_and!.
Qed.

Lemma reads_bool b : reads_value (to_list (text (JBool b))) (JBool b).
Proof.
  apply reads_token. intros l rest Hp _.
  destruct (lexes_literal l (if b then literal_true else literal_false) rest) as (l' & Hl);
    [destruct b; set_solver|by destruct b|].
  exists (if b then literal_true else literal_false), l'. split_and!; [done|by destruct b|by destruct b].
Qed.

Lemma reads_string s : reads_value (to_list (quoted (escape_text (to_list (repaired s))))) (JStr (repaired s)).
Proof.
  apply reads_token. intros l rest Hp _. destruct (lexes_string l s rest Hp) as (l' & Hl & Hs).
  exists value_string, l'. split_and!; [done|done|]. intros st d. cbn. by rewrite Hs.
Qed.

Lemma reads_integer z : (- 2 ^ 63 <= z < 2 ^ 64)%Z ->
  reads_value (to_list (dump_integer z)) (if (z <? 0)%Z then JInt z else JUInt z).
Proof.
  intros Hz. apply reads_token. intros l rest Hp He.
  destruct (lexes_integer l z rest Hz Hp He) as (l' & Hl & Hn).
  exists (if (z <? 0)%Z then value_integer else value_unsigned), l'.
  split_and!; [done|by destruct (z <? 0)%Z|].
  intros st d. destruct (z <? 0)%Z; cbn; by rewrite Hn.
Qed.

Lemma reads_float f : (if is_finite f then float_text f else true) = true ->
  reads_value (to_list (dump_float f)) (if is_finite f then JFloat f else JNull).
Proof.
  destruct (is_finite f) eqn:Ef; intros Hf.
  - assert (dump_float f = float_to_chars f) as -> by (by destruct f). apply reads_token. intros l rest Hp He.
    destruct (lexes_float l f rest Hf Hp He) as (l' & Hl & Hn). exists value_float, l'.
    split_and!; [done|done|]. intros st d. unfold parse_value. cbn. by rewrite Hn, Ef.
  - assert (dump_float f = "null") as -> by (by destruct f). apply reads_null.
Qed.

(** ** Arrays *)

Lemma tail_ends close l rest : close = "]" \/ close = "}" ->
  ends_value (to_list (tail_text close l) ++ rest).
Proof. by intros [-> | ->]; destruct l. Qed.

(** the token at the front of the text *)
Lemma get_punctuation p c r t : pending (m_lexer p) = c :: r -> punctuation c = Some t ->
  exists p', get_token p = Ret p' /\ last_token p' = t /\ pending (m_lexer p') = r /\
    states p' = states p /\ sax p' = sax p.
Proof.
  intros Hp Ht. destruct (lexes_punctuation _ c r t Hp Ht) as (l' & Hl). eexists.
  split; [by eapply get_token_lexes|]. split_and!; [done|apply Hl|done|done].
Qed.

Definition reads_json (j : json) : Prop := reads_value (to_list (text j)) (read_back j).

Lemma array_tail l : Forall reads_json l -> forall p acc r st rest,
  states p = true :: st -> ref_stack (sax p) = OpenArray acc :: r ->
  pending (m_lexer p) = to_list (tail_text "]" (text <$> l)) ++ rest ->
  exists m p', (forall n, sax_parse_internal (m + S n) true p = sax_parse_internal (S n) true p') /\
    pending (m_lexer p') = rest /\ states p' = st /\
    sax p' = handle_value (JArr (acc ++ (read_back <$> l))) {| root := root (sax p); ref_stack := r |}.
Proof.
  induction 1 as [|x l Hx _ IH]; intros p acc r st rest Hst Hrs Hp.
  - destruct (get_punctuation p _ _ _ Hp eq_refl) as (p1 & E & Ht & Hp1 & _ & Hsax).
    exists 1, (with_states st (with_sax (handle_value (JArr acc) {| root := root (sax p); ref_stack := r |}) p1)).
    split_and!; [|done|done|by rewrite app_nil_r]. intros n. cbn [Nat.add]. rewrite turn_state. unfold evaluate_state. rewrite Hst, E. cbn [mbind outcome_bind].
    rewrite decide_False, decide_True by (by rewrite Ht). unfold end_array, pop. by rewrite Hsax, Hrs.
  - change (to_list (tail_text "]" (text <$> x :: l)))
      with (","%char :: to_list (text x +:+ tail_text "]" (text <$> l))) in Hp.
    rewrite to_list_app, <-app_comm_cons, <-app_assoc in Hp.
    destruct (get_punctuation p _ _ _ Hp eq_refl) as (q & E & Ht & Hq & Hstq & Hsq).
    destruct (Hx q _ Hq) as (p1 & m1 & p2 & E1 & _ & Hrun & Hp2 & Hst2 & Hs2); [apply tail_ends; by left|].
    rewrite Hsq in Hs2. unfold handle_value in Hs2. rewrite Hrs in Hs2.
    destruct (IH p2 (acc ++ [read_back x]) r st rest) as (m2 & p' & Hrun2 & Hp' & Hst' & Hs');
      [congruence|by rewrite Hs2|done|].
    exists (S (m1 + m2)), p'. split_and!; [|done|done|by rewrite Hs', Hs2, <-app_assoc].
    intros n. cbn [Nat.add]. rewrite turn_state. unfold evaluate_state. rewrite Hst, E. cbn [mbind outcome_bind]. rewrite decide_True, E1 by done.
    cbn [mbind outcome_bind]. rewrite <-Nat.add_assoc, Nat.add_succ_r, Hrun, <-Nat.add_succ_r. apply Hrun2.
Qed.

Lemma reads_array l : Forall reads_json l -> reads_json (JArr l).
Proof.
  intros Hl p rest Hp He. cbn [text] in Hp. change ("[" +:+ ?x) with (String "[" x) in Hp.
  cbn [to_list app] in Hp.
  destruct (get_punctuation p _ _ _ Hp eq_refl) as (p1 & E & Ht & Hp1 & Hst1 & Hs1). exists p1.
  destruct Hl as [|x l Hx Hl].
  - destruct (get_punctuation (with_sax (start_array (sax p1)) p1) _ _ _ Hp1 eq_refl)
      as (p2 & E2 & Ht2 & Hp2 & Hst2 & Hs2).
    exists 0, (with_sax (handle_value (JArr []) (sax p)) p2).
    split_and!; [done|by rewrite Ht| |done|by rewrite <-Hst1|done].
    intros n. cbn [Nat.add]. rewrite turn_value. unfold parse_value. rewrite Ht, E2. cbn [mbind outcome_bind].
    rewrite decide_True by done. unfold end_array, pop. rewrite Hs2. cbn. rewrite Hs1. by destruct (sax p).
  - cbn [fmap list_fmap] in Hp1. rewrite join_tail, to_list_app, <-app_assoc in Hp1.
    set (q0 := with_sax (start_array (sax p1)) p1). set (q := with_states (true :: states p1) q0).
    destruct (Hx q _ Hp1) as (pe & m1 & p2 & Eq & Hne & Hrun & Hp2 & Hst2 & Hs2); [apply tail_ends; by left|].
    destruct (get_token_spec q0) as (pe0 & E0 & Hst0 & _).
    unfold q in Eq. rewrite get_token_states, E0 in Eq. injection Eq as <-.
    destruct (array_tail l Hl p2 [read_back x] (ref_stack (sax p)) (states p1) rest)
      as (m2 & p' & Hrun2 & Hp' & Hst' & Hs'); [done|by rewrite Hs2; cbn; rewrite Hs1|done|].
    exists (S (m1 + m2)), p'.
    split_and!; [done|by rewrite Ht| |done|congruence|rewrite Hs', Hs2; cbn; rewrite Hs1; by destruct (sax p)].
    intros n. cbn [Nat.add]. rewrite turn_value. unfold parse_value. rewrite Ht. fold q0. rewrite E0.
    cbn [mbind outcome_bind]. rewrite decide_False by (intros E'; cbn in Hne; by rewrite E' in Hne).
    cbn [mbind outcome_bind negb]. rewrite Hst0.
    rewrite <-Nat.add_assoc, Nat.add_succ_r, Hrun, <-Nat.add_succ_r. apply Hrun2.
Qed.

(** ** Objects *)

Definition key_text (k : string) : string := quoted (escape_text (to_list (repaired k))).
Definition member_text (kv : string * json) : string := key_text kv.1 +:+ ":" +:+ text kv.2.
Definition set_member (m : list (string * json)) (kv : string * json) : list (string * json) :=
  omap_set (repaired kv.1) (read_back kv.2) m.

(** a key and its separator *)
Lemma member_read p k rest m k0 r : pending (m_lexer p) = to_list (key_text k) ++ ":"%char :: rest ->
  ref_stack (sax p) = OpenObject m k0 :: r ->
  exists p1 p2 m', get_token p = Ret p1 /\ last_token p1 = value_string /\ parse_member p1 = Ret p2 /\
    pending (m_lexer p2) = rest /\ states p1 = states p /\ states p2 = states p /\
    root (sax p2) = root (sax p) /\ ref_stack (sax p2) = OpenObject m' (repaired k) :: r /\
    forall v, omap_set (repaired k) v m' = omap_set (repaired k) v m.
Proof.
  intros Hp Hr. destruct (lexes_string _ k _ Hp) as (l1 & Hl & Hk). pose proof Hl as [_ Hp1].
  set (p1 := {| m_lexer := l1; last_token := value_string; states := states p; sax := sax p |}).
  set (m' := if omap_has (repaired k) m then m else omap_set (repaired k) JNull m).
  set (d := {| root := root (sax p); ref_stack := OpenObject m' (repaired k) :: r |}).
  destruct (get_punctuation (with_sax d p1) _ _ _ Hp1 eq_refl) as (p2 & E2 & Ht2 & Hp2 & Hst2 & Hs2).
  exists p1, p2, m'. split_and!; [by eapply get_token_lexes|done| |done|done|done|by rewrite Hs2|by rewrite Hs2|].
  - unfold parse_member. rewrite decide_False by (by intros []). unfold key. cbn [m_lexer sax p1].
    rewrite Hr, Hk. cbn [mbind outcome_bind]. fold m' d. fold p1. rewrite E2. cbn [mbind outcome_bind].
    by rewrite decide_False by (by intros []).
  - intros v. unfold m'. destruct (omap_has _ _); [done|apply omap_set_set].
Qed.

(** the value of a member, in the open object *)
Lemma member_value m k r v (d : dom) (m' : list (string * json)) :
  ref_stack d = OpenObject m' k :: r -> (forall v, omap_set k v m' = omap_set k v m) ->
  handle_value v d = {| root := root d; ref_stack := OpenObject (omap_set k v m) k :: r |}.
Proof. intros Hr Hm. unfold handle_value. by rewrite Hr, Hm. Qed.

Lemma object_tail ms : Forall (fun kv => reads_json kv.2) ms -> forall p acc k r st rest,
  states p = false :: st -> ref_stack (sax p) = OpenObject acc k :: r ->
  pending (m_lexer p) = to_list (tail_text "}" (member_text <$> ms)) ++ rest ->
  exists m p', (forall n, sax_parse_internal (m + S n) true p = sax_parse_internal (S n) true p') /\
    pending (m_lexer p') = rest /\ states p' = st /\
    sax p' = handle_value (JObj (foldl set_member acc ms)) {| root := root (sax p); ref_stack := r |}.
Proof.
  induction 1 as [|[k v] ms Hv _ IH]; intros p acc k0 r st rest Hst Hrs Hp.
  - destruct (get_punctuation p _ _ _ Hp eq_refl) as (p1 & E & Ht & Hp1 & _ & Hsax).
    exists 1, (with_states st (with_sax (handle_value (JObj acc) {| root := root (sax p); ref_stack := r |}) p1)).
    split_and!; [|done..]. intros n. cbn [Nat.add]. rewrite turn_state. unfold evaluate_state. rewrite Hst, E.
    cbn [mbind outcome_bind]. rewrite decide_False, decide_True by (by rewrite Ht).
    unfold end_object, pop. by rewrite Hsax, Hrs.
  - change (to_list (tail_text "}" (member_text <$> (k, v) :: ms)))
      with (","%char :: to_list ((key_text k +:+ ":" +:+ text v) +:+ tail_text "}" (member_text <$> ms))) in Hp.
    rewrite !to_list_app, <-app_comm_cons, <-!app_assoc in Hp. change (to_list ":") with [":"%char] in Hp.
    destruct (get_punctuation p _ _ _ Hp eq_refl) as (q & E & Ht & Hq & Hstq & Hsq).
    rewrite <-Hsq in Hrs. cbn [app] in Hq.
    destruct (member_read q k _ _ _ _ Hq Hrs)
      as (pk & p2 & m' & Ek & Htk & Em & Hp2 & _ & Hst2 & Hroot2 & Hr2 & Hm').
    destruct (Hv p2 _ Hp2) as (p3 & m3 & p4 & E3 & _ & Hrun & Hp4 & Hst4 & Hs4); [apply tail_ends; by right|].
    cbn [snd] in Hs4. rewrite (member_value acc _ _ _ _ _ Hr2 Hm') in Hs4.
    destruct (IH p4 (set_member acc (k, v)) (repaired k) r st rest) as (m5 & p' & Hrun2 & Hp' & Hst' & Hs');
      [congruence|by rewrite Hs4|done|].
    exists (S (m3 + m5)), p'. split_and!; [|done|done|by rewrite Hs', Hs4; cbn [root]; rewrite Hroot2, Hsq].
    intros n. cbn [Nat.add]. rewrite turn_state. unfold evaluate_state. rewrite Hst, E.
    cbn [mbind outcome_bind]. rewrite decide_True, Ek by done. cbn [mbind outcome_bind]. rewrite Em.
    cbn [mbind outcome_bind]. rewrite E3. cbn [mbind outcome_bind].
    rewrite <-Nat.add_assoc, Nat.add_succ_r, Hrun, <-Nat.add_succ_r. apply Hrun2.
Qed.

Lemma reads_object ms : Forall (fun kv => reads_json kv.2) ms -> reads_json (JObj ms).
Proof.
  intros Hl p rest Hp He. cbn [text] in Hp. change ("{" +:+ ?x) with (String "{" x) in Hp.
  cbn [to_list app] in Hp.
  destruct (get_punctuation p _ _ _ Hp eq_refl) as (p1 & E & Ht & Hp1 & Hst1 & Hs1). exists p1.
  set (q := with_sax (start_object (sax p1)) p1). destruct Hl as [|[k v] ms Hv Hl].
  - destruct (get_punctuation q _ _ _ Hp1 eq_refl) as (p2 & E2 & Ht2 & Hp2 & Hst2 & Hs2).
    exists 0, (with_sax (handle_value (JObj []) (sax p)) p2).
    split_and!; [done|by rewrite Ht| |done|by rewrite <-Hst1|done].
    intros n. cbn [Nat.add]. rewrite turn_value. unfold parse_value. rewrite Ht. fold q. rewrite E2.
    cbn [mbind outcome_bind]. rewrite decide_True by done. unfold end_object, pop. rewrite Hs2. cbn.
    rewrite Hs1. by destruct (sax p).
  - cbn [fmap list_fmap] in Hp1. rewrite join_tail, !to_list_app, <-!app_assoc in Hp1.
    change (to_list ":") with [":"%char] in Hp1. cbn [app fst snd] in Hp1.
    destruct (member_read q k _ [] EmptyString (ref_stack (sax p)) Hp1)
      as (pk & p2 & m' & Ek & Htk & Em & Hp2 & Hstk & Hst2 & Hroot2 & Hr2 & Hm'); [by cbn; rewrite Hs1|].
    destruct (Hv (with_states (false :: states p2) p2) _ Hp2)
      as (p3 & m3 & p4 & E3 & _ & Hrun & Hp4 & Hst4 & Hs4); [apply tail_ends; by right|].
    change (sax (with_states (false :: states p2) p2)) with (sax p2) in Hs4.
    cbn [snd] in Hs4. rewrite (member_value [] _ _ _ _ _ Hr2 Hm') in Hs4.
    destruct (object_tail ms Hl p4 (set_member [] (k, v)) (repaired k) (ref_stack (sax p)) (states p) rest)
      as (m5 & p' & Hrun2 & Hp' & Hst' & Hs'); [rewrite Hst4; cbn; rewrite Hst2; cbn; by rewrite Hst1|by rewrite Hs4|done|].
    exists (S (m3 + m5)), p'.
    split_and!; [done|by rewrite Ht| |done|done|].
    + intros n. cbn [Nat.add]. rewrite turn_value. unfold parse_value. rewrite Ht. fold q. rewrite Ek.
      cbn [mbind outcome_bind]. rewrite decide_False by (by rewrite Htk). rewrite Em. cbn [mbind outcome_bind].
      rewrite E3. cbn [mbind outcome_bind negb].
      rewrite <-Nat.add_assoc, Nat.add_succ_r, Hrun, <-Nat.add_succ_r. apply Hrun2.
    + rewrite Hs', Hs4. cbn [root]. rewrite Hroot2. cbn. rewrite Hs1. by destruct (sax p).
Qed.

Lemma fits_reads j : fits j = true -> reads_json j.
Proof.
  induction j as [|b|z|z|f|s|l IH|m IH] using json_ind'; intros Hf.
  - apply reads_null.
  - apply reads_bool.
  - cbn [fits] in Hf. apply andb_true_iff in Hf as [H1%Z.leb_le H2%Z.ltb_lt].
    apply reads_integer. lia.
  - cbn [fits] in Hf. apply andb_true_iff in Hf as [H1%Z.leb_le H2%Z.ltb_lt].
    unfold reads_json. cbn [text read_back]. pose proof (reads_integer z ltac:(lia)) as Hr.
    by rewrite (proj2 (Z.ltb_ge _ _)) in Hr by lia.
  - apply reads_float, Hf.
  - apply reads_string.
  - apply reads_array. cbn [fits] in Hf. rewrite forallb_forall in Hf. rewrite Forall_forall in IH |- *.
    intros x Hx. apply IH; [done|]. by apply Hf, list_elem_of_In.
  - apply reads_object. cbn [fits] in Hf. rewrite forallb_forall in Hf. rewrite Forall_forall in IH |- *.
    intros x Hx. apply IH; [done|]. by apply (Hf x), list_elem_of_In.
Qed.

Lemma parse_dump j : fits j = true -> json_parse (json_dump j) = Ret (read_back j).
Proof.
  intros Hf. rewrite json_dump_text. unfold json_parse, parse. fold (parser0 (text j)).
  destruct (fits_reads j Hf (parser0 (text j)) []) as (p1 & m & p' & E & _ & Hrun & Hp' & Hst' & Hs').
  { cbn. by rewrite app_nil_r. }
  { done. }
  rewrite E. cbn [mbind outcome_bind].
  assert (sax_parse_internal (S (S (slen (text j)))) false p1 = Ret p') as ->.
  { pose proof (parse_turns _ _ E) as Hg. set (f := S (S (slen (text j)))) in *.
    rewrite <-(sax_parse_internal_more f (m + 1)).
    - replace (f + (m + 1)) with (m + S f) by lia. rewrite Hrun, turn_state.
      unfold evaluate_state. by rewrite Hst'.
    - by destruct (sax_parse_internal f false p1). }
  cbn [mbind outcome_bind]. destruct (scan_end (m_lexer p') Hp') as (l & El).
  unfold get_token. rewrite El. cbn [mbind outcome_bind]. rewrite decide_True by done.
  by rewrite Hs'.
Qed.
End values.
