(* ===== verification/JsonReadFacts.v ===== *)
(** * Facts about what the parser of lib/json/json.hpp returns

    Whatever the text, a value that is returned is [canonical]: the keys of its objects
    increase, its integers are in the ranges of their types, its strings are
    well-formed UTF-8 and its floating-point numbers finite. *)

From S2P Require Import Prelude Strings OMap Outcome NumFacts Json JsonLex JsonParse JsonDump.
From S2P Require Import JsonLexFacts JsonParseFacts JsonStringFacts JsonTextFacts.
From Stdlib Require Import Ascii SpecFloat.
Import json_lexer json_parser json_serializer.
#[local] Transparent json_parse json_dump json_dump_strict.

(** ** Canonical values *)

Definition utf8_string (s : string) : bool := utf8_ok [] (to_list s).

Fixpoint canonical (j : json) : Prop :=
  match j with
  | JNull | JBool _ => True
  | JInt z => (- 2 ^ 63 <= z <= 0)%Z
  | JUInt z => (0 <= z < 2 ^ 64)%Z
  | JFloat f => is_finite f = true
  | JStr s => utf8_string s = true
  | JArr l => (fix go l := match l with [] => True | j :: l => canonical j /\ go l end) l
  | JObj m =>
      omap_wf m /\
      (fix go m := match m with [] => True | kv :: m => (utf8_string kv.1 = true /\ canonical kv.2) /\ go m end) m
  end.

Lemma canonical_arr l : canonical (JArr l) <-> Forall canonical l.
Proof. simpl. induction l as [|j l IH]; [by split|]. by rewrite Forall_cons, IH. Qed.
Definition good_member (kv : string * json) : Prop := utf8_string kv.1 = true /\ canonical kv.2.
Lemma canonical_obj m : canonical (JObj m) <-> omap_wf m /\ Forall good_member m.
Proof.
  simpl. apply and_iff_compat_l. induction m as [|kv m IH]; [by split|]. by rewrite Forall_cons, IH.
Qed.

(** ** Strings *)

Lemma utf8_ok_app a : forall rs b, utf8_ok rs a = true -> utf8_ok rs (a ++ b) = utf8_ok [] b.
Proof.
  induction a as [|c a IH]; intros rs b H; [by destruct rs|]. cbn [app utf8_ok] in *.
  destruct rs as [|r rs].
  - destruct (code c <? 128)%N; [by apply IH|]. destruct (utf8_tail _); [by apply IH|done].
  - apply andb_true_iff in H as [-> H]. by apply IH.
Qed.

Definition cont_byte (z : Z) : ascii := byte (128 + z).

Lemma low_six z s : (0 <= s)%Z -> Z.lor 128 (Z.land (Z.shiftr z s) 63) = (128 + (z / 2 ^ s) mod 64)%Z.
Proof.
  intros Hs. change 63%Z with (Z.ones 6). rewrite Z.land_ones, Z.shiftr_div_pow2 by lia.
  change (2 ^ 6)%Z with 64%Z. pose proof (Z.mod_pos_bound (z / 2 ^ s) 64 eq_refl) as Hb.
  apply Z.eqb_eq, (below (fun d => (Z.lor 128 d =? 128 + d)%Z) 64); [done|lia].
Qed.

Lemma lead_bits lead k z s :
  forallb (fun n => (Z.lor lead (Z.of_nat n) =? lead + Z.of_nat n)%Z) (seq 0 k) = true ->
  (0 <= z)%Z -> (0 <= s)%Z -> (z / 2 ^ s < Z.of_nat k)%Z -> Z.lor lead (Z.shiftr z s) = (lead + z / 2 ^ s)%Z.
Proof.
  intros H Hz Hs Hk. rewrite Z.shiftr_div_pow2 by done.
  assert (0 <= z / 2 ^ s)%Z by (apply Z.div_pos; lia).
  apply Z.eqb_eq, (below (fun d => (Z.lor lead d =? lead + d)%Z) k); [done|lia].
Qed.

(** a code point that is not a surrogate *)
Definition scalar (c : Z) : Prop := (0 <= c < 55296 \/ 57344 <= c < 1114112)%Z.

(** the lead and the second byte of a sequence of three or four bytes *)
Definition check_lead (lead : Z) (more : list (N * N)) (ok : Z -> bool) (ab : Z) : bool :=
  let c := byte (lead + ab / 64) in
  negb (ok ab) ||
  (negb (code c <? 128)%N &&
   match utf8_tail (code c) with
   | Some (r :: rs) => in_bounds r (cont_byte (ab mod 64)) && bool_decide (rs = more)
   | _ => false
   end).

Lemma cont_ok d : (0 <= d < 64)%Z -> in_bounds (128, 191)%N (cont_byte d) = true.
Proof. apply (below (fun d => in_bounds (128, 191)%N (cont_byte d)) 64). by vm_compute. Qed.

Lemma check_lead_ok lead more ok ab l : check_lead lead more ok ab = true -> ok ab = true ->
  utf8_ok more l = true -> utf8_ok [] (byte (lead + ab / 64) :: cont_byte (ab mod 64) :: l) = true.
Proof.
  unfold check_lead. intros H Hok Hl. rewrite Hok in H. cbn [negb orb] in H.
  apply andb_true_iff in H as [H1%negb_true_iff H2]. cbn [utf8_ok]. rewrite H1.
  destruct (utf8_tail _) as [[|r rs]|]; try done.
  apply andb_true_iff in H2 as [H2 ->%bool_decide_eq_true]. by rewrite H2.
Qed.

Lemma utf8_bytes_ok c : scalar c -> utf8_ok [] (utf8_bytes c) = true.
Proof.
  intros Hc. unfold utf8_bytes.
  assert (forall s, (0 <= s)%Z -> byte (Z.lor 128 (Z.land (Z.shiftr c s) 63)) = cont_byte ((c / 2 ^ s) mod 64)) as Hlow
    by (intros s Hs; unfold cont_byte; by rewrite low_six).
  assert (forall x, in_bounds (128, 191)%N (cont_byte (x mod 64)) = true) as Hcont
    by (intros x; apply cont_ok; by apply Z.mod_pos_bound).
  destruct (c <? 128)%Z eqn:E1; zb.
  { apply (below (fun c => utf8_ok [] [byte c]) 128); [by vm_compute|unfold scalar in Hc; lia]. }
  assert (0 <= c)%Z as H0 by lia.
  destruct (c <=? 2047)%Z eqn:E2; zb.
  { assert (2 <= c / 64 < 32)%Z by (split; [apply Z.div_le_lower_bound|apply Z.div_lt_upper_bound]; lia).
    rewrite (lead_bits 192 32) by (try done; change (2 ^ 6)%Z with 64%Z; lia). rewrite Hlow by lia. change (2 ^ 6)%Z with 64%Z.
    pose proof (below (fun a => (a <? 2)%Z || forallb (fun d => utf8_ok [] [byte (192 + a); cont_byte (Z.of_nat d)])
      (seq 0 64)) 32 ltac:(by vm_compute) (c / 64)%Z ltac:(lia)) as Hd. cbn beta in Hd.
    rewrite (proj2 (Z.ltb_ge _ _)) in Hd by lia. cbn [orb] in Hd.
    apply (below (fun d => utf8_ok [] [byte (192 + c / 64); cont_byte d]) 64 Hd). by apply Z.mod_pos_bound. }
  assert (forall s, (0 <= s)%Z -> (c / 2 ^ s / 64 = c / 2 ^ (s + 6))%Z) as Hdiv
    by (intros s Hs; rewrite Z.div_div, Z.pow_add_r by lia; done).
  destruct (c <=? 65535)%Z eqn:E3; zb.
  - assert (32 <= c / 2 ^ 6 < 1024)%Z
      by (change (2 ^ 6)%Z with 64%Z; split; [apply Z.div_le_lower_bound|apply Z.div_lt_upper_bound]; lia).
    assert (c / 2 ^ 12 < 16)%Z by (apply Z.div_lt_upper_bound; lia).
    rewrite (lead_bits 224 16) by (try done; simpl; lia). rewrite !Hlow by lia.
    assert (c / 2 ^ 12 = c / 2 ^ 6 / 64)%Z as -> by (rewrite Hdiv by lia; done). set (ok := fun ab => ((32 <=? ab) && ((ab <? 864) || (896 <=? ab)))%Z).
    apply (check_lead_ok 224 [(128, 191)%N] ok).
    + apply (below (check_lead 224 [(128, 191)%N] ok) 1024); [by vm_compute|simpl; lia].
    + unfold ok. assert (c / 2 ^ 6 < 864 \/ 896 <= c / 2 ^ 6)%Z as Hs.
      { change (2 ^ 6)%Z with 64%Z. destruct Hc as [Hc|Hc]; [left; apply Z.div_lt_upper_bound; lia|].
        right. apply Z.div_le_lower_bound; lia. }
      apply andb_true_iff. split; [apply Z.leb_le; lia|]. apply orb_true_iff.
      destruct Hs; [left; by apply Z.ltb_lt|right; by apply Z.leb_le].
    + cbn [utf8_ok]. by rewrite Hcont.
  - assert (16 <= c / 2 ^ 12 < 272)%Z
      by (split; [apply Z.div_le_lower_bound|apply Z.div_lt_upper_bound]; unfold scalar in Hc; lia).
    assert (c / 2 ^ 18 < 8)%Z by (apply Z.div_lt_upper_bound; unfold scalar in Hc; lia).
    rewrite (lead_bits 240 8) by (try done; simpl; lia). rewrite !Hlow by lia.
    assert (c / 2 ^ 18 = c / 2 ^ 12 / 64)%Z as -> by (rewrite Hdiv by lia; done). set (ok := fun ab => (16 <=? ab)%Z).
    apply (check_lead_ok 240 [(128, 191)%N; (128, 191)%N] ok).
    + apply (below (check_lead 240 [(128, 191)%N; (128, 191)%N] ok) 272); [by vm_compute|simpl; lia].
    + apply Z.leb_le. lia.
    + cbn [utf8_ok]. by rewrite !Hcont.
Qed.

Definition good_buffer (l : lexer) : Prop := utf8_ok [] (rev (token_buffer l)) = true.

Lemma good_add bs l l' : token_buffer l' = rev bs ++ token_buffer l -> utf8_ok [] bs = true ->
  good_buffer l -> good_buffer l'.
Proof. unfold good_buffer. intros -> Hb Hl. by rewrite rev_app_distr, rev_involutive, utf8_ok_app. Qed.

Lemma good_ascii c l : (code c <? 128)%N = true -> good_buffer l -> good_buffer (add c l).
Proof. intros Hc. apply (good_add [c]); [done|]. cbn [utf8_ok]. by rewrite Hc. Qed.

Lemma good_get l : good_buffer l -> good_buffer (get l).
Proof. unfold good_buffer. by rewrite get_buffer. Qed.

Lemma ranges_good rs : forall l l', ranges_loop rs l = (true, l') ->
  exists bs, token_buffer l' = rev bs ++ token_buffer l /\ forall x, utf8_ok rs (bs ++ x) = utf8_ok [] x.
Proof.
  induction rs as [|[lo hi] rs IH]; intros l l' H; simpl in H; [injection H as <-; by exists []|].
  destruct (current (get l)) as [c|] eqn:Ec; [|done]. unfold byte_in in H.
  destruct ((lo <=? code c) && (code c <=? hi))%N eqn:Er; [|done].
  apply IH in H as (bs & Hb & Hx). exists (c :: bs). split.
  - rewrite Hb. unfold add_current. rewrite Ec. cbn. by rewrite get_buffer, <-app_assoc.
  - intros x. cbn [app utf8_ok]. by rewrite Hx, (Er : in_bounds (lo, hi) c = true).
Qed.

Lemma hex_val_range c d : hex_val c = Some d -> (0 <= d < 16)%Z.
Proof. unfold hex_val. intros H. repeat case_match; zb; simplify_eq; lia. Qed.

Lemma codepoint_buffer factors : forall cp l, token_buffer (codepoint_loop factors cp l).2 = token_buffer l.
Proof.
  induction factors as [|f factors IH]; intros cp l; simpl; [done|].
  destruct (hex_val _); [rewrite IH|]; apply get_buffer.
Qed.

Lemma get_codepoint_range l z l' : get_codepoint l = (Some z, l') -> (0 <= z < 65536)%Z.
Proof.
  unfold get_codepoint. simpl. intros H. repeat case_match; simplify_eq.
  repeat match goal with E : hex_val _ = Some _ |- _ => apply hex_val_range in E end.
  rewrite !Z.shiftl_mul_pow2 by lia. lia.
Qed.

Lemma good_get_codepoint l r l' : get_codepoint l = (r, l') -> good_buffer l -> good_buffer l'.
Proof.
  intros E Hl. pose proof (codepoint_buffer [12; 8; 4; 0]%Z 0%Z l) as H.
  unfold get_codepoint in E. rewrite E in H. unfold good_buffer. cbn [snd] in H. by rewrite H.
Qed.

Lemma add_codepoint_buffer c l : token_buffer (add_codepoint c l) = rev (utf8_bytes c) ++ token_buffer l.
Proof.
  unfold add_codepoint. generalize (utf8_bytes c). intros bs. revert l.
  induction bs as [|b bs IH]; intros l; simpl; [done|]. by rewrite IH, <-app_assoc.
Qed.

Lemma good_codepoint c l : scalar c -> good_buffer l -> good_buffer (add_codepoint c l).
Proof. intros Hc. apply (good_add (utf8_bytes c)); [apply add_codepoint_buffer|by apply utf8_bytes_ok]. Qed.

(** a turn that goes on keeps the buffer well-formed *)
Lemma scan_unicode_good l : good_buffer l -> (scan_unicode l).1 = None -> good_buffer (scan_unicode l).2.
Proof.
  intros Hl. unfold scan_unicode. destruct (get_codepoint l) as [[c1|] l1] eqn:E1; [|done].
  pose proof (get_codepoint_range _ _ _ E1) as H1. pose proof (good_get_codepoint _ _ _ E1 Hl) as Hl1.
  destruct ((55296 <=? c1) && (c1 <=? 56319))%Z eqn:Eh.
  - destruct (negb _); [done|]. destruct (negb _); [done|].
    destruct (get_codepoint (get (get l1))) as [[c2|] l2] eqn:E2; [|done].
    apply good_get_codepoint in E2 as Hl2; [|by do 2 apply good_get].
    destruct ((56320 <=? c2) && (c2 <=? 57343))%Z eqn:El; [|done]. intros _. apply good_codepoint; [|done].
    apply andb_true_iff in Eh as [?%Z.leb_le ?%Z.leb_le]. apply andb_true_iff in El as [?%Z.leb_le ?%Z.leb_le].
    rewrite Z.shiftl_mul_pow2 by lia. unfold scalar.
    rewrite wrapU_small, wrapS_small by lia. lia.
  - destruct ((56320 <=? c1) && (c1 <=? 57343))%Z eqn:El; [done|]. intros _. apply good_codepoint; [|done].
    apply andb_false_iff in Eh. apply andb_false_iff in El. rewrite !Z.leb_gt in Eh, El. unfold scalar. lia.
Qed.

Lemma simple_escape_ascii c x : simple_escape c = Some x -> (code x <? 128)%N = true.
Proof. unfold simple_escape. intros H. repeat case_match; by simplify_eq. Qed.

Lemma scan_string_step_good l : good_buffer l ->
  (scan_string_step l).1 = None \/ (scan_string_step l).1 = Some value_string ->
  good_buffer (scan_string_step l).2.
Proof.
  intros Hl%good_get. unfold scan_string_step. destruct (current (get l)) as [c|] eqn:Ec; [|by intros []].
  destruct (code c =? 34)%N; [done|]. destruct (code c =? 92)%N.
  { apply good_get in Hl. destruct (current (get (get l))) as [e|]; [|by intros []].
    case_bool_decide.
    - intros [H'|H']; [by apply scan_unicode_good|]. unfold scan_unicode in H'. by repeat case_match; simplify_eq/=.
    - destruct (simple_escape e) as [x|] eqn:E; [|by intros []]. intros _.
      apply good_ascii; [by eapply simple_escape_ascii|done]. }
  destruct (code c <=? 31)%N; [by intros []|].
  destruct (code c <=? 127)%N eqn:E127.
  { intros _. apply good_ascii; [|done]. apply N.leb_le in E127. apply N.ltb_lt. lia. }
  destruct (utf8_tail (code c)) as [rs|] eqn:Et; [|by intros []]. unfold next_byte_in_range.
  destruct (ranges_loop rs _) as [[] l'] eqn:Er; [|by intros []]. intros _.
  apply ranges_good in Er as (bs & Hb & Hx). apply (good_add (c :: bs) (get l)); [|  |done].
  - cbn [snd]. rewrite Hb. unfold add_current. rewrite Ec. cbn. by rewrite <-app_assoc.
  - cbn [utf8_ok]. apply N.leb_gt in E127. rewrite (proj2 (N.ltb_ge _ _)) by lia. rewrite Et.
    specialize (Hx []). by rewrite app_nil_r in Hx.
Qed.

Lemma scan_string_loop_good fuel : forall l t l', good_buffer l ->
  scan_string_loop fuel l = Ret (t, l') -> t = value_string -> good_buffer l'.
Proof.
  induction fuel as [|fuel IH]; intros l t l' Hl E Ht; [done|]. cbn [scan_string_loop] in E.
  pose proof (scan_string_step_good l Hl) as Hs.
  destruct (scan_string_step l) as [[t1|] l1]; cbn [fst snd] in Hs.
  - injection E as -> ->. apply Hs. by right; rewrite Ht.
  - apply (IH l1 t l'); [|done..]. apply Hs. by left.
Qed.

(** ** Tokens *)

Section tokens.
Context `{FloatLib}.

Definition good_token (t : token_type) (l : lexer) : Prop :=
  match t with
  | value_string => utf8_string (get_string l) = true
  | value_unsigned => (0 <= number_unsigned l < 2 ^ 64)%Z
  | value_integer => (- 2 ^ 63 <= number_integer l <= 0)%Z
  | _ => True
  end.

Lemma read_digits_nonneg s : forall acc n, (0 <= acc)%Z -> (0 <= fst (read_digits acc n s))%Z.
Proof.
  induction s as [|c s IH]; intros acc n Ha; simpl; [done|]. destruct (isdigit c); [|done].
  apply IH. unfold digit_val. lia.
Qed.

Lemma number_done_good t l : good_token (scan_number_done t l).1 (scan_number_done t l).2.
Proof.
  unfold scan_number_done. set (s := get_string (unget l)).
  pose proof (read_digits_nonneg s 0 0 ltac:(done)) as H1.
  pose proof (read_digits_nonneg (sdrop 1 s) 0 0 ltac:(done)) as H2.
  destruct t; try done; case_match; zb; try done;
    cbn [fst snd good_token number_unsigned number_integer set_numbers]; lia.
Qed.

Lemma number_loop_good fuel : forall s t l t' l',
  scan_number_loop fuel s t l = Ret (t', l') -> good_token t' l'.
Proof.
  induction fuel as [|fuel IH]; intros s t l t' l' E; [done|]. cbn [scan_number_loop] in E.
  destruct (number_next s (current (get l))) as [s'| |m].
  - by apply IH in E.
  - injection E as E. pose proof (number_done_good t (get l)) as Hd. by rewrite E in Hd.
  - by injection E as <- <-.
Qed.

Lemma scan_literal_good text t l : good_token t l -> t <> value_string -> t <> value_unsigned -> t <> value_integer ->
  good_token (scan_literal text t l).1 (scan_literal text t l).2.
Proof.
  intros _ H1 H2 H3. revert l; induction text as [|c text IH]; intros l; simpl; [by destruct t|].
  by destruct (is_char _ _).
Qed.

Lemma unicode_type l t : (scan_unicode l).1 = Some t -> t = parse_error.
Proof.
  unfold scan_unicode. destruct (get_codepoint l) as [[c1|] l1]; [|by intros [= <-]].
  destruct (_ && _).
  - destruct (negb _); [by intros [= <-]|]. destruct (negb _); [by intros [= <-]|].
    destruct (get_codepoint _) as [[c2|] l2]; [|by intros [= <-]]. destruct (_ && _); [done|by intros [= <-]].
  - destruct (_ && _); [by intros [= <-]|done].
Qed.

Lemma step_type l t : (scan_string_step l).1 = Some t -> t = value_string \/ t = parse_error.
Proof.
  unfold scan_string_step. destruct (current (get l)) as [c|]; [|intros [= <-]; by right].
  destruct (_ =? 34)%N; [intros [= <-]; by left|]. destruct (_ =? 92)%N.
  { destruct (current _) as [e|]; [|intros [= <-]; by right]. case_bool_decide.
    - intros E%unicode_type. by right.
    - destruct (simple_escape e); [done|intros [= <-]; by right]. }
  destruct (_ <=? 31)%N; [intros [= <-]; by right|]. destruct (_ <=? 127)%N; [done|].
  destruct (utf8_tail _); [|intros [= <-]; by right].
  destruct (next_byte_in_range _ _) as [[] l']; [done|intros [= <-]; by right].
Qed.

Lemma scan_string_good l t l' : scan_string l = Ret (t, l') -> good_token t l'.
Proof.
  unfold scan_string. intros E.
  assert (t = value_string \/ t = parse_error) as [-> | ->]; [|apply scan_string_loop_good in E; [|reflexivity..]|done].
  - revert E. generalize (S (length (input (reset l)))). intros fuel. generalize (reset l).
    induction fuel as [|fuel IH]; intros l1 E; [done|]. cbn [scan_string_loop] in E.
    destruct (scan_string_step l1) as [[t1|] l2] eqn:Es; [|by eapply IH].
    injection E as -> ->. pose proof (step_type l1 t) as Ht. rewrite Es in Ht. by apply Ht.
  - unfold good_token, utf8_string, get_string. by rewrite to_of_list.
Qed.

Lemma scan_token_good l t l' : scan_token l = Ret (t, l') -> good_token t l'.
Proof.
  unfold scan_token. intros E.
  assert (forall text t1, t1 ∈ [literal_true; literal_false; literal_null] ->
    Ret (scan_literal text t1 l) = Ret (t, l') -> good_token t l') as Hlit.
  { intros text t1 Ht [= El]. pose proof (scan_literal_good text t1 l) as Hg. rewrite El in Hg.
    repeat (apply elem_of_cons in Ht as [->|Ht]); [apply Hg; first [exact I|done]..|by apply elem_of_nil in Ht]. }
  assert (forall c, (if bool_decide (c = "-"%char) || is_digit (Some c) then scan_number l
    else Ret (error "invalid literal" l)) = Ret (t, l') -> good_token t l') as Hnum.
  { intros c. destruct (_ || _); [|by intros [= <- <-]]. apply number_loop_good. }
  pose proof (scan_string_good l t l') as Hstr.
  destruct (current l) as [c|]; [|by injection E as <- <-].
  destruct c as [[] [] [] [] [] [] [] []];
    first [by apply Hnum in E|by apply Hstr in E|by injection E as <- <-|eapply Hlit, E; set_solver].
Qed.

Lemma scan_good l t l' : scan l = Ret (t, l') -> good_token t l'.
Proof.
  unfold scan. destruct (if _ =? 0 then _ else _) as [ok l0]. destruct ok; [|by intros [= <- <-]]. cbn [negb].
  destruct (skip_whitespace l0) as [l1| | | |]; try done. apply scan_token_good.
Qed.

(** ** The document *)

Definition good_container (c : container) : Prop :=
  match c with
  | OpenArray l => Forall canonical l
  | OpenObject m k => omap_wf m /\ Forall good_member m /\ utf8_string k = true
  end.
Definition good_dom (d : dom) : Prop := canonical (root d) /\ Forall good_container (ref_stack d).

Definition good_parser (p : parser) : Prop := good_dom (sax p) /\ good_token (last_token p) (m_lexer p).

(** what is returned satisfies [Q] *)
Definition returns {A} (Q : A -> Prop) (m : outcome A) : Prop := forall a, m = Ret a -> Q a.

Lemma returns_bind {A B} (Q : A -> Prop) (R : B -> Prop) (m : outcome A) (f : A -> outcome B) :
  returns Q m -> (forall a, Q a -> returns R (f a)) -> returns R (m ≫= f).
Proof. intros Hm Hf b (a & Ha & Hb)%bind_ret. exact (Hf a (Hm a Ha) b Hb). Qed.
Lemma returns_Ret {A} (Q : A -> Prop) a : Q a -> returns Q (Ret a).
Proof. by intros ? ? [= <-]. Qed.

Lemma good_value v d : canonical v -> good_dom d -> good_dom (handle_value v d).
Proof.
  intros Hv [Hr Hs]. unfold handle_value. destruct (ref_stack d) as [|[l|m k] cs]; [by split| |].
  - apply Forall_cons in Hs as [Hl Hs]. split; [done|]. constructor; [|done].
    apply Forall_app. split; [done|by constructor].
  - apply Forall_cons in Hs as [(Hw & Hm & Hk) Hs]. split; [done|]. constructor; [|done].
    split_and!; [by apply omap_set_wf|by apply omap_set_Forall|done].
Qed.

Lemma good_key k d : utf8_string k = true -> good_dom d -> returns good_dom (key k d).
Proof.
  intros Hk [Hr Hs]. unfold key. destruct (ref_stack d) as [|[l|m k0] cs]; [done..|]. apply returns_Ret.
  apply Forall_cons in Hs as [(Hw & Hm & _) Hs]. split; [done|]. constructor; [|done].
  destruct (omap_has k m); [by split_and!|].
  split_and!; [by apply omap_set_wf|by apply omap_set_Forall|done].
Qed.

Lemma good_pop d : good_dom d -> returns good_dom (pop d).
Proof.
  intros [Hr Hs]. unfold pop. destruct (ref_stack d) as [|c cs]; [done|]. apply returns_Ret.
  apply Forall_cons in Hs as [Hc Hs]. apply good_value; [|by split].
  destruct c as [l|m k]; [by apply canonical_arr|]. apply canonical_obj. by destruct Hc as (? & ? & _).
Qed.

Lemma get_token_good p : good_dom (sax p) -> returns good_parser (get_token p).
Proof.
  intros Hd. unfold get_token. destruct (scan (m_lexer p)) as [[t l]| | | |] eqn:E; try done.
  apply returns_Ret. split; [done|]. by apply scan_good in E.
Qed.

Lemma parse_member_good p : good_parser p -> returns good_parser (parse_member p).
Proof.
  intros [Hd Ht]. unfold parse_member. case_decide as E; [done|]. rewrite E in Ht.
  eapply returns_bind; [by apply good_key|]. intros d Hd'.
  eapply returns_bind; [by apply get_token_good|]. intros p' Hp'. case_decide; [done|]. by apply returns_Ret.
Qed.

Lemma parse_value_good p : good_parser p -> returns (fun bp : bool * parser => good_parser bp.2) (parse_value p).
Proof.
  intros [Hd Ht]. unfold parse_value.
  assert (forall v, canonical v -> returns (fun bp : bool * parser => good_parser bp.2) (Ret (true, value v p))) as Hval.
  { intros v Hv. apply returns_Ret. split; [by apply good_value|done]. }
  destruct (last_token p) eqn:Et; try done; cbn [good_token] in Ht; try by apply Hval.
  - destruct (negb _) eqn:Ef; [done|]. apply Hval. by apply negb_false_iff in Ef.
  - eapply returns_bind; [apply get_token_good; split; [apply Hd|]; constructor; [constructor|apply Hd]|].
    intros p' [Hd' Ht']. case_decide; [|by apply returns_Ret].
    eapply returns_bind; [by apply good_pop|]. intros d Hd2. by apply returns_Ret.
  - eapply returns_bind; [apply get_token_good; split; [apply Hd|]; constructor; [by split_and!|apply Hd]|].
    intros p' Hp'. case_decide.
    + destruct Hp' as [Hd' Ht']. eapply returns_bind; [by apply good_pop|]. intros d Hd2. by apply returns_Ret.
    + eapply returns_bind; [by apply parse_member_good|]. intros p2 [Hd2 Ht2].
      eapply returns_bind; [by apply get_token_good|]. intros p3 Hp3. by apply returns_Ret.
Qed.

Lemma evaluate_state_good p : good_parser p ->
  returns (fun cp : control * parser => good_parser cp.2) (evaluate_state p).
Proof.
  intros [Hd Ht]. unfold evaluate_state. destruct (states p) as [|[] st]; [by apply returns_Ret|..];
    (eapply returns_bind; [by apply get_token_good|]; intros p1 [Hd1 Ht1]; case_decide;
     [|case_decide; [|done]; eapply returns_bind; [by apply good_pop|]; intros d Hd2; by apply returns_Ret]);
    (eapply returns_bind; [by apply get_token_good|]; intros p2 Hp2).
  - by apply returns_Ret.
  - eapply returns_bind; [by apply parse_member_good|]. intros p3 [Hd3 _].
    eapply returns_bind; [by apply get_token_good|]. intros p4 Hp4. by apply returns_Ret.
Qed.

Lemma sax_parse_internal_good fuel : forall skip p, good_parser p ->
  returns good_parser (sax_parse_internal fuel skip p).
Proof.
  induction fuel as [|fuel IH]; intros skip p Hp; [done|]. cbn [sax_parse_internal].
  apply (returns_bind (fun bp : bool * parser => good_parser bp.2)).
  { destruct skip; [by apply returns_Ret|by apply parse_value_good]. }
  intros [[] p1] Hp1; cbn [negb]; [|by apply IH].
  eapply returns_bind; [by apply evaluate_state_good|].
  intros [[] p2] Hp2; [by apply returns_Ret|by apply IH..].
Qed.

Lemma json_parse_canonical s : returns canonical (json_parse s).
Proof.
  unfold json_parse, parse.
  eapply returns_bind; [apply get_token_good; by split; [|constructor]|]. intros p Hp.
  eapply returns_bind; [by apply sax_parse_internal_good|]. intros p1 [Hd1 _].
  eapply returns_bind; [by apply get_token_good|]. intros p2 [[Hr _] _]. case_decide; [|done].
  by apply returns_Ret.
Qed.
End tokens.

(** the strings of a canonical object *)
Lemma jget_canonical j k s : canonical j -> jget j k = JStr s -> utf8_string s = true.
Proof.
  destruct j as [| | | | | | |m]; try done. intros [_ Hm]%canonical_obj Hg. simpl in Hg.
  destruct (omap_get k m) as [v|] eqn:E; [|done]. simpl in Hg. subst v.
  apply omap_get_elem in E. rewrite Forall_forall in Hm. by apply (Hm (k, JStr s)).
Qed.

(** ** Writing what was read *)

Section again.
Context `{FloatLib}.

Lemma read_back_members m : omap_wf m -> Forall good_member m ->
  read_back (JObj m) = JObj ((fun kv => (kv.1, read_back kv.2)) <$> m).
Proof.
  intros Hw Hm. cbn [read_back]. f_equal. rewrite Forall_forall in Hm.
  rewrite (foldl_ext_elem _ (fun acc kv => omap_set kv.1 (read_back kv.2) acc)).
  - by rewrite (omap_rebuild read_back m []).
  - intros acc kv Hkv. by rewrite repaired_id by apply (Hm kv Hkv).
Qed.

Lemma quoted_repaired s : utf8_string s = true -> repaired (repaired s) = repaired s.
Proof. intros Hs. by rewrite !(repaired_id s Hs). Qed.

Lemma text_read_back j : canonical j -> text (read_back j) = text j.
Proof.
  induction j as [| | | |f|s|l IH|m IH] using json_ind'; intros Hc; try done.
  - cbn [read_back]. by destruct (z <? 0)%Z.
  - cbn [read_back]. simpl in Hc. by rewrite Hc.
  - cbn [read_back text]. by rewrite quoted_repaired.
  - rewrite canonical_arr, Forall_forall in Hc. rewrite Forall_forall in IH. cbn [read_back text].
    do 3 f_equal. rewrite <-list_fmap_compose. apply list_fmap_ext. intros i x Hx%list_elem_of_lookup_2. simpl. auto.
  - apply canonical_obj in Hc as [Hw Hm]. rewrite (read_back_members m Hw Hm). cbn [text].
    rewrite Forall_forall in Hm, IH. do 3 f_equal. rewrite <-list_fmap_compose. apply list_fmap_ext.
    intros i kv Hx%list_elem_of_lookup_2. simpl. rewrite (IH kv Hx); [done|]. by apply Hm.
Qed.

Lemma dump_strict_canonical j : canonical j -> dump strict false j = dump replace false j.
Proof.
  induction j as [| | | |f|s|l IH|m IH] using json_ind'; intros Hc; try done.
  - cbn [dump]. by rewrite dump_escaped_strict.
  - rewrite canonical_arr, Forall_forall in Hc. rewrite Forall_forall in IH. cbn [dump].
    rewrite (omapM_ext (dump strict false) (dump replace false)); [done|]. auto.
  - apply canonical_obj in Hc as [Hw Hm]. rewrite Forall_forall in Hm, IH. cbn [dump].
    destruct m as [|kv m]; [done|]. f_equal. apply omapM_ext. intros kv' Hkv. destruct (Hm kv' Hkv) as [Hk Hv].
    by rewrite dump_escaped_strict, (IH kv' Hkv Hv) by done.
Qed.
End again.

(** C8: [json::parse] ends on every text, with a value or a parse error, and the value
    is canonical whatever was sent: the keys of its objects increase, its integers
    are in the ranges of their types, its strings are well-formed UTF-8. *)
Theorem json_parse_ends `{FloatLib} (s : string) :
  (exists j, json_parse s = Ret j /\ canonical j) \/ (exists what, json_parse s = Throw (JsonParseError what)).
Proof.
  pose proof (json_parse_gives s) as Hg. pose proof (json_parse_canonical s) as Hc.
  destruct (json_parse s) as [j|[]| | |]; try done; [left|right]; eauto.
Qed.


(** What was parsed is written without an error by both handlers, as a text that is
    read again and then written the same. *)
Theorem json_rewrite `{FloatLib} (s : string) (j : json) (Hp : json_parse s = Ret j) (Hf : fits j = true) :
  json_dump_strict j = Ret (json_dump j) /\
  exists j', json_parse (json_dump j) = Ret j' /\ json_dump j' = json_dump j.
Proof.
  pose proof (json_parse_canonical s j Hp) as Hc. split.
  - unfold json_dump_strict. by rewrite dump_strict_canonical, dump_text, json_dump_text.
  - exists (read_back j). split; [by apply parse_dump|]. by rewrite !json_dump_text, text_read_back.
Qed.

Section json_witness.
Definition half : spec_float := S754_finite false 1 (-1).
#[local] Instance half_floats : FloatLib := {|
  c_strtod _ := half;
  float_to_chars _ := "0.5";
  decimal_point := "."%char
|}.

(** a quotation mark, a line feed, a byte that begins no code point, a character of two
    bytes *)
Definition odd_string : string := of_list ["034"; "010"; "255"; "195"; "169"; "\"]%char.
Definition sample : json :=
  JObj [("a", JArr [JInt (-5); JFloat half; JNull; JInt 7; JFloat (S754_infinity true)]);
        ("b" +:+ odd_string, JStr odd_string)].
Definition sample_text : string :=
  "{" +:+ quoted "b" +:+ ": [1e2, -0, true], " +:+ quoted "a" +:+ ":" +:+ quoted "\ud83d\ude00" +:+ " }".
Definition sample_value : json := match json_parse sample_text with Ret j => j | _ => JNull end.


Lemma json_rewrite_witness :
  json_parse sample_text = Ret sample_value /\ fits sample_value = true /\
  json_dump_strict sample_value = Ret (json_dump sample_value) /\
  exists j', json_parse (json_dump sample_value) = Ret j' /\ json_dump j' = json_dump sample_value.
Proof.
  assert (json_parse sample_text = Ret sample_value) as E by (vm_compute; reflexivity).
  assert (fits sample_value = true) as Hf by (vm_compute; reflexivity).
  split; [exact E|]. split; [exact Hf|]. apply (json_rewrite sample_text sample_value E Hf).
Defined.
End json_witness.
