(* ===== verification/HelpersFacts.v ===== *)
(** * Facts about helpers.cpp: glob patterns, command lines, tokens, URL decoding *)

From S2P Require Import Prelude Strings Regex OMap Outcome Json Errors State MemPlatform Helpers.
From Stdlib Require Import Ascii.
Import helpers.

(** ** Glob patterns *)

(** The language of a pattern: [*] is any run of characters without a line
    terminator, [?] one of them, anything else itself. *)
Inductive glob : list ascii -> list ascii -> Prop :=
| glob_nil : glob [] []
| glob_star u p t : Forall (fun c => is_dot c = true) u -> glob p t -> glob ("*"%char :: p) (u ++ t)
| glob_any c p t : is_dot c = true -> glob p t -> glob ("?"%char :: p) (c :: t)
| glob_chr c p t : c <> "*"%char -> c <> "?"%char -> glob p t -> glob (c :: p) (c :: t).

(** the regex that the pattern's text denotes *)
Fixpoint glob_regex (p : list ascii) : regex :=
  match p with
  | [] => RCat REol REps
  | c :: p =>
      RCat (if decide (c = "*"%char) then RStar RDot
            else if decide (c = "?"%char) then RDot
            else if mem c glob_specials then RSet (esc_set c) else RChr c) (glob_regex p)
  end.

Definition no_quant (l : list ascii) : Prop :=
  match l with [] => True | c :: _ => mem c ["*"; "+"; "?"; "{"]%char = false end.

Lemma p_quant_none a l : no_quant l -> p_quant a l = Some (a, l).
Proof.
  destruct l as [|c l]; [done|]. simpl. intros Hc.
  destruct c as [[] [] [] [] [] [] [] []]; try done; by vm_compute in Hc.
Qed.

Lemma glob_piece_head c l : no_quant (glob_piece c ++ l).
Proof.
  unfold glob_piece. case_decide; [done|]. case_decide; [done|].
  destruct (mem c glob_specials) eqn:E; [done|]. simpl.
  unfold mem in *. rewrite bool_decide_eq_false in E |- *.
  unfold glob_specials in E. set_solver.
Qed.

Lemma pieces_head p : no_quant ((p ≫= glob_piece) ++ ["$"%char]).
Proof. destruct p as [|c p]; simpl; [done|]. rewrite <-app_assoc. apply glob_piece_head. Qed.

Lemma p_seq_plain f c l n :
  c <> "*"%char -> c <> "?"%char -> mem c glob_specials = false -> no_quant l ->
  p_seq (S f) (c :: l) n = ('(b, l, n) ← p_seq f l n; Some (RCat (RChr c) b, l, n)).
Proof.
  intros H1 H2 H3 Hl. pose proof (p_quant_none (RChr c) l Hl) as Hq. cbn [p_seq].
  destruct c as [[] [] [] [] [] [] [] []]; try done; try (by vm_compute in H3); cbn; by rewrite Hq.
Qed.

Lemma p_seq_glob f p n :
  length p + 1 < f ->
  p_seq f ((p ≫= glob_piece) ++ ["$"%char]) n = Some (glob_regex p, [], n).
Proof.
  revert f; induction p as [|c p IH]; intros f Hf; (destruct f as [|f]; [simpl in Hf; lia|]).
  { destruct f; [simpl in Hf; lia|done]. }
  pose proof (pieces_head p) as Hq. cbn [glob_regex]. simpl in Hf.
  change ((c :: p) ≫= glob_piece) with (glob_piece c ++ (p ≫= glob_piece)).
  rewrite <-app_assoc. set (rest := (p ≫= glob_piece) ++ ["$"%char]) in *.
  unfold glob_piece at 1. case_decide as Hs.
  { cbn. rewrite IH by lia. done. }
  case_decide as Hw.
  { cbn [app p_seq]. rewrite p_quant_none by done. cbn. rewrite IH by lia. done. }
  destruct (mem c glob_specials) eqn:E.
  - cbn [app p_seq]. rewrite p_quant_none by done. cbn. rewrite IH by lia. done.
  - cbn [app]. rewrite p_seq_plain by done. rewrite IH by lia. done.
Qed.

Lemma pieces_length p : length p <= length (p ≫= glob_piece).
Proof.
  induction p as [|c p IH]; [done|].
  change ((c :: p) ≫= glob_piece) with (glob_piece c ++ (p ≫= glob_piece)).
  rewrite length_app. simpl. enough (1 <= length (glob_piece c)) by lia.
  unfold glob_piece. repeat case_decide; simpl; try lia. destruct (mem c glob_specials); simpl; lia.
Qed.

Lemma p_seq_bol f l n :
  p_seq (S f) ("^"%char :: l) n = ('(b, l, n) ← p_seq f l n; Some (RCat RBol b, l, n)).
Proof. done. Qed.

Lemma parse_glob p : parse_regex (globalMatch_re p) = Some (RCat RBol (glob_regex (to_list p))).
Proof.
  unfold parse_regex, globalMatch_re. set (q := to_list p).
  rewrite !slen_app, slen_of_list, !to_list_app, to_of_list. cbn [to_list slen app].
  replace (S (1 + (length (q ≫= glob_piece) + 1))) with (S (S (S (length (q ≫= glob_piece))))) by lia.
  rewrite p_seq_bol, p_seq_glob; [done|]. pose proof (pieces_length q). lia.
Qed.

Lemma mem_special_class c : mem c glob_specials = true -> esc_set c = fun x => bool_decide (x = c).
Proof.
  intros E%mem_spec. unfold glob_specials in E.
  repeat (apply elem_of_cons in E as [->|E]; [done|]). by apply elem_of_nil in E.
Qed.

Lemma den_chr s c i j :
  den s (RChr c) i j <-> exists v, drop i s = c :: v /\ j = S i.
Proof.
  unfold RChr. rewrite den_set. split.
  - intros (x & v & Hd & Hx%bool_decide_eq_true & ->). subst. eauto.
  - intros (v & Hd & ->). exists c, v. by rewrite bool_decide_true.
Qed.

Lemma drop_skip {A} (s : list A) i u v : drop i s = u ++ v -> drop (i + length u) s = v.
Proof. intros E. by rewrite <-drop_drop, E, drop_app_length. Qed.

Lemma den_glob_regex s p i :
  i <= length s -> den s (glob_regex p) i (length s) <-> glob p (drop i s).
Proof.
  revert i; induction p as [|c p IH]; intros i Hi.
  { cbn. split.
    - intros (m & [-> ->] & _). rewrite drop_all. constructor.
    - intros Hg. assert (drop i s = []) as E by (by inversion Hg). apply (f_equal length) in E.
      rewrite length_drop in E. simpl in E. exists i. split; [split; [lia|done]|lia]. }
  change (glob_regex (c :: p)) with
    (RCat (if decide (c = "*"%char) then RStar RDot
           else if decide (c = "?"%char) then RDot
           else if mem c glob_specials then RSet (esc_set c) else RChr c) (glob_regex p)).
  change (den s (RCat ?a ?b) i ?j) with (exists m, den s a i m /\ den s b m j).
  case_decide as Hs; [subst c|case_decide as Hw; [subst c|]].
  - setoid_rewrite den_star_set. split.
    + intros (m & (u & v & Hd & Hu & ->) & Hp).
      pose proof (f_equal length Hd) as Hl. rewrite length_drop, length_app in Hl.
      rewrite Hd. constructor; [done|]. rewrite IH in Hp by lia. by rewrite (drop_skip _ _ _ _ Hd) in Hp.
    + inversion 1 as [|u ? t Hu Hg E Hd| |]; [|by simplify_eq..]. subst.
      pose proof (f_equal length Hd) as Hl. rewrite length_drop, length_app in Hl.
      exists (i + length u). split; [by eauto 10|]. rewrite IH by lia. by rewrite (drop_skip s i u t).
  - setoid_rewrite den_set. split.
    + intros (m & (x & v & Hd & Hx & ->) & Hp). rewrite Hd.
      pose proof (f_equal length Hd) as Hl. rewrite length_drop in Hl. simpl in Hl.
      constructor; [done|]. rewrite IH in Hp by lia. by apply drop_cons in Hd as [_ ->].
    + inversion 1 as [| |x ? t Hx Hg E Hd|]; [|by simplify_eq]. subst. symmetry in Hd.
      pose proof (f_equal length Hd) as Hl. rewrite length_drop in Hl. simpl in Hl.
      exists (S i). split; [by eauto 10|]. rewrite IH by lia. by apply drop_cons in Hd as [_ <-].
  - assert (forall m, den s (if mem c glob_specials then RSet (esc_set c) else RChr c) i m
              <-> exists v, drop i s = c :: v /\ m = S i) as Hc.
    { intros m. rewrite <-den_chr. destruct (mem c glob_specials) eqn:E; [|done].
      by rewrite mem_special_class. }
    setoid_rewrite Hc. split.
    + intros (m & (v & Hd & ->) & Hp). rewrite Hd.
      pose proof (f_equal length Hd) as Hl. rewrite length_drop in Hl. simpl in Hl.
      constructor; [done..|]. rewrite IH in Hp by lia. by apply drop_cons in Hd as [_ ->].
    + inversion 1 as [| | |x ? t ? ? Hg E Hd]; [by simplify_eq..|]. subst. symmetry in Hd.
      pose proof (f_equal length Hd) as Hl. rewrite length_drop in Hl. simpl in Hl.
      exists (S i). split; [by eauto|]. rewrite IH by lia. by apply drop_cons in Hd as [_ <-].
Qed.

(** ** Command lines *)

(** the characters outside quotes *)
Fixpoint unquoted (inSingle inDouble : bool) (l : list ascii) : list ascii :=
  match l with
  | [] => []
  | c :: l =>
      if inSingle then unquoted (negb (bool_decide (c = "'"%char))) inDouble l
      else if inDouble then unquoted inSingle (negb (bool_decide (c = "034"%char))) l
      else if decide (c = "'"%char) then unquoted true inDouble l
      else if decide (c = "034"%char) then unquoted inSingle true l
      else c :: unquoted inSingle inDouble l
  end.

(** what the scanner lets through outside quotes: white space is tested first *)
Definition plain_char (c : ascii) : bool := isspace c || negb (mem c shell_specials).

Lemma tokenize_go_plain s d toks cur l :
  s && d = false -> tokenize_go s d toks cur l <> [] ->
  Forall (fun c => plain_char c = true) (unquoted s d l).
Proof.
  revert s d toks cur; induction l as [|c l IH]; intros s d toks cur Hsd Ht; [constructor|].
  cbn [unquoted tokenize_go] in *. destruct s; simpl in Hsd, Ht.
  { subst d. simpl in Ht. case_decide; case_bool_decide; try done; simpl; eauto. }
  destruct d; simpl in Ht.
  { case_decide; case_bool_decide; try done; simpl; eauto. }
  destruct (isspace c) eqn:Es.
  { case_decide as H1; [by subst c|]. case_decide as H2; [by subst c|].
    constructor; [by unfold plain_char; rewrite Es|eauto]. }
  case_decide; [eauto|]. case_decide; [eauto|].
  destruct (mem c shell_specials) eqn:Em; [done|].
  constructor; [unfold plain_char; rewrite Em; apply orb_true_r|eauto].
Qed.

(** A word has no white space, no quote and no special character. *)
Definition word_char (c : ascii) : bool :=
  negb (isspace c) && negb (bool_decide (c = "'"%char)) && negb (bool_decide (c = "034"%char))
  && negb (mem c shell_specials).

Lemma tokenize_go_word toks cur w l :
  Forall (fun c => word_char c = true) w ->
  tokenize_go false false toks cur (w ++ l) = tokenize_go false false toks (cur +:+ of_list w) l.
Proof.
  intros Hw. revert cur. induction Hw as [|c w Hc _ IH]; intros cur.
  { simpl. by rewrite sapp_nil_r. }
  unfold word_char in Hc. bsplit.
  repeat match goal with H : bool_decide _ = false |- _ => apply bool_decide_eq_false in H end.
  cbn [app tokenize_go negb andb].
  match goal with H : isspace c = false |- _ => rewrite H end. rewrite !decide_False by done.
  match goal with H : mem c _ = false |- _ => rewrite H end. rewrite IH. f_equal.
  apply to_list_inj. rewrite !to_list_app, !to_of_list. by rewrite <-app_assoc.
Qed.

Lemma tokenize_go_words toks ws :
  Forall (fun w => w <> [] /\ Forall (fun c => word_char c = true) w) ws ->
  tokenize_go false false toks "" (join " "%char ws) = toks ++ (of_list <$> ws).
Proof.
  intros Hws. revert toks. induction Hws as [|w ws [Hne Hw] Hws IH]; intros toks; simpl.
  { by rewrite app_nil_r. }
  destruct ws as [|w' ws].
  - rewrite <-(app_nil_r w) at 1. rewrite tokenize_go_word by done. simpl. unfold flushToken.
    by destruct w.
  - rewrite tokenize_go_word by done. cbn [tokenize_go negb andb]. simpl (isspace " "%char).
    cbn iota. rewrite IH. unfold flushToken. destruct w; [done|]. simpl.
    by rewrite <-app_assoc.
Qed.

(** ** The access token *)

Definition token_char (c : ascii) : bool := mem c (to_list characters).

Section token.
Context `{Platform}.

Definition random_ok : Prop := forall y, fst (sys_random (slen characters) y) < slen characters.

(** [n] more characters after [t], with the dot before position 47 *)
Lemma generateToken_loop_run n i t w :
  random_ok ->
  exists l w', generateToken_loop n i t w =
    (Ret (t +:+ of_list (if (i <=? 47) && (47 <? i + n)
                         then take (47 - i) l ++ "."%char :: drop (47 - i) l else l)), w')
    /\ length l = n /\ Forall (fun c => token_char c = true) l
    /\ exists y, w' = upd_sys (fun _ => y) w.
Proof.
  intros Hr. revert i t w. induction n as [|n IH]; intros i t w.
  { exists [], w. cbn [generateToken_loop]. rewrite Nat.add_0_r.
    replace ((i <=? 47) && (47 <? i)) with false.
    2:{ symmetry. apply andb_false_iff. destruct (Nat.leb_spec i 47); [right|left; done].
        apply Nat.ltb_ge. lia. }
    simpl. rewrite sapp_nil_r. split_and!; [done|done|constructor|]. exists (w_sys w). by destruct w. }
  cbn [generateToken_loop]. unfold sys_call. munfold.
  pose proof (Hr (w_sys w)) as Hd. destruct (sys_random (slen characters) (w_sys w)) as [d y].
  cbn [fst] in Hd. rewrite <-length_to_list in Hd. apply lookup_lt_is_Some in Hd as [c Hc].
  rewrite Hc.
  destruct (IH (S i) ((if i =? 47 then t +:+ "." else t) +:+ String c "") (upd_sys (fun _ => y) w))
    as (l & w' & E & Hl & Hf & y' & Hw').
  exists (c :: l), w'. rewrite E. split_and!.
  - f_equal. f_equal. apply to_list_inj. rewrite !to_list_app, !to_of_list.
    destruct (Nat.eqb_spec i 47) as [->|Hi].
    + simpl (_ <=? 47). cbn [andb].
      replace (47 <? 47 + S n) with true by (symmetry; apply Nat.ltb_lt; lia).
      rewrite to_list_app, Nat.sub_diag. simpl. by rewrite <-!app_assoc.
    + destruct (Nat.leb_spec (S i) 47).
      * rewrite (proj2 (Nat.leb_le i 47)) by lia. cbn [andb].
        replace (i + S n) with (S i + n) by lia. destruct (47 <? S i + n).
        -- replace (47 - i) with (S (47 - S i)) by lia. simpl. by rewrite <-!app_assoc.
        -- simpl. by rewrite <-!app_assoc.
      * rewrite (proj2 (Nat.leb_gt i 47)) by lia. simpl. by rewrite <-!app_assoc.
  - simpl. lia.
  - constructor; [|done]. apply mem_spec. by eapply list_elem_of_lookup_2.
  - exists y'. rewrite Hw'. by destruct w.
Qed.

Lemma generateToken_run w :
  random_ok ->
  exists a b w', generateToken w = (Ret (a +:+ "." +:+ b), w')
    /\ slen a = 47 /\ slen b = 49 /\ sforall token_char a = true /\ sforall token_char b = true
    /\ exists y, w' = upd_sys (fun _ => y) w.
Proof.
  intros Hr. destruct (generateToken_loop_run 96 0 "" w Hr) as (l & w' & E & Hl & Hf & Hw').
  exists (of_list (take 47 l)), (of_list (drop 47 l)), w'.
  change (if _ && _ then ?a else _) with a in E.
  split_and!; [|autorewrite with neu; rewrite ?Hl; done..| | |done].
  - unfold generateToken. rewrite E. f_equal. f_equal. apply to_list_inj.
    by rewrite !to_list_app, !to_of_list.
  - rewrite sforall_spec, to_of_list. by apply Forall_take.
  - rewrite sforall_spec, to_of_list. by apply Forall_drop.
Qed.
End token.

(** ** URL decoding *)

Definition hex_digit (n : N) : ascii := if N.ltb n 10 then chr (n + 48) else chr (n + 55).
Definition unreserved (c : ascii) : bool :=
  isalnum c || mem c ["-"; "_"; "."; "~"; "/"]%char.

(** percent encoding *)
Definition urlencode_char (c : ascii) : list ascii :=
  if unreserved c then [c]
  else ["%"%char; hex_digit (N.div (code c) 16); hex_digit (N.modulo (code c) 16)].
Definition urlencode (l : list ascii) : list ascii := l ≫= urlencode_char.

Lemma urldecode_char c l : urldecode (urlencode_char c ++ l) = c :: urldecode l.
Proof.
  destruct c as [[] [] [] [] [] [] [] []]; try done; simpl; by destruct l as [|? [|? ?]].
Qed.

Lemma urldecode_length_le n l : length l <= n -> length (urldecode l) <= length l.
Proof.
  revert l; induction n as [|n IH]; intros [|c l] Hl; simpl in *; [lia..|].
  pose proof (IH l ltac:(lia)). destruct l as [|a [|b l]]; simpl in *; [lia..|].
  pose proof (IH l ltac:(lia)). destruct (_ && _ && _); simpl in *; lia.
Qed.

(** ** The properties *)

(** C38: a pattern of the command allow list matches a program exactly when the
    program is in the glob language of the pattern: [*] any run and [?] any one
    of the characters that are no line terminators, everything else literal. *)
Theorem globalMatch_glob (value pattern : string) :
  globalMatch value pattern = true <-> glob (to_list pattern) (to_list value).
Proof.
  unfold globalMatch. rewrite (regex_match_true _ _ _ (parse_glob pattern)).
  change (den ?s (RCat ?a ?b) 0 ?j) with (exists m, den s a 0 m /\ den s b m j). split.
  - intros (m & [_ ->] & Hd). rewrite <-length_to_list in Hd.
    apply den_glob_regex in Hd; [done|lia].
  - intros Hg. exists 0. split; [done|]. rewrite <-length_to_list.
    apply den_glob_regex; [lia|done].
Qed.

(** Words without quotes, white space and special characters, separated by
    single spaces, are the tokens of the command line that they make up. *)
Theorem tokenizeCommand_words (ws : list (list ascii))
    (Hws : Forall (fun w => w <> [] /\ Forall (fun c => word_char c = true) w) ws) :
  tokenizeCommand (of_list (join " "%char ws)) = of_list <$> ws.
Proof. unfold tokenizeCommand. rewrite to_of_list. by apply (tokenize_go_words []). Qed.

Lemma tokenizeCommand_words_witness :
  tokenizeCommand "ls -la dir" = ["ls"; "-la"; "dir"].
Proof.
  apply (tokenizeCommand_words [to_list "ls"; to_list "-la"; to_list "dir"]).
  repeat constructor; done.
Defined.

(** [split] returns the parts that were joined with the delimiter, when no
    part has the delimiter in it and the last one is not empty. *)
Theorem split_join (delim : ascii) (parts : list (list ascii))
    (Hp : Forall (Forall (fun c => c <> delim)) parts) (Hl : last parts <> Some []) :
  split (of_list (join delim parts)) delim = of_list <$> parts.
Proof. unfold split, split_n. rewrite to_of_list. by apply split_go_join. Qed.

Lemma split_join_witness : split "a//b.txt" "/"%char = ["a"; ""; "b.txt"].
Proof.
  apply (split_join "/"%char [["a"%char]; []; to_list "b.txt"]); [|done].
  repeat constructor; done.
Defined.

(** Decoding inverts percent encoding, and never writes more characters
    than the encoded string has, so the buffer of [strlen + 1] bytes is enough. *)
Theorem urldecode_encode :
  (forall l, urldecode (urlencode l) = l) /\ (forall l, length (urldecode l) <= length l).
Proof.
  split; [|intros l; by eapply urldecode_length_le].
  induction l as [|c l IH]; [done|].
  change (urlencode (c :: l)) with (urlencode_char c ++ urlencode l).
  by rewrite urldecode_char, IH.
Qed.
