(* ===== verification/OptionsFacts.v ===== *)
(** * Facts about the options object

    Lookups insert [null] members.  [opt_equiv] relates options objects in which
    every option and every mode's option has the same value; [weq] relates states
    that differ in this way only.  Both are equivalences, lookups respect them,
    and a lookup on well-formed options ([opts_ok]) leads to a related state. *)

From S2P Require Import Prelude Strings Regex OMap Outcome Json Errors State MemPlatform Helpers Options.
From Stdlib Require Import Ascii.
Import helpers settings.

Definition obj_or_null (j : json) : Prop :=
  match j with JNull | JObj _ => True | _ => False end.

#[export] Instance obj_or_null_dec j : Decision (obj_or_null j).
Proof. destruct j; simpl; apply _. Defined.

Record opt_equiv (o o' : json) : Prop := {
  oe_top k : k <> "modes" -> jget o k = jget o' k;
  oe_mode m k : jget_path ["modes"; m; k] o = jget_path ["modes"; m; k] o';
  oe_obj : obj_or_null o <-> obj_or_null o';
  oe_modes : obj_or_null (jget o "modes") <-> obj_or_null (jget o' "modes");
  oe_mode_obj m : obj_or_null (jget_path ["modes"; m] o) <-> obj_or_null (jget_path ["modes"; m] o')
}.

#[export] Instance opt_equiv_equiv : Equivalence opt_equiv.
Proof.
  split.
  - by split.
  - intros o o' [H1 H2 H3 H4 H5]; split; intros.
    + by rewrite H1.
    + by rewrite H2.
    + by rewrite H3.
    + by rewrite H4.
    + by rewrite H5.
  - intros o1 o2 o3 [H1 H2 H3 H4 H5] [G1 G2 G3 G4 G5]; split; intros.
    + by rewrite H1, G1.
    + by rewrite H2, G2.
    + by rewrite H3, G3.
    + by rewrite H4, G4.
    + by rewrite H5, G5.
Qed.

(** The options a mode is read from have the shape that the code expects. *)
Record opts_ok (o : json) : Prop := {
  ok_obj : obj_or_null o;
  ok_modes : obj_or_null (jget o "modes");
  ok_mode m : obj_or_null (jget_path ["modes"; appModeToStr m] o);
  ok_default : jget o "defaultMode" = JNull \/ exists s, jget o "defaultMode" = JStr s
}.

#[export] Instance opts_ok_proper : Proper (opt_equiv ==> iff) opts_ok.
Proof.
  intros o o' E. split; intros [H1 H2 H3 H4]; destruct E as [Et Em Eo Ems Emo]; split;
    try by apply Eo. all: try by apply Ems. all: try (intros m; by apply Emo).
  - by rewrite <-(Et "defaultMode").
  - by rewrite (Et "defaultMode").
Qed.

(** ** The lookups as functions *)

Definition pure_mode (o : json) : AppMode :=
  match jget o "defaultMode" with JStr s => mode_of_string s | _ => AppModeWindow end.
Definition pure_option (key : string) (o : json) : json :=
  let v := jget_path ["modes"; appModeToStr (pure_mode o); key] o in
  if is_null v then jget o key else v.

#[export] Instance pure_mode_proper : Proper (opt_equiv ==> eq) pure_mode.
Proof. intros o o' E. unfold pure_mode. by rewrite (oe_top _ _ E "defaultMode"). Qed.

Lemma pure_option_equiv key o o' :
  key <> "modes" -> opt_equiv o o' -> pure_option key o = pure_option key o'.
Proof.
  intros Hk E. unfold pure_option. rewrite (pure_mode_proper _ _ E).
  by rewrite (oe_mode _ _ E), (oe_top _ _ E key).
Qed.

(** ** [jref] *)

Lemma jref_spec o k f v :
  obj_or_null o -> f (jget o k) = Ret v ->
  exists o', jref o k f = Ret o' /\ obj_or_null o' /\ jget o' k = v /\
             forall k', k' <> k -> jget o' k' = jget o k'.
Proof.
  destruct o; simpl; try done; intros _ Hf.
  - rewrite Hf. eexists; split_and!; [done..| |]; simpl.
    + by rewrite decide_True.
    + intros k' Hk. by rewrite decide_False.
  - rewrite Hf. eexists; split_and!; [done..| |]; simpl.
    + by rewrite omap_get_set_eq.
    + intros k' Hk. by rewrite omap_get_set_ne.
Qed.

Lemma jref_read o k :
  obj_or_null o ->
  exists o', jref o k Ret = Ret o' /\ obj_or_null o' /\ forall k', jget o' k' = jget o k'.
Proof.
  intros Ho. destruct (jref_spec o k Ret _ Ho eq_refl) as (o' & E & Ho' & Hk & Hne).
  exists o'. split_and!; [done..|]. intros k'. destruct (decide (k' = k)) as [->|]; auto.
Qed.

Lemma jref_path_top o k :
  obj_or_null o ->
  exists o', jref_path [k] o = Ret o' /\ opt_equiv o o' /\ jget_path [k] o' = jget o k.
Proof.
  intros Ho. destruct (jref_read o k Ho) as (o' & E & Ho' & Hk). exists o'. split; [done|].
  split; [|apply Hk]. split; simpl; intros; try by rewrite Hk.
  by split.
Qed.

Lemma jref_path_mode o m k :
  obj_or_null o -> obj_or_null (jget o "modes") -> obj_or_null (jget_path ["modes"; m] o) ->
  exists o', jref_path ["modes"; m; k] o = Ret o' /\ opt_equiv o o' /\
             jget_path ["modes"; m; k] o' = jget_path ["modes"; m; k] o.
Proof.
  intros Ho Hms Hm. simpl in Hm.
  destruct (jref_read _ k Hm) as (b & Eb & Hb & Hbk).
  destruct (jref_spec (jget o "modes") m (jref_path [k]) b Hms) as (a & Ea & Ha & Ham & Hane).
  { exact Eb. }
  destruct (jref_spec o "modes" (jref_path [m; k]) a Ho) as (o' & Eo & Ho' & Hom & Hone).
  { exact Ea. }
  exists o'. split; [exact Eo|].
  assert (forall m' k', jget_path ["modes"; m'; k'] o' = jget_path ["modes"; m'; k'] o) as Hlk.
  { intros m' k'. simpl. rewrite Hom. destruct (decide (m' = m)) as [->|Hne].
    - rewrite Ham. apply Hbk.
    - by rewrite Hane. }
  split; [|apply Hlk]. split.
  - intros k' Hk'. symmetry. by apply Hone.
  - intros. symmetry. apply Hlk.
  - by split.
  - by rewrite Hom; split.
  - intros m'. simpl. rewrite Hom. destruct (decide (m' = m)) as [->|Hne].
    + rewrite Ham. by split.
    + by rewrite Hane.
Qed.

(** ** States *)

Section weq.
Context `{Platform}.

Definition opts (w : World) : json := options (w_settings w).
Definition with_opts (o : json) (w : World) : World := upd_settings (upd_options (fun _ => o)) w.
Definition weq (w w' : World) : Prop := opt_equiv (opts w) (opts w') /\ w' = with_opts (opts w') w.

Lemma with_opts_opts w : with_opts (opts w) w = w.
Proof. by destruct w as [[] ? ? ? ? ? ? ? ? ? ? ? ?]. Qed.

#[export] Instance weq_equiv : Equivalence weq.
Proof.
  split.
  - intros w. split; [done|]. by rewrite with_opts_opts.
  - intros w w' [E Ew]. split; [done|]. rewrite Ew. unfold with_opts at 2.
    change (w = with_opts (opts w) w). by rewrite with_opts_opts.
  - intros w1 w2 w3 [E1 Ew1] [E2 Ew2]. split; [by etrans|]. by rewrite Ew2, Ew1.
Qed.

Lemma weq_with_opts o w : opt_equiv (opts w) o -> weq w (with_opts o w).
Proof. by split. Qed.

Lemma weq_ok w w' : weq w w' -> opts_ok (opts w) -> opts_ok (opts w').
Proof. intros [E _]. by rewrite E. Qed.

Lemma weq_proj w w' : weq w w' ->
  w_resources w' = w_resources w /\ w_auth w' = w_auth w /\ w_perm w' = w_perm w /\
  w_mounts w' = w_mounts w /\ w_server w' = w_server w /\ w_fs w' = w_fs w /\ w_os w' = w_os w /\
  w_ext w' = w_ext w /\ w_window w' = w_window w /\ w_storagePath w' = w_storagePath w /\
  w_log w' = w_log w /\ w_sys w' = w_sys w.
Proof. intros [_ ->]. by destruct w. Qed.

(** a call that returns [a] and changes at most the [null] members *)
Definition reads {A} (m : M A) (w : World) (a : A) : Prop :=
  exists w', m w = (Ret a, w') /\ weq w w'.

Lemma reads_ret {A} (a : A) w : reads (mret a) w a.
Proof. by exists w. Qed.

Lemma reads_gets {A} (f : World -> A) w : reads (gets f) w (f w).
Proof. by exists w. Qed.

Lemma reads_lift {A} (a : A) w : reads (lift (Ret a)) w a.
Proof. by exists w. Qed.

Lemma reads_bind {A B} (m : M A) (f : A -> M B) w a b :
  reads m w a -> (forall w', weq w w' -> reads (f a) w' b) -> reads (m ≫= f) w b.
Proof.
  intros (w1 & E1 & Hw1) Hf. destruct (Hf w1 Hw1) as (w2 & E2 & Hw2).
  exists w2. split; [|by etrans]. by rewrite (M_bind_Ret _ _ _ _ _ E1).
Qed.

Lemma read_options_top w k :
  opts_ok (opts w) -> reads (read_options [k]) w (jget (opts w) k).
Proof.
  intros [Ho _ _ _]. destruct (jref_path_top (opts w) k Ho) as (o' & E & He & Hk).
  exists (with_opts o' w). split; [|by apply weq_with_opts].
  unfold read_options, get_options, set_options. munfold. fold (opts w). rewrite E. by rewrite Hk.
Qed.

Lemma read_options_mode w m k :
  opts_ok (opts w) ->
  reads (read_options ["modes"; appModeToStr m; k]) w (jget_path ["modes"; appModeToStr m; k] (opts w)).
Proof.
  intros [Ho Hms Hm _].
  destruct (jref_path_mode (opts w) (appModeToStr m) k Ho Hms (Hm m)) as (o' & E & He & Hk).
  exists (with_opts o' w). split; [|by apply weq_with_opts].
  unfold read_options, get_options, set_options. munfold. fold (opts w). rewrite E. by rewrite Hk.
Qed.

Lemma getMode_reads w : opts_ok (opts w) -> reads getMode w (pure_mode (opts w)).
Proof.
  intros Hok. unfold getMode. eapply reads_bind; [by apply read_options_top|].
  intros w1 Hw1. unfold pure_mode. destruct (ok_default _ Hok) as [Hn|[s Hs]].
  - rewrite Hn. simpl. eapply reads_bind; [apply reads_ret|]. intros w2 _. apply reads_ret.
  - rewrite Hs. simpl. eapply reads_bind; [|intros w2 _; apply reads_ret].
    eapply reads_bind; [apply read_options_top; by eapply weq_ok|].
    intros w2 Hw2. rewrite <-(oe_top _ _ (proj1 Hw1) "defaultMode"), Hs by done. apply reads_lift.
Qed.

Lemma getOption_reads w key :
  opts_ok (opts w) -> key <> "modes" ->
  reads (getOptionForCurrentMode key) w (pure_option key (opts w)).
Proof.
  intros Hok Hk. unfold getOptionForCurrentMode.
  eapply reads_bind; [by apply getMode_reads|]. intros w1 Hw1.
  pose proof (weq_ok _ _ Hw1 Hok) as Hok1.
  eapply reads_bind; [by apply read_options_mode|]. intros w2 Hw2. unfold pure_option.
  rewrite (oe_mode _ _ (proj1 Hw1)). destruct (is_null _); [|apply reads_ret].
  rewrite (oe_top _ _ (proj1 Hw1)), (oe_top _ _ (proj1 Hw2)) by done.
  apply read_options_top. by eapply weq_ok.
Qed.
End weq.

#[export] Hint Resolve reads_ret reads_gets reads_lift : neu.

(** ** Calls that end and keep the options *)

Section keeps.
Context `{Platform}.

(** [m] does not run out of fuel on [w], and every option keeps its value *)
Definition keeps {A} (m : M A) (w : World) : Prop :=
  fst (m w) <> NoFuel /\ opt_equiv (opts w) (opts (snd (m w))).

Lemma keeps_ret {A} (a : A) w : keeps (mret a) w.
Proof. by split. Qed.

Lemma keeps_gets {A} (f : World -> A) w : keeps (gets f) w.
Proof. by split. Qed.

Lemma keeps_sys_get {A} (f : sys -> A) w : keeps (sys_get f) w.
Proof. by split. Qed.

Lemma keeps_lift {A} (o : outcome A) w : o <> NoFuel -> keeps (lift o) w.
Proof. by split. Qed.

Lemma keeps_modify (f : World -> World) w : opts (f w) = opts w -> keeps (modify f) w.
Proof. intros E. split; [done|]. simpl. by rewrite E. Qed.

Lemma keeps_reads {A} (m : M A) w a : reads m w a -> keeps m w.
Proof. intros (w' & E & Hw). unfold keeps. rewrite E. split; [done|apply Hw]. Qed.

Lemma keeps_bind {A B} (m : M A) (f : A -> M B) w :
  keeps m w -> (forall a w', m w = (Ret a, w') -> opt_equiv (opts w) (opts w') -> keeps (f a) w') ->
  keeps (m ≫= f) w.
Proof.
  intros [Hn Ho] Hf. unfold keeps, mbind, M_bind.
  destruct (m w) as [[a|e|s| |] w'] eqn:E; simpl in *; try by split.
  destruct (Hf a w' eq_refl Ho) as [Hn' Ho']. split; [done|by etrans].
Qed.

Lemma keeps_getMode w : opts_ok (opts w) -> keeps getMode w.
Proof. intros Hok. eapply keeps_reads. by apply getMode_reads. Qed.

Lemma keeps_getOption w key :
  opts_ok (opts w) -> key <> "modes" -> keeps (getOptionForCurrentMode key) w.
Proof. intros Hok Hk. eapply keeps_reads. by apply getOption_reads. Qed.

Lemma keeps_log type message w : keeps (log type message) w.
Proof. by apply keeps_modify. Qed.
End keeps.

#[export] Hint Resolve keeps_ret keeps_gets keeps_sys_get keeps_getMode keeps_getOption keeps_log : neu.

(** Walk through a call, keeping the options well-formed on the way. *)
Ltac keeps_step :=
  lazymatch goal with
  | |- keeps (_ ≫= _) _ =>
      apply keeps_bind;
      [|let a := fresh "a" in let w := fresh "w" in let Ho := fresh "Ho" in
        intros a w _ Ho;
        try match goal with Hok : opts_ok (opts _) |- _ => rewrite Ho in Hok end]
  | |- keeps (match ?x with _ => _ end) _ => destruct x
  | |- keeps (lift _) _ => apply keeps_lift
  | |- keeps _ _ => solve [auto with neu]
  end.
