(* ===== verification/TrashFacts.v ===== *)
(** * Facts about lib/trashcan/trashcan.c

    A file that is trashed has a record that was created for it alone, before it was
    moved, and that names its path; a deletion that fails leaves the file; the loop
    ends.  Names that are too long for the deletion time cannot be trashed. *)

From S2P Require Import Prelude Strings OMap Outcome Json Errors NumFacts State Triple MemPlatform Trash.
From Stdlib Require Import Ascii.
Import trashcan.

(** ** The path in the record *)

Definition unhex (c : ascii) : option N :=
  if isdigit c then Some (code c - 48)%N
  else if in_range "A" "F" c then Some (code c - 55)%N else None.

(** what a reader of the record makes of the escapes *)
Fixpoint unescape (s : string) : string :=
  match s with
  | EmptyString => EmptyString
  | String c r =>
      let keep := String c (unescape r) in
      if decide (c = "%"%char) then
        match r with
        | String h (String l s) =>
            match unhex h, unhex l with
            | Some h, Some l => String (ascii_of_N (16 * h + l)) (unescape s)
            | _, _ => keep
            end
        | _ => keep
        end
      else keep
  end.

Definition check_hex (c : ascii) : bool :=
  if is_unreserved c || bool_decide (c = "/"%char) then negb (bool_decide (c = "%"%char))
  else match to_list (hex_byte c) with
       | [h; l] =>
           bool_decide (unhex h = Some (code c / 16)%N) && bool_decide (unhex l = Some (code c mod 16)%N) &&
           isxdigit h && isxdigit l
       | _ => false
       end.

Lemma check_hex_spec c : check_hex c = true.
Proof. apply (all_chars_spec check_hex). by vm_compute. Qed.

Lemma unescape_plain c s : c <> "%"%char -> unescape (String c s) = String c (unescape s).
Proof. intros Hc. cbn [unescape]. by rewrite decide_False. Qed.

Lemma unescape_hex h l vh vl s : unhex h = Some vh -> unhex l = Some vl ->
  unescape (String "%" (String h (String l s))) = String (ascii_of_N (16 * vh + vl)) (unescape s).
Proof. intros Hh Hl. cbn [unescape]. by rewrite decide_True, Hh, Hl. Qed.

Lemma unescape_escape s : unescape (escape_path s) = s.
Proof.
  induction s as [|c s IH]; [done|]. cbn [escape_path]. pose proof (check_hex_spec c) as Hc.
  unfold check_hex in Hc. destruct (_ || _).
  - apply negb_true_iff, bool_decide_eq_false in Hc.
    change (String c EmptyString +:+ escape_path s) with (String c (escape_path s)).
    by rewrite unescape_plain, IH.
  - assert (("%" +:+ hex_byte c) +:+ escape_path s =
      String "%" (String (hex_digit true (code c / 16))
        (String (hex_digit true (code c mod 16)) (escape_path s)))) as -> by reflexivity.
    unfold hex_byte in Hc. cbn [of_list to_list] in Hc. rewrite !andb_true_iff, !bool_decide_eq_true in Hc.
    destruct Hc as [[[Hh Hl] _] _].
    rewrite (unescape_hex _ _ _ _ _ Hh Hl), IH, <-N.div_mod by done.
    f_equal. apply (ascii_N_embedding c).
Qed.

(** the characters of an escaped path *)
Definition uri_char (c : ascii) : bool := is_unreserved c || mem c ["/"; "%"]%char.

Lemma escape_path_chars s : sforall uri_char (escape_path s) = true.
Proof.
  assert (forall c, isxdigit c = true -> uri_char c = true) as Hx.
  { intros c Hc. destruct c as [[] [] [] [] [] [] [] []]; vm_compute in Hc |- *; done. }
  induction s as [|c s IH]; [done|]. cbn [escape_path]. rewrite sforall_app, IH, andb_true_r.
  pose proof (check_hex_spec c) as Hc. unfold check_hex in Hc.
  destruct (is_unreserved c) eqn:E; [simpl; unfold uri_char; by rewrite E|].
  destruct (bool_decide (c = "/"%char)) eqn:E1; cbn [orb] in *.
  - apply bool_decide_eq_true in E1 as ->. done.
  - unfold hex_byte in *. cbn [of_list to_list] in *. rewrite !andb_true_iff in Hc. destruct Hc as [[_ H1] H2].
    simpl. by rewrite (Hx _ H1), (Hx _ H2).
Qed.

(** ** What the calls change *)

Section changes.
Context `{Platform} (R : relation World) `{!PreOrder R}.
Hypothesis Hmkdir : forall p m, frames R (sys_call (px_mkdir p m)).
Hypothesis Hwx : forall p, frames R (sys_call (px_fopen_wx p)).
Hypothesis Hfwrite : forall p d, frames R (sys_call (px_fwrite p d)).
Hypothesis Hrandom : forall n, frames R (sys_call (px_getrandom n)).
#[local] Hint Resolve Hmkdir Hwx Hfwrite Hrandom : frame.

Lemma frames_find_mount device ms : frames R (find_mount device ms).
Proof. induction ms as [|m ms IH]; cbn [find_mount]; frame_go. Qed.
Lemma frames_mkdirs ps mode : frames R (mkdirs ps mode).
Proof. induction ps as [|p ps IH]; cbn [mkdirs]; frame_go. Qed.
Lemma frames_add_entries f b es z :
  (forall b z, frames R (f b z)) -> frames R (add_entries f b es z).
Proof.
  intros Hf. revert z. induction es as [|[n d] es IH]; intros z; cbn [add_entries]; frame_go; apply Hf.
Qed.
Lemma frames_get_dir_size fuel : forall b z, frames R (get_dir_size fuel b z).
Proof.
  induction fuel as [|fuel IH]; intros b z; cbn [get_dir_size]; frame_go; by apply frames_add_entries.
Qed.
#[local] Hint Resolve frames_get_dir_size frames_find_mount frames_mkdirs : frame.
Lemma frames_write_sizes d t es : frames R (write_sizes d t es).
Proof. induction es as [|[n b] es IH]; cbn [write_sizes]; frame_go. Qed.
#[local] Hint Resolve frames_write_sizes : frame.
Lemma frames_choose_trash h r d : frames R (choose_trash h r d).
Proof. frame_go. Qed.
Lemma frames_generate_filenames n d t c b : frames R (generate_filenames n d t c b).
Proof. frame_go. Qed.
Lemma frames_create_info_file f r t : frames R (create_info_file f r t).
Proof. frame_go. Qed.
#[local] Hint Resolve frames_choose_trash frames_generate_filenames frames_create_info_file : frame.

Lemma frames_until {A B} (step : A -> M (A + B)) n a :
  (forall a, frames R (step a)) -> frames R (until step n a).
Proof.
  intros Hs. revert a. induction n as [n IH|n IH|]; intros a; cbn [until]; [| |apply Hs];
    unfold then_until; frame_go; apply Hs.
Qed.

Hypothesis Hfopen : forall p, frames R (sys_call (px_fopen_w p)).
Hypothesis Hremove : forall p, frames R (sys_call (px_remove p)).
Hypothesis Hrename : forall a b, frames R (sys_call (px_rename a b)).
#[local] Hint Resolve Hfopen Hremove Hrename : frame.

Lemma frames_delete_turn r n d t s : frames R (delete_turn r n d t s).
Proof. destruct s. frame_go. Qed.
#[local] Hint Resolve frames_delete_turn : frame.
Lemma frames_delete_loop r n d t : frames R (delete_loop r n d t).
Proof.
  unfold delete_loop. eapply triple_bind; [apply _|apply frames_until; auto with frame|].
  intros [] _; frame_go.
Qed.
#[local] Hint Resolve frames_delete_loop : frame.
Lemma frames_soft_delete p : frames R (trashcan_soft_delete p).
Proof. frame_go. Qed.
End changes.

(** ** The loop *)

Section loop.
Context `{Platform}.

Lemma then_until_inl {A B} (m : M (A + B)) k b w w2 :
  then_until m k w = (Ret (inl b), w2) -> exists a w1, m w = (Ret (inl a), w1) /\ k a w1 = (Ret (inl b), w2).
Proof.
  unfold then_until. intros (r & w1 & Hm & Hk)%M_bind_inv. destruct r as [a|]; [eauto|by injection Hk].
Qed.

Section turns.
Context {A B : Type} (step : A -> M (A + B)) (next : A -> A) (ok : A -> Prop).
Hypothesis Hstep : forall a w a1 w1, step a w = (Ret (inl a1), w1) -> ok a /\ a1 = next a.

(** [k] turns lead from [a] to [a'] *)
Definition turns (k : nat) (a a' : A) : Prop :=
  a' = Nat.iter k next a /\ forall i, i < k -> ok (Nat.iter i next a).

Lemma turns_add k j a b c : turns k a b -> turns j b c -> turns (k + j) a c.
Proof.
  intros [-> Hk] [-> Hj]. split; [by rewrite (Nat.add_comm k), Nat.iter_add|].
  intros i Hi. destruct (decide (i < k)) as [|Hge]; [by apply Hk|].
  specialize (Hj (i - k) ltac:(lia)). rewrite <-Nat.iter_add in Hj. by replace (i - k + k) with i in Hj by lia.
Qed.

Lemma until_turns n : forall a w a' w', until step n a w = (Ret (inl a'), w') -> turns (Pos.to_nat n) a a'.
Proof.
  assert (forall a w a' w', step a w = (Ret (inl a'), w') -> turns 1 a a') as H1.
  { intros a w a' w' [Hok ->]%Hstep. split; [done|]. intros i Hi. by assert (i = 0) as -> by lia. }
  induction n as [n IH|n IH|]; intros a w a' w' E; cbn [until] in E.
  - apply then_until_inl in E as (b & w1 & (c & w2 & E1 & E2)%then_until_inl & E3).
    replace (Pos.to_nat n~1) with (1 + Pos.to_nat n + Pos.to_nat n) by lia.
    exact (turns_add _ _ _ _ _ (turns_add _ _ _ _ _ (H1 _ _ _ _ E1) (IH _ _ _ _ E2)) (IH _ _ _ _ E3)).
  - apply then_until_inl in E as (b & w1 & E1 & E2).
    replace (Pos.to_nat n~0) with (Pos.to_nat n + Pos.to_nat n) by lia.
    exact (turns_add _ _ _ _ _ (IH _ _ _ _ E1) (IH _ _ _ _ E2)).
  - replace (Pos.to_nat 1) with 1 by lia. eauto.
Qed.
End turns.

Definition next_turn (s : Z * bool) : Z * bool :=
  (wrapU 32 (s.1 + 1), bool_decide (wrapU 32 (s.1 + 1) = 0%Z)).

Lemma delete_turn_next r n d t s w s' w' :
  delete_turn r n d t s w = (Ret (inl s'), w') -> s.2 = false /\ s' = next_turn s.
Proof.
  destruct s as [c b]. cbn [delete_turn]. intros (names & w1 & _ & E)%M_bind_inv.
  destruct names as [[i f]|]; [|by injection E]. apply M_bind_inv in E as ([| |] & w2 & _ & E).
  - apply M_bind_inv in E as (renamed & w3 & _ & E).
    destruct renamed; by apply M_bind_inv in E as (ok & w4 & _ & [= ]).
  - destruct b; [by injection E|]. injection E as <- <-. done.
  - by injection E.
Qed.

Lemma iter_next k : 0 < k -> (Z.of_nat k <= 2 ^ 32)%Z ->
  Nat.iter k next_turn (0%Z, false) = (wrapU 32 (Z.of_nat k), bool_decide (wrapU 32 (Z.of_nat k) = 0%Z)).
Proof.
  induction k as [|k IH]; intros Hk Hle; [lia|]. cbn [Nat.iter nat_rect].
  destruct k as [|k]; [done|]. change (nat_rect _ _ _ (S k)) with (Nat.iter (S k) next_turn (0%Z, false)).
  rewrite IH by lia. unfold next_turn. cbn [fst].
  rewrite (wrapU_small 32 (Z.of_nat (S k))) by lia.
  by replace (Z.of_nat (S k) + 1)%Z with (Z.of_nat (S (S k))) by lia.
Qed.

Lemma delete_until_ends r n d t w s w' :
  until (delete_turn r n d t) 4294967297 (0%Z, false) w <> (Ret (inl s), w').
Proof.
  intros E. apply (until_turns _ next_turn (fun s => s.2 = false) (delete_turn_next r n d t)) in E as [_ Hok].
  specialize (Hok (Z.to_nat (2 ^ 32)) ltac:(lia)).
  rewrite iter_next in Hok by lia. rewrite Z2Nat.id in Hok by lia. done.
Qed.
End loop.

(** ** The record of a trashed file *)

Definition record_head : string := "[Trash Info]" +:+ newline +:+ "Path=".
Fixpoint line (s : string) : string :=
  match s with
  | EmptyString => EmptyString
  | String c s => if decide (c = "010"%char) then EmptyString else String c (line s)
  end.
(** the path that a record names *)
Definition record_path (s : string) : option string :=
  if starts_with record_head s then Some (unescape (line (sdrop (slen record_head) s))) else None.

Lemma line_app s t : sforall uri_char s = true -> line (s +:+ newline +:+ t) = s.
Proof.
  induction s as [|c s IH]; [done|]. cbn [sforall]. intros [Hc Hs]%andb_true_iff.
  change (String c s +:+ newline +:+ t) with (String c (s +:+ newline +:+ t)). cbn [line].
  rewrite decide_False by (intros ->; by vm_compute in Hc). by rewrite IH.
Qed.

Lemma record_path_trashinfo p ts : record_path (trashinfo p ts) = Some p.
Proof.
  unfold record_path. assert (trashinfo p ts = record_head +:+ escape_path p +:+ newline +:+
    ("DeletionDate=" +:+ ts +:+ newline)) as -> by (unfold trashinfo, record_head; by rewrite <-!sapp_assoc).
  rewrite starts_with_app, sdrop_app, line_app by apply escape_path_chars. by rewrite unescape_escape.
Qed.

Section deletion.
Context `{Platform}.

Lemma sys_call_inv {A} (f : sys -> A * sys) w a w' :
  sys_call f w = (Ret a, w') -> f (w_sys w) = (a, w_sys w').
Proof. unfold sys_call. destruct (f (w_sys w)) as [b y] eqn:E. by intros [= <- <-]. Qed.

Lemma sys_get_inv {A} (f : sys -> A) w a w' : sys_get f w = (Ret a, w') -> a = f (w_sys w) /\ w' = w.
Proof. by intros [= <- <-]. Qed.

Lemma lift_inv {A} (o : outcome A) w a w' : lift o w = (Ret a, w') -> o = Ret a /\ w' = w.
Proof. by intros [= -> <-]. Qed.

Lemma until_inr {A B} (step : A -> M (A + B)) n : forall a w b w', until step n a w = (Ret (inr b), w') ->
  exists a1 w1, step a1 w1 = (Ret (inr b), w').
Proof.
  assert (forall (m : M (A + B)) k w b w', then_until m k w = (Ret (inr b), w') ->
    m w = (Ret (inr b), w') \/ exists a w1, k a w1 = (Ret (inr b), w')) as Hu.
  { intros m k w b w' E. unfold then_until in E. apply M_bind_inv in E as (r & w1 & Hm & E).
    destruct r as [a|b']; [by right; exists a, w1|]. injection E as -> ->. by left. }
  induction n as [n IH|n IH|]; intros a w b w' E; cbn [until] in E.
  - apply Hu in E as [E|(a1 & w1 & E)]; [|by apply IH in E].
    apply Hu in E as [E|(a1 & w1 & E)]; [by exists a, w|by apply IH in E].
  - apply Hu in E as [E|(a1 & w1 & E)]; by apply IH in E.
  - by exists a, w.
Qed.

Lemma until_first {A B} (step : A -> M (A + B)) n a w b w' :
  step a w = (Ret (inr b), w') -> until step n a w = (Ret (inr b), w').
Proof.
  intros E. induction n as [n IH|n IH|]; cbn [until]; unfold then_until; [|by rewrite (M_bind_Ret _ _ _ _ _ IH)|done].
  rewrite (M_bind_Ret _ _ _ (inr b) w'); [done|]. by rewrite (M_bind_Ret _ _ _ _ _ E).
Qed.

(** the two names differ in their directory and the suffix *)
Definition info_name (d : trash_dirs) (name : string) : string :=
  trash_info_dir d +:+ "/" +:+ name +:+ ".trashinfo".
Definition file_name (d : trash_dirs) (name : string) : string := trash_files_dir d +:+ "/" +:+ name.

Lemma generate_filenames_names n d t c b w i f w' :
  generate_filenames n d t c b w = (Ret (Some (i, f)), w') -> exists name, i = info_name d name /\ f = file_name d name.
Proof.
  unfold generate_filenames. intros (ts & w1 & _ & (nm & w2 & _ & E)%M_bind_inv)%M_bind_inv.
  destruct nm as [limit|]; [|by injection E]. destruct (_ && _).
  - injection E as <- <- _. by eexists.
  - apply M_bind_inv in E as ([name|] & w3 & _ & E); [|by injection E]. injection E as <- <- _. by eexists.
Qed.

Lemma create_info_file_done i r t w w' : create_info_file i r t w = (Ret InfoDone, w') ->
  exists ts y, timestamp t = Ret ts /\ px_fopen_wx i (w_sys w) = (Created, y) /\
    px_fwrite i (trashinfo r ts) y = (true, w_sys w').
Proof.
  unfold create_info_file. intros (ts & w1 & [Hts ->]%lift_inv & (res & w2 & Hx & E)%M_bind_inv)%M_bind_inv.
  apply sys_call_inv in Hx. destruct res; [|by injection E..].
  apply M_bind_inv in E as (ok & w3 & Hf%sys_call_inv & E). destruct ok; [|by injection E].
  injection E as <-. exists ts, (w_sys w2). by split_and!.
Qed.

(** the file was moved, after its record was created and written *)
Definition moved (resolved : string) (d : trash_dirs) (t : tm) : Prop :=
  exists name content y1 y2 y3 y4,
    px_fopen_wx (info_name d name) y1 = (Created, y2) /\
    px_fwrite (info_name d name) content y2 = (true, y3) /\ record_path content = Some resolved /\
    px_rename resolved (file_name d name) y3 = (true, y4).

Lemma delete_turn_moved r n d t s w st w' : delete_turn r n d t s w = (Ret (inr st), w') ->
  st = LIBTRASHCAN_SUCCESS \/ st = LIBTRASHCAN_DIRCACHE -> moved r d t.
Proof.
  intros E Hst. destruct s as [c b]. cbn [delete_turn] in E. apply M_bind_inv in E as (names & w1 & En & E).
  destruct names as [[i f]|]; [|by injection E as <- _; destruct Hst].
  apply generate_filenames_names in En as (name & -> & ->).
  apply M_bind_inv in E as ([| |] & w2 & Ei & E); [|destruct b; [by injection E as <- _; destruct Hst|by injection E]
                                                    |by injection E as <- _; destruct Hst].
  apply create_info_file_done in Ei as (ts & y & Hts & Hx & Hw).
  apply M_bind_inv in E as (renamed & w3 & Hr%sys_call_inv & E). destruct renamed.
  - exists name, (trashinfo r ts), (w_sys w1), y, (w_sys w2), (w_sys w3). split_and!; [done|done| |done].
    apply record_path_trashinfo.
  - apply M_bind_inv in E as (x & w4 & _ & E). injection E as <- _. by destruct Hst.
Qed.

Lemma delete_loop_moved r n d t w st w' : delete_loop r n d t w = (Ret st, w') ->
  st = LIBTRASHCAN_SUCCESS \/ st = LIBTRASHCAN_DIRCACHE -> moved r d t.
Proof.
  unfold delete_loop. intros (res & w1 & Eu & E)%M_bind_inv Hst. destruct res as [s|st']; [done|].
  injection E as -> ->. apply until_inr in Eu as (s & w2 & Et). by eapply delete_turn_moved.
Qed.

(** the statuses of a deletion that has not reached the file *)
Definition early (r : Z + trash_dirs) : Prop :=
  match r with inl st => st <> LIBTRASHCAN_SUCCESS /\ st <> LIBTRASHCAN_DIRCACHE | inr _ => True end.
#[local] Hint Extern 1 (early _) => (by repeat case_match) : frame.

Lemma choose_trash_early h r d w res w' : choose_trash h r d w = (Ret res, w') -> early res.
Proof.
  intros E. pose (R := fun _ _ : World => True). assert (PreOrder R) by done.
  assert (forall A (f : sys -> A * sys), frames R (sys_call f)) as Hc by (intros A f v; split; [done|]; done).
  assert (forall ps m, frames R (mkdirs ps m)) as Hm by (intros; by apply frames_mkdirs).
  assert (forall v ms, frames R (find_mount v ms)) as Hf by (intros; by apply frames_find_mount).
  assert (triple R (choose_trash h r d) early) as Ht; [|specialize (Ht w) as [_ HQ]; rewrite E in HQ; by apply HQ].
  clearbody R. frame_go.
Qed.
End deletion.


(** ** A deletion that fails *)

Section failure.
Context `{Platform}.

(** [I] is kept by every call but a successful renaming; a file that the program has
    just created is [fresh] *)
Record keeps (I : sys -> Prop) (fresh : string -> Prop) : Prop := {
  k_mkdir p m y : I y -> I (snd (px_mkdir p m y));
  k_random n y : I y -> I (snd (px_getrandom n y));
  k_wx p y : I y -> I (snd (px_fopen_wx p y));
  k_created p y : I y -> fst (px_fopen_wx p y) = Created -> fresh p;
  k_fwrite p d y : fresh p -> I y -> I (snd (px_fwrite p d y));
  k_rename a b y : fst (px_rename a b y) = false -> I y -> I (snd (px_rename a b y));
  k_remove p y : fresh p -> I y -> I (snd (px_remove p y))
}.

Context (I : sys -> Prop) (fresh : string -> Prop) (Hk : keeps I fresh).
Let RW (w w' : World) : Prop := I (w_sys w) -> I (w_sys w').
#[local] Instance RW_preorder : PreOrder RW.
Proof. unfold RW. split; [by intros w|]. intros w1 w2 w3. auto. Qed.

Lemma kept_call {A} (f : sys -> A * sys) : (forall y, I y -> I (snd (f y))) -> frames RW (sys_call f).
Proof.
  intros Hf w. split; [|done]. unfold sys_call, RW. specialize (Hf (w_sys w)). by destruct (f (w_sys w)).
Qed.

Lemma kept_of {A} (m : M A) w a w' : frames RW m -> m w = (Ret a, w') -> RW w w'.
Proof. intros Hm E. destruct (Hm w) as [HR _]. by rewrite E in HR. Qed.

(** a result that does not say that the file was moved *)
Definition unmoved (r : (Z * bool) + Z) : Prop :=
  match r with inr st => st <> LIBTRASHCAN_SUCCESS /\ st <> LIBTRASHCAN_DIRCACHE | inl _ => True end.

Lemma create_info_file_kept i r t w res w' : create_info_file i r t w = (Ret res, w') ->
  RW w w' /\ (res = InfoDone -> I (w_sys w) -> fresh i).
Proof.
  unfold create_info_file. intros (ts & w1 & [_ ->]%lift_inv & (o & w2 & Hx%sys_call_inv & E)%M_bind_inv)%M_bind_inv.
  pose proof (k_wx _ _ Hk i (w_sys w)) as H1. pose proof (k_created _ _ Hk i (w_sys w)) as H2.
  rewrite Hx in H1, H2. cbn [fst snd] in H1, H2. destruct o; [|by injection E as <- <-..].
  apply M_bind_inv in E as (ok & w3 & Hf%sys_call_inv & E). injection E as <- <-.
  split; [|auto]. intros Hi.
  pose proof (k_fwrite _ _ Hk i (trashinfo r ts) (w_sys w2) (H2 Hi eq_refl) (H1 Hi)) as H3. by rewrite Hf in H3.
Qed.

Lemma delete_turn_kept r n d t s w res w' : delete_turn r n d t s w = (Ret res, w') -> unmoved res -> RW w w'.
Proof.
  intros E Hu. destruct s as [c b]. cbn [delete_turn] in E. apply M_bind_inv in E as (names & w1 & En & E).
  assert (RW w w1) as H1.
  { eapply kept_of, En. apply frames_generate_filenames; [apply _|]. intros k. apply kept_call, (k_random _ _ Hk). }
  transitivity w1; [done|]. destruct names as [[i f]|]; [|by injection E as _ <-].
  apply M_bind_inv in E as (info & w2 & Ei & E). apply create_info_file_kept in Ei as [H2 Hfr].
  destruct info; [|destruct b; by injection E as _ <-|by injection E as _ <-].
  intros Hi. specialize (Hfr eq_refl Hi). specialize (H2 Hi).
  apply M_bind_inv in E as (renamed & w3 & Hr%sys_call_inv & E). destruct renamed.
  { apply M_bind_inv in E as (ok & w4 & _ & E). injection E as <- _. destruct Hu. by destruct ok. }
  pose proof (k_rename _ _ Hk r f (w_sys w2)) as H3; rewrite Hr in H3. specialize (H3 eq_refl H2).
  apply M_bind_inv in E as (x & w4 & Hm%sys_call_inv & E). injection E as _ <-.
  pose proof (k_remove _ _ Hk i (w_sys w3) Hfr H3) as H5. by rewrite Hm in H5.
Qed.

Lemma until_kept {A B} (step : A -> M (A + B)) (P : A + B -> Prop) :
  (forall a w r w', step a w = (Ret r, w') -> P r -> RW w w') -> (forall a, P (inl a)) ->
  forall n a w r w', until step n a w = (Ret r, w') -> P r -> RW w w'.
Proof.
  intros Hs Hl.
  assert (forall m k, (forall w r w', m w = (Ret r, w') -> P r -> RW w w') ->
    (forall a w r w', k a w = (Ret r, w') -> P r -> RW w w') ->
    forall w r w', then_until m k w = (Ret r, w') -> P r -> RW w w') as Hu.
  { intros m k Hm Hk' w r w' E Hr. apply M_bind_inv in E as (x & w1 & E1 & E). destruct x as [a|b].
    - transitivity w1; [eapply Hm; [exact E1|apply Hl]|by eapply Hk'].
    - injection E as <- <-. by eapply Hm. }
  induction n as [n IH|n IH|]; intros a; cbn [until]; [| |apply Hs].
  - apply Hu; [|exact IH]. apply Hu; [apply Hs|exact IH].
  - apply Hu; [apply IH|exact IH].
Qed.

Lemma delete_loop_kept r n d t w st w' : delete_loop r n d t w = (Ret st, w') -> unmoved (inr st) -> RW w w'.
Proof.
  unfold delete_loop. intros (res & w1 & Eu & E)%M_bind_inv Hst. destruct res as [s|st']; [done|].
  injection E as -> ->. exact (until_kept _ unmoved (delete_turn_kept r n d t) (fun _ => Logic.I) _ _ _ _ _ Eu Hst).
Qed.

Lemma soft_delete_kept path w st w' : trashcan_soft_delete path w = (Ret st, w') -> unmoved (inr st) -> RW w w'.
Proof.
  intros E Hu. unfold trashcan_soft_delete in E. apply M_bind_inv in E as (resolved & w1 & [-> ->]%sys_get_inv & E).
  destruct (px_realpath path (w_sys w)) as [resolved|]; [|by injection E as _ <-].
  apply M_bind_inv in E as (home & w1 & Eh & E).
  assert (RW w w1) as H1.
  { eapply kept_of, Eh. clear -Hk. assert (PreOrder RW) by apply _. clearbody RW. frame_go. }
  transitivity w1; [done|]. destruct home as [[data home]|]; [|by injection E as _ <-].
  apply M_bind_inv in E as (dirs & w2 & Ec & E).
  assert (RW w1 w2) as H2.
  { eapply kept_of, Ec. apply frames_choose_trash; [apply _|]. intros p m. apply kept_call, (k_mkdir _ _ Hk). }
  transitivity w2; [done|]. destruct dirs as [st'|d]; [by injection E as _ <-|].
  destruct (strrchr_slash resolved) as [name|]; [|by injection E as _ <-].
  apply M_bind_inv in E as (time & w3 & [-> ->]%sys_get_inv & E). destruct (decide _); [by injection E as _ <-|].
  apply M_bind_inv in E as (t & w4 & [-> ->]%sys_get_inv & E). destruct (px_localtime _ _) as [t|]; [|done].
  by eapply delete_loop_kept.
Qed.
End failure.

(** C19: a deletion that fails before the cache is written keeps what every call but a
    successful renaming keeps, where files that were just created are written and
    removed: a file that is there stays, with its contents. *)
Theorem failed_trash_keeps `{Platform} (I : sys -> Prop) (fresh : string -> Prop) (path : string)
    (w w' : World) (status : Z) (Hk : keeps I fresh) (E : trashcan_soft_delete path w = (Ret status, w'))
    (Hs : status <> LIBTRASHCAN_SUCCESS) (Hd : status <> LIBTRASHCAN_DIRCACHE) (Hi : I (w_sys w)) : I (w_sys w').
Proof. by apply (soft_delete_kept I fresh Hk path w status w' E). Qed.

(** ** The deletion returns *)

(** a year of four digits *)
Definition valid_year (t : tm) : Prop := (1000 <= tm_year t + 1900 <= 9999)%Z.

(** what the deletion relies on: the kernel opens no directory whose path has
    [PATH_MAX] bytes, [getrandom] fills a small buffer, and the present time has a date *)
Record posix_laws `{Platform} : Prop := {
  pl_readdir p y : PATH_MAX <= slen p -> px_readdir p y = None;
  pl_random n y buf : fst (px_getrandom n y) = Some buf -> n <= length buf;
  pl_date y : exists t, px_localtime (px_time y) y = Some t /\ valid_year t
}.

Section returns.
Context `{Platform}.

(** the computation has a result in every state *)
Definition returns {A} (m : M A) : Prop := forall w, exists a w', m w = (Ret a, w').

Lemma returns_seq {A B} (m : M A) (f : A -> M B) : returns m -> (forall a, returns (f a)) -> returns (m ≫= f).
Proof.
  intros Hm Hf w. destruct (Hm w) as (a & w1 & E). destruct (Hf a w1) as (b & w2 & E2).
  exists b, w2. by rewrite (M_bind_Ret _ _ _ _ _ E).
Qed.
Lemma returns_ret {A} (a : A) : returns (mret a).
Proof. intros w. by exists a, w. Qed.
Lemma returns_lift {A} (a : A) : returns (lift (Ret a)).
Proof. intros w. by exists a, w. Qed.
Lemma returns_get {A} (f : sys -> A) : returns (sys_get f).
Proof. intros w. by eexists _, _. Qed.
Lemma returns_call {A} (f : sys -> A * sys) : returns (sys_call f).
Proof. intros w. unfold sys_call. destruct (f (w_sys w)) as [a y]. by eexists _, _. Qed.
End returns.

Create HintDb returns discriminated.
#[export] Hint Constants Opaque : returns.
#[export] Hint Resolve returns_ret returns_lift returns_get returns_call : returns.
Ltac returns_step :=
  lazymatch goal with
  | |- returns (mbind _ _) => apply returns_seq; [|let a := fresh "a" in intros a; triple_split a]
  | |- returns (match ?x with _ => _ end) => destruct x eqn:?
  | |- returns (let _ := _ in _) => cbv zeta
  | |- returns _ => solve [eauto with returns]
  end.
Ltac returns_unfold :=
  lazymatch goal with
  | |- returns (mret _) => fail
  | |- returns (lift _) => fail
  | |- returns ?m => let h := triple_head m in unfold h
  end.
Ltac returns_go := repeat (returns_step || (progress returns_unfold; cbn beta iota)).

Section total.
Context `{Platform} (Hl : posix_laws).

Lemma returns_random n : returns (generate_random_filename n).
Proof.
  intros w. unfold generate_random_filename. destruct (negb _); [by eexists _, _|]. destruct (_ <=? _)%Z; [by eexists _, _|].
  pose proof (pl_random Hl (Z.to_nat (n / 2)) (w_sys w)) as Hb. unfold mbind, M_bind, sys_call.
  destruct (px_getrandom _ _) as [[buf|] y]; [|by eexists _, _]. specialize (Hb buf eq_refl).
  rewrite (proj2 (Nat.ltb_ge _ _) Hb). by eexists _, _.
Qed.

Lemma returns_find_mount v ms : returns (find_mount v ms).
Proof. induction ms as [|m ms IH]; cbn [find_mount]; returns_go. Qed.
Lemma returns_mkdirs ps m : returns (mkdirs ps m).
Proof. induction ps as [|p ps IH]; cbn [mkdirs]; returns_go. Qed.

Lemma add_entries_returns f base es : (forall n z, returns (f (base +:+ "/" +:+ n) z)) ->
  forall z, returns (add_entries f base es z).
Proof.
  intros Hf. induction es as [|[n b] es IH]; intros z; cbn [add_entries]; [returns_go|].
  destruct (mem _ _); [apply IH|]. apply returns_seq; [returns_go|]. intros [st|]; [|returns_go].
  destruct (ls_isdir st); [|apply IH]. apply returns_seq; [apply Hf|]. intros [z'|]; [apply IH|returns_go].
Qed.
Lemma returns_get_dir_size fuel : forall base z, PATH_MAX - slen base < fuel -> returns (get_dir_size fuel base z).
Proof.
  induction fuel as [|fuel IH]; intros base z Hf; [lia|]. cbn [get_dir_size]. intros w.
  rewrite (M_bind_Ret (sys_get _) _ w (px_readdir base (w_sys w)) w) by done.
  destruct (decide (PATH_MAX <= slen base)) as [Hlen|Hlen]; [rewrite (pl_readdir Hl _ _ Hlen); by eexists _, _|].
  destruct (px_readdir base (w_sys w)) as [es|]; [|by eexists _, _]. revert w.
  apply add_entries_returns. intros n z'. apply IH. rewrite !slen_app.
  change (slen "/") with 1. generalize dependent PATH_MAX. intros; lia.
Qed.

#[local] Hint Resolve returns_random returns_find_mount returns_mkdirs : returns.
Lemma returns_write_sizes d temp es : returns (write_sizes d temp es).
Proof.
  induction es as [|[n b] es IH]; cbn [write_sizes]; [returns_go|]. destruct (_ || _); [done|].
  apply returns_seq; [|intros [z|]; returns_go].
  apply returns_get_dir_size. rewrite !slen_app. change (slen "/") with 1. unfold PATH_MAX. lia.
Qed.
#[local] Hint Resolve returns_write_sizes : returns.

Lemma returns_cache d : returns (create_or_update_dir_size_cache d).
Proof. returns_go. Qed.
Lemma returns_choose_trash h r d : returns (choose_trash h r d).
Proof. returns_go. Qed.
#[local] Hint Resolve returns_cache returns_choose_trash : returns.

Lemma date_returns t dash colon sep : valid_year t -> exists s, date_of t dash colon sep = Ret s.
Proof. intros Hy. unfold valid_year in Hy. unfold date_of. rewrite (proj2 (Z.leb_le _ _)), (proj2 (Z.leb_le _ _)) by lia. by eexists. Qed.

Lemma returns_delete_turn r n d t s : valid_year t -> returns (delete_turn r n d t s).
Proof.
  intros Hy. destruct (date_returns t "" "" "" Hy) as [nm Hn], (date_returns t "-" ":" "T" Hy) as [ts Ht].
  destruct s as [c b]. cbn [delete_turn]. apply returns_seq.
  { unfold generate_filenames, timestamp_name. rewrite Hn. returns_go. }
  intros [[i f]|]; [|returns_go]. apply returns_seq; [|intros []; returns_go].
  unfold create_info_file, timestamp. rewrite Ht. returns_go.
Qed.

Lemma returns_until {A B} (step : A -> M (A + B)) n : (forall a, returns (step a)) ->
  forall a, returns (until step n a).
Proof.
  intros Ht.
  assert (forall (m : M (A + B)) k, returns m -> (forall a, returns (k a)) -> returns (then_until m k)) as Hthen.
  { intros m k Hm Hk. unfold then_until. apply returns_seq; [done|]. intros []; [apply Hk|apply returns_ret]. }
  induction n as [n IH|n IH|]; intros a; cbn [until]; [| |apply Ht]; auto.
Qed.

(** a loop that has its result after [n] turns *)
Lemma until_result {A B} (m : M (A + B)) w : returns m -> (forall s w', m w <> (Ret (inl s), w')) ->
  exists b w', (r ← m; match r with inr b => mret b | inl _ => lift NoFuel end) w = (Ret b, w').
Proof.
  intros Hm Hi. destruct (Hm w) as (r & w1 & E). rewrite (M_bind_Ret _ _ _ _ _ E).
  destruct r as [s|b]; [by destruct (Hi s w1)|]. by exists b, w1.
Qed.

Lemma returns_delete_loop r n d t : valid_year t -> returns (delete_loop r n d t).
Proof.
  intros Hy w. unfold delete_loop. apply until_result; [|apply delete_until_ends].
  apply returns_until. intros a. by apply returns_delete_turn.
Qed.

Lemma returns_soft_delete path : returns (trashcan_soft_delete path).
Proof.
  unfold trashcan_soft_delete. apply returns_seq; [returns_go|]. intros [resolved|]; [|returns_go].
  apply returns_seq; [returns_go|]. intros [[data home]|]; [|returns_go].
  apply returns_seq; [returns_go|]. intros [st|d]; [returns_go|].
  destruct (strrchr_slash resolved) as [name|]; [|returns_go]. intros w.
  rewrite (M_bind_Ret (sys_get _) _ w (px_time (w_sys w)) w) by done.
  destruct (decide _); [by eexists _, _|]. destruct (pl_date Hl (w_sys w)) as (t & Et & Hy).
  rewrite (M_bind_Ret (sys_get _) _ w (Some t) w) by (unfold sys_get, gets; by rewrite Et).
  by apply returns_delete_loop.
Qed.
End total.


(** ** Names that are too long *)

Definition valid_tm (t : tm) : Prop :=
  valid_year t /\
  (0 <= tm_mon t <= 11 /\ 1 <= tm_mday t <= 31 /\
   0 <= tm_hour t <= 23 /\ 0 <= tm_min t <= 59 /\ 0 <= tm_sec t <= 60)%Z.

Lemma two_length z : (0 <= z < 100)%Z -> slen (two z) = 2.
Proof. intros Hz. apply Nat.eqb_eq. apply (below (fun z => slen (two z) =? 2) 100); [by vm_compute|lia]. Qed.

Lemma timestamp_name_length t : valid_tm t -> exists ts, timestamp_name t = Ret ts /\ slen ts = 14.
Proof.
  intros (Hy & Hmo & Hd & Hh & Hmi & Hse). unfold valid_year in Hy. unfold timestamp_name, date_of.
  rewrite (proj2 (Z.leb_le _ _)), (proj2 (Z.leb_le _ _)) by lia. eexists. split; [done|].
  rewrite !slen_app, to_string_four, !two_length by lia. done.
Qed.

(** The limit is odd, as 255 is, or there is none, and the deletion time, the counter
    and the suffix do not fit behind the name. *)
Definition no_room (limit : option Z) (name : string) : Prop :=
  match limit with
  | None => True
  | Some m => Z.odd m = true /\ (10 <= m < 2 ^ 63)%Z /\ (m <= Z.of_nat (slen name) + 25)%Z
  end.

Lemma odd_length limit name : no_room limit name ->
  (wrapU 64 (default (-1) limit - Z.of_nat (slen ".trashinfo")) mod 2 =? 0)%Z = false.
Proof.
  intros Hn. apply Z.eqb_neq. change (Z.of_nat (slen ".trashinfo")) with 10%Z. destruct limit as [m|]; [|done].
  destruct Hn as (Ho & Hm & _). cbn [default]. unfold id. change (2 ^ 63)%Z with 9223372036854775808%Z in Hm.
  rewrite wrapU_small by (change (2 ^ 64)%Z with 18446744073709551616%Z; lia). rewrite Zmod_odd, Z.odd_sub, Ho. done.
Qed.

Lemma delete_turn_no_room `{Platform} r name d t limit w : valid_tm t ->
  px_name_max (trash_files_dir d) (w_sys w) = Some limit -> no_room limit name ->
  delete_turn r name d t (0%Z, false) w = (Ret (inr LIBTRASHCAN_FILENAMES), w).
Proof.
  intros Ht Hl Hn. destruct (timestamp_name_length t Ht) as (ts & Hts & Hlen).
  assert (generate_filenames name d t 0 false w = (Ret None, w)) as E; [|by cbn [delete_turn]; rewrite (M_bind_Ret _ _ _ _ _ E)].
  unfold generate_filenames. rewrite Hts. rewrite (M_bind_Ret (lift (Ret ts)) _ w ts w) by done.
  rewrite (M_bind_Ret (sys_get _) _ w (Some limit) w) by (unfold sys_get, gets; by rewrite Hl).
  match goal with |- (if ?b then _ else _) w = _ => assert (b = false) as -> end.
  { rewrite andb_true_r, Hlen. change (slen (hex 0)) with 1. change (slen ".trashinfo") with 10.
    destruct limit as [m|]; [|done]. rewrite decide_False by done. cbn [default]. unfold id.
    destruct Hn as (_ & _ & Hm). apply Z.ltb_ge. lia. }
  unfold generate_random_filename. by rewrite (odd_length _ _ Hn).
Qed.

(** C37: a file cannot be trashed when the length limit of names is odd and the name
    leaves no room for the deletion time, and no file can be when there is no limit:
    the random name that should replace it has an odd number of hexadecimal digits. *)
Theorem long_names_refused `{Platform} (resolved_path name : string) (d : trash_dirs) (timeinfo : tm)
    (limit : option Z) (w : World) (Ht : valid_tm timeinfo)
    (Hl : px_name_max (trash_files_dir d) (w_sys w) = Some limit) (Hn : no_room limit name) :
  delete_loop resolved_path name d timeinfo w = (Ret LIBTRASHCAN_FILENAMES, w).
Proof.
  unfold delete_loop. erewrite M_bind_Ret; [|apply until_first; by eapply delete_turn_no_room]. done.
Qed.

Section trash_witness.
#[local] Existing Instance demo.

Definition trash_world (name : string) : World :=
  @world0 demo (MemSys [("/app/" +:+ name, "data")] ["/app"] [("HOME", "/home/user")] 1 [] [] []).
Definition long_name : string := of_list (replicate 240 "a"%char).
Definition trash_today : tm := Tm 124 0 2 12 0 0.

Lemma long_names_refused_witness :
  delete_loop ("/app/" +:+ long_name) long_name (dirs_of "/t") trash_today (trash_world long_name) =
  (Ret LIBTRASHCAN_FILENAMES, trash_world long_name).
Proof.
  apply (long_names_refused _ long_name (dirs_of "/t") trash_today (Some 255%Z)).
  - unfold valid_tm, valid_year. cbn. lia.
  - reflexivity.
  - split; [reflexivity|]. split; [lia|]. vm_compute. done.
Defined.

Definition trash_result (name : string) : outcome Z * World :=
  trashcan_soft_delete ("/app/" +:+ name) (trash_world name).

Lemma result_pair name st : fst (trash_result name) = st ->
  trashcan_soft_delete ("/app/" +:+ name) (trash_world name) = (st, snd (trash_result name)).
Proof. intros <-. apply surjective_pairing. Qed.


Lemma demo_posix_laws : posix_laws.
Proof.
  split; cbn -[Nat.ltb].
  - intros p y Hp. apply Nat.ltb_ge in Hp. change 4096 with PATH_MAX. by rewrite Hp.
  - intros n y buf [= <-]. by rewrite length_replicate.
  - intros y. eexists. split; [done|]. unfold valid_year. cbn. lia.
Qed.


(** a file that is there stays, with its contents *)
Definition stays (p d : string) (y : @sys demo) : Prop := omap_get p (ms_files y) = Some d.

Lemma demo_keeps p d : keeps (stays p d) (fun q => q <> p).
Proof.
  unfold stays. split; cbn.
  - intros q m y. by destruct (mem q (ms_dirs y)).
  - done.
  - intros q y Hp. unfold mem_create. destruct (omap_has q (ms_files y)) eqn:E; [done|]. cbn.
    rewrite omap_get_set_ne; [done|]. intros ->. unfold omap_has in E. by rewrite Hp in E.
  - intros q y Hp. unfold mem_create, omap_has. intros Hc ->. by rewrite Hp in Hc.
  - intros q x y Hq Hp. cbn. by rewrite omap_get_set_ne.
  - intros a b y. by destruct (omap_get a (ms_files y)).
  - intros q y Hq Hp. cbn. by rewrite omap_get_del_ne.
Qed.

Lemma failed_trash_keeps_witness :
  fst (trash_result long_name) = Ret LIBTRASHCAN_FILENAMES /\
  stays ("/app/" +:+ long_name) "data" (w_sys (snd (trash_result long_name))).
Proof.
  assert (fst (trash_result long_name) = Ret LIBTRASHCAN_FILENAMES) as E by (vm_compute; reflexivity).
  split; [exact E|].
  apply (failed_trash_keeps (stays ("/app/" +:+ long_name) "data") (fun q => q <> "/app/" +:+ long_name)
    ("/app/" +:+ long_name) (trash_world long_name) (snd (trash_result long_name)) LIBTRASHCAN_FILENAMES).
  - apply demo_keeps.
  - by apply result_pair.
  - done.
  - done.
  - reflexivity.
Defined.
End trash_witness.
