(* ===== verification/DialogFacts.v ===== *)
(** * Facts about dialogs

    A dialog ends when its child does, with all that the child wrote. *)

From S2P Require Import Prelude Strings OMap Outcome Json Errors State MemPlatform Dialogs.
From S2P Require Import Helpers Options OsControllers.
From Stdlib Require Import Ascii.

Module pfd_facts.
Import pfd.

(** ** The executor *)

Definition whole_output (c : child) : string := foldr (fun a b => a +:+ b) EmptyString (ch_reads c).

Definition stopped (e : executor) : executor :=
  if m_running e then
    Executor false (m_stdout e +:+ whole_output (m_child e)) (WEXITSTATUS (ch_status (m_child e)))
      (Child [] (ch_status (m_child e)))
  else e.

Lemma stop_eq e : stop e = Ret (stopped e).
Proof.
  unfold stop, stopped. destruct e as [[] out code [reads status]]; cbn [m_running m_child ch_reads]; [|done].
  revert out. induction reads as [|r reads IH]; intros out; cbn; [by rewrite sapp_nil_r|].
  cbn in IH. rewrite IH. by rewrite sapp_assoc.
Qed.

Lemma result_eq e : result e = Ret (m_stdout (stopped e), m_exit_code (stopped e)).
Proof. unfold result. by rewrite stop_eq. Qed.

(** ** Dialogs whose helper is known *)

(** the end of the scan: helpers are known *)
Definition scanned `{Platform} (w : World) : Prop := is_scanned (w_pfd w) = true /\ is_verbose (w_pfd w) = false.

Section dialogs.
Context `{Platform}.

Lemma settings_scanned w : scanned w -> settings false w = (Ret tt, w).
Proof.
  intros [Hs _]. destruct w as [? ? ? ? ? ? ? ? ? ? ? [b v z m q k] l y]. cbn in Hs. subst b.
  unfold settings, set_flags, flags. munfold. reflexivity.
Qed.

(** The helpers are looked for once. *)
Definition scans {A} (m : M A) : Prop := forall w, exists a w', m w = (Ret a, w') /\ is_scanned (w_pfd w') = true.
Lemma scans_bind {A B} (m : M A) (k : A -> M B) :
  (forall w, exists a w', m w = (Ret a, w')) -> (forall a, scans (k a)) -> scans (m ≫= k).
Proof. intros Hm Hk w. destruct (Hm w) as (a & w1 & E). rewrite (M_bind_Ret _ _ _ _ _ E). apply Hk. Qed.
Lemma check_program_returns program w : exists b w', check_program program w = (Ret b, w').
Proof.
  unfold check_program, start_process. rewrite stop_eq. munfold. unfold sys_call.
  destruct (sys_fork_exec _ _) as [[c|] y]; cbn -[result]; rewrite result_eq; eauto.
Qed.
Lemma settings_scans : scans (settings false).
Proof.
  apply scans_bind; [eauto|]. intros _ w. unfold flags. rewrite (M_bind_Ret _ _ w (w_pfd w) w) by done.
  destruct (is_scanned (w_pfd w)) eqn:Es; [eauto|]. revert w Es. intros w _. revert w.
  apply scans_bind; [unfold getenv; eauto|]. intros v.
  apply scans_bind; [intros w; destruct (negb _); eauto|]. intros _.
  do 4 (apply scans_bind; [apply check_program_returns|intros ?]; apply scans_bind; [eauto|intros _]).
  apply scans_bind; [|intros _ w; by eexists _, _].
  intros w. destruct (_ && _); [|eauto]. unfold getenv. erewrite M_bind_Ret by done. repeat case_match; eauto.
Qed.

Lemma start_dialog_child w command c y :
  scanned w -> sys_fork_exec (c_str <$> command) (w_sys w) = (Some c, y) ->
  start_dialog (w_pfd w) command w = (Ret (Executor true "" (-1) c), upd_sys (fun _ => y) w).
Proof.
  intros [_ Hv] E. unfold start_dialog. rewrite Hv, (M_bind_Ret _ _ w tt w) by done.
  unfold start_process. rewrite stop_eq, (M_bind_Ret _ _ w new_executor w) by done.
  rewrite (M_bind_Ret _ _ w (Some c) (upd_sys (fun _ => y) w)); [done|].
  unfold sys_call. by rewrite E.
Qed.

Lemma result_child c : result (Executor true "" (-1) c) = Ret (whole_output c, WEXITSTATUS (ch_status c)).
Proof. by rewrite result_eq. Qed.

Lemma message_child w title text choice icon c y :
  scanned w ->
  sys_fork_exec (c_str <$> desktop_helper (w_pfd w) ++ message_args (w_pfd w) title text choice icon) (w_sys w)
    = (Some c, y) ->
  message title text choice icon w =
    (Ret (button_of (m_mappings (w_pfd w) choice) (whole_output c) (WEXITSTATUS (ch_status c))),
     upd_sys (fun _ => y) w).
Proof.
  intros Hw E. unfold message, message_start.
  erewrite M_bind_Ret; cycle 1.
  - rewrite (M_bind_Ret _ _ w tt w) by by apply settings_scanned.
    rewrite (M_bind_Ret _ _ w (w_pfd w) w) by done.
    erewrite M_bind_Ret by by apply start_dialog_child. done.
  - cbn beta iota. rewrite result_child. by erewrite M_bind_Ret by done.
Qed.

Lemma open_file_child w title default_path filters options args c y :
  scanned w ->
  args = (if is_zenity (w_pfd w) then zenity_file_args dialog_open title default_path filters options (w_sys w)
          else if is_kdialog (w_pfd w) then kdialog_file_args dialog_open title default_path filters options
          else []) ->
  sys_fork_exec (c_str <$> desktop_helper (w_pfd w) ++ args) (w_sys w) = (Some c, y) ->
  open_file title default_path filters options w =
    (Ret (vector_of (whole_output c)), upd_sys (fun _ => y) w).
Proof.
  intros Hw Ha E. unfold open_file, file_dialog.
  rewrite (M_bind_Ret _ _ w (Executor true "" (-1) c) (upd_sys (fun _ => y) w)).
  2: { rewrite (M_bind_Ret _ _ w tt w) by by apply settings_scanned.
    rewrite (M_bind_Ret _ _ w (w_pfd w) w) by done.
    rewrite (M_bind_Ret _ _ w args w) by (rewrite Ha; by destruct (is_zenity (w_pfd w)), (is_kdialog (w_pfd w))).
    by apply start_dialog_child. }
  rewrite result_child. by erewrite M_bind_Ret by done.
Qed.
End dialogs.

(** ** The text of an answer *)

Lemma ends_with_spec str suffix : ends_with str suffix = true <-> exists t, str = t +:+ suffix.
Proof.
  unfold ends_with. rewrite andb_true_iff, Nat.leb_le, bool_decide_eq_true. split.
  - intros [_ <-]. exists (stake (slen str - slen suffix) str). by rewrite stake_sdrop.
  - intros [t ->]. rewrite slen_app. split; [lia|].
    replace (slen t + slen suffix - slen suffix) with (slen t) by lia. apply sdrop_app.
Qed.

(** a path that a line can hold *)
Definition line_ok (p : string) : bool := negb (isempty p) && negb (contains_char "010" p).
Definition lines (paths : list string) : string := foldr (fun p s => p +:+ newline +:+ s) EmptyString paths.

Lemma lines_of_lines paths : forallb line_ok paths = true ->
  forall fuel, slen (lines paths) <= fuel -> lines_of fuel (lines paths) = paths.
Proof.
  induction paths as [|p paths IH]; intros Hp fuel Hf; cbn [lines foldr] in *; [by destruct fuel|].
  cbn [forallb] in Hp. apply andb_true_iff in Hp as [Hl Hp]. unfold line_ok in Hl.
  apply andb_true_iff in Hl as [He Hn]. fold (lines paths) in *.
  rewrite slen_app in Hf. change (slen (newline +:+ lines paths)) with (S (slen (lines paths))) in Hf.
  destruct fuel as [|fuel]; [lia|]. cbn [lines_of].
  change (newline +:+ lines paths) with (String "010" (lines paths)).
  change (sfind newline) with (sfind_char "010"). rewrite sfind_char_app by by rewrite sforall_contains.
  destruct p as [|a p]; [done|]. cbn [slen String.length]. f_equal.
  - change (S (String.length p)) with (slen (String a p)). apply stake_app.
  - replace (sdrop (S (S (String.length p))) (String a p +:+ String "010" (lines paths)))
      with (sdrop 1 (sdrop (slen (String a p)) (String a p +:+ String "010" (lines paths)))).
    + rewrite sdrop_app. cbn [sdrop]. apply IH; [done|]. lia.
    + apply to_list_inj. rewrite !to_list_sdrop, drop_drop. f_equal. cbn. lia.
Qed.

Lemma vector_of_lines paths : forallb line_ok paths = true -> vector_of (lines paths) = paths.
Proof. intros Hp. by apply lines_of_lines. Qed.
End pfd_facts.
Import pfd pfd_facts.

(** ** The dialogs of the API *)

(** the data of a message box call, with the names that the API has *)
Definition choice_name (c : pfd_choice) : string :=
  match c with
  | PfdOk => "OK" | PfdOkCancel => "OK_CANCEL" | PfdYesNo => "YES_NO"
  | PfdYesNoCancel => "YES_NO_CANCEL" | PfdRetryCancel => "RETRY_CANCEL"
  | PfdAbortRetryIgnore => "ABORT_RETRY_IGNORE"
  end.
Definition icon_name (i : pfd_icon) : string :=
  match i with
  | PfdInfo => "INFO" | PfdWarning => "WARNING" | PfdError => "ERROR" | PfdQuestion => "QUESTION"
  end.
Definition message_input (title content : string) (choice : pfd_choice) (icon : pfd_icon) : json :=
  mk_obj [("title", JStr title); ("content", JStr content); ("choice", JStr (choice_name choice));
          ("icon", JStr (icon_name icon))].

(** the buttons of a box *)
Definition offered (choice : pfd_choice) : list pfd_button :=
  match choice with
  | PfdOk => [BtnOk]
  | PfdOkCancel => [BtnOk; BtnCancel]
  | PfdYesNo => [BtnYes; BtnNo]
  | PfdYesNoCancel => [BtnYes; BtnNo; BtnCancel]
  | PfdRetryCancel => [BtnRetry; BtnCancel]
  | PfdAbortRetryIgnore => [BtnAbort; BtnRetry; BtnIgnore]
  end.

(** What zenity documents: an extra button prints its label; without extra buttons the
    exit code is 0 for the OK button and 1 for the other. *)
Definition label (b : pfd_button) : string :=
  match b with
  | BtnCancel => "Cancel" | BtnOk => "OK" | BtnYes => "Yes" | BtnNo => "No"
  | BtnAbort => "Abort" | BtnRetry => "Retry" | BtnIgnore => "Ignore"
  end.
Definition zenity_reply (choice : pfd_choice) (b : pfd_button) (c : child) : Prop :=
  match choice with
  | PfdOk | PfdOkCancel =>
      whole_output c = "" /\ WEXITSTATUS (ch_status c) = if decide (b = BtnOk) then 0%Z else 1%Z
  | _ => whole_output c = label b +:+ newline
  end.

Lemma button_of_reply f choice b c : is_zenity f = true -> b ∈ offered choice -> zenity_reply choice b c ->
  button_of (m_mappings f choice) (whole_output c) (WEXITSTATUS (ch_status c)) = b.
Proof.
  intros Hf Hb Hr. unfold m_mappings. rewrite Hf. cbn [negb andb].
  unfold offered in Hb. destruct choice; cbn [zenity_reply] in Hr;
    repeat (apply elem_of_cons in Hb as [->|Hb];
            [first [by rewrite Hr|by rewrite (proj1 Hr), (proj2 Hr)]|]); by apply elem_of_nil in Hb.
Qed.

Section api.
Context `{Platform}.

Lemma showMessageBox_eq w title content choice icon b w' :
  pfd.message title content choice icon w = (Ret b, w') ->
  fst (os_controllers.showMessageBox (message_input title content choice icon) w) =
    Ret (mk_obj [("returnValue", JStr (os_controllers.button_name b)); ("success", JBool true)]).
Proof.
  intros E. unfold os_controllers.showMessageBox.
  change (helpers.missingRequiredField _ _) with (@None string). cbv iota.
  rewrite (M_bind_Ret _ _ w title w) by done. rewrite (M_bind_Ret _ _ w content w) by done.
  rewrite (M_bind_Ret _ _ w (icon_name icon) w) by done.
  rewrite (M_bind_Ret _ _ w (choice_name choice) w) by done.
  assert (os_controllers.choice_of (choice_name choice) = Some choice) as -> by by destruct choice.
  assert (os_controllers.icon_of (icon_name icon) = Some icon) as -> by by destruct icon.
  by rewrite (M_bind_Ret _ _ w b w').
Qed.
End api.

(** Without a helper [echo] runs in its place, and every box is answered "OK". *)
Lemma no_helper_answers_ok `{Platform} w title content choice icon c y : scanned w ->
  is_zenity (w_pfd w) = false -> is_kdialog (w_pfd w) = false ->
  whole_output c = newline -> ch_status c = 0%Z ->
  sys_fork_exec ["echo"] (w_sys w) = (Some c, y) ->
  fst (os_controllers.showMessageBox (message_input title content choice icon) w) =
    Ret (mk_obj [("returnValue", JStr "OK"); ("success", JBool true)]).
Proof.
  intros Hw Hz Hk Ho Hs Hc. change "OK" with (os_controllers.button_name BtnOk). eapply showMessageBox_eq.
  rewrite (message_child w title content choice icon c y); [|done|].
  - unfold m_mappings. by rewrite Hk, andb_false_r, Ho, Hs.
  - unfold message_args. rewrite Hz, Hk. unfold desktop_helper, is_zenity, is_kdialog in *.
    apply orb_false_iff in Hz as [[-> ->]%orb_false_iff ->]. by rewrite Hk.
Qed.


(** C26: with kdialog a box with the buttons Yes and No answers "YES" or "CANCEL" and never
    "NO": the code expects the exit code 256 for No, and an exit code is below 256.  A
    kdialog that a signal ends, without output, is taken for a Yes. *)
Theorem kdialog_never_no `{Platform} (w : World) (title content : string) (icon : pfd_icon) (c : child)
    (y : sys) (Hw : scanned w) (Hz : is_zenity (w_pfd w) = false) (Hk : is_kdialog (w_pfd w) = true)
    (Hq : whole_output c = "")
    (Hc : sys_fork_exec
      (c_str <$> desktop_helper (w_pfd w) ++ kdialog_message_args title content PfdYesNo icon) (w_sys w) = (Some c, y)) :
  fst (os_controllers.showMessageBox (message_input title content PfdYesNo icon) w) =
    Ret (mk_obj [("returnValue", JStr (if (WEXITSTATUS (ch_status c) =? 0)%Z then "YES" else "CANCEL"));
                 ("success", JBool true)]) /\
  (forall signal, (0 < signal < 128)%Z -> ch_status c = signal -> WEXITSTATUS (ch_status c) = 0%Z).
Proof.
  split.
  - erewrite showMessageBox_eq; cycle 1.
    { apply message_child; [done|]. unfold message_args. by rewrite Hz, Hk. }
    rewrite Hq. unfold m_mappings. rewrite Hz, Hk. cbn [negb andb].
    assert (WEXITSTATUS (ch_status c) <> 256)%Z as Hn.
    { unfold WEXITSTATUS. rewrite Z.shiftr_land. intros E.
      pose proof (Z.land_ones (Z.shiftr (ch_status c) 8) 8 ltac:(lia)) as Hm.
      change (Z.shiftr 65280 8) with (Z.ones 8) in E. rewrite E in Hm.
      pose proof (Z.mod_pos_bound (Z.shiftr (ch_status c) 8) (2 ^ 8)). lia. }
    rewrite bool_decide_eq_true_2 by by left.
    unfold button_of. cbn -[Z.eqb WEXITSTATUS]. rewrite !(Z.eqb_sym _ (WEXITSTATUS _)).
    destruct (Z.eqb_spec (WEXITSTATUS (ch_status c)) 0); [done|].
    by rewrite (proj2 (Z.eqb_neq _ _) Hn).
  - intros s Hs ->. unfold WEXITSTATUS. rewrite Z.shiftr_land. replace (Z.shiftr s 8) with 0%Z; [done|].
    rewrite Z.shiftr_div_pow2 by lia. symmetry. apply Z.div_small. lia.
Qed.


Section witness.
#[local] Existing Instance demo.

(** the memory platform with a helper that prints a text *)
Definition with_helper (f : pfd_flags) (program out : string) : World :=
  upd_pfd (fun _ => f) (upd_sys (set_files [("/usr/bin/" +:+ program, out)]) demo_world).
Definition zenity_flags : pfd_flags := PfdFlags true false true false false false.
Definition kdialog_flags : pfd_flags := PfdFlags true false false false false true.


Lemma kdialog_never_no_witness :
  fst (os_controllers.showMessageBox (message_input "Save" "Save the file?" PfdYesNo PfdInfo)
         (with_helper kdialog_flags "kdialog" "")) =
    Ret (mk_obj [("returnValue", JStr "YES"); ("success", JBool true)]).
Proof.
  refine (proj1 (kdialog_never_no (with_helper kdialog_flags "kdialog" "") "Save" "Save the file?"
    PfdInfo (Child [""] 0) _ _ _ _ _ _)).
  - split; reflexivity.
  - reflexivity.
  - reflexivity.
  - reflexivity.
  - reflexivity.
Defined.

End witness.
