(* ===== verification/FrameFacts.v ===== *)
(** * What native calls leave alone

    [confined w w'] holds when the tokens, the access rules, the value of every
    option, the resources, the loaded extensions and the registries of connections
    are in [w'] what they are in [w]; files, processes, windows, mounts, the log,
    opened files and the platform's state may differ.  Every controller is
    confined, in every outcome, and answers with a well-formed object. *)

From S2P Require Import Prelude Strings Regex OMap Outcome Json Errors State Triple MemPlatform.
From S2P Require Import Helpers Options Paths Locale Permission Auth Connections Base64 Efsw Fs.
From S2P Require Import FsControllers Resources Settings Storage Os OsControllers Methods Window.
From S2P Require Import Trash TrashFacts App ApiControllers Net Clipboard Computer Router MemLibs OptionsFacts.
From Stdlib Require Import Ascii.
Import helpers settings neuserver events.

Section confined.
Context `{Platform}.

(** the tokens stay, and a token that was handed out stays handed out *)
Definition auth_kept (a a' : AuthState) : Prop :=
  token a' = token a /\ connectToken a' = connectToken a /\ tokenSecurity a' = tokenSecurity a /\
  (tokenSent a = true -> tokenSent a' = true).

Record rules_kept (w w' : World) : Prop := {
  rk_settings : exists o, w_settings w' = upd_options (fun _ => o) (w_settings w);
  rk_opts : opt_equiv (opts w) (opts w');
  rk_resources : w_resources w' = w_resources w;
  rk_auth : auth_kept (w_auth w) (w_auth w');
  rk_perm : w_perm w' = w_perm w;
  rk_ext : w_ext w' = w_ext w;
  rk_storage : w_storagePath w' = w_storagePath w
}.

Record confined (w w' : World) : Prop := {
  cf_rules : rules_kept w w';
  cf_apps : appConnections (w_server w') = appConnections (w_server w);
  cf_exts : extConnections (w_server w') = extConnections (w_server w);
  cf_modes : wsMode (w_server w') = wsMode (w_server w)
}.

#[export] Instance rules_kept_preorder : PreOrder rules_kept.
Proof.
  split.
  - intros w. split; try done. exists (opts w). unfold opts. by destruct (w_settings w).
  - intros w1 w2 w3 [[o Eo] ??????] [[o' Eo'] ??????].
    split; try congruence.
    + exists o'. by rewrite Eo', Eo.
    + by etrans.
    + unfold auth_kept in *. destruct_and!. split_and!; try congruence. auto.
Qed.

#[export] Instance confined_preorder : PreOrder confined.
Proof.
  split.
  - intros w. by split.
  - intros w1 w2 w3 [Hr ???] [Hr' ???]. split; try congruence. by etrans.
Qed.

Lemma rules_keep w w' :
  w_settings w' = w_settings w -> w_resources w' = w_resources w -> auth_kept (w_auth w) (w_auth w') ->
  w_perm w' = w_perm w -> w_ext w' = w_ext w -> w_storagePath w' = w_storagePath w -> rules_kept w w'.
Proof.
  intros Es **. split; try done; unfold opts; rewrite Es; [|done].
  exists (opts w). unfold opts. by destruct (w_settings w).
Qed.

Lemma confined_keep w w' :
  w_settings w' = w_settings w -> w_resources w' = w_resources w -> auth_kept (w_auth w) (w_auth w') ->
  w_perm w' = w_perm w -> w_ext w' = w_ext w -> w_storagePath w' = w_storagePath w ->
  appConnections (w_server w') = appConnections (w_server w) ->
  extConnections (w_server w') = extConnections (w_server w) ->
  wsMode (w_server w') = wsMode (w_server w) -> confined w w'.
Proof.
  intros. split; try done. by apply rules_keep.
Qed.

Lemma confined_sys : sys_free confined.
Proof. intros w y. by apply confined_keep. Qed.

Lemma confined_weq w w' : weq w w' -> confined w w'.
Proof. intros [E Ew]. rewrite Ew. split; try done. by split; try done; eexists. Qed.
End confined.

(** ** Answers *)

(** an error object of the sources: a code and its text *)
Definition is_error (e : json) : Prop := exists code param, e = errors.makeErrorPayload code param.

(** [success] is [true] and there is no error, or there is an error and no [success] *)
Definition answer (j : json) : Prop :=
  (jget j "success" = JBool true /\ contains j "error" = false) \/
  (contains j "success" = false /\ is_error (jget j "error")).

Lemma answer_error code param : answer (mk_obj [("error", errors.makeErrorPayload code param)]).
Proof. right. split; [done|]. by exists code, param. Qed.

Lemma answer_missing arg : answer (mk_obj [("error", errors.makeMissingArgErrorPayload arg)]).
Proof. apply answer_error. Qed.

(** the error answers that keep an empty list *)
Lemma answer_list_error code param :
  answer (mk_obj [("returnValue", JArr []); ("error", errors.makeErrorPayload code param)]).
Proof. right. split; [done|]. by exists code, param. Qed.

Lemma answer_bucket key e : storage.__validateStorageBucket key = Some e -> answer e.
Proof. unfold storage.__validateStorageBucket. case_match; intros [= <-]. apply answer_error. Qed.

#[export] Hint Resolve answer_error answer_list_error answer_bucket : frame.

Section answers.
Context `{Platform}.
Context (R : relation World) `{!PreOrder R}.

Lemma triple_success : triple R ret_success answer.
Proof. apply triple_ret; [done|]. by left. Qed.
Lemma triple_message m : triple R (ret_message m) answer.
Proof. apply triple_ret; [done|]. by left. Qed.
Lemma triple_value v : triple R (ret_value v) answer.
Proof. apply triple_ret; [done|]. by left. Qed.
Lemma triple_error code param : triple R (ret_error (errors.makeErrorPayload code param)) answer.
Proof. apply triple_ret; [done|]. apply answer_error. Qed.
Lemma triple_missing arg : triple R (ret_missing arg) answer.
Proof. apply triple_error. Qed.
Lemma triple_dir_error code param :
  triple R (fs_controllers.ret_dir_error (errors.makeErrorPayload code param)) answer.
Proof. apply triple_ret; [done|]. apply answer_list_error. Qed.
Lemma triple_dir_missing arg :
  triple R (fs_controllers.ret_dir_error (errors.makeMissingArgErrorPayload arg)) answer.
Proof. apply triple_dir_error. Qed.
Lemma triple_net_error e : triple R (ret_error (net.error_payload e)) answer.
Proof. destruct e; apply triple_error. Qed.
Lemma frames_field {A} input k (get : json -> outcome A) : frames R (field input k get).
Proof. by apply triple_lift. Qed.
Lemma frames_field_or {A} input k (get : json -> outcome A) d : frames R (field_or input k get d).
Proof. unfold field_or. destruct (hasField _ _); [apply frames_field|by apply triple_ret]. Qed.
End answers.

#[export] Hint Resolve triple_success triple_message triple_value triple_error triple_missing
  triple_dir_error triple_dir_missing triple_net_error frames_field frames_field_or : frame.

(** ** The functions that controllers call *)

Section leaves.
Context `{Platform}.

Lemma frames_modify (f : World -> World) : (forall w, confined w (f w)) -> frames confined (modify f).
Proof. intros Hf. by apply triple_modify. Qed.
Lemma frames_sys_call {A} (f : sys -> A * sys) : frames confined (sys_call f).
Proof. by apply triple_sys_call; [apply confined_sys|]. Qed.
Lemma frames_sys_call_o {A} (f : sys -> outcome A * sys) : frames confined (sys_call_o f).
Proof.
  unfold sys_call_o. eapply triple_bind; [apply _|apply frames_sys_call|].
  intros r _. by apply triple_lift; [apply _|].
Qed.
Lemma frames_upd_fs f : frames confined (modify (upd_fs f)).
Proof. apply frames_modify. intros w. by apply confined_keep. Qed.
Lemma frames_upd_os f : frames confined (modify (upd_os f)).
Proof. apply frames_modify. intros w. by apply confined_keep. Qed.
Lemma frames_upd_pfd f : frames confined (modify (upd_pfd f)).
Proof. apply frames_modify. intros w. by apply confined_keep. Qed.
Lemma frames_upd_window f : frames confined (modify (upd_window f)).
Proof. apply frames_modify. intros w. by apply confined_keep. Qed.
Lemma frames_upd_mounts f : frames confined (modify (upd_mounts f)).
Proof. apply frames_modify. intros w. by apply confined_keep. Qed.
Lemma frames_set_sent : frames confined (modify (upd_auth authbasic.set_sent)).
Proof. apply frames_modify. intros w. by apply confined_keep. Qed.
Lemma frames_idle f : frames confined (modify (upd_server (set_idle f))).
Proof. apply frames_modify. intros w. by apply confined_keep. Qed.
Lemma frames_log t m : frames confined (log t m).
Proof. apply frames_modify. intros w. by apply confined_keep. Qed.
Lemma frames_add_sent m : frames confined (modify (upd_server (add_sent m))).
Proof. apply frames_modify. intros w. by apply confined_keep. Qed.
Lemma frames_stop : frames confined stop.
Proof. apply frames_modify. intros w. by apply confined_keep. Qed.
Lemma frames_set_native b : frames confined (window.set_native b).
Proof. apply frames_upd_window. Qed.
Lemma frames_upd_props f : frames confined (window.upd_props f).
Proof. apply frames_upd_window. Qed.
End leaves.

#[export] Hint Resolve frames_sys_call frames_sys_call_o frames_upd_fs frames_upd_os frames_upd_pfd
  frames_upd_window frames_upd_mounts frames_log frames_set_sent frames_idle frames_add_sent frames_stop frames_set_native
  frames_upd_props : frame.

(** ** Options *)

Lemma jref_obj o k f o' : jref o k f = Ret o' -> obj_or_null o.
Proof. by destruct o. Qed.

Section options.
Context `{Platform}.

Lemma frames_read_options ks :
  (forall o o', jref_path ks o = Ret o' -> opt_equiv o o') -> frames confined (read_options ks).
Proof.
  intros Hk w. split; [|done]. unfold read_options, get_options, set_options. munfold. fold (opts w).
  destruct (jref_path ks (opts w)) as [o'| | | |] eqn:E; try reflexivity.
  apply confined_weq, weq_with_opts. by apply Hk.
Qed.

Lemma frames_option k : frames confined (read_options [k]).
Proof.
  apply frames_read_options. intros o o' E. pose proof (jref_obj _ _ _ _ E) as Ho.
  destruct (jref_path_top o k Ho) as (o1 & E1 & Heq & _). congruence.
Qed.

Lemma frames_mode_option m k : frames confined (read_options ["modes"; m; k]).
Proof.
  apply frames_read_options. intros o o' E. pose proof (jref_obj _ _ _ _ E) as Ho.
  assert (obj_or_null (jget o "modes") /\ obj_or_null (jget_path ["modes"; m] o)) as [Hms Hm].
  { simpl in E |- *. destruct o as [| | | | | | |os]; try done.
    simpl in *. destruct (default JNull (omap_get "modes" os)) as [| | | | | | |ms]; try done.
    simpl in *. by destruct (default JNull (omap_get m ms)). }
  destruct (jref_path_mode o m k Ho Hms Hm) as (o1 & E1 & Heq & _). congruence.
Qed.
End options.

#[export] Hint Resolve frames_option frames_mode_option : frame.

(** ** Functions of the components *)

Section components.
Context `{Platform}.

Lemma frames_getMode : frames confined getMode.
Proof. frame_go. Qed.
Hint Resolve frames_getMode : frame.
Lemma frames_getOption k : frames confined (getOptionForCurrentMode k).
Proof. frame_go. Qed.
Lemma frames_send h p o : frames confined (send h p o).
Proof. frame_go. Qed.
Hint Resolve frames_send : frame.
Lemma frames_broadcastToAllExtensions m : frames confined (broadcastToAllExtensions m).
Proof. frame_go. Qed.
Lemma frames_broadcastToAllApps m : frames confined (broadcastToAllApps m).
Proof. frame_go. Qed.
Hint Resolve frames_broadcastToAllExtensions frames_broadcastToAllApps : frame.
Lemma frames_sendToExtension i m : frames confined (sendToExtension i m).
Proof. frame_go. Qed.
End components.
#[export] Hint Resolve frames_getMode frames_getOption frames_send frames_broadcastToAllExtensions
  frames_broadcastToAllApps frames_sendToExtension : frame.

(** the watcher of directories *)
Section watcher.
Context `{Platform}.

Lemma frames_mount_loop fuel st : frames confined (efsw.mount_loop fuel st).
Proof. revert st. induction fuel as [|fuel IH]; intros st; cbn [efsw.mount_loop]; frame_go. Qed.
Hint Resolve frames_mount_loop : frame.
Lemma frames_watchable dir parent : frames confined (efsw.watchable dir parent).
Proof. frame_go. Qed.
Hint Resolve frames_watchable : frame.
Lemma frames_addWatch fuel dir l r parent : frames confined (efsw.addWatch fuel dir l r parent).
Proof. revert dir parent. induction fuel as [|fuel IH]; intros dir parent; cbn [efsw.addWatch]; frame_go. Qed.
Lemma frames_removeWatchLocked fuel id : frames confined (efsw.removeWatchLocked fuel id).
Proof. revert id. induction fuel as [|fuel IH]; intros id; cbn [efsw.removeWatchLocked]; frame_go. Qed.
End watcher.
#[export] Hint Resolve frames_mount_loop frames_addWatch frames_removeWatchLocked : frame.

Section functions.
Context `{Platform}.

Lemma frames_dispatch ev data : frames confined (dispatch ev data).
Proof. frame_go. Qed.
Hint Resolve frames_dispatch : frame.
Lemma frames_readFile p o : frames confined (fs.readFile p o).
Proof. frame_go. Qed.
Lemma frames_writeFile o : frames confined (fs.writeFile o).
Proof.
  intros w. split; [|done]. unfold fs.writeFile. destruct (sys_write _ _ _ _); [apply confined_sys|done].
Qed.
Lemma frames_getStats p : frames confined (fs.getStats p).
Proof. frame_go. Qed.
Hint Resolve frames_readFile frames_writeFile frames_getStats : frame.
Lemma frames_readDirectory p r : frames confined (fs.readDirectory p r).
Proof. frame_go. Qed.
Lemma frames_readStream_loop fuel e r : frames confined (fs.__readStream_loop fuel e r).
Proof.
  revert r. induction fuel as [|fuel IH]; intros r; cbn [fs.__readStream_loop]; [frame_go|].
  destruct (stream.peek r) as [more r']. frame_go.
Qed.
Lemma frames_applyPathNames names p : frames confined (paths.applyPathNames names p).
Proof. revert p. induction names as [|n names IH]; intros p; cbn [paths.applyPathNames]; frame_go. Qed.
Hint Resolve frames_applyPathNames : frame.
Lemma frames_hasFileSystemPathAccess p a : frames confined (permission.hasFileSystemPathAccess p a).
Proof. frame_go. Qed.
Lemma frames_read_lines fuel all l : frames confined (app.read_lines fuel all l).
Proof. revert l. induction fuel as [|fuel IH]; intros l; cbn [app.read_lines]; frame_go. Qed.
Lemma frames_fill_menus i items : frames confined (os_controllers.fill_menus i items).
Proof. revert i. induction items as [|x items IH]; intros i; cbn [os_controllers.fill_menus]; frame_go. Qed.
Lemma frames_convert_all l : frames confined (res_controllers.convert_all l).
Proof. induction l as [|e l IH]; cbn [res_controllers.convert_all]; frame_go. Qed.
End functions.
#[export] Hint Resolve frames_dispatch frames_readFile frames_writeFile frames_getStats
  frames_readDirectory frames_readStream_loop frames_applyPathNames frames_hasFileSystemPathAccess
  frames_read_lines frames_fill_menus frames_convert_all : frame.

(** ** The trash can *)

Section trash.
Context `{Platform}.

Lemma frames_trash p : frames confined (trashcan.trashcan_soft_delete p).
Proof. apply frames_soft_delete; auto with frame. Qed.
End trash.
#[export] Hint Resolve frames_trash : frame.

(** ** Pages and events *)

Section callbacks.
Context `{Platform}.

Lemma frames_globalVars : frames confined globalVars.
Proof. frame_go. Qed.
Lemma frames_find_file p o : frames confined (router.find_file p o).
Proof. frame_go. Qed.
Hint Resolve frames_globalVars frames_find_file : frame.
Lemma frames_getAsset fuel p d o : frames confined (router.getAsset fuel p d o).
Proof.
  revert p. induction fuel as [|fuel IH]; intros p; cbn [router.getAsset]; frame_go.
Qed.
Hint Resolve frames_getAsset : frame.
Lemma handleHTTP_confined fuel resource range : frames confined (router.handleHTTP fuel resource range).
Proof. frame_go. Qed.
Lemma handleValidate_confined con : frames confined (handlers.handleValidate con).
Proof. frame_go. Qed.

(** What else runs after the start: the handlers of the window, the menus and the
    tray, of child processes and file watchers, and the delayed threads. *)
Inductive callback : M unit -> Prop :=
| cb_window state : callback (window_handlers.windowStateChange state)
| cb_new_window url : callback (_ ← window_handlers.decideNewWindowPolicy url; mret tt)
| cb_drop paths : callback (window_handlers.on_files_dropped paths)
| cb_main_menu item : callback (window_handlers.__handleMainMenuItem item)
| cb_tray_menu item : callback (os_controllers.__handleTrayMenuItem item)
| cb_dispatched : callback window_handlers.run_dispatched
| cb_output id p stdErr bytes : callback (os.on_output id p stdErr bytes)
| cb_exit id p : callback (os.process_thread id p)
| cb_watch id dir filename action old :
    callback (fs.__dispatchWatcherEvt id dir filename action old)
| cb_watch_turn received : callback (fs.watch_turn received)
| cb_idle : callback app.idle_check.

Lemma frames_notify watch filename action old : frames confined (efsw.notify (H0 := fs.__WatcherListener) watch filename action old).
Proof.
  unfold efsw.notify. do 2 (triple_step; [frame_go|]). cbn [handleFileAction fs.__WatcherListener]. frame_go.
Qed.
Hint Resolve frames_notify : frame.
Lemma frames_handleAction watch filename action : frames confined (efsw.handleAction (H0 := fs.__WatcherListener) watch filename action).
Proof. frame_go. Qed.
Hint Resolve frames_handleAction : frame.

Lemma callback_confined m : callback m -> frames confined m.
Proof. intros []; frame_go. Qed.
End callbacks.

(** ** Native calls *)

Section native.
Context `{NativeApi}.

(** what a method of the table may return: [app.exit], which returns only in
    window mode, has no answer object *)
Definition method_answer (id : string) (j : json) : Prop :=
  if decide (id = "app.exit") then j = JNull else answer j.

Lemma methods_confined :
  Forall (fun e => forall input, triple confined (e.2 input) (method_answer e.1)) router.methodMap.
Proof.
  unfold router.methodMap.
  apply List.Forall_cons.
  { intros input. change (method_answer _) with (fun j => j = JNull). cbn [fst snd]. frame_go. }
  repeat (apply List.Forall_cons;
    [intros input; change (method_answer _) with answer; cbn [fst snd]; frame_go|]).
  constructor.
Qed.

Lemma find_method_elem id f : router.find_method id = Some f -> (id, f) ∈ router.methodMap.
Proof.
  unfold router.find_method. induction router.methodMap as [|[k g] l IH]; [done|].
  cbn [find_first fst]. case_bool_decide as E; intros Hf; [|by right; apply IH].
  simplify_eq/=. by left.
Qed.

(** what a call answers: an object, except for a returning [app.exit] *)
Definition reply_ok (request response : NativeMessage) : Prop :=
  nm_id response = nm_id request /\ nm_method response = nm_method request /\
  nm_accessToken response = "" /\
  (answer (nm_data response) \/ nm_method request = "app.exit" /\ nm_data response = JNull).

Lemma reply_error_ok request code param : reply_ok request (router.reply_error request code param).
Proof. split_and!; try done. left. apply answer_error. Qed.

Lemma triple_call_method f request :
  router.find_method (nm_method request) = Some f ->
  triple confined (router.call_method f request) (fun j =>
    answer j \/ nm_method request = "app.exit" /\ j = JNull).
Proof.
  intros Hf. unfold router.call_method. triple_step; [frame_go|]. destruct (_ && _).
  - apply triple_ret; [apply _|]. left. by left.
  - pose proof methods_confined as Hm. rewrite Forall_forall in Hm.
    eapply triple_weaken; [apply (Hm _ (find_method_elem _ _ Hf))|].
    cbn [fst]. unfold method_answer. intros j. destruct (decide _); auto.
Qed.

Lemma triple_executeNativeMethod request :
  triple confined (router.executeNativeMethod request) (reply_ok request).
Proof.
  assert (forall code param,
    triple confined (mret (router.reply_error request code param)) (reply_ok request)) as He.
  { intros code param. apply triple_ret; [apply _|]. apply reply_error_ok. }
  unfold router.executeNativeMethod. cbv zeta.
  triple_step; [frame_go|]. destruct (negb _); [apply He|].
  triple_step; [frame_go|]. destruct (negb _); [apply He|].
  triple_step; [frame_go|]. destruct (negb _); [apply He|].
  destruct (router.find_method _) as [f|] eqn:Ef; [|apply He].
  apply triple_try; [apply _| |by intros].
  eapply triple_bind; [apply _|by apply triple_call_method|].
  intros j Hj. by apply triple_ret; [apply _|].
Qed.

Lemma frames_read_message payload : frames confined (router.read_message payload).
Proof. frame_go. Qed.
End native.

(** C11: every native call that returns answers with a well-formed object: it names
    the call's id and method, carries no token, and its data has [success] set and
    no error, or an error with a code and a message and no [success]; the one
    exception is app.exit, which returns nothing in window mode. *)
Theorem native_answers `{NativeApi} (request response : NativeMessage) (w w' : World)
    (He : router.executeNativeMethod request w = (Ret response, w')) :
  nm_id response = nm_id request /\ nm_method response = nm_method request /\
  nm_accessToken response = "" /\
  ((jget (nm_data response) "success" = JBool true /\ contains (nm_data response) "error" = false) \/
   (contains (nm_data response) "success" = false /\
    exists code param, jget (nm_data response) "error" = errors.makeErrorPayload code param) \/
   (nm_method request = "app.exit" /\ nm_data response = JNull)).
Proof.
  destruct (triple_executeNativeMethod request w) as [_ HQ]. rewrite He in HQ.
  destruct (HQ response eq_refl) as (? & ? & ? & [[Ha|Ha]|Ha]); split_and!; auto.
Qed.

(** C30: a native call changes no access rule, no option, no resource, no loaded
    extension and no registered connection, whatever the method, its data and its
    outcome: an answer, an exception, an exit, undefined behaviour or no end. *)
Theorem native_calls_confined `{NativeApi} (request : NativeMessage) (w : World) :
  confined w (snd (router.executeNativeMethod request w)).
Proof. apply (triple_snd _ _ _ w (triple_executeNativeMethod request)). Qed.

Section answers_witness.
#[local] Existing Instance demo.
#[local] Instance answers_api : NativeApi := mem_api.

Definition answers_world : World :=
  upd_auth (authbasic.set_tokens "T" "C") (with_opts (JObj [("enableNativeAPI", JBool true)]) demo_world).
Definition answers_request : NativeMessage :=
  {| nm_id := "5"; nm_method := "clipboard.writeText"; nm_accessToken := "T"; nm_data := JObj [] |}.

Definition answers_reply : NativeMessage :=
  {| nm_id := "5"; nm_method := "clipboard.writeText"; nm_accessToken := "";
     nm_data := mk_obj [("error", errors.makeErrorPayload errors.NE_RT_NATRTER "data")] |}.

Lemma native_answers_witness :
  fst (router.executeNativeMethod answers_request answers_world) = Ret answers_reply /\
  nm_id answers_reply = "5" /\ contains (nm_data answers_reply) "success" = false.
Proof.
  assert (fst (router.executeNativeMethod answers_request answers_world) = Ret answers_reply) as E
    by (vm_compute; reflexivity).
  destruct (native_answers answers_request answers_reply answers_world
    (snd (router.executeNativeMethod answers_request answers_world))) as (Hid & _).
  - rewrite (surjective_pairing (router.executeNativeMethod _ _)). by rewrite E.
  - split_and!; [exact E|exact Hid|reflexivity].
Defined.
End answers_witness.
