(* ===== verification/JsonFacts.v ===== *)
(** * Facts about JSON pointers and patches

    [shape p j]: the steps of [p] in [j] lead through objects, members that are
    missing or [null] apart.  [present p j]: they lead through objects all the
    way, and the last member is there.  Writing along a path that only has object
    steps leaves every path that branches off it as it was. *)

From S2P Require Import Prelude Strings OMap Outcome Json JsonLex JsonPatch Options.
From Stdlib Require Import Ascii.
Import settings json_pointer json_patch.

(** a reference token that [get_unchecked] does not take for an array index *)
Definition key_token (t : string) : Prop := sforall isdigit t = false /\ t <> "-".

Fixpoint shape (p : list string) (j : json) : Prop :=
  match p with
  | [] => True
  | t :: p => match j with JNull | JObj _ => True | _ => False end /\ shape p (jget j t)
  end.

Fixpoint present (p : list string) (j : json) : Prop :=
  match p with
  | [] => True
  | t :: p =>
      match j with
      | JObj m => match omap_get t m with Some v => present p v | None => False end
      | _ => False
      end
  end.

(** the paths part at some step *)
Fixpoint apart (p q : list string) : Prop :=
  match p, q with
  | a :: p, b :: q => a <> b \/ apart p q
  | _, _ => False
  end.

#[export] Instance shape_dec p : forall j, Decision (shape p j).
Proof. induction p; intros []; simpl; apply _. Defined.
#[export] Instance apart_dec p : forall q, Decision (apart p q).
Proof. induction p; intros []; simpl; apply _. Defined.
#[export] Instance key_token_dec t : Decision (key_token t).
Proof. apply _. Defined.

Lemma shape_null p : shape p JNull.
Proof. induction p; simpl; auto. Qed.

Lemma present_shape p : forall j, present p j -> shape p j.
Proof.
  induction p as [|t p IH]; intros j; simpl; [done|]. destruct j as [| | | | | | |m]; try done.
  simpl. destruct (omap_get t m); [|done]. auto.
Qed.

(** what a write along [p] keeps *)
Definition kept (p : list string) (j j' : json) : Prop :=
  forall q, apart p q ->
    jget_path q j' = jget_path q j /\ (shape q j -> shape q j') /\ (present q j -> present q j').

Lemma kept_set t p m v v' :
  kept p v v' -> default JNull (omap_get t m) = v ->
  kept (t :: p) (JObj m) (JObj (omap_set t v' m)).
Proof.
  intros Hk Hv [|b q] Ha; [done|]. simpl. destruct (decide (b = t)) as [->|Hne].
  - destruct Ha as [|Ha]; [done|]. destruct (Hk q Ha) as (H1 & H2 & H3).
    rewrite omap_get_set_eq. simpl. rewrite Hv. split_and!; [done|naive_solver|].
    destruct (omap_get t m) as [x|]; simpl in Hv; subst; [done|]. intros [].
  - by rewrite omap_get_set_ne.
Qed.

Lemma get_unchecked_spec p : forall f j v,
  shape p j -> Forall key_token p -> f (jget_path p j) = Ret v ->
  exists j', get_unchecked p f j = Ret j' /\ present p j' /\ jget_path p j' = v /\ kept p j j'.
Proof.
  induction p as [|t p IH]; intros f j v Hs Ht Hf.
  - exists v. split_and!; [done..|]. by intros q [].
  - apply Forall_cons in Ht as [[Hd Hm] Ht]. destruct Hs as [Hj Hs].
    assert (exists m, get_unchecked (t :: p) f j =
              (v ← get_unchecked p f (default JNull (omap_get t m)); Ret (JObj (omap_set t v m))) /\
            default JNull (omap_get t m) = jget j t /\ kept [] j (JObj m) /\
            forall j', kept (t :: p) (JObj m) j' -> kept (t :: p) j j')
      as (m & E & Em & _ & Hkm).
    { destruct j as [| | | | | | |m]; try done.
      - exists []. simpl. rewrite Hd, bool_decide_eq_false_2 by done. simpl.
        split_and!; [done..|by intros q []|].
        intros j' Hk [|b q] Ha; [done|]. destruct (Hk (b :: q) Ha) as (H1 & H2 & H3).
        simpl in *. rewrite H1. split_and!; [done| |by intros []].
        intros _. apply H2. split; [done|apply shape_null].
      - exists m. simpl. split_and!; [done..|by intros q []|done]. }
    destruct (IH f (default JNull (omap_get t m)) v) as (v' & E' & Hp & Hv & Hk); [by rewrite Em|done|..].
    { by rewrite Em. }
    exists (JObj (omap_set t v' m)). split_and!.
    + rewrite E, E'. done.
    + simpl. by rewrite omap_get_set_eq.
    + simpl. by rewrite omap_get_set_eq.
    + apply Hkm. by eapply kept_set.
Qed.

Lemma get_checked_spec p : forall f j v,
  present p j -> f (jget_path p j) = Ret v ->
  exists j', get_checked p f j = Ret j' /\ present p j' /\ jget_path p j' = v /\ kept p j j'.
Proof.
  induction p as [|t p IH]; intros f j v Hp Hf.
  - exists v. split_and!; [done..|]. by intros q [].
  - simpl in Hp. destruct j as [| | | | | | |m]; try done.
    destruct (omap_get t m) as [x|] eqn:E; [|done].
    simpl in Hf. rewrite E in Hf. simpl in Hf.
    destruct (IH f x v Hp Hf) as (x' & E' & Hp' & Hv & Hk).
    exists (JObj (omap_set t x' m)). split_and!.
    + simpl. by rewrite E, E'.
    + simpl. by rewrite omap_get_set_eq.
    + simpl. by rewrite omap_get_set_eq.
    + eapply kept_set; [exact Hk|]. by rewrite E.
Qed.

Lemma at_pointer_present p : forall j, present p j -> at_pointer p j = Ret (jget_path p j).
Proof.
  induction p as [|t p IH]; intros j Hp; [done|]. simpl in *. destruct j as [| | | | | | |m]; try done.
  simpl. destruct (omap_get t m) as [v|]; [|done]. by apply IH.
Qed.

(** adding at a location that exists replaces it *)
Lemma add_child_at val p : forall j, present p j -> p <> [] ->
  get_checked (removelast p) (add_child (List.last p "") val) j = get_checked p (fun _ => Ret val) j.
Proof.
  induction p as [|a [|b p] IH]; intros j Hp Hne; [done| |].
  - simpl in *. destruct j as [| | | | | | |m]; try done. by destruct (omap_get a m).
  - change (removelast (a :: b :: p)) with (a :: removelast (b :: p)).
    change (List.last (a :: b :: p) "") with (List.last (b :: p) "").
    remember (b :: p) as bp eqn:Ebp. simpl in *. destruct j as [| | | | | | |m]; try done.
    destruct (omap_get a m) as [x|] eqn:E; [|done]. rewrite IH by (done || by subst). done.
Qed.

Lemma operation_add_at p val j :
  p <> [] -> present p j -> operation_add p val j = get_checked p (fun _ => Ret val) j.
Proof.
  intros Hne Hp. destruct p as [|t p]; [done|]. unfold operation_add. cbn [top mbind outcome_bind].
  assert (exists o, (if decide ([t] <> t :: p) then at_pointer [t] j else Ret JNull) = Ret o) as [o ->].
  { destruct (decide _); [|by eexists]. simpl in *. destruct j as [| | | | | | |m]; try done.
    destruct (omap_get t m); [by eexists|done]. }
  cbn [mbind outcome_bind back pop_back]. by apply add_child_at.
Qed.

(** an operation that writes a value *)
Definition write_op (op path : string) (v : json) : json :=
  mk_obj [("op", JStr op); ("path", JStr path); ("value", v)].

(** both kinds of operations write a location that exists *)
Lemma apply_write_spec `{FloatLib} op path v toks j :
  op ∈ ["add"; "replace"] -> split path = Ret toks -> toks <> [] -> present toks j ->
  exists j', apply_operation (write_op op path v) j = Ret j' /\ present toks j' /\ jget_path toks j' = v /\
             kept toks j j'.
Proof.
  intros Hop E Hne Hp.
  destruct (get_checked_spec toks (fun _ => Ret v) j v Hp eq_refl) as (j' & E' & H1 & H2 & H3).
  exists j'. split_and!; try done.
  assert (apply_operation (write_op op path v) j =
    match get_op op with op_add => operation_add toks v j | _ => get_checked toks (fun _ => Ret v) j end) as ->.
  { change (write_op op path v) with (JObj [("op", JStr op); ("path", JStr path); ("value", v)]).
    unfold apply_operation.
    change (get_value _ "op" "op" true) with (Ret (JStr op)). cbn [mbind outcome_bind get_string].
    change (get_value _ op "path" true) with (Ret (JStr path)). cbn [mbind outcome_bind get_string].
    rewrite E. cbn [mbind outcome_bind]. by apply list_elem_of_In in Hop as [<-|[<-|[]]]. }
  destruct (get_op op); try done. by rewrite operation_add_at.
Qed.
