(* ===== verification/JsonPatchFacts.v ===== *)
(** * Facts about JSON pointers and the operations of a patch

    A pointer is read back as the tokens that it was printed from.  What an operation
    adds is found at its location, and removing it again restores the document. *)

From S2P Require Import Prelude Strings OMap Outcome Json JsonLex JsonPatch.
From Stdlib Require Import Ascii.
Import json_pointer json_patch.

(** ** Pointers as text *)

Definition escape_char (c : ascii) : string :=
  if decide (c = "~"%char) then "~0" else if decide (c = "/"%char) then "~1" else String c EmptyString.
Fixpoint escaped (s : string) : string :=
  match s with EmptyString => EmptyString | String c s => escape_char c +:+ escaped s end.
(** with the slashes read back *)
Fixpoint half_escaped (s : string) : string :=
  match s with
  | EmptyString => EmptyString
  | String c s => (if decide (c = "~"%char) then "~0" else String c EmptyString) +:+ half_escaped s
  end.

Lemma replace_hit f t c s : starts_with f (String c s) = true ->
  replace_substring f t 0 (String c s) = t +:+ replace_substring f t (pred (slen f)) s.
Proof. intros E. cbn [replace_substring]. by rewrite E. Qed.
Lemma replace_miss f t c s : starts_with f (String c s) = false ->
  replace_substring f t 0 (String c s) = String c (replace_substring f t 0 s).
Proof. intros E. cbn [replace_substring]. by rewrite E. Qed.
Lemma starts_with_ne a f c s : a <> c -> starts_with (String a f) (String c s) = false.
Proof. intros Hne. cbn. by rewrite bool_decide_eq_false_2. Qed.

Lemma escape_eq s : escape s = escaped s.
Proof.
  unfold escape. induction s as [|c s IH]; [done|]. cbn [escaped]. unfold escape_char.
  destruct (decide (c = "~"%char)) as [->|Hc].
  - rewrite (replace_hit "~") by done.
    change ("~0" +:+ ?x) with (String "~" (String "0" x)). cbn [slen String.length pred].
    rewrite !(replace_miss "/") by done. by rewrite IH.
  - rewrite (replace_miss "~") by (apply starts_with_ne; congruence).
    destruct (decide (c = "/"%char)) as [->|Hs].
    + rewrite (replace_hit "/") by done. cbn [String.length pred]. by rewrite IH.
    + rewrite (replace_miss "/") by (apply starts_with_ne; congruence). by rewrite IH.
Qed.

Lemma unescape_escaped s : unescape (escaped s) = s.
Proof.
  unfold unescape. assert (replace_substring "~1" "/" 0 (escaped s) = half_escaped s) as ->.
  { induction s as [|c s IH]; [done|]. cbn [escaped half_escaped]. unfold escape_char.
    destruct (decide (c = "~"%char)) as [->|Hc].
    - change ("~0" +:+ escaped s) with (String "~" (String "0" (escaped s))).
      rewrite !(replace_miss "~1") by done. by rewrite IH.
    - destruct (decide (c = "/"%char)) as [->|Hs].
      + change ("~1" +:+ escaped s) with (String "~" (String "1" (escaped s))).
        rewrite (replace_hit "~1") by done. cbn [String.length pred replace_substring]. by rewrite IH.
      + change (String c EmptyString +:+ escaped s) with (String c (escaped s)).
        rewrite (replace_miss "~1") by (apply starts_with_ne; congruence). by rewrite IH. }
  induction s as [|c s IH]; [done|]. cbn [half_escaped].
  destruct (decide (c = "~"%char)) as [->|Hc].
  - change ("~0" +:+ half_escaped s) with (String "~" (String "0" (half_escaped s))).
    rewrite (replace_hit "~0") by done. cbn [String.length pred replace_substring]. by rewrite IH.
  - change (String c EmptyString +:+ half_escaped s) with (String c (half_escaped s)).
    rewrite (replace_miss "~0") by (apply starts_with_ne; congruence). by rewrite IH.
Qed.

Lemma escape_char_cases (P : string -> ascii -> Prop) c s :
  P (String "~" (String "0" s)) "~"%char -> P (String "~" (String "1" s)) "/"%char ->
  (c <> "~"%char -> c <> "/"%char -> P (String c s) c) -> P (escape_char c +:+ s) c.
Proof.
  intros H1 H2 H3. unfold escape_char. destruct (decide (c = "~"%char)) as [->|Hc]; [done|].
  destruct (decide (c = "/"%char)) as [->|Hs]; [done|]. by apply H3.
Qed.

Lemma escapes_ok_escaped s : escapes_ok (escaped s) = true.
Proof.
  induction s as [|c s IH]; [done|]. cbn [escaped].
  apply (escape_char_cases (fun e _ => escapes_ok e = true)); [done..|].
  intros Hc _. cbn [escapes_ok]. by rewrite decide_False.
Qed.

Lemma reference_token_escape s : reference_token (escape s) = Ret s.
Proof. unfold reference_token. by rewrite escape_eq, escapes_ok_escaped, unescape_escaped. Qed.

Lemma slash_parts_app s t : slash_parts (escaped s +:+ String "/" t) = escaped s :: slash_parts t.
Proof.
  induction s as [|c s IH]; [done|]. cbn [escaped]. rewrite <-sapp_assoc.
  apply (escape_char_cases (fun e c => slash_parts e = (escape_char c +:+ escaped s) :: slash_parts t));
    [cbn [slash_parts]; by rewrite IH..|].
  intros Hc Hs. cbn [slash_parts]. rewrite decide_False, IH by done. unfold escape_char.
  by rewrite !decide_False.
Qed.

Lemma slash_parts_escaped s : slash_parts (escaped s) = [escaped s].
Proof.
  induction s as [|c s IH]; [done|]. cbn [escaped].
  apply (escape_char_cases (fun e c => slash_parts e = [escape_char c +:+ escaped s]));
    [cbn [slash_parts]; by rewrite IH..|].
  intros Hc Hs. cbn [slash_parts]. rewrite decide_False, IH by done. unfold escape_char.
  by rewrite !decide_False.
Qed.

(** the text behind the first slash *)
Fixpoint joined (tokens : list string) : string :=
  match tokens with
  | [] => EmptyString
  | [t] => escape t
  | t :: ts => escape t +:+ "/" +:+ joined ts
  end.

Lemma joined_cons t u us : joined (t :: u :: us) = escape t +:+ String "/" (joined (u :: us)).
Proof. done. Qed.

Lemma pointer_string_joined t ts : pointer_string (t :: ts) = String "/" (joined (t :: ts)).
Proof.
  assert (forall ts t a, foldl (fun a b => a +:+ "/" +:+ escape b) (a +:+ escape t) ts = a +:+ joined (t :: ts)) as H.
  { induction ts0 as [|u us IH]; intros t0 a; [done|]. rewrite joined_cons. cbn [foldl].
    change (String "/" (joined (u :: us))) with ("/" +:+ joined (u :: us)). rewrite !sapp_assoc. apply IH. }
  apply (H ts t "/").
Qed.

Lemma split_parts t ts : omapM reference_token (slash_parts (joined (t :: ts))) = Ret (t :: ts).
Proof.
  revert t. induction ts as [|u us IH]; intros t.
  - cbn [joined]. rewrite escape_eq, slash_parts_escaped, <-escape_eq. cbn [omapM].
    by rewrite reference_token_escape.
  - rewrite joined_cons, escape_eq, slash_parts_app, <-escape_eq. cbn [omapM].
    rewrite reference_token_escape. cbn [mbind outcome_bind]. by rewrite IH.
Qed.

(** [json_pointer(ptr.to_string())] is [ptr], whatever its tokens are *)
Theorem pointer_roundtrip (tokens : list string) : split (pointer_string tokens) = Ret tokens.
Proof.
  destruct tokens as [|t ts]; [done|]. rewrite pointer_string_joined. cbn [split].
  rewrite decide_False by (intros H; by apply H). apply split_parts.
Qed.

(** ** The operations of a patch *)

(** writing at a location: what was read, and what is read then *)
Lemma get_checked_at p f : forall j j', get_checked p f j = Ret j' ->
  exists x x', at_pointer p j = Ret x /\ f x = Ret x' /\
    forall q, at_pointer (p ++ q) j' = at_pointer q x'.
Proof.
  induction p as [|t p IH]; intros j j' E; [by exists j, j'|]. cbn [get_checked at_pointer app] in *.
  destruct j as [| | | | | |l|m]; try done.
  - destruct (decide (t = "-")); [done|]. destruct (array_index t) as [idx| | | |]; try done. cbn [mbind outcome_bind] in *.
    destruct (l !! Z.to_nat idx) as [v|] eqn:El; [|done].
    destruct (get_checked p f v) as [v'| | | |] eqn:Ev; try done. injection E as <-.
    destruct (IH _ _ Ev) as (x & x' & H1 & H2 & H3). exists x, x'. split_and!; [done..|]. intros q.
    rewrite list_lookup_insert_eq by (by eapply lookup_lt_Some). apply H3.
  - destruct (omap_get t m) as [v|] eqn:El; [|done].
    destruct (get_checked p f v) as [v'| | | |] eqn:Ev; try done. injection E as <-.
    destruct (IH _ _ Ev) as (x & x' & H1 & H2 & H3). exists x, x'. split_and!; [done..|]. intros q.
    rewrite omap_get_set_eq. apply H3.
Qed.

Lemma operation_add_checked p t v j j' : operation_add (p ++ [t]) v j = Ret j' ->
  get_checked p (add_child t v) j = Ret j'.
Proof.
  unfold operation_add. destruct (p ++ [t]) as [|a l] eqn:El; [by destruct p|].
  change (back (a :: l)) with (Ret (List.last (a :: l) "")).
  change (pop_back (a :: l)) with (Ret (removelast (a :: l))).
  rewrite <-El, last_last, removelast_last. rewrite El. cbn [top mbind outcome_bind].
  by destruct (if decide ([a] <> a :: l) then at_pointer [a] j else Ret JNull).
Qed.

(** a place that an operation makes: a member that was not there, or an element *)
Definition new_child (t : string) (parent : json) : Prop :=
  match parent with JObj m => omap_has t m = false | JArr _ => t <> "-" | _ => False end.

(** what was added is found at its location *)
Lemma added_value_at p t v x j j' : at_pointer p j = Ret x -> new_child t x ->
  operation_add (p ++ [t]) v j = Ret j' -> at_pointer (p ++ [t]) j' = Ret v.
Proof.
  intros Hx Hn E%operation_add_checked.
  destruct (get_checked_at _ _ _ _ E) as (x1 & x' & Hx1 & Ex & ->). rewrite Hx in Hx1. injection Hx1 as <-.
  destruct x as [| | | | | |l|m]; try done; cbn [add_child new_child] in *.
  - rewrite decide_False in Ex by done.
    destruct (array_index t) as [idx| | | |] eqn:Ei; try done. cbn [mbind outcome_bind] in *.
    destruct (_ <? _)%Z eqn:El; [done|]. injection Ex as <-. apply Z.ltb_ge in El.
    cbn [at_pointer]. rewrite decide_False, Ei by done.
    cbn [mbind outcome_bind]. rewrite list_lookup_middle; [done|]. rewrite length_take. lia.
  - injection Ex as <-. cbn [at_pointer]. by rewrite omap_get_set_eq.
Qed.

(** The document is restored: [json_wf] says that the keys of the objects increase. *)
Lemma get_checked_undo p f g : forall j j' x, json_wf j -> at_pointer p j = Ret x ->
  (forall x', json_wf x -> f x = Ret x' -> g x' = Ret x) ->
  get_checked p f j = Ret j' -> get_checked p g j' = Ret j.
Proof.
  induction p as [|t p IH]; intros j j' x Hw Hx Hu E.
  { cbn in *. injection Hx as ->. by apply Hu. }
  cbn [get_checked at_pointer] in *. destruct j as [| | | | | |l|m]; try done.
  - destruct (decide (t = "-")); [done|]. destruct (array_index t) as [idx| | | |]; try done.
    cbn [mbind outcome_bind] in *. destruct (l !! Z.to_nat idx) as [v|] eqn:El; [|done].
    destruct (get_checked p f v) as [v'| | | |] eqn:Ev; try done. injection E as <-.
    rewrite list_lookup_insert_eq by (by eapply lookup_lt_Some).
    inversion Hw as [| | | | | |l' Hl|]; subst. rewrite Forall_lookup in Hl.
    rewrite (IH _ _ _ (Hl _ _ El) Hx Hu Ev). cbn [mbind outcome_bind]. by rewrite list_insert_insert_eq, list_insert_id.
  - destruct (omap_get t m) as [v|] eqn:El; [|done].
    destruct (get_checked p f v) as [v'| | | |] eqn:Ev; try done. injection E as <-.
    rewrite omap_get_set_eq. inversion Hw as [| | | | | | |m' Hm Hvs]; subst. rewrite Forall_forall in Hvs.
    rewrite (IH _ _ _ (Hvs _ (omap_get_elem _ _ _ El)) Hx Hu Ev). cbn [mbind outcome_bind].
    by rewrite omap_set_set, omap_set_same.
Qed.

Lemma remove_added t v x x' : new_child t x -> add_child t v x = Ret x' -> remove_child t x' = Ret x.
Proof.
  destruct x as [| | | | | |l|m]; try done; cbn [new_child add_child]; intros Hn E.
  - rewrite decide_False in E by done. destruct (array_index t) as [idx| | | |] eqn:Ei; try done.
    cbn [mbind outcome_bind] in E. destruct (_ <? _)%Z eqn:El; [done|]. injection E as <-. apply Z.ltb_ge in El.
    cbn [remove_child]. rewrite Ei. cbn [mbind outcome_bind].
    assert (length (take (Z.to_nat idx) l) = Z.to_nat idx) as Hlen by (rewrite length_take; lia).
    rewrite (proj2 (Z.leb_gt _ _)) by (rewrite length_app, Hlen; cbn [length]; rewrite length_drop; lia).
    rewrite <-Hlen at 1. by rewrite delete_middle, take_drop.
  - injection E as <-. cbn [remove_child]. unfold omap_has in *. rewrite omap_get_set_eq. cbn.
    apply bool_decide_eq_false, eq_None_not_Some in Hn. by rewrite omap_del_set.
Qed.


