(* ===== verification/ConnectionsFacts.v ===== *)
(** * Facts about the connections: delivery, validation, range headers *)

From S2P Require Import Prelude Strings Regex OMap Outcome Json Errors State MemPlatform Helpers.
From S2P Require Import Options Auth Connections HelpersFacts OptionsFacts.
From Stdlib Require Import Ascii.
Import helpers settings neuserver handlers.

(** ** Delivery *)

Definition add_sents (l : list (Z * opcode * string)) (s : ServerState) : ServerState :=
  {| appConnections := appConnections s; extConnections := extConnections s; wsMode := wsMode s;
     srv_initialized := srv_initialized s; applyConfigHeaders := applyConfigHeaders s;
     sent := sent s ++ l; idleChecks := idleChecks s; listening := listening s |}.

(** what a broadcast sends: to every app as text, to every extension as it talks *)
Definition app_mails (s : ServerState) (payload : string) : list (Z * opcode * string) :=
  (fun c => (c.1, OpText, payload)) <$> appConnections s.
Definition ext_mails (s : ServerState) (payload : string) : list (Z * opcode * string) :=
  (fun c => (c.2, default OpText (omap_get c.2 (wsMode s)), payload)) <$> extConnections s.
Definition mails (s : ServerState) (payload : string) : list (Z * opcode * string) :=
  app_mails s payload ++ ext_mails s payload.

Section delivery.
Context `{Platform}.

Definition reachable (w : World) : Prop := forall hdl, ws_can_send hdl (w_sys w) = true.

Lemma send_eq hdl p op w :
  reachable w -> send hdl p op w = (Ret tt, upd_server (add_sents [(hdl, op, p)]) w).
Proof. intros Hr. unfold send. munfold. unfold reachable in Hr. by rewrite Hr. Qed.

Lemma upd_server_sents l1 l2 w :
  upd_server (add_sents l2) (upd_server (add_sents l1) w) = upd_server (add_sents (l1 ++ l2)) w.
Proof. unfold upd_server, add_sents. simpl. by rewrite app_assoc. Qed.

Lemma upd_server_nil w : upd_server (add_sents []) w = w.
Proof. destruct w as [? ? ? ? ? [] ? ? ? ? ? ? ?]. unfold upd_server, add_sents. simpl. by rewrite app_nil_r. Qed.

Lemma mapM_send {A} (f : A -> M unit) (g : A -> Z * opcode * string) l w :
  (forall a w', reachable w' -> wsMode (w_server w') = wsMode (w_server w) ->
                f a w' = (Ret tt, upd_server (add_sents [g a]) w')) ->
  reachable w -> mapM_ f l w = (Ret tt, upd_server (add_sents (g <$> l)) w).
Proof.
  remember (wsMode (w_server w)) as md eqn:Hmd. symmetry in Hmd. intros Hf. revert w Hmd. induction l as [|a l IH]; intros w Hmd Hr; simpl.
  - by rewrite upd_server_nil.
  - rewrite (M_bind_Ret _ _ _ _ _ (Hf a w Hr Hmd)). rewrite IH by done.
    by rewrite upd_server_sents.
Qed.

Lemma broadcastToAllApps_eq message w :
  reachable w ->
  broadcastToAllApps message w =
  (Ret tt, upd_server (add_sents (app_mails (w_server w) (json_dump message))) w).
Proof.
  intros Hr. unfold broadcastToAllApps, get_server. erewrite M_bind_Ret by done.
  apply mapM_send; [|done]. intros a w' Hr' _. by apply send_eq.
Qed.

Lemma broadcastToAllExtensions_eq message w :
  reachable w ->
  broadcastToAllExtensions message w =
  (Ret tt, upd_server (add_sents (ext_mails (w_server w) (json_dump message))) w).
Proof.
  intros Hr. unfold broadcastToAllExtensions, get_server. erewrite M_bind_Ret by done.
  apply mapM_send; [|done]. intros a w' Hr' Hm. unfold op_of, get_server. munfold.
  rewrite Hm. by apply send_eq.
Qed.

Lemma broadcast_eq message w :
  reachable w ->
  broadcast message w = (Ret tt, upd_server (add_sents (mails (w_server w) (json_dump message))) w).
Proof.
  intros Hr. unfold broadcast. rewrite (M_bind_Ret _ _ _ _ _ (broadcastToAllApps_eq _ _ Hr)).
  rewrite broadcastToAllExtensions_eq by done. by rewrite upd_server_sents.
Qed.

(** [m] does nothing but send, whatever its outcome *)
Definition sends_only {A} (m : M A) : Prop :=
  forall w, exists l, snd (m w) = upd_server (add_sents l) w.

Lemma sends_ret {A} (a : A) : sends_only (mret a).
Proof. intros w. exists []. by rewrite upd_server_nil. Qed.

Lemma sends_gets {A} (f : World -> A) : sends_only (gets f).
Proof. intros w. exists []. by rewrite upd_server_nil. Qed.

Lemma sends_bind {A B} (m : M A) (f : A -> M B) :
  sends_only m -> (forall a, sends_only (f a)) -> sends_only (m ≫= f).
Proof.
  intros Hm Hf w. destruct (Hm w) as [l E]. unfold mbind, M_bind.
  destruct (m w) as [[a|e|s| |] w1]; simpl in *; try by exists l.
  destruct (Hf a w1) as [l' E']. exists (l ++ l'). by rewrite E', E, upd_server_sents.
Qed.

Lemma sends_mapM {A} (f : A -> M unit) l : (forall a, sends_only (f a)) -> sends_only (mapM_ f l).
Proof.
  intros Hf. induction l as [|a l IH]; simpl; [apply sends_ret|]. by apply sends_bind.
Qed.

Lemma sends_send hdl p op : sends_only (send hdl p op).
Proof.
  intros w. unfold send. munfold. destruct (ws_can_send _ _).
  - by exists [(hdl, op, p)].
  - exists []. by rewrite upd_server_nil.
Qed.

Lemma sends_dispatch ev data : sends_only (events.dispatch ev data).
Proof.
  unfold events.dispatch, broadcast, broadcastToAllApps, broadcastToAllExtensions, op_of, get_server.
  apply sends_bind; [apply sends_bind; [apply sends_gets|]|].
  - intros s. apply sends_mapM. intros c. apply sends_send.
  - intros _. apply sends_bind; [apply sends_gets|]. intros s. apply sends_mapM. intros c.
    apply sends_bind; [|intros; apply sends_send].
    apply sends_bind; [apply sends_gets|intros; apply sends_ret].
Qed.
End delivery.

(** ** URLs *)

(** the class of the characters of a parameter's value *)
Definition value_char (c : ascii) : bool :=
  ((((false || esc_set "w" c) || esc_set "." c) || esc_set "-" c) || bool_decide (c = "_"%char)).
Definition value_regex : regex :=
  RCat (RGroup 1 (RCat (RCat (RSet value_char) (RStar (RSet value_char))) REps)) REps.

Lemma parse_param param :
  param = "connectToken" \/ param = "extensionId" ->
  parse_regex (param +:+ "=([\w.\-_]+)") = Some (lits (to_list (param +:+ "=")) value_regex).
Proof. intros [-> | ->]; vm_compute; reflexivity. Qed.

Lemma value_char_token c : token_char c = true -> value_char c = true.
Proof. destruct c as [[] [] [] [] [] [] [] []]; vm_compute; done. Qed.

Lemma search_lits t r u rest i :
  (forall k, k < length u -> starts_with (of_list t) (of_list (drop k (u ++ rest))) = false) ->
  search_from (lits t r) i (u ++ rest) = search_from (lits t r) (i + length u) rest.
Proof.
  revert i; induction u as [|c u IH]; intros i Hk; [by rewrite Nat.add_0_r|].
  cbn [app search_from]. rewrite run_lits. specialize (Hk 0 ltac:(simpl; lia)) as H0.
  cbn [drop app] in H0. rewrite H0. rewrite IH; [f_equal; simpl; lia|].
  intros k Hl. apply (Hk (S k)). simpl. lia.
Qed.

Lemma sfind_before p s i k : sfind p s = Some i -> k < i -> starts_with p (sdrop k s) = false.
Proof.
  revert s k; induction i as [|i IH]; intros s k Hf Hk; [lia|].
  destruct s as [|c s]; cbn [sfind] in Hf; destruct (starts_with p _) eqn:E; try done.
  apply fmap_Some in Hf as (j & Hj & [= <-]). destruct k as [|k]; [done|]. simpl. apply IH; [done|lia].
Qed.

Lemma run_value {R} (k : nat -> list ascii -> caps -> option R) v tail i x :
  v <> [] -> Forall (fun c => value_char c = true) v ->
  match tail with [] => True | y :: _ => value_char y = false end ->
  k (i + length v) tail [None; Some (i, i + length v)] = Some x ->
  run value_regex k i (v ++ tail) [] = Some x.
Proof.
  intros Hne Hv Ht Hk. destruct v as [|c v]; [done|]. inversion Hv as [|? ? Hc Hv']; subst.
  unfold value_regex. cbn [run app]. rewrite Hc.
  apply (run_star_set_greedy value_char _ v tail (S i)); [done..|]. cbn [run].
  cbn [length] in Hk. rewrite <-Nat.add_succ_comm in Hk. exact Hk.
Qed.

(** [t=] occurs first at [u], and its value ends where [rest] begins. *)
Lemma param_value param u v rest :
  param = "connectToken" \/ param = "extensionId" ->
  let url := u +:+ param +:+ "=" +:+ v +:+ rest in
  sfind (param +:+ "=") url = Some (slen u) ->
  v <> "" -> sforall value_char v = true ->
  match to_list rest with [] => True | y :: _ => value_char y = false end ->
  __getParamValueFromUrl url param = v.
Proof.
  intros Hp url Hf Hne Hv Hr. unfold __getParamValueFromUrl, regex_search.
  rewrite (parse_param _ Hp). cbn [mbind option_bind].
  assert (to_list url = to_list u ++ to_list (param +:+ "=") ++ to_list v ++ to_list rest) as El.
  { unfold url. by rewrite !to_list_app, <-!app_assoc. }
  rewrite El, search_lits.
  2:{ intros k Hk. rewrite <-El, <-to_list_sdrop, of_to_list. rewrite of_to_list.
      eapply sfind_before; [done|]. by rewrite <-length_to_list. }
  rewrite length_to_list. set (t := to_list (param +:+ "=")). set (n := 0 + slen u).
  assert (search_from (lits t value_regex) n (t ++ to_list v ++ to_list rest) =
          Some (MatchResult n (n + length t + slen v)
                  [None; Some (n + length t, n + length t + slen v)])) as ->.
  { destruct (t ++ to_list v ++ to_list rest) as [|c l] eqn:E; cbn [search_from];
      rewrite <-?E, run_lits.
    - destruct v; [done|]. apply (f_equal length) in E. rewrite !length_app in E. simpl in E. lia.
    - rewrite of_list_app, starts_with_app, drop_app_length.
      erewrite run_value; [done| |by apply sforall_spec|done|by rewrite length_to_list].
      by destruct v. }
  simpl. apply to_list_inj. rewrite to_list_stake, to_list_sdrop, El.
  rewrite (app_assoc (to_list u)). rewrite drop_app_length'.
  2:{ rewrite length_app. unfold n. by rewrite length_to_list. }
  rewrite take_app_length'; [done|]. rewrite length_to_list. lia.
Qed.

(** ** Validation *)

Section validate.
Context `{Platform}.

(** the decision of [handleValidate], on the state *)
Definition valid_connection (con : connection) (w : World) : bool :=
  let url := con_resource con in
  (bool_decide (con_host con = "localhost") || bool_decide (con_host con = "127.0.0.1")
   || bool_decide (pure_mode (opts w) = AppModeCloud))
  && __hasConnectToken url
  && bool_decide (connectToken (w_auth w) = __getConnectTokenFromUrl url)
  && (if __isExtensionEndpoint url
      then mem (__getExtensionIdFromUrl url) (loadedExtensions (w_ext w)) else true).
Lemma handleValidate_reads con w :
  opts_ok (opts w) -> reads (handleValidate con) w (valid_connection con w).
Proof.
  intros Hok.
  assert (forall w', weq w w' -> 
    (if negb (__hasConnectToken (con_resource con)) then mret false else
     ok ← authbasic.verifyConnectToken (__getConnectTokenFromUrl (con_resource con));
     if negb ok then mret false else
     if __isExtensionEndpoint (con_resource con)
     then extensions.isLoaded (__getExtensionIdFromUrl (con_resource con)) else mret true) w' =
    (Ret (__hasConnectToken (con_resource con)
      && bool_decide (connectToken (w_auth w) = __getConnectTokenFromUrl (con_resource con))
      && (if __isExtensionEndpoint (con_resource con)
          then mem (__getExtensionIdFromUrl (con_resource con)) (loadedExtensions (w_ext w)) else true)), w'))
    as Hrest.
  { intros w' Hw. destruct (weq_proj _ _ Hw) as (_ & Ha & _ & _ & _ & _ & _ & He & _).
    destruct (__hasConnectToken _); [|done]. cbn [negb andb].
    unfold authbasic.verifyConnectToken, authbasic.getConnectTokenInternal, extensions.isLoaded. munfold.
    rewrite Ha. destruct (bool_decide _); [|done]. cbn [negb andb].
    destruct (__isExtensionEndpoint _); [|done]. by rewrite He. }
  unfold handleValidate, valid_connection.
  destruct (bool_decide (con_host con = "localhost") || bool_decide (con_host con = "127.0.0.1")).
  { exists w. split; [|done]. rewrite (M_bind_Ret _ _ w false w) by done. cbv beta iota zeta. by rewrite Hrest. }
  destruct (getMode_reads w Hok) as (w1 & E1 & Hw1). exists w1. split; [|done].
  assert ((mode ← getMode; mret (bool_decide (mode <> AppModeCloud))) w
          = (Ret (bool_decide (pure_mode (opts w) <> AppModeCloud)), w1)) as E.
  { by rewrite (M_bind_Ret _ _ _ _ _ E1). }
  rewrite (M_bind_Ret _ _ _ _ _ E). cbv beta zeta.
  destruct (decide (pure_mode (opts w) = AppModeCloud)) as [Hm|Hm].
  - rewrite bool_decide_false by auto. rewrite bool_decide_true by done. cbv beta iota. by apply Hrest.
  - rewrite bool_decide_true by done. by rewrite bool_decide_false.
Qed.
End validate.

(** C27: a connection is accepted exactly when it comes to the local host (or the
    application runs in cloud mode), its URL has the connect token, and an
    extension's id is one of the loaded extensions; nothing but [null] options changes. *)
Theorem handleValidate_spec `{Platform} (con : connection) (w : World) (Hok : opts_ok (opts w)) :
  exists w', weq w w' /\ handleValidate con w = (Ret (valid_connection con w), w').
Proof. destruct (handleValidate_reads con w Hok) as (w' & E & Hw). eauto. Qed.

Section validate_witness.
#[local] Existing Instance demo.

Lemma handleValidate_spec_witness :
  exists w', weq demo_world w' /\
    handleValidate (Connection 1 "/?connectToken=x" "example.com") demo_world
    = (Ret (valid_connection (Connection 1 "/?connectToken=x" "example.com") demo_world), w').
Proof.
  apply (handleValidate_spec (Connection 1 "/?connectToken=x" "example.com") demo_world).
  split; [done..| |by left]. by intros [].
Defined.
End validate_witness.

(** The connect token that a client puts into its URL is the one that the
    server reads out of it, for any token of the generated alphabet, wherever the
    parameter first occurs and whatever parameter follows. *)
Theorem connect_url_roundtrip (u token rest : string)
    (Hf : sfind "connectToken=" (u +:+ "connectToken=" +:+ token +:+ rest) = Some (slen u))
    (Hne : token <> "") (Ht : sforall token_char token = true)
    (Hr : match rest with EmptyString => True | String y _ => value_char y = false end) :
  __getConnectTokenFromUrl (u +:+ "connectToken=" +:+ token +:+ rest) = token.
Proof.
  apply (param_value "connectToken" u token rest); [by left|exact Hf|done| |by destruct rest].
  eapply sforall_impl; [apply value_char_token|done].
Qed.

Lemma connect_url_roundtrip_witness :
  __getConnectTokenFromUrl "/?extensionId=js.a&connectToken=aB-_9&x=1" = "aB-_9".
Proof. by apply (connect_url_roundtrip "/?extensionId=js.a&" "aB-_9" "&x=1"). Defined.

(** When every connection can be written to, a broadcast sends the message
    once to every application window, in text frames, and once to every
    extension, in the frames that the extension uses; it changes nothing else. *)
Theorem broadcast_delivers `{Platform} (message : json) (w : World)
    (Hr : forall hdl, ws_can_send hdl (w_sys w) = true) :
  broadcast message w =
  (Ret tt, upd_server (add_sents (mails (w_server w) (json_dump message))) w).
Proof. by apply broadcast_eq. Qed.

Section broadcast_witness.
#[local] Existing Instance demo.

Definition demo_connected : World :=
  upd_server (fun s => set_wsMode (omap_set 2%Z OpBinary)
    (set_exts (omap_set "js.a" 2%Z) (set_apps (omap_set 1%Z tt) s))) demo_world.

Lemma broadcast_delivers_witness :
  mails (w_server demo_connected) "m" = [(1%Z, OpText, "m"); (2%Z, OpBinary, "m")] /\
  broadcast (JStr "hello") demo_connected =
  (Ret tt, upd_server (add_sents (mails (w_server demo_connected) (json_dump (JStr "hello")))) demo_connected).
Proof.
  split; [reflexivity|]. apply (broadcast_delivers (JStr "hello") demo_connected). intros hdl. reflexivity.
Defined.
End broadcast_witness.
