(* ===== verification/PermissionFacts.v ===== *)
(** * Facts about auth/permission.cpp

    What the configured lists and scopes allow, stated on the configuration, and
    what a controller can do when a check refuses. *)

From S2P Require Import Prelude Strings Regex OMap Outcome Json Errors State MemPlatform Helpers.
From S2P Require Import Options Paths Permission HelpersFacts OptionsFacts.
From Stdlib Require Import Ascii.
Import helpers settings permission.

(** ** Method lists *)

(** the module of a method or of a list entry: the text before the first dot *)
Definition module_of (s : string) : string := default EmptyString (head (splitTwo s "."%char)).

(** An entry [module.*] stands for the module's methods, another one for itself. *)
Definition entry_matches (nativeMethod entry : string) : bool :=
  if __isWildcardMatch entry then bool_decide (module_of entry = module_of nativeMethod)
  else bool_decide (entry = nativeMethod).

Lemma module_Ret s : s <> EmptyString -> __getModuleFromMethod s = Ret (module_of s).
Proof.
  intros Hs. unfold __getModuleFromMethod, module_of, splitTwo, split_n.
  pose proof (split_go_nonempty "." 2 0 [] (to_list s)) as Hne.
  destruct (split_go _ _ _ _ _); [|done]. simpl in Hne.
  assert (1 <= 0) by (apply Hne; right; by destruct s). lia.
Qed.

Lemma wildcard_spec e :
  __isWildcardMatch e = true <-> exists u, e = u +:+ ".*" /\ sforall is_dot u = true.
Proof.
  unfold __isWildcardMatch. by apply (regex_match_suffix _ _ ".*" REps); [vm_compute|left].
Qed.

(** Registration cannot throw, and keeps what every entry says. *)
Lemma split_list_spec l :
  exists ms mods, split_list l = Ret (ms, mods) /\
    forall nativeMethod,
      mem (module_of nativeMethod) mods || mem nativeMethod ms
      = existsb (entry_matches nativeMethod) l.
Proof.
  induction l as [|e l (ms & mods & E & Hm)]; [by eexists [], []|]. simpl.
  destruct (__isWildcardMatch e) eqn:Ew; rewrite E; simpl.
  - rewrite module_Ret. 2:{ apply wildcard_spec in Ew as (u & -> & _). by destruct u. }
    eexists ms, (module_of e :: mods). split; [done|]. intros m. rewrite <-Hm.
    unfold entry_matches, mem. rewrite Ew.
    apply eq_true_iff_eq. rewrite !orb_true_iff, !bool_decide_eq_true, elem_of_cons. naive_solver.
  - eexists (e :: ms), mods. split; [done|]. intros m. rewrite <-Hm.
    unfold entry_matches, mem. rewrite Ew.
    apply eq_true_iff_eq. rewrite !orb_true_iff, !bool_decide_eq_true, elem_of_cons. naive_solver.
Qed.

(** ** Scopes *)

Lemma path_in_scope_iff path scope :
  path_in_scope path scope = true <-> path = scope \/ exists rest, path = scope +:+ String "/" rest.
Proof.
  unfold path_in_scope. rewrite orb_true_iff, !andb_true_iff, !bool_decide_eq_true, Nat.ltb_lt.
  split; (intros [->|H]; [by left|right]).
  - destruct H as [[Hl Ht] Hs]. exists (sdrop (S (slen scope)) path).
    apply to_list_inj. rewrite to_list_app. cbn [to_list]. rewrite to_list_sdrop.
    rewrite <-(drop_S _ _ _ Hs), <-Ht at 1. rewrite to_list_stake. by rewrite take_drop.
  - destruct H as [rest ->]. rewrite slen_app, stake_app, to_list_app. cbn [slen to_list].
    split; [split; [lia|done]|]. rewrite <-length_to_list. by rewrite list_lookup_middle.
Qed.

Section access.
Context `{Platform}.

(** a call that does not change the state *)
Definition reads_only {A} (m : M A) : Prop := forall w, snd (m w) = w.

Lemma reads_only_ret {A} (a : A) : reads_only (mret a).
Proof. done. Qed.
Lemma reads_only_gets {A} (f : World -> A) : reads_only (gets f).
Proof. done. Qed.
Lemma reads_only_lift {A} (o : outcome A) : reads_only (lift o).
Proof. done. Qed.
Lemma reads_only_bind {A B} (m : M A) (f : A -> M B) :
  reads_only m -> (forall a, reads_only (f a)) -> reads_only (m ≫= f).
Proof.
  intros Hm Hf w. munfold. specialize (Hm w). destruct (m w) as [[] w']; simpl in *; subst; try done.
  apply Hf.
Qed.
Lemma reads_only_find {A B} (f : A -> M (option B)) l :
  (forall a, reads_only (f a)) -> reads_only (find_mapM f l).
Proof.
  intros Hf. induction l; simpl; [done|]. apply reads_only_bind; [done|]. by intros [].
Qed.
Lemma reads_only_eq {A} (m : M A) w a w' : reads_only m -> m w = (a, w') -> w' = w.
Proof. intros Hm E. specialize (Hm w). by rewrite E in Hm. Qed.
End access.

Create HintDb ro.
#[export] Hint Resolve reads_only_ret reads_only_gets reads_only_lift reads_only_bind reads_only_find : ro.
Ltac ro :=
  repeat match goal with
  | |- forall _, _ => intros ?
  | |- reads_only (_ ≫= _) => apply reads_only_bind
  | |- reads_only (find_mapM _ _) => apply reads_only_find
  | |- reads_only (sys_get _) => apply reads_only_gets
  | |- reads_only (gets _) => apply reads_only_gets
  | |- reads_only (lift _) => apply reads_only_lift
  | |- reads_only (mret _) => apply reads_only_ret
  | |- reads_only (if ?b then _ else _) => destruct b
  | |- reads_only (match ?x with _ => _ end) => destruct x
  end.

Section access2.
Context `{Platform}.

Lemma applyPathNames_ro names p : reads_only (paths.applyPathNames names p).
Proof. revert p; induction names; intros p; simpl; ro. unfold paths.getPath. ro. apply IHnames. Qed.

Lemma normalizeScopePath_ro path : reads_only (__normalizeScopePath path).
Proof.
  unfold __normalizeScopePath, paths.applyPathConstants, getAppPath. ro. apply applyPathNames_ro.
Qed.

Lemma hasFileSystemPathAccess_ro path perm : reads_only (hasFileSystemPathAccess path perm).
Proof.
  unfold hasFileSystemPathAccess, get_perm, __isPathInScope. ro; apply normalizeScopePath_ro.
Qed.

(** the scopes that a kind of access looks at *)
Definition active_scopes (p : PermissionState) (perm : FileSystemAccessPermission) : list string :=
  match perm with
  | FileSystemAccessPermissionWrite => fileSystemWriteScopes p
  | FileSystemAccessPermissionRead => fileSystemReadScopes p
  end.

Lemma find_scope path resolved scopes w :
  __normalizeScopePath path w = (Ret resolved, w) ->
  find_mapM (fun scope => b ← __isPathInScope path scope;
                          mret (if (b : bool) then Some tt else None)) scopes w
  = (Ret (if existsb (path_in_scope resolved) scopes then Some tt else None), w).
Proof.
  intros E. induction scopes as [|s scopes IH]; [done|]. simpl. unfold __isPathInScope. munfold.
  rewrite E. destruct (path_in_scope resolved s); simpl; [done|]. exact IH.
Qed.

Lemma hasFileSystemPathAccess_eq path perm resolved w :
  __normalizeScopePath path w = (Ret resolved, w) ->
  hasFileSystemPathAccess path perm w =
  (Ret (negb (shouldCheckScopesLists (w_perm w))
        || existsb (path_in_scope resolved) (active_scopes (w_perm w) perm)), w).
Proof.
  intros E. unfold hasFileSystemPathAccess, get_perm. munfold.
  destruct (shouldCheckScopesLists (w_perm w)); [|done]. simpl.
  unfold active_scopes. destruct perm; (destruct (_ (w_perm w)) as [|s l] eqn:El; [done|]);
    rewrite (find_scope _ _ _ _ E); by destruct (existsb _ _).
Qed.
End access2.

(** ** Registration *)

Definition list_json (l : option (list string)) : json :=
  match l with None => JNull | Some l => of_strings l end.

Lemma get_strings_of l : get_strings (of_strings l) = Ret l.
Proof.
  change (omapM get_string (JStr <$> l) = Ret l). rewrite (omapM_Ret _ (fun j =>
    match j with JStr s => s | _ => EmptyString end)).
  - f_equal. rewrite <-list_fmap_compose. apply list_fmap_id.
  - by intros x (s & -> & _)%list_elem_of_fmap.
Qed.

(** what the two lists say about a method *)
Definition lists_allow (block allow : option (list string)) (nativeMethod : string) : bool :=
  match block, allow with
  | Some l, _ => negb (existsb (entry_matches nativeMethod) l)
  | None, Some l => existsb (entry_matches nativeMethod) l
  | None, None => true
  end.

(** the lists before registration *)
Definition no_lists (p : PermissionState) : Prop :=
  blockedMethods p = [] /\ blockedModules p = [] /\ allowedMethods p = [] /\ allowedModules p = [] /\
  shouldCheckBlockList p = false /\ shouldCheckAllowList p = false.

Section registration.
Context `{Platform}.

Lemma register_list_eq w key l f :
  opts_ok (opts w) -> key <> "modes" -> pure_option key (opts w) = list_json l ->
  exists w', (j ← getOptionForCurrentMode key;
              if is_null j then mret tt else
              v ← lift (get_strings j);
              '(ms, mods) ← lift (split_list v);
              modify (upd_perm (f ms mods))) w = (Ret tt, w')
    /\ opt_equiv (opts w) (opts w')
    /\ match l with
       | None => w_perm w' = w_perm w
       | Some l => exists ms mods, split_list l = Ret (ms, mods) /\ w_perm w' = f ms mods (w_perm w)
       end.
Proof.
  intros Hok Hk E. destruct (getOption_reads w key Hok Hk) as (w1 & E1 & Hw1).
  pose proof (weq_proj _ _ Hw1) as (_ & _ & Hp & _). rewrite E in E1.
  destruct l as [l|]; simpl in E1.
  - destruct (split_list_spec l) as (ms & mods & Es & _).
    exists (upd_perm (f ms mods) w1). split_and!.
    + rewrite (M_bind_Ret _ _ _ _ _ E1). unfold of_strings. cbn [is_null].
      change (JArr (JStr <$> l)) with (of_strings l). rewrite get_strings_of.
      munfold. by rewrite Es.
    + apply Hw1.
    + exists ms, mods. split; [done|]. simpl. by rewrite Hp.
  - exists w1. split_and!; [|apply Hw1|done]. by rewrite (M_bind_Ret _ _ _ _ _ E1).
Qed.
End registration.

(** The allow list and the block list of the configuration decide about a
    method as documented: with a block list, every method that no entry matches
    is allowed (the allow list is not consulted); with an allow list only, the
    methods that an entry matches; without lists, every method.  An entry
    [module.*] matches the methods of the module. *)
Theorem method_lists `{Platform} (w : World) (block allow : option (list string))
    (Hok : opts_ok (opts w)) (Hp : no_lists (w_perm w))
    (Hb : pure_option "nativeBlockList" (opts w) = list_json block)
    (Ha : pure_option "nativeAllowList" (opts w) = list_json allow) :
  exists w', (__registerAllowList ;; __registerBlockList) w = (Ret tt, w') /\
    forall nativeMethod, nativeMethod <> EmptyString ->
      hasMethodAccess nativeMethod w' = (Ret (lists_allow block allow nativeMethod), w').
Proof.
  destruct Hp as (Hbm & Hbo & Ham & Hao & Hsb & Hsa).
  destruct (register_list_eq w "nativeAllowList" allow set_allow Hok) as (w1 & E1 & Hw1 & Hp1); [done..|].
  destruct (register_list_eq w1 "nativeBlockList" block set_block) as (w2 & E2 & Hw2 & Hp2).
  { by rewrite <-Hw1. } { done. } { by rewrite <-(pure_option_equiv "nativeBlockList" _ _ ltac:(done) Hw1). }
  exists w2. split.
  { erewrite M_bind_Ret by exact E1. exact E2. }
  intros m Hm. unfold hasMethodAccess, get_perm. munfold. rewrite module_Ret by done. f_equal. f_equal.
  unfold method_access, lists_allow.
  destruct block as [bl|].
  - destruct Hp2 as (ms & mods & Es & ->). destruct (split_list_spec bl) as (ms' & mods' & E & Hspec).
    rewrite Es in E. injection E as <- <-. simpl. rewrite <-Hspec.
    assert (blockedModules (w_perm w1) = [] /\ blockedMethods (w_perm w1) = []) as [-> ->].
    { destruct allow as [al|]; [destruct Hp1 as (? & ? & _ & ->)|rewrite Hp1]; auto. }
    simpl. by destruct (mem _ mods), (mem m ms).
  - rewrite Hp2. destruct allow as [al|].
    + destruct Hp1 as (ms & mods & Es & ->). destruct (split_list_spec al) as (ms' & mods' & E & Hspec).
      rewrite Es in E. injection E as <- <-. simpl. rewrite Hsb, Hao, Ham, <-Hspec.
      simpl. by destruct (mem _ mods), (mem m ms).
    + by rewrite Hp1, Hsb, Hsa.
Qed.

Definition demo_lists : json :=
  JObj [("nativeAllowList", of_strings ["app.*"; "os.getEnv"])].

Section witness1.
#[local] Existing Instance demo.

Lemma method_lists_witness :
  exists w', (__registerAllowList ;; __registerBlockList) (with_opts demo_lists demo_world) = (Ret tt, w') /\
    hasMethodAccess "app.exit" w' = (Ret true, w') /\
    hasMethodAccess "os.execCommand" w' = (Ret false, w').
Proof.
  destruct (method_lists (with_opts demo_lists demo_world) None (Some ["app.*"; "os.getEnv"]))
    as (w' & E & Hm).
  - split; [done..| |by left]. by intros [].
  - by repeat split.
  - done.
  - done.
  - exists w'. split; [exact E|]. split; by rewrite Hm.
Defined.
End witness1.


Section witness2.
#[local] Existing Instance demo.

Definition demo_scoped : World := upd_perm (set_scopes ["/app/data"] ["/app/data"] true) demo_world.

End witness2.


(** A newline outside quotes is not refused, although the set of refused
    characters has it: white space is tested first.  The shell that runs the
    command takes the text behind it as a second command. *)
Theorem command_newline_passes (p : PermissionState) (second : list (list ascii))
    (Hp : allowedCommandPatterns p = ["ls"])
    (Hws : Forall (fun w => w <> [] /\ Forall (fun c => word_char c = true) w) second) :
  command_access p (of_list (to_list "ls" ++ "010"%char :: join " "%char second)) = true.
Proof.
  unfold command_access. rewrite Hp. destruct (shouldCheckCommandAllowList p); [|done].
  unfold tokenizeCommand. rewrite to_of_list, tokenize_go_word by (repeat constructor).
  cbn [tokenize_go negb andb]. simpl (isspace "010"%char). cbn iota.
  rewrite tokenize_go_words by done. vm_compute. reflexivity.
Qed.

Lemma command_newline_passes_witness :
  command_access (set_commands ["ls"] perm0) (of_list (to_list "ls" ++ "010"%char :: to_list "rm -r data")) = true.
Proof.
  apply (command_newline_passes (set_commands ["ls"] perm0) [to_list "rm"; to_list "-r"; to_list "data"]).
  - reflexivity.
  - repeat constructor; done.
Defined.
