(* ===== verification/FoldersFacts.v ===== *)
(** * Facts about the folders of the user and the path constants *)

From S2P Require Import Prelude Strings Regex OMap Outcome Json Errors State MemPlatform Helpers.
From S2P Require Import Options Folders Paths Permission FsControllers OsControllers PermissionFacts.
From Stdlib Require Import Ascii.
Import sago helpers.

(** ** Searching in a line *)

Lemma sfind_char_spec c s i : sfind_char c s = Some i -> i < slen s.
Proof.
  unfold sfind_char. revert i. induction s as [|x s IH]; intros i; [done|]. cbn [sfind].
  destruct (starts_with _ _); [intros [= <-]; cbn; lia|].
  intros (j & Hj & ->)%fmap_Some. apply IH in Hj. cbn. lia.
Qed.
Lemma sfind_app p a b : is_Some (sfind p (a +:+ p +:+ b)).
Proof.
  induction a as [|x a IH].
  - simpl. exists 0. destruct p as [|y p]; [by destruct b|].
    simpl. by rewrite bool_decide_true, starts_with_app.
  - simpl. destruct (starts_with _ _); [done|]. by apply fmap_is_Some.
Qed.

(** strings of a length that memory can hold *)
Definition fits (s : string) : Prop := (Z.of_nat (slen s) < 2 ^ 63)%Z.

Lemma find_from_range c s pos :
  (0 <= pos)%Z -> find_from c s pos = npos \/ (pos <= find_from c s pos < Z.of_nat (slen s))%Z.
Proof.
  intros Hp. unfold find_from. destruct (_ <? pos)%Z eqn:E; [by left|]. zb.
  destruct (sfind_char c _) as [i|] eqn:Ei; [|by left]. right.
  apply sfind_char_spec in Ei. rewrite slen_sdrop in Ei. lia.
Qed.
Lemma find_from_app c a m b :
  sforall (fun x => negb (bool_decide (x = c))) m = true ->
  find_from c (a +:+ m +:+ String c b) (Z.of_nat (slen a)) = Z.of_nat (slen a + slen m).
Proof.
  intros Hm. unfold find_from. rewrite slen_app. replace (_ <? _)%Z with false by (symmetry; apply Z.ltb_ge; lia).
  rewrite Nat2Z.id, sdrop_app, (sfind_char_app _ _ _ Hm). lia.
Qed.
Lemma substr_z_inside s pos n :
  (pos <= Z.of_nat (slen s))%Z ->
  substr_z s pos n = Ret (stake (Z.to_nat (Z.min n (Z.of_nat (slen s)))) (sdrop (Z.to_nat pos) s)).
Proof. intros Hp. unfold substr_z. by rewrite (proj2 (Z.ltb_ge _ _)). Qed.
Lemma substr_z_mid a m b :
  substr_z (a +:+ m +:+ b) (Z.of_nat (slen a)) (Z.of_nat (slen m)) = Ret m.
Proof.
  rewrite substr_z_inside by (rewrite slen_app; lia). rewrite !slen_app, Nat2Z.id, sdrop_app, Z.min_l, Nat2Z.id by lia. by rewrite stake_app.
Qed.

(** No line makes [substr] throw: the warning about a line is never printed. *)
Lemma read_line_returns line : fits line -> exists kv, read_line line = Ret kv.
Proof.
  intros Hf. unfold fits in Hf. unfold read_line.
  set (p := find_from "="%char line 0). set (vs := find_from _ line p).
  set (ve := find_from _ line (wrapU 64 (vs + 1))).
  assert (0 <= p)%Z as Hp.
  { destruct (find_from_range "="%char line 0 ltac:(lia)) as [E|E]; subst p; [rewrite E; done|lia]. }
  assert (wrapU 64 (vs + 1) <= Z.of_nat (slen line))%Z as Hv.
  { destruct (find_from_range "034"%char line p Hp) as [E|E]; subst vs.
    - rewrite E. change (wrapU 64 (npos + 1)) with 0%Z. lia.
    - rewrite wrapU_small by lia. lia. }
  rewrite !substr_z_inside by (try apply Nat2Z.is_nonneg; exact Hv). by eexists (_, _).
Qed.

(** ** Reading user-dirs.dirs *)

Definition no_char (c : ascii) (s : string) : bool := sforall (fun x => negb (bool_decide (x = c))) s.

(** a line of the file: a comment or an entry, whose key is [XDG_..._DIR] *)
Inductive dirs_item := DirsComment (text : string) | DirsEntry (middle value : string).
Definition dirs_key (middle : string) : string := "XDG_" +:+ middle +:+ "_DIR".
Definition print_item (i : dirs_item) : string :=
  match i with
  | DirsComment text => "#" +:+ text
  | DirsEntry middle value => dirs_key middle +:+ "=" +:+ quoted value
  end.
Definition newline : string := String "010" EmptyString.
Definition print_dirs (l : list dirs_item) : string :=
  foldr (fun i r => print_item i +:+ newline +:+ r) EmptyString l.
Definition item_ok (i : dirs_item) : Prop :=
  no_char "010" (print_item i) = true /\ fits (print_item i) /\
  match i with
  | DirsComment _ => True
  | DirsEntry middle value => no_char "=" middle = true /\ no_char "034" value = true /\ no_char "034" middle = true
  end.
Definition entries (l : list dirs_item) : list (string * string) :=
  omap (fun i => match i with DirsEntry m v => Some (dirs_key m, v) | DirsComment _ => None end) l.

Lemma getlines_cons a rest : no_char "010" a = true -> getlines (a +:+ newline +:+ rest) = a :: getlines rest.
Proof.
  intros Ha. unfold getlines, newline. rewrite to_list_app.
  change (to_list (String "010" "" +:+ rest)) with ("010"%char :: to_list rest).
  assert (forall cur l, Forall (fun c => negb (bool_decide (c = "010"%char)) = true) l ->
    lines_go cur (l ++ "010"%char :: to_list rest) = of_list (rev cur ++ l) :: lines_go [] (to_list rest)) as Hl.
  { intros cur l Hl. revert cur. induction Hl as [|c l Hc _ IH]; intros cur; cbn [app lines_go].
    - by rewrite decide_True, app_nil_r.
    - apply negb_true_iff, bool_decide_eq_false in Hc. rewrite decide_False by done.
      rewrite IH. cbn [rev]. by rewrite <-app_assoc. }
  rewrite Hl by by apply sforall_spec. cbn [rev app]. by rewrite of_to_list.
Qed.

Lemma read_line_entry middle value :
  item_ok (DirsEntry middle value) -> read_line (print_item (DirsEntry middle value)) = Ret (dirs_key middle, value).
Proof.
  intros (_ & Hf & He & Hv & _). unfold read_line, print_item in *. set (key := dirs_key middle) in *.
  set (line := key +:+ "=" +:+ quoted value) in *. unfold fits in Hf.
  assert (slen line = slen key + (3 + slen value)) as Hlen.
  { unfold line, quoted. rewrite !slen_app. cbn. rewrite slen_app. cbn. lia. }
  assert (find_from "="%char line 0 = Z.of_nat (slen key)) as ->.
  { assert (no_char "=" key = true) as Hk.
    { unfold key, dirs_key, no_char in *. by rewrite !sforall_app, He. }
    apply (find_from_app _ EmptyString key _ Hk). }
  assert (find_from "034"%char line (Z.of_nat (slen key)) = Z.of_nat (slen key + 1)) as ->.
  { by apply (find_from_app _ key "="). }
  rewrite wrapU_small by lia.
  assert (find_from "034"%char line (Z.of_nat (slen key + 1) + 1) = Z.of_nat (slen key + 2 + slen value)) as ->.
  { pose proof (find_from_app "034" (key +:+ "=" +:+ String "034" EmptyString) value EmptyString Hv) as E.
    rewrite <-!sapp_assoc, !slen_app in E. cbn [slen] in E.
    replace (Z.of_nat (slen key + 1) + 1)%Z with (Z.of_nat (slen key + (1 + 1))) by lia.
    replace (slen key + 2 + slen value) with (slen key + (1 + 1) + slen value) by lia. exact E. }
  rewrite wrapU_small by lia.
  assert (substr_z line 0 (Z.of_nat (slen key)) = Ret key) as ->
    by apply (substr_z_mid EmptyString key ("=" +:+ quoted value)).
  cbn [mbind outcome_bind].
  pose proof (substr_z_mid (key +:+ "=" +:+ String "034" EmptyString) value (String "034" EmptyString)) as E2.
  rewrite <-!sapp_assoc, !slen_app in E2. cbn [slen] in E2.
  replace (Z.of_nat (slen key + 1) + 1)%Z with (Z.of_nat (slen key + (1 + 1))) by lia.
  replace (Z.of_nat (slen key + 2 + slen value) - Z.of_nat (slen key + 1) - 1)%Z with (Z.of_nat (slen value)) by lia.
  change (key +:+ "=" +:+ String "034" "" +:+ value +:+ String "034" "") with line in E2.
  by rewrite E2.
Qed.

Definition set_all (m l : list (string * string)) : list (string * string) :=
  foldl (fun m kv => omap_set kv.1 kv.2 m) m l.

Lemma add_line_item folders i :
  item_ok i -> add_line folders (print_item i) = set_all folders (entries [i]).
Proof.
  intros Hi. destruct i as [text|middle value]; [done|].
  unfold add_line. rewrite (read_line_entry _ _ Hi).
  replace (skipped_line _) with false; [done|]. symmetry. unfold skipped_line, print_item.
  rewrite (bool_decide_true (is_Some _)); [done|].
  unfold dirs_key. rewrite <-!sapp_assoc, sapp_assoc. apply sfind_app.
Qed.
Lemma add_lines_print folders l :
  Forall item_ok l -> foldl add_line folders (getlines (print_dirs l)) = set_all folders (entries l).
Proof.
  intros Hl. revert folders. induction Hl as [|i l Hi _ IH]; intros folders; [done|].
  cbn [print_dirs foldr]. destruct (id Hi) as [Hn _]. rewrite getlines_cons by exact Hn.
  cbn [foldl]. rewrite IH, add_line_item by exact Hi. by destruct i.
Qed.

(** the value of the last entry of a key *)
Definition last_value (key : string) (l : list (string * string)) : option string :=
  snd <$> last (filter (fun kv => kv.1 = key) l).

Lemma get_set_all key m l :
  omap_get key (set_all m l) = match last_value key l with Some v => Some v | None => omap_get key m end.
Proof.
  unfold last_value. revert m. induction l as [|[k v] l IH]; intros m; [done|].
  cbn [set_all foldl fst snd]. change (foldl _ ?a l) with (set_all a l). rewrite IH, filter_cons. cbn [fst].
  destruct (decide (k = key)) as [->|Hk].
  - rewrite last_cons. destruct (last (filter _ l)) as [[]|]; [done|]. apply omap_get_set_eq.
  - destruct (last _) as [[]|]; [done|]. by apply omap_get_set_ne.
Qed.

(** "$HOME" at the start of a value stands for the home directory *)
Definition expand (home value : string) : string :=
  if starts_with "$HOME" value then home +:+ sdrop 5 value else value.

Section folders.
Context `{Platform}.

Lemma expand_home_eq home kv y :
  getHome y = Ret home -> expand_home kv y = Ret (kv.1, expand home kv.2).
Proof.
  intros Hh. unfold expand_home, expand. rewrite Hh. destruct kv as [k v]. cbn [fst snd].
  destruct (starts_with "$HOME" v) eqn:E; [|done].
  apply starts_with_spec in E as (t & ->). done.
Qed.
Lemma expand_all home l y :
  getHome y = Ret home ->
  omapM (fun kv => expand_home kv y) l = Ret ((fun kv => (kv.1, expand home kv.2)) <$> l).
Proof.
  intros Hh. induction l as [|kv l IH]; [done|]. cbn [omapM].
  by rewrite (expand_home_eq _ _ _ Hh), IH.
Qed.

Lemma platform_folder_eq key home config folders y :
  getHome y = Ret home -> getConfigHome y = Ret config ->
  PlatformFoldersAddFromFile (config +:+ "/user-dirs.dirs") default_folders y = folders ->
  platform_folder key y = Ret (default EmptyString (expand home <$> omap_get key folders)).
Proof.
  intros Hh Hc Hf. unfold platform_folder, PlatformFoldersFillData. rewrite Hc. cbn [mbind outcome_bind].
  rewrite Hf, (expand_all _ _ _ Hh). cbn [mbind outcome_bind]. by rewrite omap_get_fmap_snd.
Qed.

(** ** When every folder is known *)

(** the folders behind the path constants of file names and commands *)
Definition constants_known (y : sys) : Prop :=
  Forall (fun name => exists q, paths.known_folder name y = Ret q) paths.pathNames.

(** [$v] is not set or an absolute path *)
Definition absolute_or_unset (v : string) (y : sys) : Prop :=
  match sys_getenv v y with Some p => starts_with "/" p = true | None => True end.

Lemma folder_default_known v rel home y :
  getHome y = Ret home -> absolute_or_unset v y -> exists q, getLinuxFolderDefault v rel y = Ret q.
Proof.
  intros Hh Ha. unfold getLinuxFolderDefault, absolute_or_unset, throwOnRelative in *.
  destruct (sys_getenv v y) as [p|]; [rewrite Ha|rewrite Hh]; by eexists.
Qed.

Lemma constants_known_intro home temp y :
  getHome y = Ret home -> sys_temp_directory_path y = Ret temp -> sys_getpwuid y <> Some None ->
  Forall (fun v => absolute_or_unset v y) ["XDG_DATA_HOME"; "XDG_CONFIG_HOME"; "XDG_CACHE_HOME"] ->
  constants_known y.
Proof.
  intros Hh Ht Hp [Hd [Hc [Hca _]%Forall_cons_1]%Forall_cons_1]%Forall_cons_1.
  assert (exists q, getConfigHome y = Ret q) as [config Ec] by by apply (folder_default_known _ _ home).
  assert (exists q, getDataHome y = Ret q) as [data Ed] by by apply (folder_default_known _ _ home).
  assert (exists q, getCacheDir y = Ret q) as [cache Eca] by by apply (folder_default_known _ _ home).
  assert (forall key, exists q, platform_folder key y = Ret q) as Hf.
  { intros key. eexists. by apply (platform_folder_eq key home config). }
  assert (exists q, getSaveGamesFolder1 y = Ret q) as Hs.
  { destruct (Hf EmptyString) as [q Eq]. unfold platform_folder in Eq. unfold getSaveGamesFolder1.
    destruct (PlatformFoldersFillData y); try done. cbn. eauto. }
  assert (exists q, paths.home_folder y = Ret q) as Hho.
  { unfold paths.home_folder. destruct (sys_getpwuid y) as [[q|]|]; [by exists q|done|by exists EmptyString]. }
  unfold constants_known, paths.pathNames.
  repeat (apply List.Forall_cons; [first [exact Hs|exact Hho|by exists data|by exists cache|by exists temp|by apply Hf]|]).
  apply List.Forall_nil.
Qed.

Lemma applyPathNames_returns names p w :
  Forall (fun name => exists q, paths.known_folder name (w_sys w) = Ret q) names ->
  exists q, paths.applyPathNames names p w = (Ret q, w).
Proof.
  intros Hn. revert p; induction Hn as [|n names [q Eq] _ IH]; intros p; cbn [paths.applyPathNames]; [by exists p|].
  unfold paths.getPath. munfold. rewrite Eq. apply IH.
Qed.
Lemma applyPathConstants_returns p w :
  constants_known (w_sys w) -> exists q, paths.applyPathConstants p w = (Ret q, w).
Proof. intros Hn. unfold paths.applyPathConstants, settings.getAppPath. munfold. by apply applyPathNames_returns. Qed.
End folders.

(** ** The claims *)

Section claims.
Context `{Platform}.

(** The file user-dirs.dirs is read back as it was written: for a file that is printed from
    comments and entries, the folder of a key is the value of the key's last entry,
    or the default when it has none, and a leading [$HOME] is the home directory. *)
Theorem user_dirs_roundtrip (items : list dirs_item) (key home config : string) (y : sys)
    (Hi : Forall item_ok items) (Hh : getHome y = Ret home) (Hc : getConfigHome y = Ret config)
    (Hr : sys_read (config +:+ "/user-dirs.dirs") y = Some (print_dirs items)) :
  platform_folder key y =
  Ret (default EmptyString (expand home <$>
    match last_value key (entries items) with
    | Some v => Some v
    | None => omap_get key default_folders
    end)).
Proof.
  rewrite (platform_folder_eq key home config _ y Hh Hc eq_refl).
  unfold PlatformFoldersAddFromFile. by rewrite Hr, (add_lines_print _ _ Hi), get_set_all.
Qed.

(** the exception about a data directory that is not absolute *)
Definition data_home_error (v : string) : exn := RuntimeError (relative_error "XDG_DATA_HOME" v).

Lemma getPath_data_throws v w :
  sys_getenv "XDG_DATA_HOME" (w_sys w) = Some v -> starts_with "/" v = false ->
  paths.getPath "data" w = (Throw (data_home_error v), w).
Proof.
  intros Hv Hs. unfold paths.getPath. munfold.
  change (paths.known_folder "data" (w_sys w)) with (getDataHome (w_sys w)).
  unfold getDataHome, getLinuxFolderDefault, throwOnRelative. by rewrite Hv, Hs.
Qed.
Lemma applyPathConstants_throws v path w :
  sys_getenv "XDG_DATA_HOME" (w_sys w) = Some v -> starts_with "/" v = false ->
  paths.applyPathConstants path w = (Throw (data_home_error v), w).
Proof.
  intros Hv Hs. unfold paths.applyPathConstants, settings.getAppPath. munfold.
  cbn [paths.pathNames paths.applyPathNames]. unfold mbind, M_bind. by rewrite (getPath_data_throws v).
Qed.

(** C34: when XDG_DATA_HOME is set and not an absolute path, empty included, every use
    of the path constants throws, whether the path has a constant or not: with scopes
    no file access is decided, and os.getPath of "data" throws; without
    scopes, access does not look at the path and is granted. *)
Theorem relative_data_home (v path : string) (perm : FileSystemAccessPermission) (w : World)
    (Hv : sys_getenv "XDG_DATA_HOME" (w_sys w) = Some v) (Hs : starts_with "/" v = false) :
  paths.applyPathConstants path w = (Throw (data_home_error v), w) /\
  permission.hasFileSystemPathAccess path perm w =
    (if shouldCheckScopesLists (w_perm w)
     then match active_scopes (w_perm w) perm with [] => Ret false | _ => Throw (data_home_error v) end
     else Ret true, w) /\
  os_controllers.getPath (JObj [("name", JStr "data")]) w = (Throw (data_home_error v), w).
Proof.
  pose proof (fun p => applyPathConstants_throws v p w Hv Hs) as E. split_and!; [apply E| |].
  - unfold permission.hasFileSystemPathAccess, permission.get_perm. munfold.
    destruct (shouldCheckScopesLists (w_perm w)); [|done]. cbn [negb].
    unfold active_scopes. destruct perm; (destruct (_ (w_perm w)) as [|s l]; [done|]);
      cbn [find_mapM]; unfold permission.__isPathInScope, permission.__normalizeScopePath;
      munfold; by rewrite E.
  - unfold os_controllers.getPath. cbn [hasRequiredFields forallb negb].
    replace (negb _) with false by done. rewrite (M_bind_Ret _ _ w "data" w) by done.
    unfold mbind, M_bind. by rewrite (getPath_data_throws v).
Qed.
End claims.

Section witnesses.
#[local] Existing Instance demo.

Definition demo_dirs : list dirs_item :=
  [DirsComment " user directories"; DirsEntry "MUSIC" "$HOME/Tunes"; DirsEntry "VIDEOS" "/data/films";
   DirsEntry "MUSIC" "$HOME/Songs"].
Definition dirs_sys : sys :=
  MemSys [("/home/user/.config/user-dirs.dirs", print_dirs demo_dirs)] [] [] 1 [] [] [].

Lemma user_dirs_roundtrip_witness :
  getMusicFolder dirs_sys = Ret "/home/user/Songs" /\ getVideoFolder dirs_sys = Ret "/data/films" /\
  getDocumentsFolder dirs_sys = Ret "/home/user/Documents".
Proof.
  assert (Forall item_ok demo_dirs) as Hi by (repeat constructor).
  pose proof (fun key => user_dirs_roundtrip demo_dirs key "/home/user" "/home/user/.config" dirs_sys
    Hi eq_refl eq_refl ltac:(by vm_compute)) as E.
  unfold getMusicFolder, getVideoFolder, getDocumentsFolder. rewrite !E. by vm_compute.
Defined.

Definition relative_world : World :=
  world0 (MemSys [] [] [("HOME", "/home/user"); ("XDG_DATA_HOME", "data")] 1 [] [] []).

Lemma relative_data_home_witness :
  fst (paths.applyPathConstants "/tmp/a.txt" relative_world) = Throw (data_home_error "data") /\
  fst (permission.hasFileSystemPathAccess "/tmp/a.txt" FileSystemAccessPermissionRead relative_world) = Ret true.
Proof.
  destruct (relative_data_home "data" "/tmp/a.txt" FileSystemAccessPermissionRead relative_world)
    as (E1 & E2 & _); [reflexivity..|]. rewrite E1, E2. split; reflexivity.
Defined.
End witnesses.
