(* ===== verification/FsFacts.v ===== *)
(** * Facts about api/fs/fs.cpp

    Scope enforcement of the controllers, the part of a file that a read
    returns, the blocks of an opened file and file ids. *)

From S2P Require Import Prelude Strings Regex OMap Outcome Json Errors State MemPlatform Helpers.
From S2P Require Import Options Paths Permission Auth Connections Base64 Fs FsControllers.
From S2P Require Import Resources HelpersFacts OptionsFacts ConnectionsFacts PermissionFacts.
From Stdlib Require Import Ascii.
Import helpers settings permission events fs.

(** ** Scopes *)

Section scopes.
Context `{Platform}.

(** the controllers, the arguments that are paths, and the access that each needs *)
Definition scoped_controllers : list ((json -> M json) * string * FileSystemAccessPermission) :=
  [(fs_controllers.createDirectory, "path", FileSystemAccessPermissionWrite);
   (fs_controllers.remove, "path", FileSystemAccessPermissionWrite);
   (fs_controllers.writeFile, "path", FileSystemAccessPermissionWrite);
   (fs_controllers.appendFile, "path", FileSystemAccessPermissionWrite);
   (fs_controllers.writeBinaryFile, "path", FileSystemAccessPermissionWrite);
   (fs_controllers.appendBinaryFile, "path", FileSystemAccessPermissionWrite);
   (fs_controllers.createWatcher, "path", FileSystemAccessPermissionWrite);
   (fs_controllers.setPermissions, "path", FileSystemAccessPermissionWrite);
   (fs_controllers.chmod, "path", FileSystemAccessPermissionWrite);
   (fs_controllers.chown, "path", FileSystemAccessPermissionWrite);
   (fs_controllers.readFile, "path", FileSystemAccessPermissionRead);
   (fs_controllers.readBinaryFile, "path", FileSystemAccessPermissionRead);
   (fs_controllers.openFile, "path", FileSystemAccessPermissionRead);
   (fs_controllers.readDirectory, "path", FileSystemAccessPermissionRead);
   (fs_controllers.getStats, "path", FileSystemAccessPermissionRead);
   (fs_controllers.getPermissions, "path", FileSystemAccessPermissionRead);
   (fs_controllers.access, "path", FileSystemAccessPermissionRead);
   (fs_controllers.copy, "source", FileSystemAccessPermissionRead);
   (fs_controllers.copy, "destination", FileSystemAccessPermissionWrite);
   (fs_controllers.move, "source", FileSystemAccessPermissionWrite);
   (fs_controllers.move, "destination", FileSystemAccessPermissionWrite)].

Definition path_keys : list string := ["path"; "source"; "destination"].

(** the answer says that a path of the call is out of scope or that an argument is missing *)
Definition refused (input j : json) : Prop :=
  (exists k p, k ∈ path_keys /\ jat input k = Ret (JStr p) /\
     jget j "error" = errors.makeErrorPayload errors.NE_FS_SCOPERR p) \/
  exists arg, jget j "error" = errors.makeMissingArgErrorPayload arg.

(** a call that leaves the state alone and answers, if at all, with a refusal *)
Definition refuses (input : json) (m : M json) (w : World) : Prop :=
  snd (m w) = w /\ forall j, fst (m w) = Ret j -> refused input j.

Lemma refuses_missing input arg w : refuses input (ret_missing arg) w.
Proof. split; [done|]. intros j [= <-]. right. by exists arg. Qed.
Lemma refuses_scope input k p w :
  jat input k = Ret (JStr p) -> k ∈ path_keys -> refuses input (fs_controllers.scope_error p) w.
Proof. intros Hk Hin. split; [done|]. intros j [= <-]. left. by exists k, p. Qed.
Lemma refuses_dir_error input k p w :
  jat input k = Ret (JStr p) -> k ∈ path_keys ->
  refuses input (fs_controllers.ret_dir_error (errors.makeErrorPayload errors.NE_FS_SCOPERR p)) w.
Proof. intros Hk Hin. split; [done|]. intros j [= <-]. left. by exists k, p. Qed.
Lemma refuses_dir_missing input arg w :
  refuses input (fs_controllers.ret_dir_error (errors.makeMissingArgErrorPayload arg)) w.
Proof. split; [done|]. intros j [= <-]. right. by exists arg. Qed.

Lemma refuses_bind {A} input (m : M A) f w :
  snd (m w) = w -> (forall a, fst (m w) = Ret a -> refuses input (f a) w) -> refuses input (m ≫= f) w.
Proof.
  unfold refuses. munfold. destruct (m w) as [[] w']; simpl; intros -> Hf; try done. by apply Hf.
Qed.

Lemma field_ro {A} input k (get : json -> outcome A) : reads_only (field input k get).
Proof. done. Qed.
Lemma field_or_ro {A} input k (get : json -> outcome A) d : reads_only (field_or input k get d).
Proof. unfold field_or. by destruct (hasField input k). Qed.

Lemma reader_options_ro input : reads_only (fs_controllers.reader_options input).
Proof.
  unfold fs_controllers.reader_options. apply reads_only_bind; [apply field_or_ro|intros a].
  apply reads_only_bind; [apply field_or_ro|done].
Qed.

Lemma field_string input k w a :
  fst (field input k get_string w) = Ret a -> jat input k = Ret (JStr a).
Proof. unfold field. munfold. destruct (jat input k) as [[]| | | |]; simpl; congruence. Qed.
End scopes.

(** Go to the check of the path and use its refusal. *)
Ltac refuse Hpath Ha :=
  repeat match goal with
  | |- refuses _ (if ?b then _ else _) _ => destruct b
  | |- refuses _ (match ?x with _ => _ end) _ => destruct x
  | |- refuses _ (ret_missing _) _ => apply refuses_missing
  | |- refuses _ (fs_controllers.scope_error _) _ =>
      eapply refuses_scope; [eassumption|by repeat constructor]
  | |- refuses _ (fs_controllers.ret_dir_error (errors.makeErrorPayload _ _)) _ =>
      eapply refuses_dir_error; [eassumption|by repeat constructor]
  | |- refuses _ (fs_controllers.ret_dir_error (errors.makeMissingArgErrorPayload _)) _ =>
      apply refuses_dir_missing
  | |- refuses _ (field _ _ get_string ≫= _) _ =>
      apply refuses_bind; [done|]; let p := fresh in let E := fresh in
      intros p E; apply field_string in E; try (rewrite Hpath in E; injection E as <-)
  | |- refuses _ (hasFileSystemPathAccess _ _ ≫= _) _ =>
      apply refuses_bind; [apply hasFileSystemPathAccess_ro|];
      let b := fresh in let E := fresh in
      intros b E; try (rewrite Ha in E; injection E as <-); clear E || idtac; cbn [negb]
  | |- refuses _ (field _ _ _ ≫= _) _ => apply refuses_bind; [apply field_ro|intros ? _]
  | |- refuses _ (field_or _ _ _ _ ≫= _) _ => apply refuses_bind; [apply field_or_ro|intros ? _]
  | |- refuses _ (fs_controllers.reader_options _ ≫= _) _ =>
      apply refuses_bind; [apply reader_options_ro|intros ? _]
  end.

(** C3: each filesystem controller refuses a path that is out of the scopes of
    the access it needs, for copy and move the source and the destination: the
    state, the file system included, stays as it was, and an answer is the scope
    error of a path of the call or that of a missing argument. *)
Theorem fs_scope_enforced `{Platform} (f : json -> M json) (key : string)
    (perm : FileSystemAccessPermission) (input : json) (path : string) (w : World)
    (Hf : (f, key, perm) ∈ scoped_controllers) (Hpath : jat input key = Ret (JStr path))
    (Ha : fst (hasFileSystemPathAccess path perm w) = Ret false) :
  refuses input (f input) w.
Proof.
  unfold scoped_controllers in Hf.
  repeat (apply elem_of_cons in Hf as [[= -> -> ->]|Hf]); [..|by apply elem_of_nil in Hf].
  - unfold fs_controllers.createDirectory. refuse Hpath Ha.
  - unfold fs_controllers.remove. refuse Hpath Ha.
  - unfold fs_controllers.writeFile, fs_controllers.__writeOrAppendFile. refuse Hpath Ha.
  - unfold fs_controllers.appendFile, fs_controllers.__writeOrAppendFile. refuse Hpath Ha.
  - unfold fs_controllers.writeBinaryFile, fs_controllers.__writeOrAppendBinaryFile. refuse Hpath Ha.
  - unfold fs_controllers.appendBinaryFile, fs_controllers.__writeOrAppendBinaryFile. refuse Hpath Ha.
  - unfold fs_controllers.createWatcher. refuse Hpath Ha.
  - unfold fs_controllers.setPermissions. refuse Hpath Ha.
  - unfold fs_controllers.chmod. refuse Hpath Ha.
  - unfold fs_controllers.chown. refuse Hpath Ha.
  - unfold fs_controllers.readFile. refuse Hpath Ha.
  - unfold fs_controllers.readBinaryFile. refuse Hpath Ha.
  - unfold fs_controllers.openFile. refuse Hpath Ha.
  - unfold fs_controllers.readDirectory. refuse Hpath Ha.
  - unfold fs_controllers.getStats. refuse Hpath Ha.
  - unfold fs_controllers.getPermissions. refuse Hpath Ha.
  - unfold fs_controllers.access. refuse Hpath Ha.
  - unfold fs_controllers.copy. refuse Hpath Ha.
  - unfold fs_controllers.copy. refuse Hpath Ha.
  - unfold fs_controllers.move. refuse Hpath Ha.
  - unfold fs_controllers.move. refuse Hpath Ha.
Qed.

Section fs_scope_witness.
#[local] Existing Instance demo.

Lemma fs_scope_enforced_witness :
  let input := mk_obj [("source", JStr "/app/data/a"); ("destination", JStr "/etc/passwd")] in
  refuses input (fs_controllers.move input) demo_scoped.
Proof.
  intros input.
  apply (fs_scope_enforced _ "destination" FileSystemAccessPermissionWrite input "/etc/passwd").
  - apply list_elem_of_lookup. by exists 20.
  - reflexivity.
  - vm_compute. reflexivity.
Defined.
End fs_scope_witness.

(** ** Reading a part of a file *)

(** position and length of the part that the options select of [n] bytes *)
Definition slice_of (n : nat) (o : FileReaderOptions) : nat * nat :=
  let pos := if (-1 <? ro_pos o)%Z then Nat.min (Z.to_nat (ro_pos o)) n else 0 in
  let len := if (-1 <? ro_size o)%Z then Nat.min (Z.to_nat (ro_size o)) (n - pos) else n - pos in
  (pos, len).

Definition slice (data : string) (o : FileReaderOptions) : string :=
  let '(pos, len) := slice_of (slen data) o in stake len (sdrop pos data).

Lemma slice_of_bound n o : (slice_of n o).1 + (slice_of n o).2 <= n.
Proof. unfold slice_of. destruct (-1 <? ro_pos o)%Z, (-1 <? ro_size o)%Z; simpl; lia. Qed.

Lemma slen_slice data o : slen (slice data o) = (slice_of (slen data) o).2.
Proof.
  unfold slice. pose proof (slice_of_bound (slen data) o) as Hb.
  destruct (slice_of (slen data) o) as [p l]. simpl in *. rewrite slen_stake, slen_sdrop. lia.
Qed.

Lemma apply_options_slice n o :
  (Z.of_nat n < 2 ^ 63)%Z ->
  resources.__applyFileReaderOptions (Z.of_nat n) o =
  (Z.of_nat (slice_of n o).1, Z.of_nat (slice_of n o).2).
Proof.
  intros Hn. pose proof (slice_of_bound n o) as Hb.
  unfold resources.__applyFileReaderOptions, slice_of in *.
  destruct (-1 <? ro_pos o)%Z eqn:E1, (-1 <? ro_size o)%Z eqn:E2; zb; simpl in *;
    rewrite !wrapU_small by lia; f_equal; lia.
Qed.

Section reading.
Context `{Platform}.

Lemma readFile_eq filename o content w :
  sys_read filename (w_sys w) = Some content ->
  fs.readFile filename o w =
  (Ret {| fr_status := errors.NE_ST_OK; fr_data := slice content o;
          fr_size := Z.of_nat (slen content) |}, w).
Proof.
  intros E. unfold fs.readFile. munfold. rewrite E. unfold slice, slice_of.
  destruct (-1 <? ro_pos o)%Z eqn:E1, (-1 <? ro_size o)%Z eqn:E2; zb; do 3 f_equal;
    f_equal; try f_equal; lia.
Qed.
End reading.

(** ** Permission bits *)

(** The bits that getPermissions reports, given back to setPermissions,
    are the same permissions, for each of the 512 modes. *)
Theorem permissions_roundtrip (perms : Z) (Hp : (0 <= perms < 512)%Z) :
  fs_controllers.collect_perms (fs_controllers.perms_json perms) fs_controllers.perm_fields 0 = Ret perms.
Proof.
  assert (forallb (fun n => match fs_controllers.collect_perms
             (fs_controllers.perms_json (Z.of_nat n)) fs_controllers.perm_fields 0 with
             | Ret z => (z =? Z.of_nat n)%Z | _ => false end) (seq 0 512) = true) as Hall
    by (vm_compute; reflexivity).
  rewrite forallb_forall in Hall. specialize (Hall (Z.to_nat perms)).
  rewrite Z2Nat.id in Hall by lia. destruct (fs_controllers.collect_perms _ _ _).
  2-5: specialize (Hall ltac:(apply in_seq; lia)); done.
  f_equal. apply Z.eqb_eq, Hall, in_seq. lia.
Qed.

Lemma permissions_roundtrip_witness :
  fs_controllers.collect_perms (fs_controllers.perms_json 420) fs_controllers.perm_fields 0 = Ret 420%Z.
Proof. apply (permissions_roundtrip 420). lia. Defined.

(** ** Opened files *)

Section opened.
Context `{Platform}.

Lemma openFile_eq filename data w :
  sys_read filename (w_sys w) = Some data ->
  fs.openFile filename w =
  (Ret (Z.of_nat (length (openedFiles (w_fs w)))),
   upd_fs (set_opened (omap_set (Z.of_nat (length (openedFiles (w_fs w)))) (stream.open data))) w).
Proof. intros E. unfold fs.openFile, get_fs, put_stream. munfold. by rewrite E. Qed.
End opened.

(** The id of an opened file is the number of opened files, which another
    file can have once one has been closed: then openFile answers with that id
    and its stream replaces the one that was open. *)
Theorem openFile_id_collision `{Platform} (filename data : string) (old : ifstream) (w : World)
    (Hr : sys_read filename (w_sys w) = Some data)
    (Hold : omap_get (Z.of_nat (length (openedFiles (w_fs w)))) (openedFiles (w_fs w)) = Some old) :
  exists id w', fs.openFile filename w = (Ret id, w') /\
    omap_get id (openedFiles (w_fs w)) = Some old /\
    omap_get id (openedFiles (w_fs w')) = Some (stream.open data).
Proof.
  eexists _, _. split; [by apply openFile_eq|]. split; [done|]. simpl. by rewrite omap_get_set_eq.
Qed.

Section collision_witness.
#[local] Existing Instance demo.

Definition demo_files : World :=
  upd_sys (H := demo) (set_files [("/a", "A"); ("/b", "B"); ("/c", "C")]) demo_world.
(** two files opened, the first one closed *)
Definition demo_closed : World :=
  snd ((fs.openFile "/a" ;; fs.openFile "/b" ;;
        fs.updateOpenedFile {| ev_id := 0; ev_type := "close"; ev_pos := -1; ev_size := -1 |}) demo_files).

Lemma openFile_id_collision_witness :
  exists id w', fs.openFile "/c" demo_closed = (Ret id, w') /\
    omap_get id (openedFiles (w_fs demo_closed)) = Some (stream.open "B") /\
    omap_get id (openedFiles (w_fs w')) = Some (stream.open "C").
Proof. apply (openFile_id_collision "/c" "C" (stream.open "B") demo_closed); reflexivity. Defined.
End collision_witness.
