(* ===== verification/EfswFacts.v ===== *)
(** * Facts about lib/efsw: the watches and their objects

    [watches_ok]: the table of watches is in order, each of its objects exists with all
    of its parents, and has the id of the watch that it belongs to.  Adding and removing
    keep it; removing takes away a watch with what is below it and nothing else. *)

From S2P Require Import Prelude Strings OMap Outcome Json Errors State Efsw.
From Stdlib Require Import Ascii.
Import efsw.

(** ** Calls on the watcher *)

(** which outcomes a call may have: values only; also the end of the fuel; all *)
Inductive strength := Total | Defined | Partial.
#[export] Instance strength_eq_dec : EqDecision strength.
Proof. solve_decision. Defined.
Definition allows (s : strength) {A} (o : outcome A) : Prop :=
  match s, o with
  | _, Ret _ | Defined, NoFuel | Partial, _ => True
  | _, _ => False
  end.

Section spec.
Context `{Platform}.

Definition has (f : FileWatcherInotify) (w : World) : Prop := fileWatcher (w_fs w) = Some (ImplInotify f).

(** [m], run on the watcher [f], has an outcome that is allowed; its value and the
    watcher that it leaves satisfy [Q] *)
Definition spec (s : strength) {A} (m : M A) (f : FileWatcherInotify) (Q : A -> FileWatcherInotify -> Prop) : Prop :=
  forall w, has f w -> allows s (fst (m w)) /\
    forall a, fst (m w) = Ret a -> exists f', has f' (snd (m w)) /\ Q a f'.

Lemma spec_bind s {A B} (m : M A) (k : A -> M B) f (P : A -> FileWatcherInotify -> Prop) Q :
  spec s m f P -> (forall a f', P a f' -> spec s (k a) f' Q) -> spec s (m ≫= k) f Q.
Proof.
  intros Hm Hk w Hw. destruct (Hm w Hw) as [Ha HP]. unfold mbind, M_bind.
  destruct (m w) as [[a|e|x| |] w']; cbn in *; try (split; [by destruct s|done]).
  destruct (HP a eq_refl) as (f' & Hw' & Hp). by apply (Hk a f').
Qed.
Lemma spec_weaken s {A} (m : M A) f (P Q : A -> FileWatcherInotify -> Prop) :
  spec s m f P -> (forall a f', P a f' -> Q a f') -> spec s m f Q.
Proof. intros Hm HPQ w Hw. destruct (Hm w Hw) as [? HP]. split; [done|]. intros a Ea. destruct (HP a Ea) as (f' & ? & ?). eauto. Qed.
Lemma spec_stronger s s' {A} (m : M A) f Q :
  spec s m f Q -> s = Total \/ s' = Partial \/ s = s' -> spec s' m f Q.
Proof.
  intros Hm Hs w Hw. destruct (Hm w Hw) as [Ha HQ]. split; [|done].
  destruct Hs as [->|[->| <-]]; [by destruct s', (fst (m w))|by destruct (fst (m w))|done].
Qed.

Lemma spec_ret s {A} (a : A) f (Q : A -> _ -> Prop) : Q a f -> spec s (mret a) f Q.
Proof. intros HQ w Hw. split; [by destruct s|]. intros ? [= <-]. by exists f. Qed.
Lemma spec_lift s {A} (o : outcome A) f (Q : A -> _ -> Prop) :
  allows s o -> (forall a, o = Ret a -> Q a f) -> spec s (lift o) f Q.
Proof. intros Ha HQ w Hw. split; [done|]. intros a Ea. exists f. split; [done|auto]. Qed.
Lemma spec_sys_get s {A} (g : sys -> A) f (Q : A -> _ -> Prop) : (forall y, Q (g y) f) -> spec s (sys_get g) f Q.
Proof. intros HQ w Hw. split; [by destruct s|]. intros ? [= <-]. by exists f. Qed.
Lemma spec_sys_call s {A} (g : sys -> A * sys) f (Q : A -> _ -> Prop) :
  (forall y, Q (fst (g y)) f) -> spec s (sys_call g) f Q.
Proof.
  intros HQ w Hw. unfold sys_call. specialize (HQ (w_sys w)). destruct (g (w_sys w)) as [a y].
  split; [by destruct s|]. intros ? [= <-]. by exists f.
Qed.
Lemma spec_get_fw s f (Q : _ -> _ -> Prop) : Q f f -> spec s get_fw f Q.
Proof.
  intros HQ w Hw. unfold get_fw. rewrite (M_bind_Ret _ _ w (w_fs w) w) by done. rewrite Hw.
  split; [by destruct s|]. intros ? [= <-]. by exists f.
Qed.
Lemma spec_put_fw s f f' (Q : unit -> _ -> Prop) : Q tt f' -> spec s (put_fw f') f Q.
Proof. intros HQ w Hw. split; [by destruct s|]. intros [] _. by exists f'. Qed.
Lemma spec_upd_fw s f g (Q : unit -> _ -> Prop) : Q tt (g f) -> spec s (upd_fw g) f Q.
Proof.
  intros HQ. apply (spec_bind _ _ _ _ (fun a f' => a = f /\ f' = f)); [by apply spec_get_fw|].
  intros ? ? [-> ->]. by apply spec_put_fw.
Qed.

(** a loop, with an invariant over what is still to be done *)
Lemma spec_mapM s {A} (g : A -> M unit) (I : list A -> FileWatcherInotify -> Prop) l f (Q : unit -> _ -> Prop) :
  I l f -> (forall x l' f', I (x :: l') f' -> x ∈ l -> spec s (g x) f' (fun _ => I l')) ->
  (forall f', I [] f' -> Q tt f') -> spec s (mapM_ g l) f Q.
Proof.
  intros HI Hg HQ. assert (forall l', l' ⊆ l -> forall f, I l' f -> spec s (mapM_ g l') f Q) as Hl.
  { clear HI f. induction l' as [|x l' IH]; intros Hsub f HI; cbn [mapM_]; [apply spec_ret; auto|].
    eapply spec_bind; [apply (Hg x l' f HI), Hsub; by left|]. intros [] f' HI'. apply IH; [|done].
    intros y Hy. apply Hsub. by right. }
  by apply Hl.
Qed.

(** one step, where the state stays what it is *)
Lemma spec_get_bind s {B} (k : FileWatcherInotify -> M B) f Q : spec s (k f) f Q -> spec s (get_fw ≫= k) f Q.
Proof. intros Hk. eapply spec_bind; [apply (spec_get_fw _ _ (fun a f' => a = f /\ f' = f)); done|]. by intros ? ? [-> ->]. Qed.
Lemma spec_put_bind s {B} (k : unit -> M B) f f' Q : spec s (k tt) f' Q -> spec s (put_fw f' ≫= k) f Q.
Proof. intros Hk. eapply spec_bind; [apply (spec_put_fw _ _ _ (fun _ g => g = f')); done|]. by intros [] ? ->. Qed.
Lemma spec_sys_get_bind s {A B} (g : sys -> A) (k : A -> M B) f Q :
  (forall y, spec s (k (g y)) f Q) -> spec s (sys_get g ≫= k) f Q.
Proof.
  intros Hk. eapply spec_bind; [apply (spec_sys_get _ _ _ (fun a f' => (exists y, a = g y) /\ f' = f)); eauto|].
  by intros ? ? [[y ->] ->].
Qed.
Lemma spec_sys_call_bind s {A B} (g : sys -> A * sys) (k : A -> M B) f Q :
  (forall a, spec s (k a) f Q) -> spec s (sys_call g ≫= k) f Q.
Proof.
  intros Hk. eapply spec_bind; [apply (spec_sys_call _ _ _ (fun a f' => f' = f)); eauto|].
  by intros ? ? ->.
Qed.
Lemma spec_lift_bind s {A B} (a : A) (o : outcome A) (k : A -> M B) f Q :
  o = Ret a -> spec s (k a) f Q -> spec s (lift o ≫= k) f Q.
Proof.
  intros -> Hk. eapply spec_bind; [apply (spec_lift _ _ _ (fun b f' => b = a /\ f' = f)); [by destruct s|naive_solver]|].
  by intros ? ? [-> ->].
Qed.
End spec.

(** ** Lineages *)

Section lineage.
Context `{Platform}.
Implicit Types (h : gmap nat WatcherInotify) (f : FileWatcherInotify) (p q : nat) (l : list nat).

(** [p] exists with its parents, [l] are the objects from [p] up to one without a parent,
    whose inotify id all of them have as their id *)
Inductive lineage h (id : Z) : nat -> list nat -> Prop :=
| lineage_root p o : h !! p = Some o -> wi_Parent o = None -> wi_ID o = id -> wi_InotifyID o = id ->
    lineage h id p [p]
| lineage_child p o q l : h !! p = Some o -> wi_Parent o = Some q -> q < p -> wi_ID o = id ->
    lineage h id q l -> lineage h id p (p :: l).

Lemma lineage_head h id p l : lineage h id p l -> exists o, h !! p = Some o /\ wi_ID o = id.
Proof. intros []; eauto. Qed.
Lemma lineage_self h id p l : lineage h id p l -> p ∈ l.
Proof. intros []; left. Qed.
Lemma lineage_le h id p l : lineage h id p l -> forall q, q ∈ l -> q <= p.
Proof.
  induction 1 as [p o Hp Hn _ _|p o q l Hp Hq Hlt _ _ IH]; intros r Hr.
  - apply list_elem_of_singleton in Hr as ->. lia.
  - apply elem_of_cons in Hr as [->|Hr]; [lia|]. specialize (IH r Hr). lia.
Qed.
Lemma lineage_det h id p l : lineage h id p l -> forall id' l', lineage h id' p l' -> id' = id /\ l' = l.
Proof.
  induction 1 as [p o Hp Hn Hi _|p o q l Hp Hq _ Hi _ IH]; intros id' l' H'; inversion H'; simplify_eq; [done|].
  split; [done|]. f_equal. eapply IH; eauto.
Qed.
Lemma lineage_mono h h' id p l : lineage h id p l -> (forall q, q ∈ l -> h' !! q = h !! q) -> lineage h' id p l.
Proof.
  induction 1 as [p o Hp Hn Hi Hw|p o q l Hp Hq Hlt Hi _ IH]; intros Hh.
  - apply (lineage_root _ _ _ o); [|done..]. rewrite Hh; [done|left].
  - apply (lineage_child _ _ _ o q); [|done..|]; [rewrite Hh; [done|left]|].
    apply IH. intros r Hr. apply Hh. by right.
Qed.
Lemma lineage_live h id p l : lineage h id p l -> forall q, q ∈ l -> is_Some (h !! q).
Proof.
  induction 1 as [p o Hp _ _ _|p o q l Hp _ _ _ _ IH]; intros r Hr.
  - apply list_elem_of_singleton in Hr as ->. eauto.
  - apply elem_of_cons in Hr as [->|Hr]; eauto.
Qed.
Lemma lineage_weaken h h' id p l : h ⊆ h' -> lineage h id p l -> lineage h' id p l.
Proof.
  intros Hh Hl. apply (lineage_mono _ _ _ _ _ Hl). intros q Hq.
  destruct (lineage_live _ _ _ _ Hl q Hq) as [o E]. rewrite E. by apply (lookup_weaken _ _ _ _ E).
Qed.
(** the rest of a lineage is a lineage *)
Lemma lineage_tail h id p l q : lineage h id p l -> q ∈ l -> exists l', lineage h id q l' /\ l' ⊆ l.
Proof.
  induction 1 as [p o Hp Hn Hi Hw|p o r l Hp Hr Hlt Hi Hl IH]; intros Hq.
  - apply list_elem_of_singleton in Hq as ->. exists [p]. split; [by eapply lineage_root|done].
  - apply elem_of_cons in Hq as [->|Hq].
    + exists (p :: l). split; [by eapply lineage_child|done].
    + destruct (IH Hq) as (l' & ? & Hs). exists l'. split; [done|]. intros x Hx. right. by apply Hs.
Qed.

(** the object without a parent *)
Lemma lineage_root_of h id p l : lineage h id p l ->
  exists r o, r ∈ l /\ h !! r = Some o /\ wi_Parent o = None /\ wi_InotifyID o = id.
Proof.
  induction 1 as [p o Hp Hn Hi Hw|p o q l Hp Hq Hlt Hi _ IH].
  - exists p, o. split_and!; [left|done..].
  - destruct IH as (r & or & ? & ?). exists r, or. split; [by right|done].
Qed.

Lemma inParentTree_ok f id p l q fuel : lineage (objects f) id p l -> p < fuel -> p <> q ->
  inParentTree f fuel p q = Ret (bool_decide (q ∈ l)).
Proof.
  intros Hl. revert fuel. induction Hl as [p o Hp Hn _ _|p o r l Hp Hr Hlt _ Hl IH]; intros [|fuel] Hf Hne; try lia;
    cbn [inParentTree]; unfold deref; rewrite Hp; cbn [mbind outcome_bind].
  - rewrite Hn, bool_decide_eq_false_2; [done|]. by intros ->%list_elem_of_singleton.
  - rewrite Hr. destruct (decide (r = q)) as [->|E].
    + rewrite bool_decide_eq_true_2; [done|]. right. by eapply lineage_self.
    + rewrite IH by (done || lia). f_equal. apply bool_decide_ext. rewrite elem_of_cons.
      split; [by right|]. by intros [->|?].
Qed.

(** [q] is [p] or below it *)
Definition below h p q : Prop := exists id l, lineage h id q l /\ p ∈ l.
Lemma below_trans h p q r : below h p q -> below h q r -> below h p r.
Proof.
  intros (id & l & Hl & Hp) (id' & l' & Hl' & Hq). exists id', l'. split; [done|].
  destruct (lineage_tail _ _ _ _ _ Hl' Hq) as (l1 & Hl1 & Hsub).
  destruct (lineage_det _ _ _ _ Hl _ _ Hl1) as [_ ->]. by apply Hsub.
Qed.
Lemma below_le h p q : below h p q -> p <= q.
Proof. intros (id & l & Hl & Hp). by eapply lineage_le. Qed.
Lemma below_weaken h h' p q : h ⊆ h' -> below h p q -> below h' p q.
Proof. intros Hh (id & l & Hl & Hp). exists id, l. split; [by eapply lineage_weaken|done]. Qed.
Lemma below_back h h' id p q l : h ⊆ h' -> lineage h id q l -> below h' p q -> below h p q.
Proof.
  intros Hh Hl (id' & l' & Hl' & Hp). exists id, l. split; [done|].
  by destruct (lineage_det _ _ _ _ (lineage_weaken _ _ _ _ _ Hh Hl) _ _ Hl') as [_ <-].
Qed.

(** ** Well-formed watchers *)

Record watches_ok f : Prop := {
  wo_wf : omap_wf (mWatches f);
  wo_entry wd p : (wd, p) ∈ mWatches f -> exists o id l,
    objects f !! p = Some o /\ wi_InotifyID o = wd /\ wi_Recursive o = true /\ lineage (objects f) id p l;
  wo_real wd p : (wd, p) ∈ mRealWatches f -> exists o,
    objects f !! p = Some o /\ wi_Parent o = None /\ wi_InotifyID o = wd;
  wo_fresh p o : objects f !! p = Some o -> p < next_object f
}.

Lemma wo_key f wd wd' p : watches_ok f -> (wd, p) ∈ mWatches f -> (wd', p) ∈ mWatches f -> wd' = wd.
Proof.
  intros Hok (o & _ & _ & Ho & <- & _)%wo_entry (o' & _ & _ & Ho' & <- & _)%wo_entry; [|done..]. congruence.
Qed.
Lemma wo_get f wd p : watches_ok f -> omap_get wd (mWatches f) = Some p <-> (wd, p) ∈ mWatches f.
Proof. intros Hok. split; [apply omap_get_elem|]. by apply omap_elem_get, wo_wf. Qed.

Lemma find_dir_ret f dir (l : list (Z * nat)) : (forall e, e ∈ l -> is_Some (objects f !! e.2)) ->
  exists r, find_dir f dir l = Ret r /\ (forall p, r = Some p -> exists wd, (wd, p) ∈ l).
Proof.
  induction l as [|[wd p] l IH]; intros Hl; cbn [find_dir]; [by eexists|].
  destruct (Hl (wd, p)) as [o Ho]; [left|]. cbn in Ho. unfold deref at 1. rewrite Ho. cbn [mbind outcome_bind].
  case_decide; [eexists; split; [done|]; intros ? [= <-]; exists wd; left|].
  destruct IH as (r & -> & Hr); [intros e He; apply Hl; by right|]. exists r. split; [done|].
  intros q Hq. destruct (Hr q Hq) as [wd' ?]. exists wd'. by right.
Qed.
Lemma wo_live f : watches_ok f -> forall e, e ∈ mWatches f -> is_Some (objects f !! e.2).
Proof. intros Hok [wd p] (o & _ & _ & Ho & _)%wo_entry; [|done]. by exists o. Qed.
Lemma wo_live_real f : watches_ok f -> forall e, e ∈ mRealWatches f -> is_Some (objects f !! e.2).
Proof. intros Hok [wd p] (o & Ho & _)%wo_real; [|done]. by exists o. Qed.
End lineage.

(** ** Removing *)

Section remove.
Context `{Platform}.
Implicit Types (f : FileWatcherInotify) (p q : nat).

(** what is left after [p] is removed *)
Record removed p f f' : Prop := {
  rm_table e : e ∈ mWatches f' <-> e ∈ mWatches f /\ ~ below (objects f) p e.2;
  rm_objects q : ~ below (objects f) p q -> objects f' !! q = objects f !! q;
  rm_sub : objects f' ⊆ objects f;
  rm_real e : e ∈ mRealWatches f' -> e ∈ mRealWatches f;
  rm_fd : mFD f' = mFD f;
  rm_next : next_object f' = next_object f
}.

Lemma below_watch_ids f p (l : list (Z * nat)) : watches_ok f -> l ⊆ mWatches f ->
  exists ids, below_watch f p l = Ret ids /\
    forall id, id ∈ ids <-> exists q, (id, q) ∈ l /\ q <> p /\ below (objects f) p q.
Proof.
  intros Hok. induction l as [|[wd q] l IH]; intros Hsub; cbn [below_watch].
  { exists []. split; [done|]. intros id. split; [by intros ?%elem_of_nil|]. by intros (? & ?%elem_of_nil & _). }
  destruct IH as (ids & E & Hids); [intros e He; apply Hsub; by right|].
  destruct (wo_entry _ Hok wd q) as (o & id0 & l0 & Ho & Hw & _ & Hl); [apply Hsub; left|].
  set (b := negb (bool_decide (q = p)) && bool_decide (p ∈ l0)).
  assert ((if decide (q = p) then Ret false else inParentTree f (S q) q p) = Ret b) as ->.
  { unfold b. case_decide; [by rewrite bool_decide_eq_true_2|].
    rewrite bool_decide_eq_false_2 by done. cbn [negb andb]. by apply (inParentTree_ok _ _ _ _ _ _ Hl); [lia|]. }
  assert (b = true <-> q <> p /\ below (objects f) p q) as Hb.
  { unfold b. rewrite andb_true_iff, negb_true_iff, bool_decide_eq_false, bool_decide_eq_true.
    split; intros [? Hp]; (split; [done|]); [by exists id0, l0|].
    destruct Hp as (id' & l' & Hl' & Hp). by destruct (lineage_det _ _ _ _ Hl _ _ Hl') as [_ <-]. }
  cbn [mbind outcome_bind]. unfold deref. rewrite Ho. cbn [mbind outcome_bind]. rewrite E. cbn [mbind outcome_bind].
  eexists. split; [done|]. intros id. destruct b.
  - destruct (proj1 Hb eq_refl) as [? ?]. rewrite elem_of_cons, Hids, Hw. split.
    + intros [->|(r & ? & ?)]; [exists q; split_and!; [left|done..]|]. exists r. split; [by right|done].
    + intros (r & [[= -> ->]|Hr]%elem_of_cons & ?); [by left|]. right. by exists r.
  - rewrite Hids. split; intros (r & Hr & Hne & Hbr); [exists r; split; [by right|done]|].
    apply elem_of_cons in Hr as [[= -> ->]|Hr]; [|by exists r]. by discriminate (proj2 Hb (conj Hne Hbr)).
Qed.

(** the loop over the watches below [p], with those still to be removed *)
Record removing p f (todo : list Z) f' : Prop := {
  ri_ok : watches_ok f';
  ri_table e : e ∈ mWatches f' -> e ∈ mWatches f;
  ri_keep e : e ∈ mWatches f -> ~ below (objects f) p e.2 \/ e.2 = p -> e ∈ mWatches f';
  ri_objects q : ~ below (objects f) p q \/ q = p -> objects f' !! q = objects f !! q;
  ri_sub : objects f' ⊆ objects f;
  ri_real e : e ∈ mRealWatches f' -> e ∈ mRealWatches f;
  ri_fd : mFD f' = mFD f;
  ri_next : next_object f' = next_object f;
  ri_done e : e ∈ mWatches f' -> below (objects f) p e.2 -> e.2 = p \/ e.1 ∈ todo
}.

Lemma removing_step p f id todo f1 q f2 : watches_ok f -> removing p f (id :: todo) f1 ->
  (id, q) ∈ mWatches f1 -> q <> p -> below (objects f) p q -> watches_ok f2 -> removed q f1 f2 ->
  removing p f todo f2.
Proof.
  intros Hok [Hok1 Ht Hk Ho Hs Hr Hfd Hn Hd] Hq Hne Hb Hok2 [Rt Ro Rs Rr Rfd Rn].
  assert (forall r, below (objects f1) q r -> below (objects f) p r) as Hin.
  { intros r Hbr. apply (below_trans _ p q r); [done|]. by apply (below_weaken _ _ _ _ Hs). }
  assert (~ below (objects f1) q p) as Hnp by (intros ?%below_le; apply below_le in Hb; lia).
  constructor; [done|..].
  - intros e He. apply Ht. by apply Rt in He as [? _].
  - intros e He Hor. apply Rt. split; [by apply Hk|]. destruct Hor as [Hor| ->]; [by intros ?%Hin|done].
  - intros r Hor. rewrite Ro; [by apply Ho|]. destruct Hor as [Hor| ->]; [by intros ?%Hin|done].
  - by etrans.
  - auto.
  - congruence.
  - congruence.
  - intros [wd r] He Hbe. apply Rt in He as [He Hnb]. cbn in *.
    destruct (Hd _ He Hbe) as [?|[E|?]%elem_of_cons]; [by left| |by right]. cbn in E. subst wd. assert (r = q) as ->.
    { apply (wo_get _ _ _ Hok1) in He. apply (wo_get _ _ _ Hok1) in Hq. congruence. }
    destruct (wo_entry _ Hok1 _ _ Hq) as (_ & i & l & _ & _ & _ & Hl). destruct Hnb. exists i, l.
    split; [done|]. by eapply lineage_self.
Qed.

Lemma removing_skip p f id todo f1 : removing p f (id :: todo) f1 -> omap_get id (mWatches f1) = None ->
  removing p f todo f1.
Proof.
  intros [Hok1 Ht Hk Ho Hs Hr Hfd Hn Hd] E. constructor; try done.
  intros e He Hbe. destruct (Hd e He Hbe) as [?|[<-|?]%elem_of_cons]; [by left| |by right].
  destruct e as [wd r]. apply (wo_get _ _ _ Hok1) in He. cbn in E. congruence.
Qed.

(** the end of the removal: [p] is the last of what is below it *)
Lemma removing_end p f f1 wd o : watches_ok f -> (wd, p) ∈ mWatches f -> objects f !! p = Some o ->
  removing p f [] f1 ->
  let f2 := free p (set_tables (omap_del wd (mWatches f1))
    (match wi_Parent o with None => omap_del (wi_InotifyID o) (mRealWatches f1) | Some _ => mRealWatches f1 end) f1) in
  watches_ok f2 /\ removed p f f2.
Proof.
  intros Hok Hp Ho [Hok1 Ht Hk Hob Hs Hr Hfd Hn Hd] f2.
  assert ((wd, p) ∈ mWatches f1) as Hp1 by (apply Hk; [done|by right]).
  assert (forall e, e ∈ omap_del wd (mWatches f1) <-> e ∈ mWatches f1 /\ e.2 <> p) as Hdel.
  { intros [k r]. rewrite omap_del_elem. cbn. split; intros [He Hne]; (split; [done|]); intros ->; apply Hne.
    - by apply (wo_key f1 wd k p).
    - apply (wo_get _ _ _ Hok1) in He, Hp1. congruence. }
  assert (forall q, ~ below (objects f) p q -> q <> p -> objects f2 !! q = objects f !! q) as Hf2.
  { intros q Hq Hne. cbn. rewrite lookup_delete_ne by done. apply Hob. by left. }
  assert (forall e, e ∈ mWatches f2 <-> e ∈ mWatches f /\ ~ below (objects f) p e.2) as Htab.
  { intros e. cbn. rewrite Hdel. split.
    - intros [He Hne]. split; [by apply Ht|]. intros Hb. destruct (Hd e He Hb) as [?|?%elem_of_nil]; done.
    - intros [He Hb]. split; [apply Hk; [done|by left]|]. intros Ee. rewrite Ee in Hb. destruct Hb.
      destruct (wo_entry _ Hok _ _ Hp) as (_ & i & l & _ & _ & _ & Hl). exists i, l. split; [done|]. by eapply lineage_self. }
  split; constructor.
  - cbn. by apply omap_del_wf, wo_wf.
  - intros k q He. apply Htab in He as [He Hb]. destruct (wo_entry _ Hok _ _ He) as (oq & i & l & Hoq & Hi & Hrec & Hl).
    cbn in Hb. assert (forall r, r ∈ l -> objects f2 !! r = objects f !! r) as Hsame.
    { intros r Hrl. apply Hf2; [|intros ->; apply Hb; by exists i, l]. intros Hbr. apply Hb.
      eapply below_trans; [exact Hbr|by exists i, l]. }
    exists oq, i, l. rewrite Hsame by (by eapply lineage_self). split_and!; [done..|]. by eapply lineage_mono.
  - intros k q He. assert ((k, q) ∈ mRealWatches f1 /\ q <> p) as [He1 Hne].
    { cbn in He. assert (objects f1 !! p = Some o) as Ho1 by (rewrite Hob; [done|by right]).
      destruct (wi_Parent o) as [r|] eqn:Epar.
      - split; [done|]. intros ->. destruct (wo_real _ Hok1 _ _ He) as (o' & Ho' & Hn' & _). congruence.
      - apply omap_del_elem in He as [He1 Hk']. cbn in Hk'.
        split; [done|]. intros ->. destruct (wo_real _ Hok1 _ _ He1) as (o' & Ho' & _ & Hi'). congruence. }
    destruct (wo_real _ Hok1 _ _ He1) as (oq & Hoq & ? & ?). exists oq. cbn. by rewrite lookup_delete_ne.
  - intros q oq Hq. cbn in Hq. apply lookup_delete_Some in Hq as [_ Hq]. cbn. by eapply wo_fresh.
  - exact Htab.
  - intros q Hb. apply Hf2; [done|]. intros ->. apply Hb.
    destruct (wo_entry _ Hok _ _ Hp) as (_ & i & l & _ & _ & _ & Hl). exists i, l. split; [done|]. by eapply lineage_self.
  - cbn. etrans; [apply delete_subseteq|done].
  - intros e He. apply Hr. cbn in He. destruct (wi_Parent o); [done|].
    by apply omap_del_elem in He as [? _].
  - done.
  - done.
Qed.

Lemma removed_refl_moved p f f1 : mWatches f1 = mWatches f -> objects f1 = objects f ->
  mRealWatches f1 = mRealWatches f -> mFD f1 = mFD f -> next_object f1 = next_object f ->
  watches_ok f -> watches_ok f1 /\ (forall todo, (forall wd q, (wd, q) ∈ mWatches f -> q <> p -> below (objects f) p q -> wd ∈ todo) ->
    removing p f todo f1).
Proof.
  intros Et Eo Er Ef En Hok. assert (watches_ok f1) as Hok1.
  { destruct Hok. constructor; rewrite ?Et, ?Eo, ?Er, ?En; eauto. }
  split; [done|]. intros todo Htodo. constructor; rewrite ?Et, ?Eo, ?Er; try done.
  intros [wd q] He Hb. destruct (decide (q = p)); [by left|]. right. by eapply Htodo.
Qed.

Definition others (L : list nat) f p : Prop := p ∈ L /\ forall e, e ∈ mWatches f -> below (objects f) p e.2 -> e.2 ∈ L.

Lemma removeWatchLocked_ok s fuel : forall f wd p (L : list nat),
  watches_ok f -> (wd, p) ∈ mWatches f -> others L f p -> length L <= fuel ->
  spec s (removeWatchLocked fuel wd) f (fun _ f' => watches_ok f' /\ removed p f f').
Proof.
  induction fuel as [|fuel IH]; intros f wd p L Hok Hp [HpL HL] Hlen.
  { destruct L; [by apply elem_of_nil in HpL|cbn in Hlen; lia]. }
  destruct (wo_entry _ Hok _ _ Hp) as (o & i & l & Ho & Hi & Hrec & Hl).
  cbn [removeWatchLocked]. apply spec_get_bind. rewrite (proj2 (wo_get _ wd p Hok) Hp).
  apply (spec_lift_bind _ o); [by unfold deref; rewrite Ho|]. apply spec_put_bind.
  set (f1 := set_moved _ f). destruct (removed_refl_moved p f f1 eq_refl eq_refl eq_refl eq_refl eq_refl Hok) as [Hok1 Hstart].
  rewrite Hrec. eapply (spec_bind _ _ _ _ (fun _ => removing p f [])).
  - destruct (below_watch_ids f p (mWatches f) Hok) as (ids & E & Hids); [done|].
    apply (spec_lift_bind _ ids); [exact E|].
    apply (spec_mapM _ _ (removing p f)); [|clear f1 Hok1 Hstart|done].
    { apply Hstart. intros wd' q ? ? ?. apply Hids. by exists q. }
    intros id todo f1 Hinv Hid. apply Hids in Hid as (q & Hq & Hne & Hb).
    apply spec_get_bind. unfold omap_has. case_bool_decide as Hhas.
    + destruct Hhas as [q' E']. pose proof (ri_ok _ _ _ _ Hinv) as Hok1.
      assert (q' = q) as ->.
      { apply omap_get_elem, (ri_table _ _ _ _ Hinv) in E'. apply (wo_get _ _ _ Hok) in E', Hq. congruence. }
      apply (wo_get _ _ _ Hok1) in E'.
      eapply spec_weaken; [apply (IH f1 id q (filter (fun r => r <> p) L) Hok1 E')|].
      * split.
        -- apply list_elem_of_filter. split; [done|]. by apply (HL (id, q)).
        -- intros e He Hbe. apply list_elem_of_filter.
           assert (below (objects f) q e.2) as Hbf by apply (below_weaken _ _ _ _ (ri_sub _ _ _ _ Hinv) Hbe).
           split; [intros Ee; rewrite Ee in Hbf; apply below_le in Hbf; apply below_le in Hb; lia|].
           apply HL; [by apply (ri_table _ _ _ _ Hinv)|]. by apply (below_trans _ p q).
      * assert (length (filter (fun r => r <> p) L) < length L); [|lia].
        clear -HpL. induction L as [|x L IH]; [by apply elem_of_nil in HpL|].
        rewrite filter_cons. case_decide as Ex; cbn.
        -- apply elem_of_cons in HpL as [->|HpL]; [done|]. specialize (IH HpL). lia.
        -- pose proof (length_filter (fun r => r <> p) L). lia.
      * intros [] f2 [Hok2 Hrm]. by apply (removing_step p f id todo f1 q f2).
    + apply spec_ret. apply (removing_skip _ _ _ _ _ Hinv).
      destruct (omap_get id (mWatches f1)); [by destruct Hhas; eauto|done].
  - intros [] f2 Hinv. apply spec_get_bind.
    rewrite decide_True; cycle 1.
    { apply (wo_get _ _ _ (ri_ok _ _ _ _ Hinv)). apply (ri_keep _ _ _ _ Hinv); [done|by right]. }
    apply spec_put_bind. apply spec_sys_call. intros y. exact (removing_end p f f2 wd o Hok Hp Ho Hinv).
Qed.

Lemma remove_locked_ok s f wd p : watches_ok f -> (wd, p) ∈ mWatches f ->
  spec s (remove_locked wd) f (fun _ f' => watches_ok f' /\ removed p f f').
Proof.
  intros Hok Hp. unfold remove_locked. apply spec_get_bind.
  apply (removeWatchLocked_ok _ _ _ _ _ (mWatches f).*2); [done|done| |rewrite length_fmap; lia].
  split; [|intros e He _]; apply list_elem_of_fmap; [by exists (wd, p)|by exists e].
Qed.
Lemma removeWatch_ok s f wd : watches_ok f ->
  spec s (removeWatch_inotify wd) f (fun _ f' => watches_ok f' /\
    match omap_get wd (mWatches f) with Some p => removed p f f' | None => f' = f end).
Proof.
  intros Hok. unfold removeWatch_inotify. apply spec_get_bind. unfold omap_has.
  destruct (omap_get wd (mWatches f)) as [p|] eqn:E.
  - rewrite bool_decide_eq_true_2 by eauto. apply remove_locked_ok; [done|]. by apply omap_get_elem.
  - rewrite bool_decide_eq_false_2 by (by intros [? ?]). by apply spec_ret.
Qed.
End remove.

(** ** Adding *)

Definition no_nul (s : string) : Prop := sforall (fun c => negb (bool_decide (c = "000"%char))) s = true.

Section add.
Context `{Platform}.
Implicit Types (f : FileWatcherInotify) (p q : nat).

(** What the kernel promises: a path of PATH_MAX bytes has no inode; the names of a
    directory are not empty and, like a real path, have no NUL.  That a directory is not
    on a FUSE file system of a block device, for which its mount point is looked for,
    is an assumption on the place of the watches. *)
Record inotify_laws : Prop := {
  il_long path y : 4096 <= slen path -> in_stat path y = None;
  il_names path y names : in_readdir path y = Some names -> forall n, n ∈ names -> n <> "" /\ no_nul n;
  il_realpath path y r : in_realpath path y = Some r -> no_nul r;
  il_local path y : in_statfs path y <> S_MAGIC_FUSEBLK
}.

(** [f'] has the watches of [f], and perhaps more *)
Record extends f f' : Prop := {
  ex_table e : e ∈ mWatches f -> e ∈ mWatches f';
  ex_objects : objects f ⊆ objects f';
  ex_fd : mFD f' = mFD f
}.
#[export] Instance extends_preorder : PreOrder extends.
Proof.
  split; [by constructor|]. intros f g h [T O F] [T' O' F']. constructor; [auto|by etrans|congruence].
Qed.

(** a parent exists with its parents *)
Definition has_lineage f p : Prop := exists id l, lineage (objects f) id p l.
Definition parent_ok f (parent : option nat) : Prop := match parent with Some q => has_lineage f q | None => True end.
Lemma has_lineage_extends f f' p : extends f f' -> has_lineage f p -> has_lineage f' p.
Proof. intros [_ O _] (id & l & Hl). exists id, l. by eapply lineage_weaken. Qed.

Lemma insert_watch_elem wd p (l : list (Z * nat)) e : omap_wf l ->
  e ∈ insert_watch wd p l -> e ∈ l \/ e = (wd, p).
Proof.
  unfold insert_watch. destruct (omap_has wd l) eqn:E; [by left|]. intros Hwf He. destruct e as [k q].
  apply omap_elem_get in He; [|by apply omap_set_wf]. destruct (decide (k = wd)) as [->|Hne].
  - rewrite omap_get_set_eq in He. right. congruence.
  - rewrite omap_get_set_ne in He by done. left. by apply omap_get_elem.
Qed.
Lemma insert_watch_keep wd p (l : list (Z * nat)) e : omap_wf l -> e ∈ l -> e ∈ insert_watch wd p l.
Proof.
  unfold insert_watch, omap_has. intros Hwf He. case_bool_decide as E; [done|]. destruct e as [k q].
  apply (omap_elem_get _ _ _ Hwf) in He. apply omap_get_elem. rewrite omap_get_set_ne; [done|].
  intros ->. by destruct E; exists q.
Qed.
Lemma insert_watch_wf wd p (l : list (Z * nat)) : omap_wf l -> omap_wf (insert_watch wd p l).
Proof. unfold insert_watch. destruct (omap_has wd l); [done|]. apply omap_set_wf. Qed.
(** a watch that is new *)
Lemma new_watch_ok f o : watches_ok f -> parent_ok f (wi_Parent o) -> wi_Recursive o = true ->
  parent_id f (wi_Parent o) (wi_InotifyID o) = Ret (wi_ID o) ->
  watches_ok (new_watch o f) /\ extends f (new_watch o f) /\ has_lineage (new_watch o f) (next_object f).
Proof.
  intros Hok Hpar Hrec Hid. set (p := next_object f).
  assert (objects f !! p = None) as Hfresh.
  { destruct (objects f !! p) as [o'|] eqn:E; [|done]. apply (wo_fresh _ Hok) in E. unfold p in E. lia. }
  assert (objects f ⊆ <[p := o]> (objects f)) as Hsub by by apply insert_subseteq.
  assert (exists l, lineage (<[p := o]> (objects f)) (wi_ID o) p l) as [l Hl].
  { destruct (wi_Parent o) as [q|] eqn:Eq; cbn in Hpar, Hid.
    - destruct Hpar as (id & l & Hl). exists (p :: l).
      destruct (lineage_head _ _ _ _ Hl) as (oq & Hoq & Hiq). unfold deref in Hid. rewrite Hoq in Hid.
      cbn [mbind outcome_bind] in Hid. injection Hid as Hid.
      apply (lineage_child _ _ _ o q); [by rewrite lookup_insert_eq|done| |done|].
      + by apply (wo_fresh _ Hok) in Hoq.
      + rewrite <-Hid, Hiq. by eapply lineage_weaken.
    - injection Hid as Hid. exists [p]. by apply (lineage_root _ _ _ o); [by rewrite lookup_insert_eq|..]. }
  split; [|split].
  - constructor.
    + apply insert_watch_wf, (wo_wf f), Hok.
    + intros k q [He|E]%insert_watch_elem; [| |by apply (wo_wf f)].
      * destruct (wo_entry _ Hok _ _ He) as (oq & id & l' & Hoq & ? & ? & Hl'). exists oq, id, l'. cbn.
        split_and!; [by apply (lookup_weaken _ _ _ _ Hoq)|done..|by eapply lineage_weaken].
      * injection E as -> ->. exists o, (wi_ID o), l. cbn. by rewrite lookup_insert_eq.
    + intros k q He. assert ((k, q) ∈ mRealWatches f \/ (k, q) = (wi_InotifyID o, p) /\ wi_Parent o = None) as [Hr|[E En]].
      { cbn in He. destruct (wi_Parent o); [by left|]. apply omap_set_elem in He as [?|?]; [by left|by right]. }
      * destruct (wo_real _ Hok _ _ Hr) as (oq & Hoq & ? & ?). exists oq. split; [|done].
        by apply (lookup_weaken _ _ _ _ Hoq).
      * injection E as -> ->. exists o. cbn. by rewrite lookup_insert_eq.
    + intros q oq Hq. cbn in Hq |- *. apply lookup_insert_Some in Hq as [[<- _]|[_ Hq]]; [unfold p; lia|].
      apply (wo_fresh _ Hok) in Hq. lia.
  - constructor; [|done|done]. intros e He. apply insert_watch_keep; [by apply (wo_wf f)|done].
  - by exists (wi_ID o), l.
Qed.

Lemma pathInWatches_ok s f path : watches_ok f -> spec s (pathInWatches path) f (fun _ f' => f' = f).
Proof.
  intros Hok. unfold pathInWatches. apply spec_get_bind.
  destruct (find_dir_ret f path (mRealWatches f) (wo_live_real _ Hok)) as (r & E & _).
  apply (spec_lift_bind _ r); [done|]. by apply spec_ret.
Qed.

Lemma mount_loop_ok f fuel st : spec Defined (mount_loop fuel st) f (fun _ f' => f' = f).
Proof.
  revert st. induction fuel as [|fuel IH]; intros st; cbn [mount_loop]; [by apply spec_lift|].
  apply spec_sys_get_bind. intros y. destruct (in_stat _ y) as [st'|]; [|by apply spec_ret].
  destruct (_ || _).
  - unfold getCurrentWorkingDirectory. apply spec_sys_get_bind. intros y'. by apply spec_ret.
  - unfold changeWorkingDirectory. apply spec_sys_call_bind. intros []; [apply IH|by apply spec_ret].
Qed.
Lemma findMountPoint_ok f fuel file : spec Defined (findMountPoint fuel file) f (fun _ f' => f' = f).
Proof.
  unfold findMountPoint, getCurrentWorkingDirectory, changeWorkingDirectory.
  eapply (spec_bind _ _ _ _ (fun _ f' => f' = f)).
  { apply spec_sys_get_bind. intros y. by apply spec_ret. }
  intros cwd ? ->. do 2 (apply spec_sys_get_bind; intros ?). apply spec_sys_call_bind. intros [|]; [|by apply spec_ret].
  cbn [negb]. eapply (spec_bind _ _ _ _ (fun _ f' => f' = f)).
  { destruct (isDirectory _ _); [by apply spec_ret|by apply spec_sys_get]. }
  intros [st|] ? ->; [|by apply spec_ret].
  eapply spec_bind; [apply mount_loop_ok|]. intros mp ? ->. apply spec_sys_call_bind. intros _. by apply spec_ret.
Qed.

Lemma isRemoteFS_ok s f dir : (s = Total -> inotify_laws) -> spec s (isRemoteFS dir) f (fun _ f' => f' = f).
Proof.
  intros Hl. unfold isRemoteFS. apply spec_sys_get_bind. intros y. destruct (_ =? _)%Z eqn:E; [|by apply spec_ret].
  destruct (decide (s = Total)) as [Hs|Hs]; [by apply Z.eqb_eq, il_local in E; [|apply Hl]|].
  apply (spec_stronger Defined); [|destruct s; [done|auto|auto]].
  unfold isLocalFUSEDirectory. eapply (spec_bind _ _ _ _ (fun _ f' => f' = f)); [|intros b ? ->; by apply spec_ret].
  eapply spec_bind; [apply findMountPoint_ok|]. intros d ? ->. destruct (isempty d); [by apply spec_ret|].
  eapply (spec_bind _ _ _ _ (fun _ f' => f' = f)); [|intros p ? ->; by apply spec_ret].
  unfold findDevicePath. apply spec_sys_get_bind. intros y'. by apply spec_ret.
Qed.

(** *** Paths *)

Lemma no_nul_app a b : no_nul (a +:+ b) <-> no_nul a /\ no_nul b.
Proof. unfold no_nul. rewrite !sforall_forallb, to_list_app, forallb_app, andb_true_iff. done. Qed.
Lemma spop_back_slen s : slen s - 1 <= slen (spop_back s).
Proof.
  induction s as [|c s IH]; [done|]. cbn [spop_back]. destruct s as [|d s]; [done|]. cbn [slen String.length] in *. lia.
Qed.
Lemma spop_back_no_nul s : no_nul s -> no_nul (spop_back s).
Proof.
  unfold no_nul. induction s as [|c s IH]; [done|]. cbn [spop_back]. destruct s as [|d s]; [done|].
  cbn [sforall]. intros [Hc Hs]%andb_true_iff. apply andb_true_iff. split; [done|]. by apply IH.
Qed.
Lemma add_slash_no_nul d : no_nul d -> no_nul (dirAddSlashAtEnd d).
Proof. unfold dirAddSlashAtEnd. intros. destruct (_ && _); [|done]. by apply no_nul_app. Qed.
Lemma remove_slash_no_nul d : no_nul d -> no_nul (dirRemoveSlashAtEnd d).
Proof. unfold dirRemoveSlashAtEnd. intros. destruct (_ && _); [by apply spop_back_no_nul|done]. Qed.
Lemma add_slash_slen d : slen d <= slen (dirAddSlashAtEnd d).
Proof. unfold dirAddSlashAtEnd. destruct (_ && _); [|done]. rewrite slen_app. lia. Qed.
Lemma remove_slash_slen d : slen d - 1 <= slen (dirRemoveSlashAtEnd d).
Proof. unfold dirRemoveSlashAtEnd. destruct (_ && _); [apply spop_back_slen|lia]. Qed.

Lemma getInfo_long d y : inotify_laws -> no_nul d -> 4097 <= slen d -> getInfo d y = 0%Z.
Proof.
  intros Hl Hn Hd. unfold getInfo. rewrite c_str_id by by apply remove_slash_no_nul.
  rewrite (il_long Hl); [done|]. pose proof (remove_slash_slen d). lia.
Qed.

Lemma filesInfo_names dir y name mode : inotify_laws -> no_nul dir -> (name, mode) ∈ filesInfoFromPath dir y ->
  name <> "" /\ no_nul name.
Proof.
  intros Hl Hn. unfold filesInfoFromPath. destruct (in_readdir _ y) as [names|] eqn:E; [|by intros ?%elem_of_nil].
  pose proof (il_names Hl _ _ _ E) as Hnames. clear E.
  assert (forall files, (forall n m, (n, m) ∈ files -> n <> "" /\ no_nul n) ->
    (name, mode) ∈ foldl (fun files name => if mem name ["."; ".."] then files
      else omap_set name (getInfo (dirAddSlashAtEnd dir +:+ name) y) files) files names -> name <> "" /\ no_nul name) as Hg.
  { induction names as [|n names IH]; intros files Hf; cbn [foldl]; [by apply Hf|].
    apply IH; [intros n' Hn'; apply Hnames; by right|]. destruct (mem _ _); [done|].
    assert (n <> "" /\ no_nul n) as Hnn by (apply Hnames; left).
    assert (Forall (fun e => e.1 <> "" /\ no_nul e.1) (omap_set n (getInfo (dirAddSlashAtEnd dir +:+ n) y) files)) as HF.
    { apply omap_set_Forall; [done|]. apply Forall_forall. intros [n' m'] He. by eapply Hf. }
    rewrite Forall_forall in HF. intros n' m' He. by apply (HF (n', m')). }
  apply Hg. by intros n m ?%elem_of_nil.
Qed.

(** *** The recursion *)

Lemma watchable_ok s f dir parent : watches_ok f -> (s = Total -> inotify_laws) ->
  spec s (watchable dir parent) f (fun r f' => f' = f /\ (forall d, r = inr d -> inotify_laws -> no_nul dir ->
    no_nul d /\ slen dir < 4097 /\ (d = dirAddSlashAtEnd dir \/ parent = None))).
Proof.
  intros Hok Hs. unfold watchable. apply spec_sys_get_bind. intros y.
  destruct (negb (S_ISDIR _)) eqn:Ed; [by apply spec_ret|].
  assert (inotify_laws -> no_nul dir -> slen dir < 4097) as Hlen.
  { intros Hl Hn. destruct (decide (slen dir < 4097)) as [|Hge]; [done|]. rewrite getInfo_long in Ed; [done..| |].
    - by apply add_slash_no_nul.
    - pose proof (add_slash_slen dir). lia. }
  apply spec_sys_get_bind. intros y2. destruct (negb (isReadable _ _)); [by apply spec_ret|].
  eapply spec_bind; [by apply pathInWatches_ok|]. intros [] ? ->; [by apply spec_ret|].
  eapply (spec_bind _ _ _ _ (fun _ f' => f' = f)).
  { case_bool_decide; [by apply isRemoteFS_ok|by apply spec_ret]. }
  intros [] ? ->; [by apply spec_ret|]. apply spec_sys_get_bind. intros y3.
  destruct (getLinkRealPath _ y3) as [link curPath] eqn:El. destruct (isempty link) eqn:Ee.
  { apply spec_ret. split; [done|]. intros d [= <-] Hl Hn. split; [by apply add_slash_no_nul|]. auto. }
  case_bool_decide as Hp; [by apply spec_ret|].
  eapply spec_bind; [by apply pathInWatches_ok|]. intros [] ? ->; [by apply spec_ret|].
  destruct (negb (linkAllowed _ _)); [by apply spec_ret|]. apply spec_ret. split; [done|]. intros d [= <-] Hl Hn.
  assert (no_nul link) as Hlink.
  { revert El. unfold getLinkRealPath. destruct (S_ISLNK _); intros [= <- <-]; [|done]. apply add_slash_no_nul.
    destruct (in_realpath _ y3) as [r|] eqn:Er; [by eapply il_realpath|done]. }
  split; [done|]. split; [by apply Hlen|]. right. destruct parent; [by destruct Hp|done].
Qed.

(** enough fuel for a path *)
Definition fuel_for (fuel : nat) (dir : string) (parent : option nat) : Prop :=
  4097 - slen dir < fuel /\ (parent = None -> 4097 < fuel).

Lemma addWatch_ok s fuel : forall f dir watcher parent, watches_ok f -> parent_ok f parent ->
  (s = Total -> inotify_laws /\ no_nul dir /\ fuel_for fuel dir parent) ->
  spec s (addWatch fuel dir watcher true parent) f (fun _ f' => watches_ok f' /\ extends f f').
Proof.
  induction fuel as [|fuel IH]; intros f dir watcher parent Hok Hpar Hs; cbn [addWatch].
  { destruct s; [destruct (Hs eq_refl) as (_ & _ & Hf & _); lia|by apply spec_lift..]. }
  eapply spec_bind; [apply watchable_ok; [done|]; intros E; by destruct (Hs E)|].
  intros [e|d] ? [-> Hd]; [by apply spec_ret|]. apply spec_get_bind, spec_sys_call_bind. intros [wd| |]; [|by apply spec_ret..].
  assert (exists id, parent_id f parent wd = Ret id) as [id Hid].
  { destruct parent as [q|]; [|by exists wd]. destruct Hpar as (i & l & Hl). cbn. unfold deref.
    destruct (lineage_head _ _ _ _ Hl) as (o & -> & <-). by eexists. }
  apply (spec_lift_bind _ id); [done|]. apply spec_put_bind.
  set (o := MkWatcher id d watcher true "" wd parent).
  destruct (new_watch_ok f o Hok Hpar eq_refl Hid) as (Hok1 & Hex & Hlin).
  set (f1 := new_watch o f) in *. eapply (spec_bind _ _ _ _ (fun _ f' => watches_ok f' /\ extends f f')).
  2: { intros [] f2 ?. by apply spec_ret. }
  apply spec_sys_get_bind. intros y.
  apply (spec_mapM _ _ (fun _ f' => watches_ok f' /\ extends f1 f')); [done| |].
  - intros [name mode] todo f2 [Hok2 Hex2] Hin. apply spec_sys_get_bind. intros y2. cbn [fst snd].
    destruct (S_ISDIR mode && isReadable mode y2); [|by apply spec_ret].
    eapply (spec_bind _ _ _ _ (fun _ f' => watches_ok f' /\ extends f2 f'));
      [|intros z f3 [Hok3 Hex3]; apply spec_ret; split; [exact Hok3|by etrans]].
    apply IH; [done|by eapply has_lineage_extends|]. intros Es. destruct (Hs Es) as (Hl & Hn & Hf1 & Hf2).
    destruct (Hd d eq_refl Hl Hn) as (Hnd & Hlt & Hor). destruct (filesInfo_names _ _ _ _ Hl Hnd Hin) as [Hne Hnn].
    split; [done|]. split; [apply no_nul_app; split; [by apply add_slash_no_nul|done]|].
    assert (0 < slen name) as Hpos by (destruct name; [done|cbn; lia]).
    split; [|done]. rewrite slen_app. pose proof (add_slash_slen d).
    destruct Hor as [->|Ep]; [|specialize (Hf2 Ep); lia]. pose proof (add_slash_slen dir). lia.
  - intros f2 [Hok2 Hex2]. split; [done|by etrans].
Qed.
End add.

(** ** Events *)

Section events.
Context `{FileWatchListener}.
Implicit Types (f : FileWatcherInotify) (p q : nat).

(** objects that differ in their names only *)
Definition core (o : WatcherInotify) := (wi_ID o, wi_InotifyID o, wi_Recursive o, wi_Parent o).
Record same_shape f f' : Prop := {
  ss_objects p : core <$> objects f' !! p = core <$> objects f !! p;
  ss_watches : mWatches f' = mWatches f;
  ss_real : mRealWatches f' = mRealWatches f;
  ss_next : next_object f' = next_object f
}.
Lemma same_shape_refl f : same_shape f f.
Proof. done. Qed.
Lemma same_shape_trans f g h : same_shape f g -> same_shape g h -> same_shape f h.
Proof. intros [O W R N] [O' W' R' N']. constructor; intros; by rewrite ?O', ?W', ?R', ?N'. Qed.
Lemma same_shape_insert f p o o' : objects f !! p = Some o -> core o' = core o ->
  same_shape f (set_objects (insert p o') f).
Proof.
  intros Ho Hc. constructor; try done. intros q. cbn. destruct (decide (q = p)) as [->|Hne].
  - rewrite lookup_insert_eq, Ho. cbn. by f_equal.
  - by rewrite lookup_insert_ne.
Qed.

Lemma shape_get f f' p o : same_shape f f' -> objects f !! p = Some o ->
  exists o', objects f' !! p = Some o' /\ core o' = core o.
Proof.
  intros Hs Ho. pose proof (ss_objects _ _ Hs p) as E. rewrite Ho in E.
  destruct (objects f' !! p) as [o'|]; [|done]. cbn [fmap option_fmap option_map] in E. apply (inj Some) in E. eauto.
Qed.
Lemma shape_lineage f f' id p l : same_shape f f' -> lineage (objects f) id p l -> lineage (objects f') id p l.
Proof.
  intros Hs. induction 1 as [p o Hp Hn Hi Hw|p o q l Hp Hq Hlt Hi _ IH];
    destruct (shape_get _ _ _ _ Hs Hp) as (o' & Ho' & [= ? ? ? ?]).
  - apply (lineage_root _ _ _ o'); congruence.
  - apply (lineage_child _ _ _ o' q); congruence.
Qed.
Lemma shape_ok f f' : same_shape f f' -> watches_ok f -> watches_ok f'.
Proof.
  intros Hs Hok. constructor; rewrite ?(ss_watches _ _ Hs), ?(ss_real _ _ Hs), ?(ss_next _ _ Hs); [apply Hok|..].
  - intros wd p (o & id & l & Ho & Hi & Hr & Hl)%wo_entry; [|done].
    destruct (shape_get _ _ _ _ Hs Ho) as (o' & Ho' & [= ? ? ? ?]). exists o', id, l.
    split_and!; [done|congruence|congruence|]. by apply (shape_lineage _ _ _ _ _ Hs).
  - intros wd p (o & Ho & Hp & Hi)%wo_real; [|done].
    destruct (shape_get _ _ _ _ Hs Ho) as (o' & Ho' & [= ? ? ? ?]). exists o'. split_and!; [done|congruence..].
  - intros p o' Ho'. pose proof (ss_objects _ _ Hs p) as E. rewrite Ho' in E.
    destruct (objects f !! p) as [o|] eqn:Ho; [|done]. by apply (wo_fresh _ Hok) in Ho.
Qed.
Lemma shape_has_lineage f f' p : same_shape f f' -> has_lineage f p -> has_lineage f' p.
Proof. intros Hs (id & l & Hl). exists id, l. by apply (shape_lineage _ _ _ _ _ Hs). Qed.

Lemma move_watches_shape opath fpath l f f' : move_watches opath fpath l f = Ret f' -> same_shape f f'.
Proof.
  revert f. induction l as [|[wd p] l IH]; intros f; cbn [move_watches]; [by intros [= <-]|].
  unfold deref at 1. destruct (objects f !! p) as [o|] eqn:Ho; [|done]. cbn [mbind outcome_bind].
  intros E%IH. eapply same_shape_trans; [|exact E]. by apply (same_shape_insert _ _ o).
Qed.

(** the watcher is known to the listener by its calls only *)
Context (Hlisten : forall l id dir name action old f,
  spec Partial (handleFileAction l id dir name action old) f (fun _ f' => f' = f)).

Lemma spec_lift_partial {A B} (o : outcome A) (k : A -> M B) f Q :
  (forall a, o = Ret a -> spec Partial (k a) f Q) -> spec Partial (lift o ≫= k) f Q.
Proof.
  intros Hk. eapply (spec_bind _ _ _ _ (fun a f' => o = Ret a /\ f' = f)); [by apply spec_lift; [destruct o|]|].
  by intros a ? [E ->]; apply Hk.
Qed.
Lemma deref_Ret f p o : deref f p = Ret o -> objects f !! p = Some o.
Proof. unfold deref. destruct (objects f !! p); [by intros [= ->]|done]. Qed.

Lemma notify_ok watch name action old f : spec Partial (notify watch name action old) f (fun _ f' => f' = f).
Proof. unfold notify. apply spec_get_bind, spec_lift_partial. intros o _. apply Hlisten. Qed.

Lemma checkForNewWatcher_ok watch fpath f : watches_ok f -> has_lineage f watch ->
  spec Partial (checkForNewWatcher watch fpath) f (fun _ f' => watches_ok f' /\ extends f f').
Proof.
  intros Hok Hl. unfold checkForNewWatcher. cbv zeta. apply spec_get_bind, spec_lift_partial. intros o Ho%deref_Ret.
  apply spec_sys_get_bind. intros y. destruct (wi_Recursive o) eqn:Er; [|by apply spec_ret]. cbn [andb].
  destruct (isDirectory _ y); [|by apply spec_ret]. apply spec_lift_partial. intros [r|] _; [by apply spec_ret|].
  eapply spec_bind; [by apply addWatch_ok|]. intros z f' Hf'. by apply spec_ret.
Qed.

Lemma set_old_ok watch name f : spec Partial (set_old watch name) f (fun _ f' => same_shape f f').
Proof.
  unfold set_old. apply spec_get_bind, spec_lift_partial. intros o Ho%deref_Ret.
  apply spec_put_fw. by apply (same_shape_insert _ _ o).
Qed.

Lemma handleMovedTo_ok watch name fpath old f : watches_ok f -> has_lineage f watch ->
  spec Partial (handleMovedTo watch name fpath old) f (fun _ f' => watches_ok f').
Proof.
  intros Hok Hl. unfold handleMovedTo. eapply (spec_bind _ _ _ _ (fun _ f' => watches_ok f')).
  - destruct (isempty old); [|eapply spec_weaken; [apply notify_ok|by intros ? ? ->]].
    do 2 (eapply spec_bind; [apply notify_ok|intros ? ? ->]).
    eapply spec_weaken; [by apply checkForNewWatcher_ok|by intros ? ? [? _]].
  - intros [] f1 Hok1. apply spec_get_bind, spec_lift_partial. intros o _. apply spec_sys_get_bind. intros y.
    eapply (spec_bind _ _ _ _ (fun _ f' => watches_ok f')).
    + destruct (_ && _); [|by apply spec_ret]. apply spec_lift_partial. intros f2 E%move_watches_shape.
      apply spec_put_fw. exact (shape_ok _ _ E Hok1).
    + intros [] f2 Hok2. eapply spec_weaken; [apply set_old_ok|]. intros u f3 Hs. exact (shape_ok _ _ Hs Hok2).
Qed.

Lemma handleDelete_ok watch name fpath f : watches_ok f ->
  spec Partial (handleDelete watch name fpath) f (fun _ f' => watches_ok f').
Proof.
  intros Hok. unfold handleDelete. eapply spec_bind; [apply notify_ok|]. intros [] ? ->.
  apply spec_get_bind, spec_lift_partial. intros o _. destruct (wi_Recursive o); [|by apply spec_ret].
  destruct (find_dir_ret f (dirAddSlashAtEnd fpath) (mWatches f) (wo_live _ Hok)) as (r & E & Hr).
  apply (spec_lift_bind _ r); [done|]. destruct r as [p|]; [|by apply spec_ret]. destruct (Hr p eq_refl) as [wd Hp].
  apply spec_lift_partial. intros op Hop%deref_Ret. destruct (wo_entry _ Hok _ _ Hp) as (o' & id & l & Ho' & Hi & _).
  replace (wi_InotifyID op) with wd by congruence.
  eapply spec_weaken; [by apply (remove_locked_ok _ _ wd p)|by intros ? ? [? _]].
Qed.

Lemma handleAction_ok watch name action f : watches_ok f ->
  (has_bit action IN_MOVED_TO || has_bit action IN_CREATE = true -> has_lineage f watch) ->
  spec Partial (handleAction watch name action) f (fun _ f' => watches_ok f').
Proof.
  intros Hok Hl. unfold handleAction. apply spec_get_bind, spec_lift_partial. intros o _. cbv zeta.
  destruct (has_bit action IN_CLOSE_WRITE || _); [eapply spec_weaken; [apply notify_ok|by intros ? ? ->]|].
  destruct (has_bit action IN_MOVED_TO); [by apply handleMovedTo_ok, Hl|].
  destruct (has_bit action IN_CREATE).
  { eapply spec_bind; [apply notify_ok|]. intros [] ? ->.
    eapply spec_weaken; [by apply checkForNewWatcher_ok, Hl|by intros ? ? [? _]]. }
  destruct (has_bit action IN_MOVED_FROM).
  { eapply spec_weaken; [apply set_old_ok|]. intros u f' Hs. exact (shape_ok _ _ Hs Hok). }
  destruct (has_bit action IN_DELETE); [by apply handleDelete_ok|by apply spec_ret].
Qed.

(** the variables of the loop are not part of the table *)
Lemma upd_run_ok g f : (forall f, same_shape f (g f)) -> watches_ok f ->
  spec Partial (upd_fw g) f (fun _ f' => watches_ok f').
Proof. intros Hg Hok. apply spec_upd_fw. exact (shape_ok _ _ (Hg f) Hok). Qed.
Lemma push_moved_ok name f : watches_ok f -> spec Partial (push_moved name) f (fun _ f' => watches_ok f').
Proof. apply upd_run_ok. intros f'. by destruct (rs_currentMoveFrom _). Qed.

Lemma track_move_ok watch ev f : watches_ok f -> spec Partial (track_move watch ev) f (fun _ f' => watches_ok f').
Proof.
  intros Hok. unfold track_move. apply spec_get_bind. cbv zeta. destruct (_ && _); [by apply upd_run_ok|].
  destruct (has_bit _ _); (eapply (spec_bind _ _ _ _ (fun _ f' => watches_ok f'));
    [|intros [] f1 Hok1; by apply upd_run_ok]).
  - destruct (rs_lastWasMovedFrom _); [by apply push_moved_ok|by apply spec_ret].
  - by apply push_moved_ok.
Qed.

Lemma run_event_ok ev f : watches_ok f -> spec Partial (run_event ev) f (fun _ f' => watches_ok f').
Proof.
  intros Hok. unfold run_event. apply spec_get_bind.
  eapply (spec_bind _ _ _ _ (fun _ f' => watches_ok f')); [|intros [] f1 Hok1; by apply upd_run_ok].
  destruct (omap_get _ _) as [watch|] eqn:E; [|by apply upd_run_ok]. apply omap_get_elem in E.
  destruct (wo_entry _ Hok _ _ E) as (_ & id & l & _ & _ & _ & Hl).
  eapply (spec_bind _ _ _ _ (fun _ f' => same_shape f f')); [by apply spec_upd_fw|]. intros [] f1 Hs.
  eapply spec_bind.
  - apply handleAction_ok; [exact (shape_ok _ _ Hs Hok)|]. intros _. apply (shape_has_lineage _ _ _ Hs). by exists id, l.
  - intros [] f2 Hok2. apply spec_get_bind. case_decide; [by apply track_move_ok|by apply spec_lift].
Qed.

Lemma delete_moved_ok rm f : watches_ok f -> spec Partial (delete_moved rm) f (fun _ f' => watches_ok f').
Proof.
  intros Hok. unfold delete_moved. apply spec_get_bind, spec_lift_partial. intros o _.
  unfold watcherContainsDirectory. eapply (spec_bind _ _ _ _ (fun _ f' => f' = f)).
  { apply spec_get_bind. by apply spec_lift; [destruct (find_dir _ _ _)|]. }
  intros [p|] ? ->; [|by apply spec_ret]. by apply handleAction_ok.
Qed.
Lemma moved_outside_ok count e f : watches_ok f -> spec Partial (moved_outside count e) f (fun _ f' => watches_ok f').
Proof.
  intros Hok. unfold moved_outside. apply spec_get_bind. cbv zeta. destruct (_ && _); [by apply spec_ret|].
  apply spec_lift_partial. intros rest _. apply spec_lift_partial. intros er _.
  eapply spec_bind; [by apply upd_run_ok|]. intros [] f1 Hok1. destruct er as [|x er]; [by apply handleAction_ok|].
  apply (spec_mapM _ _ (fun _ => watches_ok)); [done| |done]. intros q todo f2 Hok2 _. by apply delete_moved_ok.
Qed.

(** A turn of the thread keeps the watches well-formed. *)
Lemma run_turn_ok received f : watches_ok f -> spec Partial (run_turn received) f (fun _ f' => watches_ok f').
Proof.
  intros Hok. unfold run_turn. eapply (spec_bind _ _ _ _ (fun _ f' => watches_ok f')).
  - destruct received as [evs|].
    + apply (spec_mapM _ _ (fun _ => watches_ok)); [done| |done]. intros ev todo f1 Hok1 _. by apply run_event_ok.
    + unfold run_idle. apply spec_get_bind.
      eapply (spec_bind _ _ _ _ (fun _ f' => watches_ok f')); [|intros [] f1 Hok1; by apply upd_run_ok].
      destruct (rs_currentMoveFrom _); [|by apply spec_ret]. apply spec_lift_partial. intros o _. by apply push_moved_ok.
  - intros [] f1 Hok1. apply spec_get_bind. destruct (mMovedOutsideWatches f1) as [|m ms]; [by apply spec_ret|].
    eapply (spec_bind _ _ _ _ (fun _ f' => watches_ok f')); [|intros [] f2 Hok2; by apply upd_run_ok].
    apply (spec_mapM _ _ (fun _ => watches_ok)); [done| |done]. intros x todo f2 Hok2 _. by apply moved_outside_ok.
Qed.
End events.
