(* ===== verification/WatchFacts.v ===== *)
(** * Facts about the watchers of api/fs/fs.cpp

    The registry of watchers, what the calls of the API do with the watches of lib/efsw,
    and events that are reported wrongly. *)

From S2P Require Import Prelude Strings Regex OMap Outcome Json Errors State MemPlatform Triple Helpers.
From S2P Require Import Options Paths Auth Connections Efsw Fs ConnectionsFacts EfswFacts.
From Stdlib Require Import Ascii.
Import helpers settings events fs.

(** ** The registry *)

Section registry.
Context `{Platform}.

Record same_registry (w w' : World) : Prop := {
  sr_watch : watchListeners (w_fs w') = watchListeners (w_fs w);
  sr_live : listeners (w_fs w') = listeners (w_fs w);
  sr_next : nextListener (w_fs w') = nextListener (w_fs w)
}.
#[export] Instance same_registry_preorder : PreOrder same_registry.
Proof. split; [done|]. intros x y z [A B C] [A' B' C']. constructor; congruence. Qed.

Lemma registry_sys_call {A} (f : sys -> A * sys) : frames same_registry (sys_call f).
Proof. apply triple_sys_call; [|done]. by intros w y. Qed.
Lemma registry_put_fw f : frames same_registry (efsw.put_fw f).
Proof. by apply triple_modify. Qed.
Lemma registry_set_impl i : frames same_registry (modify (upd_fs (efsw.set_impl i))).
Proof. by apply triple_modify. Qed.
Hint Resolve registry_sys_call registry_put_fw registry_set_impl : frame.

Lemma registry_mount_loop fuel st : frames same_registry (efsw.mount_loop fuel st).
Proof. revert st. induction fuel as [|fuel IH]; intros st; cbn [efsw.mount_loop]; frame_go. Qed.
Hint Resolve registry_mount_loop : frame.
Lemma registry_watchable dir parent : frames same_registry (efsw.watchable dir parent).
Proof. frame_go. Qed.
Hint Resolve registry_watchable : frame.
Lemma registry_addWatch fuel dir l r parent : frames same_registry (efsw.addWatch fuel dir l r parent).
Proof. revert dir parent. induction fuel as [|fuel IH]; intros dir parent; cbn [efsw.addWatch]; frame_go. Qed.
Lemma registry_removeWatchLocked fuel id : frames same_registry (efsw.removeWatchLocked fuel id).
Proof. revert id. induction fuel as [|fuel IH]; intros id; cbn [efsw.removeWatchLocked]; frame_go. Qed.
Hint Resolve registry_addWatch registry_removeWatchLocked : frame.
Lemma registry_get_watcher : frames same_registry get_watcher.
Proof. frame_go. Qed.
Lemma registry_add impl path l r : frames same_registry (efsw.FileWatcher_addWatch impl path l r).
Proof. frame_go. Qed.
Lemma registry_remove impl id : frames same_registry (efsw.FileWatcher_removeWatch impl id).
Proof. frame_go. Qed.
Lemma registry_watch impl : frames same_registry (efsw.FileWatcher_watch impl).
Proof. frame_go. Qed.

Lemma get_watcher_returns w : exists impl w', get_watcher w = (Ret impl, w') /\ same_registry w w' /\
  fileWatcher (w_fs w') = Some impl.
Proof.
  destruct (registry_get_watcher w) as [Hr _]. revert Hr. unfold get_watcher, get_fs, efsw.FileWatcher.
  rewrite (M_bind_Ret _ _ w (w_fs w) w) by done. destruct (fileWatcher (w_fs w)) as [impl|] eqn:E.
  - intros _. by exists impl, w.
  - unfold sys_call. munfold. destruct (in_init (w_sys w)) as [fd y]. intros Hr. by eexists _, _.
Qed.

(** ids are in order, and no directory is watched twice *)
Definition paths (l : list (Z * (nat * string))) : list string := (l.*2).*2.
Definition watchers_ok (l : list (Z * (nat * string))) : Prop := omap_wf l /\ NoDup (paths l).

Lemma find_watcher path (l : list (Z * (nat * string))) :
  find_first (fun e => bool_decide (e.2.2 = path)) l = None <-> path ∉ paths l.
Proof.
  induction l as [|[i [n p]] l IH]; [split; [intros _; apply not_elem_of_nil|done]|]. cbn.
  rewrite not_elem_of_cons. case_bool_decide; naive_solver.
Qed.
Lemma paths_elem l x : x ∈ paths l <-> exists e, e ∈ l /\ e.2.2 = x.
Proof. unfold paths. rewrite list_elem_of_fmap. setoid_rewrite list_elem_of_fmap. naive_solver. Qed.

Lemma omap_set_NoDup (k : Z) n (v : string) l : v ∉ paths l -> NoDup (paths l) -> NoDup (paths (omap_set k (n, v) l)).
Proof.
  induction l as [|[k' [n' v']] l IH]; cbn; [intros; apply NoDup_singleton|].
  rewrite not_elem_of_cons, NoDup_cons. intros [Hv Hl] [Hv' Hd].
  case_decide; [by apply NoDup_cons|].
  destruct (_ <? _)%Z; cbn; rewrite !NoDup_cons, ?not_elem_of_cons; [tauto|].
  split; [|auto]. intros (e & [He|E]%omap_set_elem & Ee)%paths_elem.
  - apply Hv', paths_elem. by exists e.
  - subst e. by cbn in Ee.
Qed.
Lemma omap_del_NoDup (k : Z) l : NoDup (paths l) -> NoDup (paths (omap_del k l)).
Proof.
  induction l as [|[k' [n' v']] l IH]; cbn; [done|]. rewrite NoDup_cons. intros [Hv Hd].
  case_decide; [auto|]. apply NoDup_cons. split; [|auto]. intros (e & [He _]%omap_del_elem & Ee)%paths_elem.
  apply Hv, paths_elem. by exists e.
Qed.
End registry.

Section calls.
Context `{Platform}.

(** createWatcher, taken apart *)
Lemma createWatcher_cases path w : exists impl w1, same_registry w w1 /\ fileWatcher (w_fs w1) = Some impl /\
  get_watcher w = (Ret impl, w1) /\
  createWatcher path w =
    match find_first (fun e => bool_decide (e.2.2 = path)) (watchListeners (w_fs w)) with
    | Some (wid, _) => (Ret wid, w1)
    | None => (watcherId ← efsw.FileWatcher_addWatch impl path (nextListener (w_fs w)) true;
               modify (upd_fs (set_watchers (omap_set watcherId (nextListener (w_fs w), path)))) ;;
               efsw.FileWatcher_watch impl ;;
               mret watcherId) (upd_fs new_listener w1)
    end.
Proof.
  destruct (get_watcher_returns w) as (impl & w1 & E & Hr & Hi). exists impl, w1. split_and!; [done..|].
  unfold createWatcher. rewrite (M_bind_Ret _ _ w impl w1) by done. unfold get_fs.
  rewrite (M_bind_Ret _ _ w1 (w_fs w1) w1) by done. rewrite (sr_watch _ _ Hr), (sr_next _ _ Hr).
  destruct (find_first _ _) as [[wid e]|]; [done|]. by rewrite (M_bind_Ret _ _ w1 tt (upd_fs new_listener w1)).
Qed.

(** removeWatcher of a watcher that is there *)
Lemma removeWatcher_cases id w :
  removeWatcher id w =
    match fileWatcher (w_fs w) with
    | None => (Ret false, w)
    | Some impl =>
        if negb (omap_has id (watchListeners (w_fs w))) then (Ret false, w)
        else (efsw.FileWatcher_removeWatch impl id ;;
              s ← get_fs;
              (match omap_get id (watchListeners s) with
               | Some e => modify (upd_fs (delete_listener e.1))
               | None => mret tt
               end) ;;
              modify (upd_fs (set_watchers (omap_del id))) ;;
              mret true) w
    end.
Proof.
  unfold removeWatcher, get_fs. rewrite (M_bind_Ret _ _ w (w_fs w) w) by done.
  destruct (fileWatcher (w_fs w)); [|done]. by destruct (negb _).
Qed.

(** the part behind the call of the library *)
Lemma removeWatcher_rest id w : exists w',
  (s ← get_fs;
   (match omap_get id (watchListeners s) with
    | Some e => modify (upd_fs (delete_listener e.1))
    | None => mret tt
    end) ;;
   modify (upd_fs (set_watchers (omap_del id))) ;;
   mret true) w = (Ret true, w') /\
  fileWatcher (w_fs w') = fileWatcher (w_fs w) /\ watchListeners (w_fs w') = omap_del id (watchListeners (w_fs w)).
Proof.
  unfold get_fs. rewrite (M_bind_Ret _ _ w (w_fs w) w) by done.
  destruct (omap_get _ _) as [e|].
  - by exists (upd_fs (set_watchers (omap_del id)) (upd_fs (delete_listener e.1) w)).
  - by exists (upd_fs (set_watchers (omap_del id)) w).
Qed.
End calls.

(** Creating and removing watchers keeps every directory watched at most
    once, under one id; a directory that is watched already gets the id it has. *)
Theorem watchers_unique `{Platform} (path : string) (watcherId : Z) (w : World)
    (Hok : watchers_ok (watchListeners (w_fs w))) :
  watchers_ok (watchListeners (w_fs (snd (createWatcher path w)))) /\
  watchers_ok (watchListeners (w_fs (snd (removeWatcher watcherId w)))) /\
  (forall id l, (id, (l, path)) ∈ watchListeners (w_fs w) -> fst (createWatcher path w) = Ret id).
Proof.
  pose proof Hok as [Hwf Hd].
  destruct (createWatcher_cases path w) as (impl & w1 & Hr & _ & _ & Ec). rewrite Ec. split_and!.
  - destruct (find_first _ _) as [[i e]|] eqn:Ef; [cbn [snd]; by rewrite (sr_watch _ _ Hr)|]. apply find_watcher in Ef.
    destruct (registry_add impl path (nextListener (w_fs w)) true (upd_fs new_listener w1)) as [Ha _].
    unfold mbind at 1, M_bind at 1.
    destruct (efsw.FileWatcher_addWatch _ _ _ _ _) as [[i|?|?| |] w2]; cbn [snd] in *;
      pose proof (sr_watch _ _ Ha) as Ew; cbn [upd_fs w_fs new_listener watchListeners] in Ew;
      rewrite (sr_watch _ _ Hr) in Ew; try by rewrite Ew.
    rewrite (M_bind_Ret _ _ w2 tt (upd_fs (set_watchers (omap_set i (nextListener (w_fs w), path))) w2)) by done.
    set (w3 := upd_fs _ w2). destruct (registry_watch impl w3) as [Hw _].
    assert (watchers_ok (watchListeners (w_fs w3))) as Hok3.
    { cbn. rewrite Ew. split; [by apply omap_set_wf|by apply omap_set_NoDup]. }
    unfold mbind, M_bind.
    destruct (efsw.FileWatcher_watch _ _) as [[] w4]; cbn in *; by rewrite (sr_watch _ _ Hw).
  - rewrite removeWatcher_cases. destruct (fileWatcher _) as [impl'|]; [|done]. destruct (negb _); [done|].
    destruct (registry_remove impl' watcherId w) as [Ha _]. unfold mbind at 1, M_bind at 1.
    destruct (efsw.FileWatcher_removeWatch _ _ _) as [[[]|?|?| |] w2]; cbn [snd] in *; try by rewrite (sr_watch _ _ Ha).
    destruct (removeWatcher_rest watcherId w2) as (w3 & -> & _ & Ew). cbn [snd]. rewrite Ew, (sr_watch _ _ Ha).
    split; [by apply omap_del_wf|by apply omap_del_NoDup].
  - intros id l Hin. clear Ec Hok Hwf. induction (watchListeners (w_fs w)) as [|[i [n p]] ls IH]; [by apply elem_of_nil in Hin|].
    cbn in Hd |- *. apply NoDup_cons in Hd as [Hp Hd]. case_bool_decide as Hpe.
    + subst p. apply elem_of_cons in Hin as [[= -> ->]|Hin]; [done|]. destruct Hp. apply paths_elem. by exists (id, (l, path)).
    + apply elem_of_cons in Hin as [[= -> -> ->]|Hin]; [done|]. by apply IH.
Qed.

Section watcher_witness.
#[local] Existing Instance demo.

Lemma watchers_unique_witness :
  let w := snd (createWatcher "/app" demo_world) in
  watchers_ok (watchListeners (w_fs (snd (createWatcher "/app" w)))) /\
  watchers_ok (watchListeners (w_fs (snd (removeWatcher 1 w)))) /\
  (forall id l, (id, (l, "/app")) ∈ watchListeners (w_fs w) -> fst (createWatcher "/app" w) = Ret id).
Proof.
  apply (watchers_unique "/app" 1%Z (snd (createWatcher "/app" demo_world))).
  vm_compute. repeat constructor. by intros ?%elem_of_nil.
Defined.
End watcher_witness.

(** A failed watch is remembered: once a call has answered with an id, which is an error
    below 1, createWatcher gives it again in every later state with the same registry. *)
Theorem failed_watch_remembered `{Platform} (path : string) (error : Z) (w w1 w2 : World)
    (Hf : createWatcher path w = (Ret error, w1)) (Hok : watchers_ok (watchListeners (w_fs w)))
    (Hs : watchListeners (w_fs w2) = watchListeners (w_fs w1)) :
  fst (createWatcher path w2) = Ret error.
Proof.
  destruct (createWatcher_cases path w) as (impl & wa & Hr & _ & _ & Ec). rewrite Hf in Ec.
  destruct (createWatcher_cases path w2) as (impl2 & wb & _ & _ & _ & ->). rewrite Hs.
  assert (exists l, omap_get error (watchListeners (w_fs w1)) = Some (l, path) /\ watchers_ok (watchListeners (w_fs w1)))
    as (l & El & Hok1).
  { pose proof (proj1 (watchers_unique path error w Hok)) as Hok1. rewrite Hf in Hok1. cbn [snd] in Hok1.
    destruct (find_first _ _) as [[i [l p]]|] eqn:Ef.
    - injection Ec as -> ->. exists l. rewrite (sr_watch _ _ Hr) in Hok1 |- *. split; [|done].
      apply omap_elem_get; [apply Hok|]. clear -Ef. induction (watchListeners (w_fs w)) as [|e ls IH]; [done|].
      cbn in Ef. case_bool_decide as Ee; [|right; by apply IH]. injection Ef as ->. cbn in Ee. subst p. left.
    - apply symmetry, M_bind_inv in Ec as (i & wc & Ea & Ec). apply M_bind_inv in Ec as ([] & wd & [= <-] & Ec).
      apply M_bind_inv in Ec as ([] & we & Eb & [= -> ->]). exists (nextListener (w_fs w)). split; [|done].
      destruct (registry_watch impl (upd_fs (set_watchers (omap_set error (nextListener (w_fs w), path))) wc)) as [Hw _].
      rewrite Eb in Hw. cbn [snd] in Hw. rewrite (sr_watch _ _ Hw). cbn. apply omap_get_set_eq. }
  pose proof (proj2 (proj2 (watchers_unique path error w1 Hok1)) error l (omap_get_elem _ _ _ El)) as E.
  destruct (createWatcher_cases path w1) as (impl3 & wc & _ & _ & _ & Ec1). rewrite Ec1 in E.
  destruct (find_first _ (watchListeners (w_fs w1))) as [[i e]|] eqn:Ef; [done|].
  apply find_watcher in Ef. destruct Ef. apply paths_elem. exists (error, (l, path)).
  split; [by apply omap_get_elem|done].
Qed.

Section failed_witness.
#[local] Existing Instance demo.

(** the directory is missing at first and exists later *)
Lemma failed_watch_remembered_witness :
  let w1 := snd (createWatcher "/later" demo_world) in
  let w2 := upd_sys (H := demo) (fun _ => set_dirs ["/later"] mem0) w1 in
  createWatcher "/later" demo_world = (Ret (-1)%Z, w1) /\ fst (createWatcher "/later" w2) = Ret (-1)%Z.
Proof.
  intros w1 w2. assert (createWatcher "/later" demo_world = (Ret (-1)%Z, w1)) as E.
  { unfold w1. assert (fst (createWatcher "/later" demo_world) = Ret (-1)%Z) as E by (vm_compute; reflexivity).
    destruct (createWatcher "/later" demo_world) as [r w']. cbn in *. by rewrite E. }
  split; [exact E|]. apply (failed_watch_remembered "/later" (-1)%Z demo_world w1 w2 E).
  - by split; [|apply NoDup_nil].
  - reflexivity.
Defined.
End failed_witness.

(** ** The watches behind the registry *)

Section soundness.
Context `{Platform}.

Definition watcher_ok (w : World) : Prop := forall f, has f w -> watches_ok f.

Lemma spec_modify_fs s g f (Q : unit -> FileWatcherInotify -> Prop) :
  (forall x, fileWatcher (g x) = fileWatcher x) -> Q tt f -> spec s (modify (upd_fs g)) f Q.
Proof.
  intros Hg HQ w Hw. split; [by destruct s|]. intros [] _. exists f. split; [|done]. unfold has. cbn. by rewrite Hg.
Qed.
Lemma spec_keeps s {A} (m : M A) f Q w : spec s m f Q -> has f w -> (forall a f', Q a f' -> watches_ok f') ->
  allows s (fst (m w)) /\ forall a, fst (m w) = Ret a -> watcher_ok (snd (m w)).
Proof.
  intros Hm Hw HQ. destruct (Hm w Hw) as [Ha Hr]. split; [done|]. intros a E.
  destruct (Hr a E) as (f' & Hf' & Hq). intros f2 Hf2. unfold has in *. rewrite Hf' in Hf2.
  injection Hf2 as <-. by eapply HQ.
Qed.

Lemma empty_ok fd : watches_ok (MkInotify fd false ∅ 0 [] [] [] efsw.run_state0).
Proof. constructor; [done|by intros ? ? ?%elem_of_nil..|]. intros p o Ho. cbn in Ho. by rewrite lookup_empty in Ho. Qed.
Lemma get_watcher_ok w impl w1 : watcher_ok w -> get_watcher w = (Ret impl, w1) -> watcher_ok w1.
Proof.
  intros Hok. unfold get_watcher, get_fs. rewrite (M_bind_Ret _ _ w (w_fs w) w) by done.
  destruct (fileWatcher (w_fs w)) as [i|] eqn:E; [by intros [= _ <-]|].
  unfold efsw.FileWatcher, sys_call. munfold. destruct (in_init _) as [fd y]. intros [= _ <-] f Hf. unfold has in Hf.
  cbn in Hf. destruct (fd <? 0)%Z; [done|]. injection Hf as <-. apply empty_ok.
Qed.

Lemma add_ok s path l f : watches_ok f -> (s = Total -> inotify_laws /\ no_nul path) ->
  spec s (efsw.FileWatcher_addWatch (ImplInotify f) path l true) f (fun _ f' => watches_ok f').
Proof.
  intros Hok Hs. cbn [efsw.FileWatcher_addWatch].
  eapply spec_bind; [apply isRemoteFS_ok; intros E; by destruct (Hs E)|]. intros [] ? ->; [by apply spec_ret|].
  eapply (spec_weaken _ _ _ (fun _ f' => watches_ok f' /\ extends f f')); [|by intros ? ? [? _]]. apply addWatch_ok; [done|done|]. intros E.
  destruct (Hs E). split_and!; [done|done|]. unfold fuel_for, efsw.add_fuel. split; [lia|]. intros _. lia.
Qed.

(** the calls, with an outcome that is allowed, keep the watches well-formed *)
Lemma createWatcher_ok s path w : watcher_ok w -> (s = Total -> inotify_laws /\ no_nul path) ->
  allows s (fst (createWatcher path w)) /\
  forall a, fst (createWatcher path w) = Ret a -> watcher_ok (snd (createWatcher path w)).
Proof.
  intros Hok Hs. destruct (createWatcher_cases path w) as (impl & w1 & Hr & Hi & Hg & ->).
  pose proof (get_watcher_ok _ _ _ Hok Hg) as Hok1.
  destruct (find_first _ _) as [[wid e]|]; [split; [by destruct s|done]|].
  destruct impl as [f|].
  - apply (spec_keeps _ _ f (fun _ f' => watches_ok f')); [|done|done]. pose proof (Hok1 f Hi) as Hf.
    eapply spec_bind; [by apply add_ok|]. intros i f' Hf'.
    eapply (spec_bind _ _ _ _ (fun _ f' => watches_ok f')); [by apply spec_modify_fs|]. intros [] f2 Hf2.
    eapply (spec_bind _ _ _ _ (fun _ f' => watches_ok f')); [|by intros [] f3 Hf3; apply spec_ret].
    apply spec_upd_fw. by apply (shape_ok f2).
  - cbn [efsw.FileWatcher_addWatch efsw.FileWatcher_watch]. unfold sys_call. munfold. cbn [w_sys upd_fs].
    destruct (fw_addWatch _ _) as [i y]. split; [by destruct s|]. intros a _ f Hf. unfold has in Hf. cbn in Hf.
    by rewrite Hi in Hf.
Qed.
Lemma removeWatcher_ok s id w : watcher_ok w ->
  allows s (fst (removeWatcher id w)) /\
  forall a, fst (removeWatcher id w) = Ret a -> watcher_ok (snd (removeWatcher id w)).
Proof.
  intros Hok. rewrite removeWatcher_cases. destruct (fileWatcher (w_fs w)) as [impl|] eqn:Ei; [|split; [by destruct s|done]].
  destruct (negb _); [split; [by destruct s|done]|]. destruct impl as [f|].
  - apply (spec_keeps _ _ f (fun _ f' => watches_ok f')); [|done|done].
    eapply spec_bind; [apply (removeWatch_ok _ f id), Hok, Ei|]. intros [] f1 [Hf1 _].
    intros w1 Hw1. destruct (removeWatcher_rest id w1) as (w2 & -> & Ew & _). split; [by destruct s|].
    intros b _. exists f1. split; [|done]. unfold has in *. cbn [snd]. by rewrite Ew.
  - cbn [efsw.FileWatcher_removeWatch]. rewrite (M_bind_Ret _ _ w tt (upd_sys (fun _ => fw_removeWatch id (w_sys w)) w)) by done.
    destruct (removeWatcher_rest id (upd_sys (fun _ => fw_removeWatch id (w_sys w)) w)) as (w2 & -> & Ew & _).
    split; [by destruct s|]. intros a _ f Hf. unfold has in Hf. cbn [snd] in Hf. rewrite Ew in Hf. cbn in Hf.
    by rewrite Ei in Hf.
Qed.

(** *** The thread *)

Lemma sends_watcher_event id dir name action old : sends_only (__dispatchWatcherEvt id dir name action old).
Proof. unfold __dispatchWatcherEvt. apply sends_bind; [apply sends_gets|]. intros ts. apply sends_dispatch. Qed.
Lemma listener_keeps l id dir name action old f :
  spec Partial (handleFileAction (FileWatchListener := __WatcherListener) l id dir name action old) f (fun _ f' => f' = f).
Proof.
  intros w Hw. cbn [handleFileAction __WatcherListener]. unfold get_fs. rewrite (M_bind_Ret _ _ w (w_fs w) w) by done.
  split; [by destruct (fst _)|]. intros [] E. exists f. split; [|done]. destruct (mem _ _); [|done].
  destruct (sends_watcher_event id dir name action old w) as [ms ->]. exact Hw.
Qed.
Lemma watch_turn_ok received w w' : watcher_ok w -> watch_turn received w = (Ret tt, w') -> watcher_ok w'.
Proof.
  intros Hok. unfold watch_turn, get_fs. rewrite (M_bind_Ret _ _ w (w_fs w) w) by done.
  destruct (fileWatcher (w_fs w)) as [[f|]|] eqn:E; [|by intros [= <-]..].
  destruct (mThread f); [|by intros [= <-]]. intros Et.
  destruct (spec_keeps Partial _ f (fun _ f' => watches_ok f') w
    (run_turn_ok (H0 := __WatcherListener) listener_keeps received f (Hok f E)) E) as [_ Hr]; [done|].
  rewrite Et in Hr. by apply (Hr tt).
Qed.

(** What happens to the watcher: calls of the API that return, turns of the thread that
    end, and whatever else leaves it alone. *)
Inductive watch_step (w w' : World) : Prop :=
| ws_create path id : createWatcher path w = (Ret id, w') -> watch_step w w'
| ws_remove id b : removeWatcher id w = (Ret b, w') -> watch_step w w'
| ws_turn received : watch_turn received w = (Ret tt, w') -> watch_step w w'
| ws_other : fileWatcher (w_fs w') = fileWatcher (w_fs w) -> watch_step w w'.

Lemma watch_step_ok w w' : watch_step w w' -> watcher_ok w -> watcher_ok w'.
Proof.
  intros [path id E|id b E|received E|E] Hok.
  - destruct (createWatcher_ok Partial path w Hok) as [_ Hr]; [done|]. rewrite E in Hr. by apply (Hr id).
  - destruct (removeWatcher_ok Partial id w Hok) as [_ Hr]. rewrite E in Hr. by apply (Hr b).
  - by eapply watch_turn_ok.
  - intros f Hf. apply Hok. unfold has in *. congruence.
Qed.
End soundness.


(** C29: removing a watcher makes it silent and touches no other: of the watches that are
    left none reports under its id, and every watch of another id is left as it was,
    when the watcher is the only one that was given its id. *)
Theorem removed_watcher_silent `{Platform} (w : World) (f : FileWatcherInotify) (id : Z) (p : nat) (o : WatcherInotify)
    (Hf : has f w) (Hok : watches_ok f) (Hreg : omap_has id (watchListeners (w_fs w)) = true)
    (Hp : omap_get id (mWatches f) = Some p) (Ho : objects f !! p = Some o) (Hroot : wi_Parent o = None)
    (Hone : forall q oq, objects f !! q = Some oq -> wi_Parent oq = None -> wi_InotifyID oq = id -> q = p) :
  exists w' f', removeWatcher id w = (Ret true, w') /\ has f' w' /\ watches_ok f' /\
    omap_get id (watchListeners (w_fs w')) = None /\
    forall wd q oq, (wd, q) ∈ mWatches f' /\ objects f' !! q = Some oq <->
      (wd, q) ∈ mWatches f /\ objects f !! q = Some oq /\ wi_ID oq <> id.
Proof.
  rewrite removeWatcher_cases. rewrite Hf, Hreg. cbn [negb efsw.FileWatcher_removeWatch].
  destruct (removeWatch_ok Total f id Hok w Hf) as [Ha Hr]. rewrite Hp in Hr.
  destruct (efsw.removeWatch_inotify id w) as [[[]|?|?| |] w1] eqn:E; try done. clear Ha.
  destruct (Hr tt eq_refl) as (f' & Hf' & Hok' & Hrm). cbn [snd] in Hf'.
  rewrite (M_bind_Ret _ _ w tt w1) by done. destruct (removeWatcher_rest id w1) as (w2 & -> & Ew & El).
  exists w2, f'. split; [done|]. split; [by unfold has; rewrite Ew|]. split; [done|].
  split; [rewrite El; apply omap_get_del_eq|]. intros wd q oq.
  assert (forall i l, (wd, q) ∈ mWatches f -> objects f !! q = Some oq -> lineage (objects f) i q l -> wi_ID oq = i) as Hid.
  { intros i l _ Hq Hl. destruct (lineage_head _ _ _ _ Hl) as (o' & ? & ?). congruence. }
  apply omap_get_elem in Hp. split.
  - intros [He Hq]. apply (rm_table _ _ _ Hrm) in He as [He Hb]. cbn in Hb. rewrite (rm_objects _ _ _ Hrm) in Hq by done.
    split_and!; [done|done|]. destruct (wo_entry _ Hok _ _ He) as (_ & i & l & _ & _ & _ & Hl).
    rewrite (Hid i l) by done. intros ->. apply Hb. exists id, l. split; [done|].
    destruct (lineage_root_of _ _ _ _ Hl) as (r & or & Hrl & Hor & Hn & Hi). by rewrite <-(Hone r or).
  - intros (He & Hq & Hne). assert (~ below (objects f) p q) as Hb.
    { intros (i & l & Hl & Hpl). apply Hne. rewrite (Hid i l) by done.
      destruct (lineage_tail _ _ _ _ _ Hl Hpl) as (l' & Hl' & _).
      destruct (wo_entry _ Hok _ _ Hp) as (o' & _ & _ & Ho' & Hi & _). inversion Hl'; simplify_eq; congruence. }
    split; [by apply (rm_table _ _ _ Hrm)|]. by rewrite (rm_objects _ _ _ Hrm).
Qed.

(** ** Examples *)

Section examples.
#[local] Existing Instance demo.

Lemma mem_watch_laws : inotify_laws (H := demo).
Proof.
  split.
  - intros path y Hlen. cbn [in_stat demo demo_with platform_inotify mem_inotify mem_inode]. unfold mem_inode. cbv zeta.
    by rewrite (proj2 (Nat.leb_le _ _) Hlen).
  - intros path y names. cbn [in_readdir demo demo_with platform_inotify mem_inotify].
    destruct (mem _ _); [|done]. intros [= <-] n Hn. apply list_elem_of_omap in Hn as (q & _ & Hq).
    destruct (_ && _) eqn:E; [|done]. injection Hq as <-. apply andb_true_iff in E as [E He].
    apply andb_true_iff in E as [_ Hz]. unfold no_nul. rewrite sforall_contains. split; [|done].
    intros Hempty. by rewrite Hempty in He.
  - intros path y r [= <-]. unfold no_nul. induction path as [|c path IH]; [done|]. cbn [c_str].
    destruct (bool_decide (c = "000"%char)) eqn:E; [done|]. cbn [sforall]. by rewrite E.
  - intros path y. discriminate.
Qed.

(** a tree of directories, and one beside it *)
Definition watch_world : World (H := demo) :=
  world0 (H := demo) (set_files [("/app/a.txt", "A")] (set_dirs ["/app/new"; "/data"; "/app/sub"; "/app"] mem0)).

Definition watcher (w : World (H := demo)) : FileWatcherInotify :=
  match fileWatcher (w_fs w) with Some (ImplInotify f) => f | _ => MkInotify 0 false ∅ 0 [] [] [] efsw.run_state0 end.
Definition calls (l : list (M unit)) (w : World (H := demo)) : World (H := demo) := foldl (fun w m => snd (m w)) w l.
Definition create (path : string) : M unit := _ ← createWatcher path; mret tt.
Definition remove (id : Z) : M unit := _ ← removeWatcher id; mret tt.
Definition event (wd mask cookie : Z) (name : string) : M unit :=
  watch_turn (Some [efsw.InotifyEvent wd mask cookie name]).
(** id and directory of the watches *)
Definition watches (w : World (H := demo)) : list (Z * (Z * string)) :=
  omap (fun e => match objects (watcher w) !! e.2 with
                 | Some o => Some (e.1, (wi_ID o, wi_Directory o)) | None => None end) (mWatches (watcher w)).

Example tree_watched : watches (calls [create "/app"; create "/data"] watch_world) =
  [(1, (1, "/app/")); (2, (1, "/app/sub/")); (3, (3, "/data/")); (4, (1, "/app/new/"))]%Z.
Proof. vm_compute. reflexivity. Qed.
Example tree_removed : watches (calls [create "/app"; create "/data"; remove 1] watch_world) = [(3, (3, "/data/"))]%Z.
Proof. vm_compute. reflexivity. Qed.


(** the state with both watchers, made by two calls *)
Definition two_watchers : World (H := demo) := calls [create "/app"; create "/data"] watch_world.
Lemma created path w : is_ret (fst (createWatcher (H := demo) path w)) ->
  watch_step (H := demo) w (snd (create path w)).
Proof.
  intros [id Hid]. apply (ws_create (H := demo) _ _ path id). unfold create, mbind, M_bind.
  destruct (createWatcher path w) as [r w1]. cbn in *. by subst r.
Qed.
Lemma two_watchers_ok : watcher_ok two_watchers.
Proof.
  eapply (watch_step_ok (snd (create "/app" watch_world))).
  - apply created. exists 3%Z. vm_compute. reflexivity.
  - eapply (watch_step_ok watch_world); [|by intros f Hf].
    apply created. exists 1%Z. vm_compute. reflexivity.
Qed.
(** the roots of the watches and their ids *)
Definition roots (m : gmap nat WatcherInotify) : list (nat * Z) :=
  (fun e => (e.1, wi_InotifyID e.2)) <$> filter (fun e : nat * WatcherInotify => wi_Parent e.2 = None) (map_to_list m).
Lemma roots_elem m q o : m !! q = Some o -> wi_Parent o = None -> (q, wi_InotifyID o) ∈ roots m.
Proof.
  intros Hq Hn. apply list_elem_of_fmap. exists (q, o). split; [done|].
  apply list_elem_of_filter. split; [done|]. by apply elem_of_map_to_list.
Qed.
Lemma two_roots : roots (objects (watcher two_watchers)) = [(3, 3%Z); (0, 1%Z)].
Proof. vm_compute. reflexivity. Qed.

Lemma removed_watcher_silent_witness :
  let f := watcher two_watchers in
  exists w' f', removeWatcher 1 two_watchers = (Ret true, w') /\ has f' w' /\ watches_ok f' /\
    omap_get 1%Z (watchListeners (w_fs w')) = None /\
    forall wd q oq, (wd, q) ∈ mWatches f' /\ objects f' !! q = Some oq <->
      (wd, q) ∈ mWatches f /\ objects f !! q = Some oq /\ wi_ID oq <> 1%Z.
Proof.
  intros f. assert (has f two_watchers) as Hf by (vm_compute; reflexivity).
  apply (removed_watcher_silent two_watchers f 1%Z 0
    (MkWatcher 1 "/app/" 0 true "" 1 None) Hf (two_watchers_ok f Hf)); [vm_compute; reflexivity..|].
  intros q oq Hq Hn Hi. pose proof (roots_elem (objects (watcher two_watchers)) q oq Hq Hn) as Hin. rewrite two_roots, Hi in Hin. clear -Hin.
  apply elem_of_cons in Hin as [[=]|Hin]. apply elem_of_cons in Hin as [[= ->]|Hin]; [done|]. by apply elem_of_nil in Hin.
Defined.
(** *** What goes wrong *)

Definition mkdir (p : string) : M unit := modify (upd_sys (fun s => set_dirs (p :: ms_dirs s) s)).
Definition idle : M unit := watch_turn None.
Definition old_names (w : World (H := demo)) : list (Z * string) :=
  omap (fun e => match objects (watcher w) !! e.2 with
                 | Some o => Some (e.1, wi_OldFileName o) | None => None end) (mWatches (watcher w)).
Definition moved_dir_mask : Z := Z.lor efsw.IN_MOVED_TO 1073741824.

(** A directory that is moved in from elsewhere has no old name: the watch that it came
    to takes the directory of the newcomer, with all that it holds. *)
Example moved_in_renames : watches (calls [create "/app"; mkdir "/app/in"; event 1 moved_dir_mask 5 "in"] watch_world) =
  [(1, (1, "/app/in/")); (2, (1, "/app/in/sub/")); (4, (1, "/app/in/new/")); (5, (1, "/app/in/in/"))]%Z.
Proof. vm_compute. reflexivity. Qed.

(** A file that was moved out is reported as deleted, but its name stays: the next file
    that is moved in is reported as the same file with a new name. *)
Example old_name_stays : old_names (calls [create "/app"; event 1 efsw.IN_MOVED_FROM 5 "a.txt"; idle] watch_world) =
  [(1, "a.txt"); (2, ""); (4, "")]%Z.
Proof. vm_compute. reflexivity. Qed.

(** The watcher of a directory below a watched one: its id is 2, but what happens there
    is reported under 1; removing the outer one removes its watch; and once it is
    removed itself, the directory cannot be watched again. *)
Definition nested : World (H := demo) := calls [create "/app"; create "/app/sub"] watch_world.
Example nested_watcher_id : watchListeners (w_fs nested) = [(1%Z, (0, "/app")); (2%Z, (1, "/app/sub"))] /\
  watches nested = [(1, (1, "/app/")); (2, (1, "/app/sub/")); (4, (1, "/app/new/"))]%Z.
Proof. vm_compute. split; reflexivity. Qed.
Example outer_removes_nested : watches (calls [remove 1] nested) = [].
Proof. vm_compute. reflexivity. Qed.
Example nested_watcher_again : fst (createWatcher "/app/sub" (calls [remove 2] nested)) = Ret efsw.FileRepeated.
Proof. vm_compute. reflexivity. Qed.

(** A path with NUL is cut there by the system but not by the library, which finds the
    same subdirectories at every level: here, more levels than there are directories. *)
Example nul_path_endless :
  fst (efsw.addWatch 30 ("/app/" +:+ String "000" "") 0 true None (calls [create "/data"] watch_world)) = NoFuel.
Proof. vm_compute. reflexivity. Qed.
Example tree_ends :
  is_ret (fst (efsw.addWatch 3 "/app/" 0 true None (calls [create "/data"] watch_world))).
Proof. eexists. vm_compute. reflexivity. Qed.

(** A watcher that is removed between the two parts of a move is read by the thread. *)
Example removed_while_moving : fst (idle (calls [create "/app"; event 1 efsw.IN_MOVED_FROM 5 "a.txt"; remove 1] watch_world)) = Undef.
Proof. vm_compute. reflexivity. Qed.
End examples.
