(* ===== verification/StreamFacts.v ===== *)
(** * Reading an opened file to its end

    The blocks that "readAll" sends, that they make up the rest of the file, that
    the loop ends, and the block size for which it does not. *)

From S2P Require Import Prelude Strings Regex OMap Outcome Json Errors State MemPlatform Helpers.
From S2P Require Import Options Paths Permission Auth Connections Base64 Fs HelpersFacts.
From S2P Require Import OptionsFacts ConnectionsFacts.
From Stdlib Require Import Ascii.
Import helpers settings neuserver events fs.

(** the text cut into blocks of [n] bytes *)
Fixpoint blocks (fuel n : nat) (s : string) : list string :=
  match fuel with
  | 0 => []
  | S f => if isempty s then [] else stake n s :: blocks f n (sdrop n s)
  end.
Definition blocks_of (n : nat) (s : string) : list string := blocks (slen s) n s.

Fixpoint concat_s (l : list string) : string :=
  match l with [] => EmptyString | s :: l => s +:+ concat_s l end.

Lemma concat_blocks fuel n s : 0 < n -> slen s <= fuel -> concat_s (blocks fuel n s) = s.
Proof.
  intros Hn. revert s; induction fuel as [|f IH]; intros s Hs; simpl.
  - destruct s; [done|simpl in *; lia].
  - destruct (isempty s) eqn:E; [by apply isempty_spec in E as ->|]. simpl.
    rewrite IH; [apply stake_sdrop|]. rewrite slen_sdrop. destruct s; [done|]. simpl in *. lia.
Qed.

Lemma blocks_fuel f1 f2 n s : 0 < n -> slen s <= f1 -> slen s <= f2 -> blocks f1 n s = blocks f2 n s.
Proof.
  intros Hn. revert f2 s; induction f1 as [|f1 IH]; intros [|f2] s H1 H2; simpl;
    try (destruct s; [done|simpl in *; lia]).
  destruct (isempty s) eqn:E; [done|]. f_equal. apply IH; rewrite slen_sdrop; destruct s; simpl in *; lia || done.
Qed.

Section stream.
Context `{Platform}.

Definition block_size (evt : OpenedFileEvent) : Z :=
  if (-1 <? ev_size evt)%Z then ev_size evt else NEU_DEFAULT_STREAM_BUF_SIZE.

(** the text of the events *)
Definition opened_event (id : Z) (action : string) (data : json) : string :=
  json_dump (__makeEventPayload "openedFile"
    (mk_obj [("id", of_int id); ("action", JStr action); ("data", data)])).
Definition data_event (evt : OpenedFileEvent) (block : string) : string :=
  if regex_match (ev_type evt) ".*Binary$"
  then opened_event (ev_id evt) "dataBinary" (JStr (base64.to_base64 block))
  else opened_event (ev_id evt) "data" (JStr block).
Definition end_event (id : Z) : string := opened_event id "end" JNull.

Lemma opened_evt_eq id action data w :
  reachable w ->
  __dispatchOpenedFileEvt id action data w =
  (Ret tt, upd_server (add_sents (mails (w_server w) (opened_event id action data))) w).
Proof.
  intros Hr. exact (broadcast_eq (__makeEventPayload "openedFile"
    (mk_obj [("id", of_int id); ("action", JStr action); ("data", data)])) w Hr).
Qed.

(** what stays the same while a stream is read *)
Definition same_clients (w w' : World) : Prop :=
  reachable w' /\ (forall p, mails (w_server w') p = mails (w_server w) p).

Lemma block_eq evt r w :
  reachable w ->
  exists w', __readStreamBlock evt r w = (Ret (stream.read (block_size evt) r).2, w')
    /\ same_clients w w'
    /\ sent (w_server w') = sent (w_server w)
         ++ mails (w_server w) (data_event evt (stream.read (block_size evt) r).1)
    /\ omap_get (ev_id evt) (openedFiles (w_fs w')) = Some (stream.read (block_size evt) r).2.
Proof.
  intros Hr. unfold __readStreamBlock. fold (block_size evt).
  destruct (stream.read (block_size evt) r) as [b r']. simpl.
  set (w1 := upd_fs (set_opened (omap_set (ev_id evt) r')) w).
  exists (upd_server (add_sents (mails (w_server w) (data_event evt b))) w1). split_and!.
  - rewrite (M_bind_Ret _ _ _ tt w1) by done. unfold data_event.
    destruct (regex_match _ _); rewrite (M_bind_Ret _ _ _ _ _ (opened_evt_eq _ _ _ w1 Hr)); done.
  - done.
  - done.
  - simpl. by rewrite omap_get_set_eq.
Qed.

(** the rest of the file *)
Definition rest (r : ifstream) : string := sdrop (if_pos r) (if_data r).

Lemma peek_good r :
  stream.good r = true -> if_pos r <= slen (if_data r) ->
  let '(more, r') := stream.peek r in
  more = negb (isempty (rest r)) /\ rest r' = rest r /\ if_data r' = if_data r /\
  if_pos r' <= slen (if_data r') /\
  (if more then stream.good r' = true else if_eof r' = true).
Proof.
  intros Hg Hp. unfold stream.peek. rewrite Hg. unfold rest. simpl.
  assert (isempty (sdrop (if_pos r) (if_data r)) = negb (if_pos r <? slen (if_data r))) as ->.
  { pose proof (slen_sdrop (if_pos r) (if_data r)) as E.
    destruct (Nat.ltb_spec (if_pos r) (slen (if_data r))), (sdrop (if_pos r) (if_data r)); simpl in *; done || lia. }
  rewrite negb_involutive. split_and!; [done..|]. by destruct (if_pos r <? _).
Qed.

Lemma read_good n r :
  stream.good r = true -> if_pos r <= slen (if_data r) -> (0 < n)%Z ->
  (stream.read n r).1 = stake (Z.to_nat n) (rest r) /\
  if_data (stream.read n r).2 = if_data r /\
  rest (stream.read n r).2 = sdrop (Z.to_nat n) (rest r) /\
  if_pos (stream.read n r).2 <= slen (if_data r) /\
  (stream.good (stream.read n r).2 = true \/
   (if_eof (stream.read n r).2 = true /\ rest (stream.read n r).2 = EmptyString)).
Proof.
  intros Hg Hp Hn. unfold stream.read. rewrite Hg. simpl. unfold rest. simpl.
  pose proof (slen_sdrop (if_pos r) (if_data r)) as El.
  assert (forall k m (s : string), sdrop m (sdrop k s) = sdrop (k + m) s) as Hdd.
  { intros k m s. apply to_list_inj. by rewrite !to_list_sdrop, drop_drop. }
  assert (forall s k, slen s <= k -> sdrop k s = EmptyString) as Hde.
  { intros s k Hk. pose proof (slen_sdrop k s). destruct (sdrop k s); simpl in *; [done|lia]. }
  destruct (Z.ltb_spec (Z.of_nat (slen (if_data r) - if_pos r)) n) as [Hs|Hs].
  - rewrite Z.min_r by lia. rewrite Nat2Z.id. split_and!.
    + by rewrite !stake_ge by lia.
    + done.
    + rewrite !Hde by (rewrite ?slen_sdrop; lia). done.
    + lia.
    + right. split; [done|]. apply Hde. lia.
  - rewrite Z.min_l by lia. split_and!; [done..| |lia|by left]. by rewrite Hdd.
Qed.

Lemma readAll_loop evt fuel r w :
  reachable w -> (0 < block_size evt)%Z ->
  mem (ev_type evt) ["read"; "readBinary"] = false ->
  if_pos r <= slen (if_data r) ->
  (stream.good r = true \/ (if_eof r = true /\ rest r = EmptyString)) ->
  slen (rest r) < fuel ->
  exists r' w', __readStream_loop fuel evt r w = (Ret r', w')
    /\ if_eof r' = true /\ same_clients w w'
    /\ sent (w_server w') = sent (w_server w)
         ++ concat ((fun b => mails (w_server w) (data_event evt b))
                    <$> blocks_of (Z.to_nat (block_size evt)) (rest r))
    /\ omap_get (ev_id evt) (openedFiles (w_fs w')) = Some r'.
Proof.
  intros Hr Hn Ht. revert r w Hr. induction fuel as [|fuel IH]; intros r w Hr Hp Hst Hfuel; [lia|].
  cbn [__readStream_loop]. destruct Hst as [Hg|[He Hrest]].
  - pose proof (peek_good r Hg Hp) as Hpk. destruct (stream.peek r) as [more r1].
    destruct Hpk as (Hm & Hr1 & Hd1 & Hp1 & Hst1).
    set (w1 := upd_fs (set_opened (omap_set (ev_id evt) r1)) w).
    rewrite (M_bind_Ret _ _ _ tt w1) by done. subst more.
    destruct (rest r) as [|c s] eqn:Er; simpl in Hst1; cbn [isempty negb].
    + exists r1, w1. split_and!; [done..| |]; simpl.
      * by rewrite app_nil_r.
      * by rewrite omap_get_set_eq.
    + destruct (block_eq evt r1 w1 Hr) as (w2 & E2 & [Hr2 Hm2] & Hs2 & _).
      rewrite (M_bind_Ret _ _ _ _ _ E2). rewrite Ht.
      destruct (read_good (block_size evt) r1 Hst1 Hp1 Hn) as (Eb & Ed & Ers & Ep & Hst2).
      destruct (IH (stream.read (block_size evt) r1).2 w2) as (r' & w' & E' & He' & [Hr' Hm'] & Hs' & Ho'); [done|..].
      * by rewrite Ed.
      * done.
      * rewrite Ers, Hr1, slen_sdrop. simpl. simpl in Hfuel. lia.
      * exists r', w'. split_and!; [done|done| | |done]; [|rewrite Hs', Hs2].
        { split; [done|]. intros p. by rewrite Hm', Hm2. }
        rewrite Eb, Ers, !Hr1. rewrite <-app_assoc. f_equal.
        unfold blocks_of. cbn [slen]. cbn [blocks isempty fmap list_fmap concat].
        f_equal. f_equal.
        rewrite (blocks_fuel (slen s) (slen (sdrop (Z.to_nat (block_size evt)) (String c s)))).
        2: lia. 2: rewrite slen_sdrop; simpl; lia. 2: done.
        apply list_fmap_ext. intros _ b _. by rewrite Hm2.
  - assert (stream.peek r = (false, {| if_data := if_data r; if_pos := if_pos r; if_eof := if_eof r;
                                       if_fail := true; if_gcount := 0 |})) as ->.
    { unfold stream.peek, stream.good. by rewrite He. }
    set (r1 := {| if_data := if_data r |}).
    set (w1 := upd_fs (set_opened (omap_set (ev_id evt) r1)) w).
    exists r1, w1. split; [by rewrite (M_bind_Ret _ _ _ tt w1)|].
    rewrite Hrest. split_and!; [done|done| |]; simpl.
    + by rewrite app_nil_r.
    + by rewrite omap_get_set_eq.
Qed.

Lemma zero_loop evt fuel r w :
  reachable w -> block_size evt = 0%Z -> mem (ev_type evt) ["read"; "readBinary"] = false ->
  stream.good r = true -> if_pos r < slen (if_data r) ->
  fst (__readStream_loop fuel evt r w) = NoFuel.
Proof.
  intros Hr Hn Ht. revert r w Hr. induction fuel as [|fuel IH]; intros r w Hr Hg Hp; [done|].
  cbn [__readStream_loop]. unfold stream.peek. rewrite Hg, (proj2 (Nat.ltb_lt _ _) Hp).
  set (r1 := {| if_data := if_data r |}).
  set (w1 := upd_fs (set_opened (omap_set (ev_id evt) r1)) w).
  rewrite (M_bind_Ret _ _ _ tt w1) by done.
  destruct (block_eq evt r1 w1 Hr) as (w2 & E2 & [Hr2 _] & _).
  rewrite (M_bind_Ret _ _ _ _ _ E2), Ht. apply IH; [done|..]; rewrite Hn; unfold stream.read; simpl.
  - destruct (_ <? 0)%Z eqn:Ez; zb; [lia|]. done.
  - rewrite Z.min_l by lia. simpl. lia.
Qed.
End stream.


(** With a block size of 0, "readAll" never ends before the end of the file:
    no number of iterations is enough. *)
Theorem readAll_zero_diverges `{Platform} (evt : OpenedFileEvent) (r : ifstream) (w : World) (fuel : nat)
    (Hr : forall hdl, ws_can_send hdl (w_sys w) = true)
    (Ht : ev_type evt = "readAll" \/ ev_type evt = "readAllBinary") (Hz : ev_size evt = 0%Z)
    (Hg : stream.good r = true) (Hp : if_pos r < slen (if_data r)) :
  fst (__readStream_loop fuel evt r w) = NoFuel.
Proof.
  apply zero_loop; [done| | |done|done].
  - unfold block_size. by rewrite Hz.
  - by destruct Ht as [-> | ->].
Qed.

Section stream_witness.
#[local] Existing Instance demo.

Definition demo_opened : World :=
  upd_fs (set_opened (omap_set 0%Z (stream.open "hello"))) demo_connected.


Lemma readAll_zero_diverges_witness :
  fst (__readStream_loop 1000 {| ev_id := 0; ev_type := "readAll"; ev_pos := -1; ev_size := 0 |}
         (stream.open "hello") demo_opened) = NoFuel.
Proof.
  apply (readAll_zero_diverges _ (stream.open "hello") demo_opened 1000).
  - intros hdl. reflexivity.
  - by left.
  - reflexivity.
  - reflexivity.
  - simpl. lia.
Defined.
End stream_witness.
