(* ===== verification/StorageFacts.v ===== *)
(** * Facts about api/storage/storage.cpp *)

From S2P Require Import Prelude Strings Regex OMap Outcome Json Errors State MemPlatform Helpers.
From S2P Require Import Options Paths Permission Auth Connections Base64 Fs FsControllers.
From S2P Require Import Resources Storage HelpersFacts OptionsFacts ConnectionsFacts.
From S2P Require Import PermissionFacts FsFacts.
From Stdlib Require Import Ascii.
Import helpers settings storage.

(** ** Keys *)

(** the class of the pattern *)
Definition key_class (c : ascii) : bool :=
  ((((false || in_range "a" "z" c) || in_range "A" "Z" c) || bool_decide (c = "-"%char))
   || bool_decide (c = "_"%char)) || in_range "0" "9" c.

Lemma parse_key :
  parse_regex NEU_STORAGE_KEY_REGEX =
  Some (RCat RBol (RCat (RCat (RRep 1 (RSet key_class)) (ROptN 49 (RSet key_class))) (RCat REol REps))).
Proof. reflexivity. Qed.

Lemma key_class_char c : key_class c = is_key_char c.
Proof. destruct c as [[] [] [] [] [] [] [] []]; reflexivity. Qed.

Lemma valid_key_iff key :
  valid_key key = true <-> 1 <= slen key <= 50 /\ sforall is_key_char key = true.
Proof.
  unfold valid_key. rewrite (regex_match_true _ _ _ parse_key).
  assert (sforall is_key_char key = true <-> Forall (fun c => key_class c = true) (to_list key)) as ->.
  { rewrite sforall_spec. split; intros Hf; (eapply Forall_impl; [exact Hf|]); intros c; simpl;
      by rewrite key_class_char. }
  cbn [RRep]. change (den ?s (RCat ?a ?b) 0 ?j) with (exists m, den s a 0 m /\ den s b m j).
  rewrite <-length_to_list. set (l := to_list key). split.
  - intros (m0 & [_ ->] & m & (m1 & (m2 & Hc & ->) & Ho) & m3 & [-> ->] & _).
    apply den_set in Hc as (c & v & Hd & Hc & ->). apply den_optN_set in Ho as (u & v' & Hd' & Hu & Hl & Hlen).
    rewrite drop_0 in Hd. rewrite Hd in Hd'. simpl in Hd'. rewrite drop_0 in Hd'.
    assert (length l = S (length v)) as Hll by (by rewrite Hd). subst v.
    rewrite length_app in Hll. destruct v'; [|simpl in Hll; lia].
    rewrite app_nil_r in Hd. split; [simpl in *; lia|]. rewrite Hd. by constructor.
  - intros [[H1 H50] Hf]. destruct l as [|c v] eqn:El; [simpl in *; lia|].
    inversion Hf as [|? ? Hc Hv]; subst. exists 0. split; [done|]. exists (length (c :: v)). split.
    + exists 1. split.
      * exists 1. split; [|done]. apply den_set. by exists c, v.
      * apply den_optN_set. exists v, []. rewrite app_nil_r. split_and!; [done|done|simpl in *; lia|done].
    + by exists (length (c :: v)).
Qed.

(** The keys that the storage takes are the strings of 1 to 50 letters,
    digits, hyphens and underscores; the file of such a key lies directly in the
    storage directory (no separator and no dot in its name but the extension's),
    and different keys have different files. *)
Theorem storage_keys_contained (storagePath key key' : string) :
  (valid_key key = true <-> 1 <= slen key <= 50 /\ sforall is_key_char key = true) /\
  (valid_key key = true -> contains_char "/" key = false /\ contains_char "." key = false) /\
  (bucket storagePath key = bucket storagePath key' -> key = key').
Proof.
  split; [apply valid_key_iff|]. split.
  - intros [_ Hf]%valid_key_iff. apply sforall_spec in Hf. unfold contains_char.
    rewrite !mem_false. rewrite Forall_forall in Hf.
    split; intros Hin%Hf; by vm_compute in Hin.
  - unfold bucket. intros E%sapp_inv_l%sapp_inv_l. by apply sapp_inv_r in E.
Qed.

(** ** Data *)

Section data.
Context `{Platform}.

Definition key_input (key : string) : json := JObj [("key", JStr key)].
Definition data_input (key data : string) : json := JObj [("data", JStr data); ("key", JStr key)].
End data.

(** C39: what setData stores under a valid key is what getData returns, when a
    file that was written is read back and making the directory succeeds. *)
Theorem storage_roundtrip `{Platform} (key data : string) (w : World) (made : bool) (y1 y2 : sys)
    (Hk : valid_key key = true)
    (Hd : sys_create_directories (w_storagePath w) (w_sys w) = (Ret made, y1))
    (Hw : sys_write (bucket (w_storagePath w) key) data false y1 = Some y2)
    (Hr : sys_read (bucket (w_storagePath w) key) y2 = Some data) :
  exists w', setData (data_input key data) w = (Ret (mk_obj [("success", JBool true)]), w') /\
    getData (key_input key) w' =
      (Ret (mk_obj [("returnValue", JStr data); ("success", JBool true)]), w').
Proof.
  set (w1 := upd_sys (fun _ => y1) w). set (w2 := upd_sys (fun _ => y2) w1).
  assert (__validateStorageBucket key = None) as Hv by (unfold __validateStorageBucket; by rewrite Hk).
  exists w2. split.
  - unfold setData. change (hasRequiredFields (data_input key data) ["key"]) with true. cbn iota beta delta [negb].
    rewrite (M_bind_Ret _ _ w key w) by done. rewrite Hv.
    rewrite (M_bind_Ret _ _ w (w_storagePath w) w) by done.
    rewrite (M_bind_Ret _ _ w made w1).
    2: { unfold sys_call_o, sys_call. munfold. by rewrite Hd. }
    change (hasField (data_input key data) "data") with true. cbn iota beta delta [negb].
    rewrite (M_bind_Ret _ _ w1 data w1) by done.
    rewrite (M_bind_Ret _ _ w1 true w2); [done|].
    unfold fs.writeFile, w1, w2. simpl. by rewrite Hw.
  - unfold getData. change (hasRequiredFields (key_input key) ["key"]) with true. cbn iota beta delta [negb].
    rewrite (M_bind_Ret _ _ w2 key w2) by done. rewrite Hv.
    rewrite (M_bind_Ret _ _ w2 (w_storagePath w) w2) by done.
    rewrite (M_bind_Ret _ _ _ _ _ (readFile_eq _ no_reader_options data w2 Hr)).
    simpl. unfold slice, slice_of. simpl. by rewrite stake_ge by lia.
Qed.

Section storage_witness.
#[local] Existing Instance demo.

Lemma storage_roundtrip_witness :
  exists w', setData (data_input "user-1" "value") demo_world = (Ret (mk_obj [("success", JBool true)]), w') /\
    getData (key_input "user-1") w' =
      (Ret (mk_obj [("returnValue", JStr "value"); ("success", JBool true)]), w').
Proof.
  apply (storage_roundtrip (H := demo) "user-1" "value" demo_world true
    (set_dirs [""; "/app"] mem0)
    (set_files [("/user-1.neustorage", "value")] (set_dirs [""; "/app"] mem0)));
    vm_compute; reflexivity.
Defined.

End storage_witness.

(** GetKeys does not report every key that setData accepts: the dot of the
    pattern that takes the extension off is not escaped, so "neustorage" and a
    character before it go from the key as well, and different keys can be
    reported alike. *)
Theorem getKeys_mangles_keys :
  valid_key "my-neustorage" = true /\ valid_key "my" = true /\
  regex_match ("my-neustorage" +:+ NEU_STORAGE_EXT) NEU_STORAGE_EXT_REGEX = true /\
  key_of_entry ("my-neustorage" +:+ NEU_STORAGE_EXT) = "my" /\
  key_of_entry ("my" +:+ NEU_STORAGE_EXT) = "my".
Proof. split_and!; vm_compute; reflexivity. Qed.
