(* ===== verification/AuthFacts.v ===== *)
(** * Facts about auth/authbasic.cpp: the shape of the tokens, the one-time token *)

From S2P Require Import Prelude Strings Regex OMap Outcome Json Errors State MemPlatform Helpers.
From S2P Require Import Options Auth HelpersFacts OptionsFacts.
From Stdlib Require Import Ascii.
Import helpers settings authbasic.

Lemma token_char_plain c : token_char c = true -> c <> "."%char /\ c <> "010"%char.
Proof. intros Hc. split; intros ->; by vm_compute in Hc. Qed.

Lemma token_split a b :
  sforall token_char a = true -> sforall token_char b = true -> b <> "" ->
  splitTwo (a +:+ "." +:+ b) "."%char = [a; b].
Proof.
  intros Ha Hb Hne. apply splitTwo_spec; [|done|].
  - apply sforall_spec in Ha. eapply Forall_impl; [exact Ha|]. by intros c [? _]%token_char_plain.
  - apply sforall_spec in Hb. eapply Forall_impl; [exact Hb|]. by intros c [_ ?]%token_char_plain.
Qed.

(** the configured security, as [authbasic::init] reads it *)
Definition security_of (j : json) (d : TokenSecurity) : TokenSecurity :=
  match j with
  | JStr s => if decide (s = "one-time") then TokenSecurityOneTime else TokenSecurityNone
  | _ => d
  end.

(** [init] makes an access token of 97 characters: 47 and then 49 characters
    of the URL-safe alphabet around a dot; the connect token is the second part,
    and the token security is the configured one. *)
Theorem auth_init_tokens `{Platform} (w : World)
    (Hr : random_ok) (Hok : opts_ok (opts w))
    (Hs : pure_option "tokenSecurity" (opts w) = JNull \/
          exists s, pure_option "tokenSecurity" (opts w) = JStr s) :
  exists a b w', init w = (Ret tt, w') /\
    token (w_auth w') = a +:+ "." +:+ b /\ connectToken (w_auth w') = b /\
    slen a = 47 /\ slen b = 49 /\ sforall token_char a = true /\ sforall token_char b = true /\
    tokenSecurity (w_auth w') =
      security_of (pure_option "tokenSecurity" (opts w)) (tokenSecurity (w_auth w)).
Proof.
  destruct (generateToken_run w Hr) as (a & b & w1 & E1 & Hla & Hlb & Ha & Hb & y & ->).
  exists a, b. unfold init. rewrite (M_bind_Ret _ _ _ _ _ E1).
  rewrite (M_bind_Ret _ _ _ tt (upd_auth (fun x => set_tokens (a +:+ "." +:+ b) (connectToken x) x)
    (upd_sys (fun _ => y) w))) by done.
  rewrite token_split by (done || by intros ->). cbn [lookup list_lookup].
  set (w2 := upd_auth (fun x => set_tokens (token x) b x)
    (upd_auth (fun x => set_tokens (a +:+ "." +:+ b) (connectToken x) x) (upd_sys (fun _ => y) w))).
  match goal with |- context[(lift (Ret b) ≫= ?f) ?v] => rewrite (M_bind_Ret (lift (Ret b)) f v b v) by done end.
  rewrite (M_bind_Ret _ _ _ tt w2) by done.
  destruct (getOption_reads w2 "tokenSecurity") as (w3 & E3 & Hw3); [done..|].
  rewrite (M_bind_Ret _ _ _ _ _ E3). destruct (weq_proj _ _ Hw3) as (_ & Ha3 & _).
  change (opts w2) with (opts w).
  destruct Hs as [Hs|[s Hs]]; rewrite Hs; cbn [is_null negb].
  - exists w3. rewrite Ha3. by split_and!.
  - eexists. split_and!; [rewrite (M_bind_Ret _ _ w3 s w3) by done; reflexivity|..];
      simpl; rewrite ?Ha3; done.
Qed.

Section init_witness.
#[local] Existing Instance demo.

Lemma auth_init_tokens_witness :
  exists a b w', init demo_world = (Ret tt, w') /\
    token (w_auth w') = a +:+ "." +:+ b /\ connectToken (w_auth w') = b /\
    slen a = 47 /\ slen b = 49 /\ sforall token_char a = true /\ sforall token_char b = true /\
    tokenSecurity (w_auth w') = TokenSecurityOneTime.
Proof.
  apply (auth_init_tokens demo_world).
  - intros y. apply Nat.mod_upper_bound. done.
  - split; [done..| |by left]. by intros [].
  - by left.
Defined.
End init_witness.

(** A one-time token is handed out to the first caller of [getToken] only;
    without that security every caller gets it. *)
Theorem one_time_token `{Platform} (w : World) :
  let w1 := snd (getToken w) in
  match tokenSecurity (w_auth w) with
  | TokenSecurityOneTime =>
      fst (getToken w) = Ret (if tokenSent (w_auth w) then EmptyString else token (w_auth w)) /\
      fst (getToken w1) = Ret EmptyString /\ snd (getToken w1) = w1
  | TokenSecurityNone =>
      fst (getToken w) = Ret (token (w_auth w)) /\ fst (getToken w1) = Ret (token (w_auth w))
  end.
Proof.
  unfold getToken, getTokenInternal. munfold.
  destruct w as [? ? [t c [] []] ? ? ? ? ? ? ? ? ? ?]; done.
Qed.
