(* ===== verification/RouterFacts.v ===== *)
(** * The native call: guards, answers and what a call can change

    [judge] is the decision that server/router.cpp promises, as a function of
    the request and the state; [executeNativeMethod] refines it. *)

From S2P Require Import Prelude Strings Regex OMap Outcome Json Errors State MemPlatform Helpers.
From S2P Require Import Options Paths Permission Auth Connections Base64 Fs FsControllers.
From S2P Require Import Resources Settings Storage Os OsControllers Methods Window App.
From S2P Require Import ApiControllers Router MemLibs OptionsFacts.
From Stdlib Require Import Ascii.
Import helpers settings permission router.

Section facts.
Context `{NativeApi}.

Inductive verdict :=
| BadToken | ApiDisabled | MethodDenied | UnknownMethod | Discarded
| Run (f : json -> M json).

Definition api_enabled (o : json) : outcome bool :=
  let j := pure_option "enableNativeAPI" o in
  if is_null j then Ret false else get_bool j.

Definition judge (request : NativeMessage) (w : World) : outcome verdict :=
  if decide (token (w_auth w) <> nm_accessToken request) then Ret BadToken else
  api ← api_enabled (opts w);
  if negb api then Ret ApiDisabled else
  module ← __getModuleFromMethod (nm_method request);
  if negb (method_access (w_perm w) module (nm_method request)) then Ret MethodDenied else
  match find_method (nm_method request) with
  | None => Ret UnknownMethod
  | Some f =>
      if bool_decide (pure_mode (opts w) <> AppModeWindow)
         && regex_match (nm_method request) "^window.*"
      then Ret Discarded else Ret (Run f)
  end.

(** the answer to a verdict; only [Run] gives the control away *)
Definition answer (request : NativeMessage) (v : outcome verdict) : M NativeMessage :=
  v ← lift v;
  match v with
  | BadToken => mret (reply_error request errors.NE_RT_INVTOKN "")
  | ApiDisabled => mret (reply_error request errors.NE_RT_APIPRME "")
  | MethodDenied => mret (reply_error request errors.NE_RT_NATPRME (nm_method request))
  | UnknownMethod => mret (reply_error request errors.NE_RT_NATNTIM (nm_method request))
  | Discarded => mret (reply request (discard_data (nm_method request)))
  | Run f =>
      try_catch (data ← f (nm_data request); mret (reply request data))
        (fun _ => mret (reply_error request errors.NE_RT_NATRTER ""))
  end.

Lemma hasAPIAccess_eq w :
  opts_ok (opts w) ->
  exists w', weq w w' /\ hasAPIAccess w = (api_enabled (opts w), w').
Proof.
  intros Hok. destruct (getOption_reads w "enableNativeAPI" Hok) as (w' & E & Hw); [done|].
  exists w'. split; [done|]. unfold hasAPIAccess, api_enabled.
  rewrite (M_bind_Ret _ _ _ _ _ E). by destruct (pure_option _ _).
Qed.

Lemma call_method_eq f request w :
  opts_ok (opts w) ->
  exists w', weq w w' /\
    call_method f request w =
      if bool_decide (pure_mode (opts w) <> AppModeWindow) && regex_match (nm_method request) "^window.*"
      then (Ret (discard_data (nm_method request)), w') else f (nm_data request) w'.
Proof.
  intros Hok. destruct (getMode_reads w Hok) as (w' & E & Hw).
  exists w'. split; [done|]. unfold call_method. rewrite (M_bind_Ret _ _ _ _ _ E).
  by destruct (_ && _).
Qed.
Lemma executeNativeMethod_judge request w :
  opts_ok (opts w) ->
  exists w', weq w w' /\ executeNativeMethod request w = answer request (judge request w) w'.
Proof.
  intros Hok.
  unfold executeNativeMethod, judge, authbasic.verifyToken, authbasic.getTokenInternal.
  munfold. destruct (decide (token (w_auth w) = nm_accessToken request)) as [Ht|Ht].
  2: { exists w. split; [done|]. by rewrite bool_decide_false, decide_True. }
  rewrite bool_decide_true by done. rewrite decide_False by auto. simpl.
  destruct (hasAPIAccess_eq w Hok) as (w1 & Hw1 & ->).
  destruct (api_enabled (opts w)) as [[]| | | |]; simpl; try by exists w1.
  unfold hasMethodAccess. munfold.
  destruct (__getModuleFromMethod _) as [m| | | |]; simpl; try by exists w1.
  unfold get_perm, gets. rewrite (proj1 (proj2 (proj2 (weq_proj _ _ Hw1)))).
  destruct (method_access _ _ _); simpl; [|by exists w1].
  destruct (find_method _) as [f|]; simpl; [|by exists w1].
  destruct (call_method_eq f request w1) as (w2 & Hw2 & E2); [by eapply weq_ok|].
  exists w2. split; [by etrans|]. unfold try_catch. rewrite E2.
  rewrite <-(pure_mode_proper _ _ (proj1 Hw1)). 
  destruct (bool_decide (pure_mode (opts w) <> AppModeWindow) && _); [reflexivity|].
  unfold answer, try_catch. munfold. by destruct (f _ _) as [[] ?].
Qed.

(** only [Run] can leave the state; exceptions end in the answer *)
Lemma answer_state request v w :
  (forall f, v <> Ret (Run f)) -> snd (answer request v w) = w.
Proof. intros Hv. destruct v as [[]| | | |]; try done. by destruct (Hv f). Qed.

Lemma judge_run request w f :
  judge request w = Ret (Run f) ->
  token (w_auth w) = nm_accessToken request /\ api_enabled (opts w) = Ret true /\
  (exists module, __getModuleFromMethod (nm_method request) = Ret module /\
                  method_access (w_perm w) module (nm_method request) = true) /\
  find_method (nm_method request) = Some f /\
  (pure_mode (opts w) = AppModeWindow \/ regex_match (nm_method request) "^window.*" = false).
Proof.
  unfold judge. destruct (decide _) as [|Ht]; [done|]. apply dec_stable in Ht.
  destruct (api_enabled _) as [[]| | | |] eqn:Ea; try done. simpl.
  destruct (__getModuleFromMethod _) as [m| | | |] eqn:Em; try done. simpl.
  destruct (method_access _ _ _) eqn:Eo; [|done]. simpl.
  destruct (find_method _) as [g|] eqn:Ef; [|done].
  destruct (bool_decide _ && _) eqn:Ed; [done|]. intros [= ->]. split_and!; try done.
  - by exists m.
  - apply andb_false_iff in Ed as [Ed|Ed]; [left|by right].
    apply bool_decide_eq_false in Ed. by apply dec_stable in Ed.
Qed.
End facts.

(** C2: [executeNativeMethod] is the decision [judge] followed by its [answer]:
    the token, the API switch, the method lists, the method table and the window
    mode are checked in this order, an exception of the controller becomes
    NE_RT_NATRTER, and the checks change nothing but [null] options. *)
Theorem executeNativeMethod_refines `{NativeApi} (request : NativeMessage) (w : World)
    (Hok : opts_ok (opts w)) :
  exists w', weq w w' /\ executeNativeMethod request w = answer request (judge request w) w'.
Proof. by apply executeNativeMethod_judge. Qed.

Section refines_witness.
#[local] Existing Instance demo.
#[local] Instance demo_api : NativeApi := mem_api.

Definition demo_request (token : string) : NativeMessage :=
  {| nm_id := "1"; nm_method := "debug.log"; nm_accessToken := token;
     nm_data := JObj [("message", JStr "hi")] |}.
Definition demo_app : World :=
  upd_auth (authbasic.set_tokens "T" "C") (with_opts (JObj [("enableNativeAPI", JBool true)]) demo_world).

Lemma demo_app_ok : opts_ok (opts demo_app).
Proof. split; [done..| |by left]. by intros []. Qed.

Lemma executeNativeMethod_refines_witness :
  judge (demo_request "X") demo_app = Ret BadToken /\
  exists w', weq demo_app w' /\ executeNativeMethod (demo_request "X") demo_app
                               = answer (demo_request "X") (Ret BadToken) w'.
Proof.
  split; [reflexivity|].
  apply (executeNativeMethod_refines (demo_request "X") demo_app). exact demo_app_ok.
Defined.
End refines_witness.

(** C1: a native call that changes anything but [null] options carries the access
    token, and its method exists, is admitted by the block and allow lists with
    the native API enabled, and belongs to the running mode. *)
Theorem native_call_authorized `{NativeApi} (request : NativeMessage) (w : World)
    (Hok : opts_ok (opts w)) (Hc : ~ weq w (snd (executeNativeMethod request w))) :
  token (w_auth w) = nm_accessToken request /\ api_enabled (opts w) = Ret true /\
  (exists module, __getModuleFromMethod (nm_method request) = Ret module /\
                  method_access (w_perm w) module (nm_method request) = true) /\
  (exists f, find_method (nm_method request) = Some f) /\
  (pure_mode (opts w) = AppModeWindow \/ regex_match (nm_method request) "^window.*" = false).
Proof.
  destruct (executeNativeMethod_judge request w Hok) as (w' & Hw & E). rewrite E in Hc.
  destruct (judge request w) as [[]| | | |] eqn:Ej; try by destruct Hc.
  destruct (judge_run _ _ _ Ej) as (? & ? & ? & ? & ?). eauto 10.
Qed.

Section authorized_witness.
#[local] Existing Instance demo.
#[local] Existing Instance demo_api.

Lemma native_call_authorized_witness :
  ~ weq demo_app (snd (executeNativeMethod (demo_request "T") demo_app)) /\
  find_method "debug.log" <> None /\ token (w_auth demo_app) = "T".
Proof.
  assert (~ weq demo_app (snd (executeNativeMethod (demo_request "T") demo_app))) as Hc.
  { intros Hw. apply weq_proj in Hw as (_&_&_&_&_&_&_&_&_&_&Hl&_). by vm_compute in Hl. }
  destruct (native_call_authorized (demo_request "T") demo_app demo_app_ok Hc)
    as (Ht & _ & _ & (f & Hf) & _).
  change (nm_method (demo_request "T")) with "debug.log" in Hf.
  split_and!; [exact Hc|by rewrite Hf|exact Ht].
Defined.
End authorized_witness.

(** The method table has exactly the documented names, each once, so that
    [custom.getMethods] and the globals script list what can be called. *)
Theorem methodMap_keys `{NativeApi} (id : string) :
  methodMap.*1 = method_ids /\ NoDup method_ids /\
  (is_Some (find_method id) <-> id ∈ method_ids).
Proof.
  split; [done|]. split; [apply (bool_decide_unpack _); vm_cast_no_check I|].
  change method_ids with (methodMap.*1). unfold find_method.
  induction methodMap as [|[k f] l IH]; cbn [fmap list_fmap find_first fst snd].
  - split; [by intros []|by rewrite elem_of_nil].
  - rewrite elem_of_cons. destruct (decide (k = id)) as [->|Hne].
    + rewrite bool_decide_true by done. split; [by left|by eexists].
    + rewrite bool_decide_false by done. rewrite IH. split; [by right|by intros [?|?]].
Qed.

(** ** Mounts *)

(** the key that a path is mounted under *)
Definition mount_key (path : string) : string :=
  let path := normalizePath path in if isempty path then "/" else path.

Lemma starts_with_longer a b s :
  starts_with a s = true -> starts_with b s = true -> str_ltb b a = false -> slen a <= slen b.
Proof.
  intros [u ->]%starts_with_spec [v Hv]%starts_with_spec Hlt.
  destruct (decide (slen a <= slen b)) as [|Hgt]; [done|exfalso].
  assert (a = b +:+ sdrop (slen b) a) as E.
  { apply to_list_inj. apply (f_equal to_list) in Hv. rewrite to_list_app in *. rewrite to_list_app in Hv.
    rewrite to_list_sdrop, <-(take_drop (slen b) (to_list a)) at 1. f_equal.
    apply (f_equal (take (slen b))) in Hv.
    rewrite take_app_le in Hv by (rewrite length_to_list; lia).
    by rewrite take_app_length' in Hv by (symmetry; apply length_to_list). }
  rewrite E, str_ltb_prefix in Hlt; [done|].
  intros Hd. apply (f_equal slen) in Hd. rewrite slen_sdrop in Hd. simpl in Hd. lia.
Qed.

(** Among the mounts whose path is a prefix of the pathname the shortest one
    decides; the file is the rest of the pathname, as it is, behind the target. *)
Theorem mounted_file_shortest (mounts : list (string * string)) (pathname file : string)
    (Hwf : omap_wf mounts) (Hf : mounted_file mounts pathname = Some file) :
  exists path target rest,
    omap_get path mounts = Some target /\ pathname = path +:+ rest /\
    file = target +:+ "/" +:+ rest /\
    forall path', is_Some (omap_get path' mounts) -> starts_with path' pathname = true ->
      slen path <= slen path'.
Proof.
  induction mounts as [|[p t] l IH]; [done|]. cbn [mounted_file] in Hf. destruct Hwf as [Hall Hwf].
  destruct (starts_with p pathname) eqn:Ep.
  - simplify_eq. destruct (proj1 (starts_with_spec _ _) Ep) as [rest Hrest].
    exists p, t, rest. cbn [omap_get]. rewrite decide_True by done. split_and!; [done|done| |].
    + by rewrite Hrest, sdrop_app.
    + intros p' [t' Hg] Hs. destruct (decide (p' = p)) as [->|Hne]; [done|].
      eapply starts_with_longer; [exact Ep|exact Hs|].
      rewrite Forall_forall in Hall. apply omap_get_elem in Hg. specialize (Hall _ Hg). cbn in Hall.
      destruct (str_ltb p' p) eqn:E; [|done].
      pose proof (kltb_trans p' p p' E Hall) as Hc. by rewrite kltb_irrefl in Hc.
  - destruct (IH Hwf Hf) as (p1 & t1 & rest & Hg & -> & -> & Hmin).
    exists p1, t1, rest. cbn [omap_get].
    destruct (decide (p1 = p)) as [->|Hne]; [by rewrite starts_with_app in Ep|].
    split_and!; [done..|]. intros p' Hp' Hs. destruct (decide (p' = p)) as [->|]; [congruence|].
    by apply Hmin.
Qed.

Lemma mounted_file_shortest_witness :
  mounted_file [("/a", "/srv/a"); ("/a/b", "/srv/b")] "/a/b/x.js" = Some "/srv/a//b/x.js" /\
  exists path target rest,
    omap_get path [("/a", "/srv/a"); ("/a/b", "/srv/b")] = Some target /\
    "/a/b/x.js" = path +:+ rest /\ "/srv/a//b/x.js" = target +:+ "/" +:+ rest /\
    forall path', is_Some (omap_get path' [("/a", "/srv/a"); ("/a/b", "/srv/b")]) ->
      starts_with path' "/a/b/x.js" = true -> slen path <= slen path'.
Proof.
  split; [reflexivity|]. apply mounted_file_shortest; [|reflexivity].
  simpl. repeat constructor.
Defined.

(** A mount that succeeds adds one entry, for a directory and a path not yet
    mounted, keeps the map in order, and unmounting the same path restores the
    mounts exactly. *)
Theorem mount_unmount `{Platform} (path target key dir : string) (w w1 : World)
    (Hwf : omap_wf (w_mounts w))
    (Hm : mountPath path target w = (Ret (errors.NE_ST_OK, key, dir), w1)) :
  key = mount_key path /\ dir = normalizePath target /\
  omap_get key (w_mounts w) = None /\ w_mounts w1 = omap_set key dir (w_mounts w) /\
  omap_wf (w_mounts w1) /\
  (exists st, sys_stat dir (w_sys w) = Some st /\ st_kind st = KDir) /\
  unmountPath path w1 = (Ret (true, key), w).
Proof.
  unfold mountPath, isMounted in Hm. fold (mount_key path) in Hm. munfold.
  destruct (sys_stat _ _) as [st|] eqn:Es; [|done]. destruct (st_kind st) eqn:Ek; try done.
  unfold omap_has in Hm. destruct (omap_get (mount_key path) (w_mounts w)) as [t|] eqn:Eg; [done|].
  cbn in Hm. inversion Hm; subst; clear Hm.
  split_and!; [done..|by apply omap_set_wf|by exists st|].
  unfold unmountPath, isMounted. fold (mount_key path). munfold. unfold omap_has. cbn.
  rewrite omap_get_set_eq, bool_decide_true by by eexists. cbn. unfold upd_mounts. cbn.
  rewrite omap_del_set by done. by destruct w.
Qed.

Section mount_witness.
#[local] Existing Instance demo.

Definition demo_mounted : World := upd_mounts (H := demo) (fun _ => [("/data", "/app")]) demo_world.

Lemma mount_unmount_witness :
  mountPath "/data/" "/app/" demo_world = (Ret (errors.NE_ST_OK, "/data", "/app"), demo_mounted) /\
  unmountPath "/data/" demo_mounted = (Ret (true, "/data"), demo_world).
Proof.
  assert (mountPath "/data/" "/app/" demo_world
          = (Ret (errors.NE_ST_OK, "/data", "/app"), demo_mounted)) as Hm by reflexivity.
  split; [exact Hm|].
  apply (mount_unmount "/data/" "/app/" "/data" "/app" demo_world demo_mounted I Hm).
Defined.
End mount_witness.
