(* ===== verification/HttpFacts.v ===== *)
(** * Facts about HTTP requests: ranges, the search for an asset *)

From S2P Require Import Prelude Strings Regex OMap Outcome Json Errors State MemPlatform NumFacts.
From S2P Require Import Helpers Options Paths Permission Auth Connections Base64 Fs FsControllers.
From S2P Require Import Resources Settings Storage Os OsControllers Methods Window App.
From S2P Require Import ApiControllers Router HelpersFacts OptionsFacts ConnectionsFacts FsFacts.
From Stdlib Require Import Ascii.
Import helpers settings router.

(** ** The Range header *)

Definition digits_regex : regex := RCat (RSet isdigit) (RStar (RSet isdigit)).
Definition range_regex : regex :=
  RCat (RGroup 1 (RCat digits_regex REps))
    (RCat (RChr "-") (RCat (RAlt (RGroup 2 (RCat (RStar (RSet isdigit)) REps)) REps) REps)).

Lemma parse_range :
  parse_regex "bytes=(\d+)-(\d*)?" = Some (lits (to_list "bytes=") range_regex).
Proof. reflexivity. Qed.

Lemma run_range da db i :
  da <> [] -> Forall (fun c => isdigit c = true) da -> Forall (fun c => isdigit c = true) db ->
  run range_regex (at_end 0) i (da ++ "-"%char :: db) [] =
  Some (MatchResult 0 (S (i + length da) + length db)
          [None; Some (i, i + length da); Some (S (i + length da), S (i + length da) + length db)]).
Proof.
  intros Hne Ha Hb. destruct da as [|c da]; [done|]. inversion Ha as [|? ? Hc Ha']; subst.
  unfold range_regex, digits_regex. cbn [run app]. rewrite Hc.
  apply run_star_set_greedy; [done|done|]. cbn [run RChr]. rewrite bool_decide_true by done.
  match goal with |- context[star_loop ?m ?k (length ?l) ?i ?l ?c] =>
    change (star_loop m k (length l) i l c) with (run (RStar (RSet isdigit)) k i l c) end.
  rewrite <-(app_nil_r db) at 1.
  erewrite run_star_set_greedy; [reflexivity|done|done|].
  simpl. by rewrite !Nat.add_succ_r.
Qed.

Lemma sub_match_at s m n u v t :
  n <> 0 -> to_list s = u ++ to_list v ++ t ->
  m_caps m !! n = Some (Some (length u, length u + slen v)) -> sub_match s m n = Some v.
Proof.
  intros Hn Hs Hm. destruct n as [|n]; [done|]. unfold sub_match. rewrite Hm. f_equal.
  apply to_list_inj. rewrite to_list_stake, to_list_sdrop, Hs, drop_app_length.
  apply take_app_length'. rewrite length_to_list. lia.
Qed.

(** the text of a range, with or without its end *)
Definition range_text (a : Z) (b : option Z) : string :=
  "bytes=" +:+ to_string a +:+ "-" +:+ match b with Some b => to_string b | None => "" end.

Lemma range_text_spec (a : Z) (b : option Z) :
  (0 <= a < 2 ^ 63)%Z -> match b with Some b => (a <= b < 2 ^ 63 - 1)%Z | None => True end ->
  neuserver.__getFileReaderOptionsFromHeaders (Some (range_text a b)) =
  Ret {| ro_pos := a; ro_size := match b with Some b => b - a + 1 | None => -1 end |}.
Proof.
  intros Ha Hb. unfold neuserver.__getFileReaderOptionsFromHeaders, regex_match_caps.
  rewrite parse_range. cbn [mbind option_bind].
  set (sb := match b with Some b => to_string b | None => "" end).
  assert (sforall isdigit sb = true) as Hsb.
  { unfold sb. destruct b; [|done]. apply to_string_digits. lia. }
  destruct (to_string_digits a) as (Hda & Hne & _); [lia|].
  assert (to_list (range_text a b) =
          to_list "bytes=" ++ to_list (to_string a) ++ "-"%char :: to_list sb) as El.
  { unfold range_text. fold sb. by rewrite !to_list_app. }
  unfold run_match. rewrite El, run_lits, of_list_app, starts_with_app, drop_app_length.
  rewrite run_range; [|by intros H%(f_equal of_list); rewrite of_to_list in H|by apply sforall_spec..].
  rewrite !length_to_list.
  erewrite (sub_match_at _ _ 1 (to_list "bytes=") (to_string a)); [|done|exact El|reflexivity].
  erewrite (sub_match_at _ _ 2 (to_list "bytes=" ++ to_list (to_string a) ++ ["-"%char]) sb []);
    [|done|by rewrite El, app_nil_r, <-!app_assoc|].
  2:{ simpl. rewrite length_app, length_to_list. simpl. do 3 f_equal; lia. }
  simpl. rewrite stoll_to_string by lia. simpl. unfold sb. destruct b as [b|]; [|done].
  destruct (to_string_digits b) as (_ & Hneb & _); [lia|].
  destruct (isempty (to_string b)) eqn:Eb; [by apply isempty_spec in Eb|].
  rewrite stoll_to_string by lia. simpl.
  rewrite (proj2 (Z.leb_le a b)), (proj2 (Z.leb_le (b - a + 1) _)) by lia. done.
Qed.


Section range_witness.
#[local] Existing Instance demo.

Definition demo_page : World := upd_sys (H := demo) (set_files [("/app/a.txt", "hello world")]) demo_world.

End range_witness.

(** ** Nothing but the search for an asset needs fuel *)

Lemma nf_bind {A B} (m : outcome A) (f : A -> outcome B) :
  m <> NoFuel -> (forall a, f a <> NoFuel) -> m ≫= f <> NoFuel.
Proof. destruct m; simpl; auto. Qed.

Lemma nf_jref j k f : (forall j, f j <> NoFuel) -> jref j k f <> NoFuel.
Proof. intros Hf. destruct j; simpl; try done; apply nf_bind; auto; done. Qed.

Lemma nf_jread j k : jread j k <> NoFuel.
Proof. apply nf_bind; [by apply nf_jref|done]. Qed.

Lemma nf_get_string j : get_string j <> NoFuel.
Proof. by destruct j. Qed.

Lemma nf_get_bool j : get_bool j <> NoFuel.
Proof. by destruct j. Qed.

Lemma nf_get_arith c lo hi b j : get_arith c lo hi b j <> NoFuel.
Proof. destruct j as [|[]| | |f| | |]; simpl; try (by destruct b); try done. by repeat case_goal. Qed.

Lemma nf_of_num r : of_num r <> NoFuel.
Proof. by destruct r as [[]|]. Qed.

Lemma nf_omapM {A B} (f : A -> outcome B) l : (forall x, f x <> NoFuel) -> omapM f l <> NoFuel.
Proof.
  intros Hf. induction l as [|x l IH]; simpl; [done|].
  apply nf_bind; [done|]. intros y. by apply nf_bind.
Qed.

Lemma nf_seek_steps segments j : resources.seek_steps j segments <> NoFuel.
Proof.
  revert j; induction segments as [|s ss IH]; intros j; simpl; [done|]. apply nf_bind; [|done].
  unfold resources.seek_step. destruct (_ || _); [done|]. apply nf_bind; [apply nf_jread|].
  intros [j' files]. destruct (is_null files); [done|]. by apply nf_bind; [apply nf_jread|intros []].
Qed.

Lemma nf_seekFilePos path node : resources.__seekFilePos path node <> NoFuel.
Proof.
  apply nf_bind; [apply nf_seek_steps|]. intros j. destruct (negb _); [|done].
  apply nf_bind; [apply nf_jread|]. intros [j1 size]. apply nf_bind; [apply nf_get_arith|]. intros z.
  apply nf_bind; [apply nf_jread|]. intros [j2 off]. by apply nf_bind; [apply nf_get_string|].
Qed.

#[export] Hint Resolve nf_get_string nf_get_bool nf_get_arith nf_of_num nf_seekFilePos nf_jread : neu.

Section assets_keep.
Context `{Platform}.

Lemma keeps_readFile filename o w : keeps (fs.readFile filename o) w.
Proof. unfold fs.readFile. keeps_step; [auto with neu|]. repeat case_goal; auto with neu. Qed.

Lemma keeps_log_error c p w : keeps (log_error c p) w.
Proof. apply keeps_log. Qed.

Lemma keeps_locate size offset o w : keeps (resources.locate size offset o) w.
Proof.
  unfold resources.locate. keeps_step; [apply keeps_lift; auto with neu|].
  destruct (resources.__applyFileReaderOptions size o) as [pos len].
  keeps_step; [apply keeps_gets|]. destruct (_ <? _)%Z; [by apply keeps_lift|auto with neu].
Qed.

Lemma nf_read_region data off n : resources.read_region data off n <> NoFuel.
Proof. unfold resources.read_region. by repeat case_goal. Qed.

Lemma keeps_openResourceFile w : keeps resources.__openResourceFile w.
Proof.
  unfold resources.__openResourceFile. keeps_step; [apply keeps_gets|].
  keeps_step; [apply keeps_sys_get|]. destruct a0; [apply keeps_ret|].
  keeps_step; [apply keeps_log_error|apply keeps_ret].
Qed.

Lemma keeps_getFile filename o w : keeps (resources.getFile filename o) w.
Proof.
  unfold resources.getFile. keeps_step; [by split|]. destruct a.
  { unfold resources.__getFileFromEmbedded. keeps_step; [apply keeps_gets|].
    keeps_step; [apply keeps_lift; auto with neu|]. destruct a0 as [usize offset].
    destruct (decide _); [|apply keeps_ret]. destruct embedded_resource; [|apply keeps_ret].
    keeps_step; [apply keeps_locate|]. destruct a0 as [off len].
    keeps_step; [apply keeps_lift, nf_read_region|apply keeps_ret]. }
  keeps_step; [by split|]. destruct a.
  { unfold resources.__getFileFromBundle. keeps_step; [apply keeps_gets|].
    keeps_step; [apply keeps_lift; auto with neu|]. destruct a0 as [usize offset].
    destruct (decide _); [|apply keeps_ret]. keeps_step; [apply keeps_openResourceFile|].
    destruct a0 as [archive|]; [|apply keeps_ret].
    keeps_step; [apply keeps_locate|]. destruct a0 as [off len]. apply keeps_ret. }
  keeps_step; [apply keeps_gets|apply keeps_readFile].
Qed.

Lemma keeps_getDocumentRoot w : opts_ok (opts w) -> keeps neuserver.getDocumentRoot w.
Proof.
  intros Hok. unfold neuserver.getDocumentRoot. keeps_step; [by apply keeps_getOption|].
  destruct (negb _); [|apply keeps_ret]. keeps_step; [apply keeps_lift; auto with neu|].
  destruct (sback _); [apply keeps_ret|by apply keeps_lift].
Qed.

Lemma keeps_find_file path o w : opts_ok (opts w) -> keeps (find_file path o) w.
Proof.
  intros Hok. unfold find_file. keeps_step; [apply keeps_gets|]. destruct a; [apply keeps_getFile|].
  keeps_step; [by apply keeps_getDocumentRoot|].
  keeps_step.
  { destruct (negb _); [|apply keeps_ret]. apply keeps_lift. unfold substr. by destruct (_ <? _). }
  destruct (mounted_file _ _); [apply keeps_readFile|apply keeps_getFile].
Qed.

Lemma keeps_getNavigationUrl w : opts_ok (opts w) -> keeps getNavigationUrl w.
Proof.
  intros Hok. unfold getNavigationUrl. keeps_step; [by apply keeps_getOption|].
  destruct (negb _); [|apply keeps_ret].
  keeps_step; [by apply keeps_getOption|]. apply keeps_lift. auto with neu.
Qed.

Lemma keeps_spa_path path w : opts_ok (opts w) -> keeps (spa_path path) w.
Proof.
  intros Hok. unfold spa_path. keeps_step; [by apply keeps_getOption|].
  keeps_step. { destruct (negb _); [apply keeps_lift; auto with neu|apply keeps_ret]. }
  destruct (_ && _); [|apply keeps_ret]. keeps_step; [by apply keeps_getOption|].
  keeps_step; [|apply keeps_ret]. destruct (negb _); [|by apply keeps_getNavigationUrl].
  keeps_step; [apply keeps_lift; auto with neu|apply keeps_ret].
Qed.

(** a missing page leads somewhere else only in a single page application *)
Lemma spa_path_Some path w w' p :
  opts_ok (opts w) -> spa_path path w = (Ret (Some p), w') ->
  pure_option "singlePageServe" (opts w) = JBool true /\ p <> path /\
  forall d, pure_option "documentRoot" (opts w) = JStr d -> p = d +:+ "index.html".
Proof.
  intros Hok E. unfold spa_path in E.
  destruct (getOption_reads w "singlePageServe" Hok ltac:(done)) as (w1 & E1 & Hw1).
  rewrite (M_bind_Ret _ _ _ _ _ E1) in E. pose proof (weq_ok _ _ Hw1 Hok) as Hok1.
  set (j := pure_option "singlePageServe" (opts w)) in *.
  assert (exists b, (if negb (is_null j) then lift (get_bool j) else mret false) w1 = (Ret b, w1) /\
                    (b = true -> j = JBool true)) as (b & Eb & Hb).
  { minv E. clear E. destruct j; inversion E0; (eexists; split; [reflexivity|]); first [done|by intros ->]. }
  rewrite (M_bind_Ret _ _ _ _ _ Eb) in E. destruct b; [|done]. cbn [andb] in E.
  destruct (regex_match path _); [|done].
  destruct (getOption_reads w1 "documentRoot" Hok1 ltac:(done)) as (w2 & E2 & Hw2).
  rewrite (M_bind_Ret _ _ _ _ _ E2) in E.
  rewrite <-(pure_option_equiv "documentRoot" _ _ ltac:(done) (proj1 Hw1)) in E.
  minv E. destruct (decide (a <> path)) as [Hne|]; [|done].
  assert (a = p) as -> by by inversion E.
  split_and!; [by apply Hb|done|]. intros d Hd. rewrite Hd in E0. simpl in E0. by inversion E0.
Qed.
End assets_keep.

Lemma split_go_cons delim n cur c r :
  split_go delim (wrapU 32 (-1)) n cur (c :: r) =
  if decide (c = delim) then of_list cur :: split_go delim (wrapU 32 (-1)) (n + 1) [] r
  else split_go delim (wrapU 32 (-1)) n (cur ++ [c]) r.
Proof. cbn [split_go]. by rewrite Z.eqb_refl. Qed.

Lemma split_go_dot n cur l c r :
  2 <= length (split_go "."%char (wrapU 32 (-1)) n cur (l ++ "."%char :: c :: r)).
Proof.
  revert n cur; induction l as [|x l IH]; intros n cur.
  - cbn [app]. rewrite split_go_cons, decide_True by done. apply le_n_S, split_go_nonempty. by right.
  - cbn [app]. rewrite split_go_cons. destruct (decide (x = "."%char)); [|apply IH].
    etrans; [apply (IH (n + 1)%Z [])|]. cbn [length]. lia.
Qed.

Lemma split_index p : 2 <= length (split (p +:+ "index.html") "."%char).
Proof.
  unfold split, split_n. rewrite to_list_app.
  change (to_list "index.html") with (to_list "index" ++ "."%char :: to_list "html").
  rewrite app_assoc. apply split_go_dot.
Qed.

Section termination.
Context `{Platform}.

Lemma keeps_globalVars w : opts_ok (opts w) -> keeps globalVars w.
Proof.
  intros Hok. unfold globalVars, settings_init.getGlobalVars, getAppId.
  assert (forall k w, opts_ok (opts w) -> keeps (read_options [k]) w) as Hr.
  { intros k w1 Hok1. eapply keeps_reads. by apply read_options_top. }
  repeat first [ apply Hr; done | apply keeps_ret | apply keeps_gets | apply keeps_sys_get
               | apply keeps_getMode; done | apply keeps_getOption; done
               | apply keeps_lift; auto with neu; apply nf_get_arith | by split | keeps_step ].
  all: unfold authbasic.getToken; repeat first [ apply keeps_gets | apply keeps_ret | by split | keeps_step ].
Qed.

Lemma keeps_getAsset_step fuel path prependData o w :
  opts_ok (opts w) -> 2 <= length (split path "."%char) ->
  (forall w1 w2 p, opt_equiv (opts w) (opts w1) -> opt_equiv (opts w) (opts w2) ->
     spa_path path w1 = (Ret (Some p), w2) -> keeps (getAsset fuel p prependData o) w2) ->
  keeps (getAsset (S fuel) path prependData o) w.
Proof.
  intros Hok Hlen Hrec. cbn [getAsset]. rewrite (proj2 (Nat.ltb_ge _ _)) by done.
  apply keeps_bind; [by apply keeps_find_file|]. intros r w1 _ Ho1.
  assert (opts_ok (opts w1)) as Hok1 by by rewrite <-Ho1.
  apply keeps_bind. { destruct (decide _); [by apply keeps_spa_path|apply keeps_ret]. }
  intros spa w2 E Ho2. destruct spa as [p|].
  - destruct (decide _); [|by inversion E]. eapply Hrec; [exact Ho1|by etrans|exact E].
  - destruct (decide _); [|apply keeps_ret].
    apply keeps_bind; [apply keeps_log_error|]. intros. apply keeps_ret.
Qed.

(** a single page application needs a document root *)
Definition page_root (o : json) : Prop :=
  pure_option "singlePageServe" o <> JBool true \/ exists d, pure_option "documentRoot" o = JStr d.

Lemma keeps_getAsset_root fuel prependData o w d :
  opts_ok (opts w) -> pure_option "documentRoot" (opts w) = JStr d -> 1 <= fuel ->
  keeps (getAsset fuel (d +:+ "index.html") prependData o) w.
Proof.
  intros Hok Hd Hf. destruct fuel as [|fuel]; [lia|].
  apply keeps_getAsset_step; [done|apply split_index|]. intros w1 w2 p Ho1 _ E.
  apply spa_path_Some in E as (_ & Hne & Hp); [|by rewrite <-Ho1].
  destruct Hne. apply Hp. by rewrite <-(pure_option_equiv "documentRoot" _ _ ltac:(done) Ho1).
Qed.

Lemma keeps_getAsset_file fuel path prependData o w :
  opts_ok (opts w) -> page_root (opts w) -> 2 <= length (split path "."%char) -> 2 <= fuel ->
  keeps (getAsset fuel path prependData o) w.
Proof.
  intros Hok Hr Hlen Hf. destruct fuel as [|fuel]; [lia|].
  apply keeps_getAsset_step; [done..|]. intros w1 w2 p Ho1 Ho2 E.
  apply spa_path_Some in E as (Hs & _ & Hp); [|by rewrite <-Ho1].
  rewrite <-(pure_option_equiv "singlePageServe" _ _ ltac:(done) Ho1) in Hs.
  destruct Hr as [Hr|[d Hd]]; [done|].
  rewrite (Hp d) by by rewrite <-(pure_option_equiv "documentRoot" _ _ ltac:(done) Ho1).
  apply keeps_getAsset_root; [by rewrite <-Ho2| |lia].
  by rewrite <-(pure_option_equiv "documentRoot" _ _ ltac:(done) Ho2).
Qed.

Lemma keeps_getAsset fuel path prependData o w :
  opts_ok (opts w) -> page_root (opts w) -> 3 <= fuel ->
  keeps (getAsset fuel path prependData o) w.
Proof.
  intros Hok Hr Hf. destruct (decide (2 <= length (split path "."%char))).
  { apply keeps_getAsset_file; auto. lia. }
  destruct fuel as [|fuel]; [lia|]. cbn [getAsset]. rewrite (proj2 (Nat.ltb_lt _ _)) by lia.
  destruct (sback path); [|by apply keeps_lift].
  apply keeps_getAsset_file; [done|done|apply split_index|lia].
Qed.
End termination.

(** C13: a request for an asset ends: three lookups are enough for any path and
    any range, when the options are well-formed and a single page application has
    a document root; the request changes no option. *)
Theorem http_terminates `{Platform} (resource : string) (range : option string) (w : World) (fuel : nat)
    (Hok : opts_ok (opts w)) (Hr : page_root (opts w)) (Hf : 3 <= fuel) :
  fst (handleHTTP fuel resource range w) <> NoFuel /\
  opt_equiv (opts w) (opts (snd (handleHTTP fuel resource range w))).
Proof.
  change (keeps (handleHTTP fuel resource range) w). unfold handleHTTP.
  apply keeps_bind; [by apply keeps_getDocumentRoot|]. intros d w1 _ Ho1.
  apply keeps_bind.
  { apply keeps_lift. unfold neuserver.__getFileReaderOptionsFromHeaders.
    destruct range; [|done]. destruct (regex_match_caps _ _); [|done].
    apply nf_bind; [auto with neu|]. intros pos. destruct (sub_match _ _ _); [|done].
    destruct (isempty _); [done|]. apply nf_bind; [auto with neu|]. intros. by repeat case_goal. }
  intros o w2 _ Ho2. assert (opt_equiv (opts w) (opts w2)) as Ho by by etrans.
  assert (opts_ok (opts w2)) as Hok2 by by rewrite <-Ho.
  assert (forall w3, opt_equiv (opts w2) (opts w3) -> page_root (opts w3)) as Hr2.
  { intros w3 Ho3. unfold page_root in *.
    by rewrite <-!(pure_option_equiv _ (opts w) (opts w3)) by (done || by etrans). }
  apply keeps_bind.
  { unfold serve. destruct (regex_match _ _).
    { apply keeps_bind; [by apply keeps_globalVars|]. intros g w3 _ Ho3.
      apply keeps_getAsset; [by rewrite <-Ho3|by apply Hr2|done]. }
    destruct (regex_match _ _).
    { apply keeps_bind; [by apply keeps_globalVars|]. intros g w3 _ Ho3. apply keeps_ret. }
    apply keeps_getAsset; [done|by apply Hr2|done]. }
  intros r w3 _ Ho3. apply keeps_bind; [apply keeps_gets|]. intros s w4 _ Ho4.
  apply keeps_bind; [|intros; apply keeps_ret]. destruct (applyConfigHeaders s); [|apply keeps_ret].
  unfold config_headers. apply keeps_bind.
  { apply keeps_getOption; [|done]. by rewrite <-Ho4, <-Ho3. }
  intros j w5 _ _. apply keeps_lift, nf_omapM. intros it. by apply nf_bind; [auto with neu|].
Qed.

Section http_witness.
#[local] Existing Instance demo.

Lemma demo_page_ok : opts_ok (opts demo_page).
Proof. split; [done..| |by left]. by intros []. Qed.

Lemma http_terminates_witness :
  page_root (opts demo_page) /\
  fst (handleHTTP 3 "/a.txt" (Some "bytes=0-4") demo_page) <> NoFuel /\
  opt_equiv (opts demo_page) (opts (snd (handleHTTP 3 "/a.txt" (Some "bytes=0-4") demo_page))).
Proof.
  assert (page_root (opts demo_page)) as Hr by by left.
  split; [exact Hr|].
  apply (http_terminates "/a.txt" (Some "bytes=0-4") demo_page 3); [exact demo_page_ok|exact Hr|lia].
Defined.
End http_witness.

(** ** A single page application without its page *)

Section loop.
Context `{Platform}.

(** the options of a single page application that neu generates, in a
    directory without index.html *)
Record no_index (w : World) : Prop := {
  ni_ok : opts_ok (opts w);
  ni_spa : pure_option "singlePageServe" (opts w) = JBool true;
  ni_root : pure_option "documentRoot" (opts w) = JNull;
  ni_url : pure_option "url" (opts w) = JStr "/";
  ni_mounts : w_mounts w = [];
  ni_mode : res_mode (w_resources w) = ResourceModeDir;
  ni_missing : sys_read (appPath (w_settings w) +:+ "/index.html") (w_sys w) = None
}.

Lemma no_index_weq w w' : no_index w -> weq w w' -> no_index w'.
Proof.
  intros [H1 H2 H3 H4 H5 H6 H7] Hw. destruct (weq_proj _ _ Hw) as (Hr & _ & _ & Hm & _ & _ & _ & _ & _ & _ & _ & Hs).
  destruct Hw as [He Hw]. split.
  - by rewrite <-He.
  - by rewrite <-(pure_option_equiv "singlePageServe" _ _ ltac:(done) He).
  - by rewrite <-(pure_option_equiv "documentRoot" _ _ ltac:(done) He).
  - by rewrite <-(pure_option_equiv "url" _ _ ltac:(done) He).
  - by rewrite Hm.
  - by rewrite Hr.
  - rewrite Hs. rewrite Hw. exact H7.
Qed.

Lemma no_index_spa w : no_index w -> reads (spa_path "/index.html") w (Some "/").
Proof.
  intros Hn. unfold spa_path.
  eapply reads_bind; [by apply getOption_reads; [apply Hn|]|]. intros w1 Hw1. rewrite (ni_spa _ Hn).
  pose proof (no_index_weq _ _ Hn Hw1) as Hn1.
  eapply reads_bind; [apply reads_lift|]. intros w2 Hw2. pose proof (no_index_weq _ _ Hn1 Hw2) as Hn2.
  assert (true && regex_match "/index.html" ".*index.html$" = true) as -> by by vm_compute.
  eapply reads_bind; [by apply getOption_reads; [apply Hn2|]|]. intros w3 Hw3. rewrite (ni_root _ Hn2).
  pose proof (no_index_weq _ _ Hn2 Hw3) as Hn3.
  eapply (reads_bind _ _ _ "/"); [|intros; apply reads_ret]. cbn [is_null negb]. unfold getNavigationUrl.
  eapply reads_bind; [by apply getOption_reads; [apply Hn3|]|]. intros w4 Hw4. rewrite (ni_url _ Hn3).
  pose proof (no_index_weq _ _ Hn3 Hw4) as Hn4. cbn [is_null negb].
  eapply reads_bind; [by apply getOption_reads; [apply Hn4|]|]. intros w5 _. rewrite (ni_url _ Hn4).
  apply reads_lift.
Qed.

Lemma no_index_find o w :
  no_index w ->
  find_file "/index.html" o w =
  (Ret {| fr_status := errors.NE_FS_FILRDER; fr_data := EmptyString; fr_size := -1 |}, w).
Proof.
  intros [_ _ _ _ Hm Hd Hs].
  unfold find_file. rewrite (M_bind_Ret getMounts _ w [] w) by (unfold getMounts; munfold; by rewrite Hm).
  unfold resources.getFile.
  assert (resources.getMode w = (Ret ResourceModeDir, w)) as E.
  { unfold resources.getMode. munfold. by rewrite Hd. }
  rewrite (M_bind_Ret resources.isEmbeddedMode _ w false w)
    by (unfold resources.isEmbeddedMode; by rewrite (M_bind_Ret _ _ _ _ _ E)).
  cbn beta iota.
  rewrite (M_bind_Ret resources.isBundleMode _ w false w)
    by (unfold resources.isBundleMode; by rewrite (M_bind_Ret _ _ _ _ _ E)).
  cbn beta iota.
  rewrite (M_bind_Ret (joinAppPath _) _ w (appPath (w_settings w) +:+ "/index.html") w) by done.
  unfold fs.readFile. rewrite (M_bind_Ret (sys_get _) _ w None w) by (munfold; by rewrite Hs). done.
Qed.

Lemma no_index_loops prependData o fuel :
  (forall w, no_index w -> fst (getAsset fuel "/" prependData o w) = NoFuel) /\
  (forall w, no_index w -> fst (getAsset fuel "/index.html" prependData o w) = NoFuel).
Proof.
  induction fuel as [|fuel [IH1 IH2]]; [done|]. split; intros w Hn; [by apply IH2|].
  cbn [getAsset]. change (length (split "/index.html" ".") <? 2) with false. cbn beta iota.
  rewrite (M_bind_Ret _ _ _ _ _ (no_index_find o w Hn)). cbn [fr_status].
  rewrite decide_True by done. destruct (no_index_spa w Hn) as (w' & E & Hw).
  rewrite (M_bind_Ret _ _ _ _ _ E). apply IH1. by eapply no_index_weq.
Qed.
End loop.

(** Without a document root the search does not end: when [url] is a directory
    and its index.html is missing, a request for it calls [getAsset] again and
    again with the same two paths. *)
Theorem spa_missing_index_loops `{Platform} (w : World) (fuel : nat) (Hn : no_index w) :
  fst (handleHTTP fuel "/" None w) = NoFuel.
Proof.
  unfold handleHTTP, neuserver.getDocumentRoot.
  destruct (getOption_reads w "documentRoot" (ni_ok _ Hn) ltac:(done)) as (w1 & E1 & Hw1).
  rewrite (ni_root _ Hn) in E1. pose proof (no_index_weq _ _ Hn Hw1) as Hn1.
  erewrite M_bind_Ret; [|rewrite (M_bind_Ret _ _ _ _ _ E1); reflexivity].
  cbn [isempty negb]. erewrite M_bind_Ret; [|reflexivity].
  unfold mbind at 1, M_bind at 1.
  assert (fst (serve fuel "/" no_reader_options w1) = NoFuel) as Hs.
  { unfold serve. change (request_path "/") with "/".
    assert (regex_match "/" ".*neutralino.js$" = false) as -> by by vm_compute.
    assert (regex_match "/" ".*__neutralino_globals.js$" = false) as -> by by vm_compute.
    by apply no_index_loops. }
  destruct (serve fuel "/" no_reader_options w1) as [[] ?]; try done.
Qed.

Section loop_witness.
#[local] Existing Instance demo.

Definition demo_spa : World :=
  upd_resources (H := demo) (resources.set_mode ResourceModeDir)
    (with_opts (JObj [("singlePageServe", JBool true); ("url", JStr "/")]) demo_world).

Lemma spa_missing_index_loops_witness : fst (handleHTTP 100 "/" None demo_spa) = NoFuel.
Proof.
  apply (spa_missing_index_loops demo_spa 100). split; try reflexivity.
  split; [done..| |by left]. by intros [].
Defined.
End loop_witness.
