(* ===== verification/ResourceFacts.v ===== *)
(** * Facts about resources.cpp: the three sources of a file agree, and [init] *)

From S2P Require Import Prelude Strings Regex OMap Outcome Json Errors State MemPlatform NumFacts.
From S2P Require Import Helpers Options Paths Permission Auth Connections Base64 Fs FsControllers.
From S2P Require Import Resources JsonParseFacts FsFacts.
From Stdlib Require Import Ascii.
Import helpers settings resources.

(** ** Bytes *)

Lemma stake_inside pre content post pos len :
  pos + len <= slen content ->
  stake len (sdrop (slen pre + pos) (pre +:+ content +:+ post)) = stake len (sdrop pos content).
Proof.
  intros Hl. apply to_list_inj. rewrite !to_list_stake, !to_list_sdrop, !to_list_app.
  rewrite <-(drop_drop (to_list pre ++ _)), drop_app_length' by (symmetry; apply length_to_list).
  rewrite drop_app_le, take_app_le by (rewrite ?length_drop, length_to_list; lia). done.
Qed.

Lemma read_padded_inside data off len :
  off + len <= slen data ->
  read_padded data (Z.of_nat off) (Z.of_nat len) = stake len (sdrop off data).
Proof.
  intros Hl. unfold read_padded.
  rewrite (proj2 (Z.leb_le (Z.of_nat off) (Z.of_nat (slen data)))) by lia.
  rewrite !Nat2Z.id. cbn zeta. rewrite (proj2 (Z.leb_le (Z.of_nat len) _)) by (rewrite slen_sdrop; lia).
  rewrite slen_stake, slen_sdrop, Nat.min_l, Nat.sub_diag by lia. apply sapp_nil_r.
Qed.

Lemma read_region_inside data off len :
  off + len <= slen data ->
  read_region data (Z.of_nat off) (Z.of_nat len) = Ret (stake len (sdrop off data)).
Proof.
  intros Hl. unfold read_region. destruct len as [|len]; [by destruct (sdrop off data)|].
  rewrite (proj2 (Z.eqb_neq _ _)), (proj2 (Z.leb_le _ _)) by lia. by rewrite !Nat2Z.id.
Qed.

Section reading.
Context `{Platform}.

(** the archive that the mode reads from *)
Definition archive (w : World) : option string :=
  match res_mode (w_resources w) with
  | ResourceModeBundle => sys_read (appPath (w_settings w) +:+ NEU_APP_RES_FILE) (w_sys w)
  | ResourceModeEmbedded => embedded_resource
  | ResourceModeDir => None
  end.

(** [content] is stored for [path]: the header gives its size and its offset *)
Definition stored (w : World) (path content : string) : Prop :=
  exists data pre post offset,
    archive w = Some data /\ data = pre +:+ content +:+ post /\
    __seekFilePos path (fileTree (w_resources w))
      = Ret (Z.of_nat (slen content), to_string offset) /\
    Z.of_nat (slen pre) = (asarHeaderSize (w_resources w) + offset)%Z /\
    (0 <= offset <= INT_MAX)%Z /\ (0 <= asarHeaderSize (w_resources w))%Z /\
    (Z.of_nat (slen data) < 2 ^ 63)%Z.

Lemma locate_eq size_ offset o w content :
  size_ = Z.of_nat (slen content) -> (0 <= offset <= INT_MAX)%Z ->
  (0 <= asarHeaderSize (w_resources w))%Z ->
  (asarHeaderSize (w_resources w) + offset + Z.of_nat (slen content) < 2 ^ 63)%Z ->
  locate size_ (to_string offset) o w =
  (Ret ((asarHeaderSize (w_resources w) + offset + Z.of_nat (slice_of (slen content) o).1)%Z,
        Z.of_nat (slice_of (slen content) o).2), w).
Proof.
  intros -> Ho Hh Hs. unfold locate. rewrite stoi_to_string by done.
  rewrite (M_bind_Ret _ _ w offset w) by done. rewrite apply_options_slice by lia.
  pose proof (slice_of_bound (slen content) o) as Hb.
  destruct (slice_of (slen content) o) as [pos len]. cbn [fst snd] in *.
  rewrite (M_bind_Ret get_res _ w (w_resources w) w) by done.
  unfold INT_MAX in *. rewrite (proj2 (Z.ltb_ge _ _)) by lia.
  by rewrite (wrapU_small 64 offset), wrapU_small by lia.
Qed.

Lemma getFile_stored path content o w :
  stored w path content ->
  getFile path o w =
  (Ret {| fr_status := errors.NE_ST_OK; fr_data := slice content o;
          fr_size := Z.of_nat (slen content) |}, w).
Proof.
  intros (data & pre & post & offset & Ha & Hd & Hseek & Hpos & Ho & Hh & Hs).
  assert (slen data = slen pre + (slen content + slen post)) as Hlen by by rewrite Hd, !slen_app.
  assert (wrapS 64 (Z.of_nat (slen content)) = Z.of_nat (slen content)) as Hw.
  { apply wrapS_small; [lia|]. simpl Z.pow in *. lia. }
  pose proof (slice_of_bound (slen content) o) as Hb.
  assert (locate (Z.of_nat (slen content)) (to_string offset) o w =
          (Ret (Z.of_nat (slen pre + (slice_of (slen content) o).1),
                Z.of_nat (slice_of (slen content) o).2), w)) as Hloc.
  { rewrite (locate_eq _ _ _ _ content) by (done || lia). do 3 f_equal. lia. }
  assert (stake (slice_of (slen content) o).2 (sdrop (slen pre + (slice_of (slen content) o).1) data)
          = slice content o) as Hst.
  { rewrite Hd, stake_inside by done. unfold slice. by destruct (slice_of _ _). }
  unfold archive in Ha. unfold getFile, isEmbeddedMode, isBundleMode.
  assert (forall A (f : ResourceMode -> M A), (getMode ≫= f) w = f (res_mode (w_resources w)) w) as Hm.
  { done. }
  destruct (res_mode (w_resources w)) eqn:Em; [|done|].
  - rewrite (M_bind_Ret (getMode ≫= _) _ w false w) by (by rewrite Hm).
    cbn beta iota. rewrite (M_bind_Ret (getMode ≫= _) _ w true w) by (by rewrite Hm).
    cbn beta iota. unfold __getFileFromBundle, getFileTree.
    rewrite (M_bind_Ret _ _ w (fileTree (w_resources w)) w) by done.
    rewrite (M_bind_Ret _ _ w (Z.of_nat (slen content), to_string offset) w) by (by rewrite Hseek).
    cbn beta iota. rewrite Hw, decide_True by lia.
    rewrite (M_bind_Ret __openResourceFile _ w (Some data) w).
    2:{ unfold __openResourceFile, joinAppPath. rewrite (M_bind_Ret _ _ w _ w) by reflexivity.
        rewrite (M_bind_Ret (sys_get _) _ w (Some data) w); [done|]. munfold. by rewrite Ha. }
    cbn beta iota. rewrite (M_bind_Ret _ _ _ _ _ Hloc). cbn beta iota.
    rewrite read_padded_inside by lia. by rewrite Hst.
  - rewrite (M_bind_Ret (getMode ≫= _) _ w true w) by (by rewrite Hm).
    cbn beta iota. unfold __getFileFromEmbedded, getFileTree.
    rewrite (M_bind_Ret _ _ w (fileTree (w_resources w)) w) by done.
    rewrite (M_bind_Ret _ _ w (Z.of_nat (slen content), to_string offset) w) by (by rewrite Hseek).
    cbn beta iota. rewrite Hw, decide_True by lia. rewrite Ha. cbn beta iota.
    rewrite (M_bind_Ret _ _ _ _ _ Hloc). cbn beta iota.
    rewrite read_region_inside by lia. rewrite Hst. done.
Qed.
End reading.

(** C15: a file of the archive, bundled or embedded, is read as the same file in
    a directory is: for every range the status, the bytes and the size agree. *)
Theorem bundle_equals_directory `{Platform} (path content filename : string) (o : FileReaderOptions)
    (w : World) (Hs : stored w path content) (Hf : sys_read filename (w_sys w) = Some content) :
  getFile path o w = fs.readFile filename o w.
Proof. by rewrite (getFile_stored _ _ _ _ Hs), (readFile_eq _ _ _ _ Hf). Qed.

Section bundle_witness.
#[local] Existing Instance demo.

Definition demo_tree : json :=
  JObj [("files", JObj [("www", JObj [("files", JObj [("a.js",
    JObj [("offset", JStr "3"); ("size", JUInt 5)])])])])].
Definition demo_bundle : World :=
  upd_resources (fun _ => {| fileTree := demo_tree; asarHeaderSize := 4; res_mode := ResourceModeBundle |})
    (upd_sys (H := demo)
       (set_files [("/app/resources.neu", "HEADxyzhello!"); ("/src/a.js", "hello")]) demo_world).

Lemma bundle_equals_directory_witness :
  stored demo_bundle "/www/a.js" "hello" /\
  getFile "/www/a.js" {| ro_pos := 1; ro_size := 2 |} demo_bundle
  = fs.readFile "/src/a.js" {| ro_pos := 1; ro_size := 2 |} demo_bundle /\
  fst (fs.readFile "/src/a.js" {| ro_pos := 1; ro_size := 2 |} demo_bundle)
  = Ret {| fr_status := errors.NE_ST_OK; fr_data := "el"; fr_size := 5 |}.
Proof.
  assert (stored demo_bundle "/www/a.js" "hello") as Hs.
  { exists "HEADxyzhello!", "HEADxyz", "!", 3%Z. split_and!; try reflexivity; vm_compute; intuition congruence. }
  split_and!; [exact Hs| |reflexivity].
  apply (bundle_equals_directory "/www/a.js" "hello" "/src/a.js" _ demo_bundle Hs). reflexivity.
Defined.
End bundle_witness.

(** ** [init] *)

Section init.
Context `{Platform}.

(** the modes that read from an archive have its file tree *)
Definition tree_loaded (w : World) : Prop :=
  res_mode (w_resources w) = ResourceModeDir \/ fileTree (w_resources w) <> JNull.

(** a loader returns whether there is a tree, or reads out of bounds *)
Definition loads (m : M bool) (w : World) : Prop :=
  match m w with
  | (Ret b, w') => res_mode (w_resources w') = res_mode (w_resources w) /\
                   (b = true -> fileTree (w_resources w') <> JNull)
  | (Undef, _) => True
  | _ => False
  end.

Lemma store_tree_loads h w : loads (store_tree h) w.
Proof.
  pose proof (json_parse_gives h) as Hg. unfold loads, store_tree, try_catch, log. munfold.
  destruct (json_parse h) as [j|[]| | |]; simpl in *; try done. split; [done|]. by destruct j.
Qed.

Lemma bundle_loads w : loads __makeBundleFileTree w.
Proof.
  unfold loads, __makeBundleFileTree, __openResourceFile, joinAppPath.
  unfold mbind at 1, M_bind at 1. munfold.
  destruct (sys_read _ _) as [data|]; simpl; [|done].
  destruct (slen data <? 8); [done|].
  apply (store_tree_loads _ (upd_resources (set_header (wrapU 32 (header_size data + 16))) w)).
Qed.

Lemma embedded_loads w : loads __makeEmbeddedFileTree w.
Proof.
  unfold loads, __makeEmbeddedFileTree. destruct embedded_resource as [data|]; [|done].
  destruct (slen data <? 8); [done|]. munfold.
  destruct (read_region _ _ _) as [h| | | |] eqn:E; try done.
  - apply (store_tree_loads _ (upd_resources (set_header (wrapU 32 (header_size data + 16))) w)).
  - exfalso. unfold read_region in E. by repeat case_match.
  - exfalso. unfold read_region in E. by repeat case_match.
  - exfalso. unfold read_region in E. by repeat case_match.
Qed.

Definition load_bundle : M unit :=
  resourceLoaderStatus ← __makeBundleFileTree;
  if negb resourceLoaderStatus then setMode ResourceModeDir else mret tt.

Lemma load_bundle_spec w :
  res_mode (w_resources w) = ResourceModeBundle ->
  match load_bundle w with
  | (Ret _, w') => tree_loaded w' /\ res_mode (w_resources w') <> ResourceModeEmbedded
  | (Undef, _) => True
  | _ => False
  end.
Proof.
  intros Hm. pose proof (bundle_loads w) as Hl. unfold load_bundle, loads, setMode in *. munfold.
  destruct (__makeBundleFileTree w) as [[[]| | | |] w1]; cbn in *; try done.
  - destruct Hl as [E Ht]. split; [right; auto|by rewrite E, Hm].
  - by split; [left|].
Qed.

(** what [init] does, by the mode at its start *)
Lemma init_eq w :
  init w =
  match res_mode (w_resources w) with
  | ResourceModeDir => (Ret tt, w)
  | ResourceModeBundle => load_bundle w
  | ResourceModeEmbedded =>
      match (if postject_has_resource then __makeEmbeddedFileTree w else (Ret false, w)) with
      | (Ret true, w1) => (Ret tt, w1)
      | (Ret false, w1) => load_bundle (upd_resources (set_mode ResourceModeBundle) w1)
      | (Throw e, w1) => (Throw e, w1)
      | (Exited s, w1) => (Exited s, w1)
      | (Undef, w1) => (Undef, w1)
      | (NoFuel, w1) => (NoFuel, w1)
      end
  end.
Proof.
  unfold init, isDirMode, isEmbeddedMode, getMode, setMode, load_bundle. munfold.
  destruct (res_mode (w_resources w)) eqn:Em; cbn; rewrite ?Em; cbn; try done.
  destruct postject_has_resource; [|done].
  by destruct (__makeEmbeddedFileTree w) as [[[]| | | |] w1].
Qed.
End init.

