(* ===== verification/ApiFacts.v ===== *)
(** * Facts about the net, clipboard and computer controllers *)

From S2P Require Import Prelude Strings Regex OMap Outcome Json Errors State MemPlatform Helpers.
From S2P Require Import Base64 FsControllers Net Clipboard Computer Router MemLibs.
From Stdlib Require Import Ascii.
Import helpers.

(** ** URLs of requests *)

Definition host_char (c : ascii) : bool := negb (false || bool_decide (c = "/"%char)).
Definition url_path_re : regex :=
  RCat (RAlt (RGroup 3 (RCat (RChr "/"%char) (RCat (RStar RDot) REps))) REps) (RCat REol REps).
Definition url_host_re : regex :=
  RCat (RGroup 2 (RCat (RCat (RSet host_char) (RStar (RSet host_char))) REps)) url_path_re.
Definition url_scheme_re : regex :=
  RGroup 1 (lits (to_list "http") (RCat (RAlt (RChr "s"%char) REps) REps)).
Definition url_re : regex := RCat RBol (RCat url_scheme_re (lits (to_list "://") url_host_re)).

Lemma parse_url_re : parse_regex net.url_regex = Some url_re.
Proof. vm_compute. reflexivity. Qed.

Definition path_ok (path : string) : Prop :=
  path = "" \/ exists rest, path = String "/" rest /\ sforall is_dot rest = true.

Lemma run_path i path c :
  path_ok path ->
  run url_path_re (at_end 0) i (to_list path) c =
  Some (MatchResult 0 (i + slen path)
          (if isempty path then c else cap_set 3 (i, i + slen path) c)).
Proof.
  intros [->|(rest & -> & Hr)]; [by rewrite Nat.add_0_r|].
  unfold url_path_re. cbn [run RChr RDot to_list]. rewrite bool_decide_true by done.
  assert (forall c', run (RStar RDot) (fun j l' c' => run (RCat REol REps) (at_end 0) j l' (cap_set 3 (i, j) c'))
    (S i) (to_list rest ++ []) c' = Some (MatchResult 0 (i + slen (String "/" rest))
      (cap_set 3 (i, i + slen (String "/" rest)) c'))) as E.
  { intros c'. apply run_star_set_greedy; [by apply sforall_spec|done|].
    rewrite length_to_list. cbn. by rewrite Nat.add_succ_r. }
  rewrite app_nil_r in E. cbn [run RDot] in E. cbn [isempty]. rewrite E. done.
Qed.

Lemma run_host i host path c :
  host <> "" -> sforall host_char host = true -> path_ok path ->
  run url_host_re (at_end 0) i (to_list host ++ to_list path) c =
  Some (MatchResult 0 (i + slen host + slen path)
    (let c := cap_set 2 (i, i + slen host) c in
     if isempty path then c else cap_set 3 (i + slen host, i + slen host + slen path) c)).
Proof.
  intros Hne Hh Hp. apply sforall_spec in Hh. rewrite <-length_to_list.
  destruct host as [|h host]; [done|]. cbn [to_list] in *. inversion Hh as [|? ? Hc Hh']; subst.
  unfold url_host_re. cbn [run app]. rewrite Hc.
  apply (run_star_set_greedy host_char); [done| |].
  - destruct Hp as [->|(rest & -> & _)]; done.
  - cbn [run length]. rewrite Nat.add_succ_comm. by apply run_path.
Qed.

Lemma run_scheme {R} protocol (k : nat -> list ascii -> caps -> option R) l x :
  protocol = "http" \/ protocol = "https" ->
  k (slen protocol) (":"%char :: l) [None; Some (0, slen protocol)] = Some x ->
  run url_scheme_re k 0 (to_list protocol ++ ":"%char :: l) [] = Some x.
Proof.
  intros [-> | ->] Hk; unfold url_scheme_re; cbn -[bool_decide] in *;
    rewrite ?bool_decide_true, ?bool_decide_false by done; cbn; by rewrite Hk.
Qed.

(** A URL of the shape that the pattern describes is taken apart at its separators. *)
Lemma parse_url_parts protocol host path :
  protocol = "http" \/ protocol = "https" -> host <> "" -> sforall host_char host = true ->
  path_ok path ->
  net.parse_url (protocol +:+ "://" +:+ host +:+ path) =
  Some (protocol, host, if isempty path then "/" else path).
Proof.
  intros Hp Hne Hh Hpath.
  set (url := protocol +:+ "://" +:+ host +:+ path).
  assert (to_list url = to_list protocol ++ to_list "://" ++ to_list host ++ to_list path) as El.
  { unfold url. by rewrite !to_list_app. }
  assert (run_match url_re url = Some (MatchResult 0 (slen url)
    (let n := slen protocol in
     let c := [None; Some (0, n); Some (n + 3, n + 3 + slen host)] in
     if isempty path then c else c ++ [Some (n + 3 + slen host, n + 3 + slen host + slen path)]))) as Er.
  { assert (forall i c, run (lits (to_list "://") url_host_re) (at_end 0) i
              (to_list "://" ++ to_list host ++ to_list path) c =
            Some (MatchResult 0 (i + 3 + slen host + slen path)
              (let c := cap_set 2 (i + 3, i + 3 + slen host) c in
               if isempty path then c else cap_set 3 (i + 3 + slen host, i + 3 + slen host + slen path) c))) as Hrun.
    { intros i c. rewrite run_lits, of_list_app, starts_with_app, drop_app_length. by apply run_host. }
    unfold run_match, url_re. rewrite El. cbn [run Nat.eqb].
    apply (run_scheme protocol (run (lits (to_list "://") url_host_re) (at_end 0))); [done|].
    rewrite (Hrun (slen protocol)). unfold url. rewrite !slen_app. cbn. rewrite ?Nat.add_assoc.
    do 2 f_equal. lia. }
  unfold net.parse_url, regex_match_caps. rewrite parse_url_re. cbn [mbind option_bind]. rewrite Er.
  cbv zeta. unfold sub_match.
  assert (stake (slen protocol) url = protocol) as E1 by apply stake_app.
  assert (sdrop (slen protocol + 3) url = host +:+ path) as E2.
  { unfold url. rewrite !sapp_assoc, <-sapp_assoc. rewrite <-(sdrop_app (protocol +:+ "://")).
    f_equal. by rewrite slen_app. }
  assert (sdrop (slen protocol + 3 + slen host) url = path) as E3.
  { unfold url. rewrite !sapp_assoc. rewrite <-(sdrop_app ((protocol +:+ "://") +:+ host)).
    f_equal. by rewrite !slen_app. }
  destruct path as [|y path];
    cbn [isempty app mbind option_bind m_caps lookup list_lookup default from_option id sdrop].
  - rewrite E2, Nat.sub_0_r, E1, Nat.add_sub'. by rewrite stake_app.
  - rewrite E2, E3, Nat.sub_0_r, E1, !Nat.add_sub'. rewrite stake_app. by rewrite stake_ge.
Qed.

Lemma jget_str_field input k s :
  jget input k = JStr s -> hasField input k = true /\ jat input k = Ret (JStr s).
Proof.
  intros E. assert (hasField input k = true) as Hf.
  { apply hasField_spec. destruct input as [| | | | | | |m]; try done. simpl in E.
    destruct (omap_get k m) as [v|] eqn:Ev; [|done]. simpl in E. subst v. by exists m, (JStr s). }
  split; [done|]. rewrite <-E. by apply hasField_jat.
Qed.

Lemma read_request_client protocol host input o :
  net.read_request protocol host input = Ret o ->
  hc_host (net.rq_client o) = protocol +:+ "://" +:+ host /\
  hc_system_ca (net.rq_client o) = bool_decide (protocol = "https").
Proof.
  unfold net.read_request. intros E.
  repeat (apply bind_ret in E as (? & _ & E)). by injection E as <-.
Qed.

Lemma call_of_path o path c : net.call_of o path = Some c -> call_path c = path.
Proof. unfold net.call_of. intros E. repeat case_decide; by simplify_eq/=. Qed.

Section requests.
Context `{HttpLib}.

Definition request_answer (res : http_error + HttpResponse) : json :=
  match res with
  | inl e => mk_obj [("error", net.error_payload e)]
  | inr r => mk_obj [("returnValue", net.response_value r); ("success", JBool true)]
  end.

Lemma request_eq url protocol host target o input w :
  jget input "url" = JStr url -> net.parse_url url = Some (protocol, host, target) ->
  net.read_request protocol host input = Ret o ->
  net.request input w =
  let '(res, y) := match net.call_of o target with
                   | Some c => http_send (net.rq_client o) c (w_sys w)
                   | None => (net.no_result, w_sys w)
                   end in
  (Ret (request_answer res), upd_sys (fun _ => y) w).
Proof.
  intros Hu Hp Ho. destruct (jget_str_field _ _ _ Hu) as [Hf Ha].
  unfold net.request, hasRequiredFields, field. cbn [forallb]. rewrite Hf, Ha. cbn [negb andb].
  rewrite (M_bind_Ret (lift _) _ w url w) by done. rewrite Hp, Ho.
  rewrite (M_bind_Ret (lift _) _ w o w) by done.
  destruct (net.call_of o target) as [c|].
  - unfold sys_call. destruct (http_send (net.rq_client o) c (w_sys w)) as [res y] eqn:E.
    rewrite (M_bind_Ret _ _ w res (upd_sys (fun _ => y) w)) by (by rewrite E). by destruct res.
  - rewrite (M_bind_Ret _ _ w net.no_result w) by done. by destruct w.
Qed.

Lemma request_malformed url input w :
  jget input "url" = JStr url -> net.parse_url url = None ->
  net.request input w = (Ret (mk_obj [("error", errors.makeMissingArgErrorPayload "url")]), w).
Proof.
  intros Hu Hp. destruct (jget_str_field _ _ _ Hu) as [Hf Ha].
  unfold net.request, hasRequiredFields, field. cbn [forallb]. rewrite Hf, Ha. cbn [negb andb].
  rewrite (M_bind_Ret (lift _) _ w url w) by done. by rewrite Hp.
Qed.
End requests.

(** A request goes to the host of its URL over the URL's protocol (with the
    system's certificates for https), and asks for the URL's path, the root when
    there is none; the one call that the method stands for is the only effect, its
    result is the answer, and a URL of another shape sends nothing. *)
Theorem request_sends `{HttpLib} (protocol host path : string) (input : json)
    (o : net.request_options) (w : World)
    (Hp : protocol = "http" \/ protocol = "https") (Hne : host <> "")
    (Hh : sforall host_char host = true) (Hpath : path_ok path)
    (Hu : jget input "url" = JStr (protocol +:+ "://" +:+ host +:+ path))
    (Ho : net.read_request protocol host input = Ret o) :
  let target := if isempty path then "/" else path in
  hc_host (net.rq_client o) = protocol +:+ "://" +:+ host /\
  hc_system_ca (net.rq_client o) = bool_decide (protocol = "https") /\
  (forall c, net.call_of o target = Some c -> call_path c = target) /\
  net.request input w =
    (let '(res, y) := match net.call_of o target with
                      | Some c => http_send (net.rq_client o) c (w_sys w)
                      | None => (net.no_result, w_sys w)
                      end in
     (Ret (request_answer res), upd_sys (fun _ => y) w)) /\
  (forall bad, net.parse_url bad = None ->
     net.request (JObj [("url", JStr bad)]) w =
     (Ret (mk_obj [("error", errors.makeMissingArgErrorPayload "url")]), w)).
Proof.
  intros target. destruct (read_request_client _ _ _ _ Ho). split_and!; [done..| | |].
  - apply call_of_path.
  - eapply request_eq; [exact Hu| |exact Ho]. by apply parse_url_parts.
  - intros bad Hb. by apply (request_malformed bad).
Qed.

Section requests_witness.
#[local] Existing Instance demo.
#[local] Instance requests_http : HttpLib := mem_http.

Definition demo_get : json :=
  JObj [("method", JStr "DELETE"); ("url", JStr "https://example.org:8443/v1/items?id=4")].

Lemma request_sends_witness :
  ms_calls (w_sys (snd (net.request demo_get demo_world))) = ["https://example.org:8443/v1/items?id=4"] /\
  net.request (JObj [("url", JStr "ftp://example.org/")]) demo_world =
  (Ret (mk_obj [("error", errors.makeMissingArgErrorPayload "url")]), demo_world).
Proof.
  destruct (net.read_request "https" "example.org:8443" demo_get) as [o| | | |] eqn:Eo; try discriminate.
  destruct (request_sends "https" "example.org:8443" "/v1/items?id=4" demo_get o demo_world)
    as (_ & _ & _ & E & Hbad); [by right|done|by vm_compute| |done|exact Eo|].
  - right. by exists "v1/items?id=4".
  - split; [|apply Hbad; by vm_compute]. vm_compute in Eo. injection Eo as <-. rewrite E. by vm_compute.
Defined.
End requests_witness.

(** ** The clipboard *)

(** the fields of a specification are unsigned 64-bit integers *)
Definition spec_ok (s : ImageSpec) : Prop :=
  Forall (fun z => 0 <= z < 2 ^ 64)%Z
    [im_width s; im_height s; bits_per_pixel s; bytes_per_row s; red_mask s; green_mask s;
     blue_mask s; alpha_mask s; red_shift s; green_shift s; blue_shift s; alpha_shift s].

Definition image_json (s : ImageSpec) (bytes : string) : json :=
  mk_obj (clipboard.spec_fields s ++ [("data", JStr (base64.to_base64 bytes))]).

Lemma image_json_fields s bytes : missingRequiredField (image_json s bytes) clipboard.image_keys = None.
Proof. reflexivity. Qed.

Lemma read_spec_json s bytes : spec_ok s -> clipboard.read_spec (image_json s bytes) = Ret s.
Proof.
  unfold spec_ok. rewrite !Forall_cons. intros Hs. destruct_and!.
  assert (forall k z, jat (image_json s bytes) k = Ret (of_uint z) -> (0 <= z < 2 ^ 64)%Z ->
            jat (image_json s bytes) k ≫= get_ulong = Ret z) as Hget.
  { intros k z -> Hz. cbn [mbind outcome_bind of_uint get_ulong get_arith]. by rewrite wrapU_small. }
  unfold clipboard.read_spec.
  do 12 (erewrite Hget; [|reflexivity|done]; cbn [mbind outcome_bind]). by destruct s.
Qed.

Lemma read_memory_Ret data n :
  (n <= Z.of_nat (slen data))%Z -> clipboard.read_memory data n = Ret (stake (Z.to_nat n) data).
Proof. intros Hn. unfold clipboard.read_memory. by rewrite (proj2 (Z.leb_le _ _)). Qed.

Section clipboard.
Context `{ClipLib}.

Lemma readImage_eq image s w input :
  clip_has clip_image (w_sys w) = true -> clip_get_image (w_sys w) = Some image ->
  clip_get_image_spec (w_sys w) = Some s ->
  (required_data_size s <= Z.of_nat (slen image))%Z -> (required_data_size s < 2 ^ 63)%Z ->
  clipboard.readImage input w =
  (Ret (mk_obj [("returnValue", image_json s (stake (Z.to_nat (required_data_size s)) image));
                ("success", JBool true)]), w).
Proof.
  intros Hh Hi Hs Hlen Hmax. unfold clipboard.readImage.
  rewrite (M_bind_Ret _ _ w true w) by (munfold; by rewrite Hh). cbn beta iota delta [negb].
  rewrite (M_bind_Ret _ _ w (Some image) w) by (munfold; by rewrite Hi).
  rewrite (M_bind_Ret _ _ w (Some s) w) by (munfold; by rewrite Hs). cbn [default from_option id].
  cbv zeta. destruct (Z.ltb_spec (2 ^ 63 - 1) (required_data_size s)); [lia|].
  rewrite (M_bind_Ret _ _ w (stake (Z.to_nat (required_data_size s)) image) w); [done|].
  unfold lift. by rewrite read_memory_Ret.
Qed.

Lemma writeImage_eq s bytes w :
  spec_ok s -> (required_data_size s <= Z.of_nat (slen bytes))%Z ->
  clipboard.writeImage (image_json s bytes) w =
  (Ret (mk_obj [("success", JBool true); ("message", JStr "Image wrote to the system clipboard")]),
   upd_sys (fun _ => clip_set_image (stake (Z.to_nat (required_data_size s)) bytes) s (w_sys w)) w).
Proof.
  intros Hs Hlen. unfold clipboard.writeImage. rewrite image_json_fields.
  rewrite (M_bind_Ret _ _ w s w) by (unfold lift; by rewrite read_spec_json).
  rewrite (M_bind_Ret _ _ w (base64.to_base64 bytes) w) by done. cbv zeta.
  rewrite base64.decode_encode.
  rewrite (M_bind_Ret _ _ w (stake (Z.to_nat (required_data_size s)) bytes) w); [done|].
  unfold lift. by rewrite read_memory_Ret.
Qed.

(** what the library's image does not cover is not defined *)
Lemma writeImage_short s bytes w :
  spec_ok s -> (Z.of_nat (slen bytes) < required_data_size s)%Z ->
  clipboard.writeImage (image_json s bytes) w = (Undef, w).
Proof.
  intros Hs Hlen. unfold clipboard.writeImage. rewrite image_json_fields.
  rewrite (M_bind_Ret _ _ w s w) by (unfold lift; by rewrite read_spec_json).
  rewrite (M_bind_Ret _ _ w (base64.to_base64 bytes) w) by done. cbv zeta.
  rewrite base64.decode_encode. unfold clipboard.read_memory.
  by rewrite (proj2 (Z.leb_gt _ _)).
Qed.
End clipboard.

(** An image that was read can be written back: clipboard.writeImage gives the
    library the specification and the bytes that clipboard.readImage got from it;
    an image with fewer bytes than its specification asks for is read out of bounds. *)
Theorem image_roundtrip `{ClipLib} (image : string) (s : ImageSpec) (w w' : World)
    (Hs : spec_ok s) (Hh : clip_has clip_image (w_sys w) = true)
    (Hi : clip_get_image (w_sys w) = Some image) (Hg : clip_get_image_spec (w_sys w) = Some s)
    (Hlen : (required_data_size s <= Z.of_nat (slen image))%Z) (Hmax : (required_data_size s < 2 ^ 63)%Z) :
  let bytes := stake (Z.to_nat (required_data_size s)) image in
  (exists v, clipboard.readImage JNull w
             = (Ret (mk_obj [("returnValue", v); ("success", JBool true)]), w) /\
     clipboard.writeImage v w' =
     (Ret (mk_obj [("success", JBool true); ("message", JStr "Image wrote to the system clipboard")]),
      upd_sys (fun _ => clip_set_image bytes s (w_sys w')) w')) /\
  (forall short, (Z.of_nat (slen short) < required_data_size s)%Z ->
     clipboard.writeImage (image_json s short) w' = (Undef, w')).
Proof.
  intros bytes. split; [|intros short; by apply writeImage_short].
  exists (image_json s bytes). split; [by apply readImage_eq|].
  assert (0 <= required_data_size s)%Z as Hpos.
  { unfold required_data_size. destruct (_ =? _)%Z; apply wrapU_range; lia. }
  assert (slen bytes = Z.to_nat (required_data_size s)) as El by (unfold bytes; rewrite slen_stake; lia).
  rewrite writeImage_eq by (done || lia). by rewrite (stake_ge _ bytes) by lia.
Qed.

Section clipboard_witness.
#[local] Existing Instance demo.
#[local] Instance clipboard_lib : ClipLib := mem_clip.

Definition demo_clip : World := upd_sys (set_clip_file "clip:image" "pixels") demo_world.

Lemma image_roundtrip_witness :
  (exists v, clipboard.readImage JNull demo_clip
             = (Ret (mk_obj [("returnValue", v); ("success", JBool true)]), demo_clip) /\
     w_sys (snd (clipboard.writeImage v demo_world)) = set_clip_file "clip:image" "pixels" (w_sys demo_world)) /\
  clipboard.writeImage (image_json (row_spec 6) "pix") demo_world = (Undef, demo_world).
Proof.
  assert (spec_ok (row_spec 6)) as Hs by (apply (bool_decide_unpack _); by vm_compute).
  destruct (image_roundtrip "pixels" (row_spec 6) demo_clip demo_world Hs)
    as [(v & Hr & Hw) Hshort]; [by vm_compute..|].
  split; [|by apply Hshort]. exists v. split; [exact Hr|]. rewrite Hw. by vm_compute.
Defined.
End clipboard_witness.

(** ** Network interfaces *)

(** the addresses of an interface, in the order of the list *)
Definition address_of (name : string) (i : ifaddr) : option json :=
  if decide (ifa_name i = name) then
    match ifa_addr i with
    | Some (AF_INET text) => Some (computer.interface_info (ifa_flags i) text "ipv4")
    | Some (AF_INET6 text) => Some (computer.interface_info (ifa_flags i) text "ipv6")
    | _ => None
    end
  else None.
Definition addresses (name : string) (l : list ifaddr) : list json := omap (address_of name) l.

(** the last hardware address of six bytes, of whatever interface *)
Definition mac_of (i : ifaddr) : option string :=
  match ifa_addr i with
  | Some (AF_PACKET halen bytes) =>
      if (halen =? 6)%Z then Some (computer.__formatMac (take 6 bytes)) else None
  | _ => None
  end.
Definition last_mac (l : list ifaddr) : option string := last (omap mac_of l).

Definition with_mac (mac : option string) (j : json) : json :=
  match mac, j with Some mac, JObj m => JObj (omap_set "mac" (JStr mac) m) | _, j => j end.

Definition is_obj (j : json) : Prop := match j with JObj _ => True | _ => False end.

(** the object has an array for every name with addresses, and no other member *)
Record lists_interfaces (m : list (string * json)) (f : string -> list json) : Prop := {
  li_wf : omap_wf m;
  li_get name : omap_get name m = match f name with [] => None | l => Some (JArr l) end
}.

Lemma lists_ext m f g : lists_interfaces m f -> (forall name, f name = g name) -> lists_interfaces m g.
Proof. intros [Hw Hg] E. split; [done|]. intros name. by rewrite <-E. Qed.

Lemma add_interface_eq m f i :
  lists_interfaces m f ->
  exists m', computer.add_interface (JObj m) i = Ret (JObj m') /\
             lists_interfaces m' (fun name => f name ++ omap (address_of name) [i]).
Proof.
  intros [Hw Hm]. assert (forall info : json, (forall name, omap (address_of name) [i] =
      if decide (ifa_name i = name) then [info] else []) ->
    exists m', jref (JObj m) (ifa_name i) (fun l => jpush_back l info) = Ret (JObj m') /\
      lists_interfaces m' (fun name => f name ++ omap (address_of name) [i])) as Hpush.
  { intros info Hi. cbn [jref]. rewrite (Hm (ifa_name i)).
    exists (omap_set (ifa_name i) (JArr (f (ifa_name i) ++ [info])) m).
    split; [by destruct (f (ifa_name i))|]. split; [by apply omap_set_wf|].
    intros name. cbv beta. rewrite Hi. destruct (decide (ifa_name i = name)) as [<-|Hne].
    - rewrite omap_get_set_eq. by destruct (f (ifa_name i)).
    - rewrite omap_get_set_ne, app_nil_r by congruence. apply Hm. }
  assert ((forall name, omap (address_of name) [i] = []) ->
    lists_interfaces m (fun name => f name ++ omap (address_of name) [i])) as Hskip.
  { intros Hi. apply (lists_ext m f); [by split|]. intros name. cbv beta. by rewrite Hi, app_nil_r. }
  unfold computer.add_interface. destruct (ifa_addr i) as [[text|text|halen bytes|]|] eqn:Ea.
  - apply Hpush. intros name. simpl. unfold address_of. rewrite Ea. by destruct (decide _).
  - apply Hpush. intros name. simpl. unfold address_of. rewrite Ea. by destruct (decide _).
  - exists m. split; [done|]. apply Hskip. intros name. simpl. unfold address_of. rewrite Ea. by destruct (decide _).
  - exists m. split; [done|]. apply Hskip. intros name. simpl. unfold address_of. rewrite Ea. by destruct (decide _).
  - exists m. split; [done|]. apply Hskip. intros name. simpl. unfold address_of. rewrite Ea. by destruct (decide _).
Qed.

Lemma add_interfaces_eq l m f :
  lists_interfaces m f ->
  exists m', computer.add_interfaces (JObj m) l = Ret (JObj m') /\
             lists_interfaces m' (fun name => f name ++ addresses name l).
Proof.
  revert m f; induction l as [|i l IH]; intros m f Hm; cbn [computer.add_interfaces].
  - exists m. split; [done|]. apply (lists_ext _ _ _ Hm). intros name. by rewrite app_nil_r.
  - destruct (add_interface_eq m f i Hm) as (m1 & E1 & Hm1). rewrite E1. cbn [mbind outcome_bind].
    destruct (IH m1 _ Hm1) as (m2 & E2 & Hm2). exists m2. split; [done|].
    apply (lists_ext _ _ _ Hm2). intros name. rewrite <-app_assoc. unfold addresses. cbn.
    by destruct (address_of name i).
Qed.

Lemma with_mac_is_obj mac j : is_obj j -> is_obj (with_mac mac j).
Proof. by destruct mac, j. Qed.

Lemma with_mac_last mac mac' j : with_mac (Some mac) (with_mac mac' j) = with_mac (Some mac) j.
Proof. destruct mac' as [mac'|]; [|done]. destruct j; try done. cbn. by rewrite omap_set_set. Qed.

Lemma updateMac_eq name mac m f :
  lists_interfaces m f -> (forall n, Forall is_obj (f n)) ->
  exists m', computer.__updateMac name mac (JObj m) = Ret (JObj m') /\
             lists_interfaces m' (fun n => with_mac (Some mac) <$> f n).
Proof.
  intros [Hw Hm] Ho. unfold computer.__updateMac.
  set (g := fun j => match j with JArr l => JArr (with_mac (Some mac) <$> l) | j => j end).
  exists ((fun kv => (kv.1, g kv.2)) <$> m). split.
  - rewrite (omapM_Ret _ (fun kv => (kv.1, g kv.2))); [done|].
    intros [k v] Hk. cbn [fst snd]. assert (computer.set_macs mac v = Ret (g v)) as ->; [|done].
    destruct v as [| | | | | |l|]; try done. cbn.
    rewrite (omapM_Ret _ (with_mac (Some mac))); [done|].
    intros x Hx. apply (omap_elem_get _ _ _ Hw) in Hk. rewrite (Hm k) in Hk.
    specialize (Ho k). destruct (f k) as [|y ys]; [done|]. injection Hk as <-.
    rewrite Forall_forall in Ho. specialize (Ho x Hx). by destruct x.
  - split; [by apply omap_wf_fmap|]. intros n. rewrite omap_get_fmap_snd, (Hm n). by destruct (f n).
Qed.

Definition later_mac (mac : option string) (l : list ifaddr) : option string :=
  match last_mac l with Some mac => Some mac | None => mac end.

Lemma later_mac_cons mac i l :
  later_mac mac (i :: l) = later_mac (match mac_of i with Some m => Some m | None => mac end) l.
Proof.
  unfold later_mac, last_mac. cbn. destruct (mac_of i) as [m|]; [|done].
  rewrite last_cons. by destruct (last _).
Qed.

Definition no_null (l : list ifaddr) : Prop := Forall (fun i => ifa_addr i <> None) l.
#[export] Instance no_null_dec l : Decision (no_null l).
Proof. apply Forall_dec. intros i. destruct (ifa_addr i); [left|right]; naive_solver. Defined.

Lemma add_macs_eq l m base mac :
  lists_interfaces m (fun n => with_mac mac <$> base n) -> (forall n, Forall is_obj (base n)) ->
  if decide (no_null l) then
    exists m', computer.add_macs (JObj m) l = Ret (JObj m') /\
               lists_interfaces m' (fun n => with_mac (later_mac mac l) <$> base n)
  else computer.add_macs (JObj m) l = Undef.
Proof.
  revert m mac; induction l as [|i l IH]; intros m mac Hm Ho; cbn [computer.add_macs].
  - rewrite decide_True by constructor. by exists m.
  - rewrite later_mac_cons. destruct (ifa_addr i) as [a|] eqn:Ea.
    2:{ rewrite decide_False; [done|]. intros Hn. by inversion Hn. }
    rewrite (decide_ext _ (no_null l)) by (unfold no_null; rewrite Forall_cons, Ea; naive_solver).
    destruct a as [t|t|halen bytes|]; cbn [mac_of]; unfold mac_of; rewrite Ea; try by apply IH.
    destruct (halen =? 6)%Z; [|by apply IH].
    destruct (updateMac_eq (ifa_name i) (computer.__formatMac (take 6 bytes)) m _ Hm) as (m1 & E1 & Hm1).
    { intros n. apply Forall_fmap. eapply Forall_impl; [apply Ho|]. intros x. apply with_mac_is_obj. }
    rewrite E1. cbn [mbind outcome_bind]. apply IH; [|done].
    apply (lists_ext _ _ _ Hm1). intros n. rewrite <-list_fmap_compose.
    apply list_fmap_ext. intros ? x _. apply with_mac_last.
Qed.

Lemma addresses_obj name l : Forall is_obj (addresses name l).
Proof.
  apply Forall_forall. intros x Hx. apply list_elem_of_omap in Hx as (i & _ & Hi).
  unfold address_of in Hi. destruct (decide _); [|done].
  by destruct (ifa_addr i) as [[]|]; simplify_eq/=.
Qed.

(** Computer.getNetworkInterfaces lists, for every interface name, its IPv4 and
    IPv6 addresses in the order of the system, and nothing else; every entry of
    every interface carries the same hardware address, that of the last one in the
    list, and an interface without an address (which getifaddrs may report) makes
    the call dereference a null pointer. *)
Theorem network_interfaces `{ComputerLib} (l : list ifaddr) (input : json) (w : World)
    (Hl : c_getifaddrs (w_sys w) = Some l) :
  (no_null l ->
   exists m, computer_controllers.getNetworkInterfaces input w
             = (Ret (mk_obj [("returnValue", JObj m); ("success", JBool true)]), w) /\
     omap_wf m /\
     forall name, omap_get name m = match addresses name l with
                                    | [] => None
                                    | es => Some (JArr (with_mac (last_mac l) <$> es))
                                    end) /\
  (~ no_null l -> computer_controllers.getNetworkInterfaces input w = (Undef, w)).
Proof.
  destruct (add_interfaces_eq l [] (fun _ => [])) as (m1 & E1 & Hm1); [by split|].
  assert (lists_interfaces m1 (fun n => with_mac None <$> addresses n l)) as Hm1'.
  { apply (lists_ext _ _ _ Hm1). intros n. cbn [app]. symmetry. by apply list_fmap_id. }
  pose proof (add_macs_eq l m1 (fun n => addresses n l) None Hm1' (fun n => addresses_obj n l)) as Hmac.
  unfold computer_controllers.getNetworkInterfaces.
  rewrite (M_bind_Ret _ _ w (Some l) w) by (munfold; by rewrite Hl). cbn beta iota.
  rewrite (M_bind_Ret _ _ w (JObj m1) w) by (unfold lift; by rewrite E1).
  split; intros Hn; [rewrite decide_True in Hmac by done|rewrite decide_False in Hmac by done].
  - destruct Hmac as (m2 & E2 & [Hw2 Hg2]). exists m2.
    rewrite (M_bind_Ret _ _ w (JObj m2) w) by (unfold lift; by rewrite E2).
    split_and!; [done..|]. intros name. rewrite Hg2. unfold later_mac.
    destruct (addresses name l); [done|]. cbn. by destruct (last_mac l).
  - unfold mbind, M_bind, lift. by rewrite Hmac.
Qed.

Section interfaces_witness.
#[local] Existing Instance demo.
#[local] Instance interfaces_lib : ComputerLib := mem_computer.

Lemma network_interfaces_witness :
  addresses "lo" mem_interfaces = [computer.interface_info 73 "127.0.0.1" "ipv4"] /\
  last_mac mem_interfaces = Some "02:42:ac:11:00:02" /\
  exists m, computer_controllers.getNetworkInterfaces JNull demo_world
            = (Ret (mk_obj [("returnValue", JObj m); ("success", JBool true)]), demo_world) /\
    omap_get "lo" m = Some (JArr [with_mac (Some "02:42:ac:11:00:02")
                                   (computer.interface_info 73 "127.0.0.1" "ipv4")]).
Proof.
  destruct (network_interfaces mem_interfaces JNull demo_world) as [Hi _]; [by vm_compute|].
  split; [reflexivity|]. split; [reflexivity|].
  destruct Hi as (m & E & _ & Hg); [by repeat constructor|]. exists m. split; [exact E|].
  rewrite Hg. reflexivity.
Defined.
End interfaces_witness.
