(* ===== verification/ServerFacts.v ===== *)
(** * Facts about server/neuserver.cpp: the message handler *)

From S2P Require Import Prelude Strings Regex OMap Outcome Json Errors State MemPlatform Helpers.
From S2P Require Import Options Paths Permission Auth Connections Base64 Fs FsControllers.
From S2P Require Import Resources Settings Storage Os OsControllers Methods Window App.
From S2P Require Import ApiControllers Router MemLibs HelpersFacts OptionsFacts ConnectionsFacts.
From S2P Require Import JsonTextFacts JsonReadFacts JsonStringFacts FrameFacts.
From Stdlib Require Import Ascii.
Import helpers settings neuserver handlers router.

(** ** Messages *)

Section messages.
Context `{NativeApi}.

(** the frame type of an extension is that of its first message *)
Definition note_mode (con : connection) (op : opcode) (w : World) : World :=
  if __isExtensionEndpoint (con_resource con) && negb (omap_has (con_hdl con) (wsMode (w_server w)))
  then upd_server (set_wsMode (omap_set (con_hdl con) op)) w else w.

Lemma jread_get j k : obj_or_null j -> exists j', jread j k = Ret (j', jget j k) /\
  obj_or_null j' /\ forall k', jget j' k' = jget j k'.
Proof.
  intros Hj. destruct (jref_read j k Hj) as (j' & E & Hj' & Hk).
  exists j'. split_and!; [|done|done]. unfold jread. rewrite E. simpl. by rewrite Hk.
Qed.

Lemma read_message_eq payload j id method token w :
  json_parse payload = Ret j -> obj_or_null j ->
  jget j "id" = JStr id -> jget j "method" = JStr method -> jget j "accessToken" = JStr token ->
  read_message payload w =
  (Ret {| nm_id := id; nm_method := method; nm_accessToken := token; nm_data := jget j "data" |}, w).
Proof.
  intros Hp Hj Hi Hm Ht. unfold read_message. rewrite Hp. rewrite (M_bind_Ret _ _ w j w) by done.
  destruct (jread_get j "id" Hj) as (j1 & E1 & Hj1 & H1). rewrite E1, Hi.
  rewrite (M_bind_Ret _ _ w (j1, JStr id) w) by done. cbn beta iota.
  rewrite (M_bind_Ret _ _ w id w) by done.
  destruct (jread_get j1 "method" Hj1) as (j2 & E2 & Hj2 & H2). rewrite E2, H1, Hm.
  rewrite (M_bind_Ret _ _ w (j2, JStr method) w) by done. cbn beta iota.
  rewrite (M_bind_Ret _ _ w method w) by done.
  destruct (jread_get j2 "accessToken" Hj2) as (j3 & E3 & Hj3 & H3). rewrite E3, H2, H1, Ht.
  rewrite (M_bind_Ret _ _ w (j3, JStr token) w) by done. cbn beta iota.
  rewrite (M_bind_Ret _ _ w token w) by done.
  destruct (jread_get j3 "data" Hj3) as (j4 & E4 & _ & _). rewrite E4, H3, H2, H1.
  rewrite (M_bind_Ret _ _ w (j4, jget j "data") w) by done. done.
Qed.

Lemma handleMessage_unfold con op payload w :
  handleMessage con op payload w =
  try_catch
    (request ← read_message payload;
     response ← executeNativeMethod request;
     try_catch
       (op ← (if __isExtensionEndpoint (con_resource con) then op_of (con_hdl con) else mret OpText);
        send (con_hdl con) (json_dump (response_json response)) op)
       (fun _ => log_error errors.NE_SR_UNBSEND ""))
    (fun _ => log_error errors.NE_SR_UNBPARS "") (note_mode con op w).
Proof.
  unfold handleMessage, get_server. rewrite (M_bind_Ret _ _ w (w_server w) w) by done.
  unfold note_mode. destruct (_ && _).
  - by rewrite (M_bind_Ret _ _ w tt (upd_server (set_wsMode (omap_set (con_hdl con) op)) w)) by done.
  - by rewrite (M_bind_Ret _ _ w tt w) by done.
Qed.
End messages.

(** No exception leaves the message handler: a message that is not JSON or
    lacks a member, and a call that throws, end in a log entry. *)
Theorem handleMessage_catches `{NativeApi} (con : connection) (op : opcode) (payload : string) (w : World) :
  (forall e, fst (handleMessage con op payload w) <> Throw e) /\
  (forall e, json_parse payload = Throw e ->
     handleMessage con op payload w = log_error errors.NE_SR_UNBPARS "" (note_mode con op w)).
Proof.
  split.
  - intros e. rewrite handleMessage_unfold. unfold try_catch at 1. by repeat case_match.
  - intros e E. rewrite handleMessage_unfold. unfold try_catch at 1, read_message. rewrite E. done.
Qed.

(** what a client reads in the text of a response *)
Lemma response_read `{NativeApi} (r : NativeMessage) : fits (nm_data r) = true ->
  exists answer, json_parse (json_dump (response_json r)) = Ret answer /\
    jget answer "id" = JStr (repaired (nm_id r)) /\ jget answer "method" = JStr (repaired (nm_method r)) /\
    jget answer "data" = read_back (nm_data r).
Proof.
  intros Hf. exists (read_back (response_json r)). split; [|done]. apply parse_dump.
  change (forallb fits [nm_data r; JStr (nm_id r); JStr (nm_method r)] = true). simpl. by rewrite Hf.
Qed.


Section replies_witness.

Definition call_json : json :=
  JObj [("accessToken", JStr "guess"); ("data", JNull); ("id", JStr "7"); ("method", JStr "os.getEnvs")].
#[local] Existing Instance demo.
#[local] Instance call_api : NativeApi := mem_api.
Definition call_text : string :=
  "{" +:+ quoted "id" +:+ ":" +:+ quoted "7" +:+ ", " +:+ quoted "method" +:+ ":" +:+ quoted "os.getEnvs" +:+
  ", " +:+ quoted "accessToken" +:+ ":" +:+ quoted "guess" +:+ ", " +:+ quoted "data" +:+ ":null}".
Definition call_world : World := upd_auth (authbasic.set_tokens "T" "C") (world0 mem0).
Definition call_con : connection := Connection 3 "/" "127.0.0.1".
Definition call_request : NativeMessage :=
  {| nm_id := "7"; nm_method := "os.getEnvs"; nm_accessToken := "guess"; nm_data := JNull |}.

End replies_witness.
