(* ===== verification/SessionFacts.v ===== *)
(** * The server as a state machine: connections, messages, pages and events

    After the start, the program runs one handler at a time: connections are
    validated, opened, closed, they send messages, pages are requested, and child
    processes, watchers and the window report events.  [session_step] has one rule
    for each; the invariants hold in every reachable state, whatever the order. *)

From S2P Require Import Prelude Strings Regex OMap Outcome Json Errors State Triple MemPlatform.
From S2P Require Import Helpers Options Paths Permission Auth Connections Base64 Fs FsControllers.
From S2P Require Import Resources Settings Storage Os OsControllers Methods Window App.
From S2P Require Import ApiControllers Router MemLibs OptionsFacts FrameFacts ConnectionsFacts ServerFacts.
From Stdlib Require Import Ascii Relations.
Import helpers settings neuserver handlers router.

(** ** The handlers of connections *)

Section registry.
Context `{Platform}.

Lemma modify_then {A B} (f : World -> World) (k : unit -> M A) (r : A -> M B) w :
  ((modify f ≫= k) ≫= r) w = (k tt ≫= r) (f w).
Proof. done. Qed.

Definition is_ext (con : connection) : bool := __isExtensionEndpoint (con_resource con).
Definition ext_id (con : connection) : string := __getExtensionIdFromUrl (con_resource con).

Definition register (con : connection) (s : ServerState) : ServerState :=
  if is_ext con then set_exts (omap_set (ext_id con) (con_hdl con)) s
  else set_apps (omap_set (con_hdl con) tt) s.
Definition unregister (con : connection) (s : ServerState) : ServerState :=
  let s := set_wsMode (omap_del (con_hdl con)) s in
  if is_ext con then set_exts (omap_del (ext_id con)) s else set_apps (omap_del (con_hdl con)) s.

Lemma confined_then {A B} (m : M A) (f : A -> M B) w :
  frames confined m -> (forall a, frames confined (f a)) -> confined w (snd ((m ≫= f) w)).
Proof.
  intros Hm Hf. apply (triple_snd _ _ (fun _ => True)).
  eapply triple_bind; [apply _|exact Hm|by intros a _].
Qed.

Lemma handleConnect_registry con w :
  confined (upd_server (register con) w) (snd (handleConnect con w)).
Proof.
  unfold handleConnect, register, is_ext, ext_id.
  destruct (__isExtensionEndpoint (con_resource con)); rewrite modify_then;
    apply confined_then; intros; frame_go.
Qed.

Lemma handleDisconnect_registry con w :
  opts_ok (opts w) -> confined (upd_server (unregister con) w) (snd (handleDisconnect con w)).
Proof.
  intros Hok. unfold handleDisconnect, unregister, is_ext, ext_id.
  set (w0 := upd_server (set_wsMode (omap_del (con_hdl con))) w).
  rewrite (M_bind_Ret _ _ w tt w0) by done.
  destruct (__isExtensionEndpoint (con_resource con)).
  - rewrite modify_then. apply confined_then; intros; frame_go.
  - destruct (getMode_reads w0 Hok) as (w1 & E1 & Hw1).
    trans (upd_server (set_apps (omap_del (con_hdl con))) w1).
    { apply confined_weq. destruct Hw1 as [He Hw1]. split; [exact He|]. rewrite Hw1. reflexivity. }
    match goal with |- context[((getMode ≫= ?f) ≫= ?g) w0] =>
      assert (((getMode ≫= f) ≫= g) w0 = (f (pure_mode (opts w0)) ≫= g) w1) as -> end.
    { unfold mbind at 1, M_bind at 1. rewrite (M_bind_Ret _ _ _ _ _ E1). done. }
    rewrite modify_then. apply confined_then; intros; frame_go.
Qed.

Record registry_ok (st : list connection * World) : Prop := {
  reg_opts : opts_ok (opts st.2);
  reg_NoDup : NoDup (con_hdl <$> st.1);
  reg_apps h : is_Some (omap_get h (appConnections (w_server st.2))) <->
               exists con, con ∈ st.1 /\ con_hdl con = h /\ is_ext con = false;
  reg_exts id h : omap_get id (extConnections (w_server st.2)) = Some h ->
               exists con, con ∈ st.1 /\ con_hdl con = h /\ is_ext con = true /\ ext_id con = id;
  reg_modes h : is_Some (omap_get h (wsMode (w_server st.2))) ->
               exists con, con ∈ st.1 /\ con_hdl con = h /\ is_ext con = true
}.

Lemma same_hdl (cs : list connection) c c' :
  NoDup (con_hdl <$> cs) -> c ∈ cs -> c' ∈ cs -> con_hdl c = con_hdl c' -> c = c'.
Proof.
  induction cs as [|x cs IH]; [by rewrite elem_of_nil|]. cbn. rewrite NoDup_cons, !elem_of_cons.
  intros [Hx Hnd] Hc Hc' E.
  assert (forall y, y ∈ cs -> con_hdl y <> con_hdl x) as Hn.
  { intros y Hy Ey. apply Hx. rewrite <-Ey. by apply list_elem_of_fmap_2. }
  destruct Hc as [->|Hc], Hc' as [->|Hc']; [done| | |by apply IH].
  - by destruct (Hn c').
  - by destruct (Hn c).
Qed.

Lemma registry_confined cs w w' : registry_ok (cs, w) -> confined w w' -> registry_ok (cs, w').
Proof.
  intros [H1 H2 H3 H4 H5] [Hr A1 A2 A3]. simpl in *.
  split; simpl; rewrite ?A1, ?A2, ?A3; try done. by rewrite <-(rk_opts _ _ Hr).
Qed.

Lemma registry_open con cs w :
  con_hdl con ∉ con_hdl <$> cs -> registry_ok (cs, w) ->
  registry_ok (con :: cs, upd_server (register con) w).
Proof.
  intros Hf [H1 H2 H3 H4 H5]. simpl in *.
  assert (forall (P : connection -> Prop), (exists c, c ∈ cs /\ P c) -> exists c, c ∈ con :: cs /\ P c) as Hin.
  { intros P (c & Hc & HP). exists c. split; [by right|done]. }
  unfold register. destruct (is_ext con) eqn:Ec; split; simpl; try done; try by apply NoDup_cons.
  - intros h. rewrite H3. split; [apply Hin|].
    intros (c & Hc & Hh & He). exists c. apply elem_of_cons in Hc as [->|Hc]; [congruence|done].
  - intros id h. destruct (decide (id = ext_id con)) as [->|Hne].
    + rewrite omap_get_set_eq. intros [= <-]. exists con. split_and!; [by left|done..].
    + rewrite omap_get_set_ne by done. intros Hg. apply Hin, H4, Hg.
  - intros h Hh. by apply Hin, H5.
  - intros h. destruct (decide (h = con_hdl con)) as [->|Hne].
    + rewrite omap_get_set_eq. split; [|by eexists]. intros _. exists con. split_and!; [by left|done..].
    + rewrite omap_get_set_ne, H3 by done. split; [apply Hin|].
      intros (c & Hc & Hh & He). exists c. apply elem_of_cons in Hc as [->|Hc]; [congruence|done].
  - intros id h Hg. by apply Hin, H4.
  - intros h Hh. by apply Hin, H5.
Qed.

Lemma registry_close con cs w :
  con ∈ cs -> registry_ok (cs, w) ->
  registry_ok (filter (fun c => con_hdl c <> con_hdl con) cs, upd_server (unregister con) w).
Proof.
  intros Hc [H1 H2 H3 H4 H5]. simpl in *.
  assert (forall (P : connection -> Prop), (exists c, c ∈ cs /\ con_hdl c <> con_hdl con /\ P c) ->
            exists c, c ∈ filter (fun c => con_hdl c <> con_hdl con) cs /\ P c) as Hin.
  { intros P (c & Hcs & Hne & HP). exists c. by rewrite list_elem_of_filter. }
  assert (forall c, c ∈ filter (fun c => con_hdl c <> con_hdl con) cs -> c ∈ cs /\ con_hdl c <> con_hdl con) as Hout.
  { intros c. rewrite list_elem_of_filter. tauto. }
  assert (NoDup (con_hdl <$> filter (fun c => con_hdl c <> con_hdl con) cs)) as Hnd.
  { eapply sublist_NoDup; [exact H2|]. apply fmap_sublist, sublist_filter. }
  assert (forall h, is_Some (omap_get h (omap_del (con_hdl con) (wsMode (w_server w)))) ->
            exists c, c ∈ filter (fun c => con_hdl c <> con_hdl con) cs /\ con_hdl c = h /\ is_ext c = true) as Hws.
  { intros h. destruct (decide (h = con_hdl con)) as [->|Hne]; [rewrite omap_get_del_eq; by intros []|].
    rewrite omap_get_del_ne by done. intros (c & Hcs & <- & He)%H5. apply Hin. eauto. }
  unfold unregister. destruct (is_ext con) eqn:Ec; split; simpl; try done.
  - intros h. rewrite H3. split.
    + intros (c & Hcs & <- & He). apply Hin. exists c. split_and!; [done| |done|done].
      intros E. rewrite (same_hdl _ _ _ H2 Hcs Hc E) in He. congruence.
    + intros (c & (Hcs & _)%Hout & Hh & He). eauto.
  - intros id h. destruct (decide (id = ext_id con)) as [->|Hne]; [by rewrite omap_get_del_eq|].
    rewrite omap_get_del_ne by done. intros (c & Hcs & <- & He & Hid)%H4. apply Hin. exists c.
    split_and!; try done. intros E. by rewrite (same_hdl _ _ _ H2 Hcs Hc E) in Hid.
  - intros h. destruct (decide (h = con_hdl con)) as [->|Hne].
    + rewrite omap_get_del_eq. split; [by intros []|].
      intros (c & (_ & Hne)%Hout & Hh & _). done.
    + rewrite omap_get_del_ne, H3 by done. split.
      * intros (c & Hcs & <- & He). apply Hin. eauto.
      * intros (c & (Hcs & _)%Hout & Hh & He). eauto.
  - intros id h (c & Hcs & <- & He & Hid)%H4. apply Hin. exists c. split_and!; try done.
    intros E. rewrite (same_hdl _ _ _ H2 Hcs Hc E) in He. congruence.
Qed.

Lemma registry_note con op cs w :
  con ∈ cs -> registry_ok (cs, w) -> registry_ok (cs, note_mode con op w).
Proof.
  intros Hc [H1 H2 H3 H4 H5]. unfold note_mode.
  destruct (__isExtensionEndpoint (con_resource con)) eqn:Ec; [|by split].
  destruct (negb _); [|by split]. split; simpl in *; try done.
  intros h. destruct (decide (h = con_hdl con)) as [->|Hne]; [intros _; by exists con|].
  rewrite omap_get_set_ne by done. apply H5.
Qed.

End registry.

(** ** The steps *)

Section session.
Context `{NativeApi}.

(** The open connections and the state.  A connection that is accepted gets a
    fresh handle; a refused handshake, a page, a message and an event leave the
    set of open connections alone. *)
Inductive session_step : list connection * World -> list connection * World -> Prop :=
| step_open con cs w w' :
    con_hdl con ∉ con_hdl <$> cs -> handleValidate con w = (Ret true, w') ->
    session_step (cs, w) (con :: cs, snd (handleConnect con w'))
| step_refuse con cs w w' :
    handleValidate con w = (Ret false, w') -> session_step (cs, w) (cs, w')
| step_close con cs w :
    con ∈ cs ->
    session_step (cs, w) (filter (fun c => con_hdl c <> con_hdl con) cs, snd (handleDisconnect con w))
| step_message con op payload cs w :
    con ∈ cs -> session_step (cs, w) (cs, snd (handleMessage con op payload w))
| step_page fuel resource range cs w :
    session_step (cs, w) (cs, snd (handleHTTP fuel resource range w))
| step_event m cs w :
    callback m -> session_step (cs, w) (cs, snd (m w)).

Lemma handleMessage_confined con op payload w :
  confined (note_mode con op w) (snd (handleMessage con op payload w)).
Proof.
  rewrite handleMessage_unfold. apply (triple_snd _ _ (fun _ => True)).
  triple_step; [|frame_go]. triple_step; [apply frames_read_message|]. triple_step; [|frame_go].
  eapply triple_weaken; [apply triple_executeNativeMethod|done].
Qed.

Lemma validate_confined con w o w' : handleValidate con w = (o, w') -> confined w w'.
Proof. intros E. pose proof (triple_snd _ _ _ w (handleValidate_confined con)) as Hc. by rewrite E in Hc. Qed.

Lemma session_step_ok st st' : session_step st st' -> registry_ok st -> registry_ok st'.
Proof.
  intros Hstep Hok.
  destruct Hstep as [con cs w w' Hf Hv|con cs w w' Hv|con cs w Hc|con op payload cs w Hc
                    |fuel resource range cs w|m cs w Hm].
  - eapply registry_confined; [|apply handleConnect_registry]. apply registry_open; [done|].
    eapply registry_confined; [exact Hok|].
    by apply validate_confined in Hv.
  - eapply registry_confined; [exact Hok|].
    by apply validate_confined in Hv.
  - eapply registry_confined; [by apply registry_close|]. apply handleDisconnect_registry, Hok.
  - eapply registry_confined; [by apply registry_note|]. apply handleMessage_confined.
  - eapply registry_confined; [exact Hok|]. apply (triple_snd _ _ _ _ (handleHTTP_confined fuel resource range)).
  - eapply registry_confined; [exact Hok|]. apply (triple_snd _ _ _ _ (callback_confined m Hm)).
Qed.
End session.

(** ** What every reachable state has *)

Section reachable.
Context `{NativeApi}.

Lemma rules_server f w : rules_kept w (upd_server f w).
Proof. by apply rules_keep. Qed.

Lemma rules_note con op w : rules_kept w (note_mode con op w).
Proof. unfold note_mode. destruct (_ && _); [apply rules_server|done]. Qed.

Lemma rules_ok w w' : rules_kept w w' -> opts_ok (opts w) -> opts_ok (opts w').
Proof. intros Hr. by rewrite (rk_opts _ _ Hr). Qed.

Lemma session_step_rules st st' :
  session_step st st' -> opts_ok (opts st.2) -> rules_kept st.2 st'.2.
Proof.
  intros Hstep Hok.
  destruct Hstep as [con cs w w' Hf Hv|con cs w w' Hv|con cs w Hc|con op payload cs w Hc
                    |fuel resource range cs w|m cs w Hm]; simpl in *.
  - trans w'; [by eapply cf_rules, validate_confined|].
    trans (upd_server (register con) w'); [apply rules_server|]. apply handleConnect_registry.
  - by eapply cf_rules, validate_confined.
  - trans (upd_server (unregister con) w); [apply rules_server|]. by apply handleDisconnect_registry.
  - trans (note_mode con op w); [apply rules_note|]. apply handleMessage_confined.
  - apply (triple_snd _ _ _ w (handleHTTP_confined fuel resource range)).
  - apply (triple_snd _ _ _ w (callback_confined m Hm)).
Qed.

Lemma session_rules st st' :
  rtc session_step st st' -> opts_ok (opts st.2) -> rules_kept st.2 st'.2.
Proof.
  induction 1 as [|st1 st2 st3 Hs _ IH]; intros Hok; [done|].
  pose proof (session_step_rules _ _ Hs Hok) as Hr. trans st2.2; [done|]. apply IH. by eapply rules_ok.
Qed.

Lemma valid_rules con w w' : rules_kept w w' -> valid_connection con w' = valid_connection con w.
Proof.
  intros Hr. unfold valid_connection. rewrite (rk_ext _ _ Hr), <-(pure_mode_proper _ _ (rk_opts _ _ Hr)).
  by destruct (rk_auth _ _ Hr) as (_ & -> & _).
Qed.

(** every open connection passed the handshake *)
Definition all_valid (st : list connection * World) : Prop :=
  opts_ok (opts st.2) /\ forall con, con ∈ st.1 -> valid_connection con st.2 = true.

Lemma session_step_valid st st' : session_step st st' -> all_valid st -> all_valid st'.
Proof.
  intros Hstep [Hok Hv]. pose proof (session_step_rules _ _ Hstep Hok) as Hr.
  split; [by eapply rules_ok|]. intros con Hc. rewrite (valid_rules _ _ _ Hr).
  destruct Hstep; simpl in *; try by apply Hv.
  - apply elem_of_cons in Hc as [->|Hc]; [|by apply Hv].
    destruct (handleValidate_reads con0 w Hok) as (w1 & E & _). congruence.
  - apply list_elem_of_filter in Hc as [_ Hc]. by apply Hv.
Qed.
End reachable.

(** C6: whatever order connections open, talk and close in, and whatever pages,
    native calls and events come between, the registries follow them: exactly the
    open application connections are registered, and each entry of an extension and each frame type belongs to an open connection of it. *)
Theorem registries_follow_connections `{NativeApi} (w0 w : World) (cs : list connection)
    (Hok : opts_ok (opts w0)) (Ha : appConnections (w_server w0) = [])
    (He : extConnections (w_server w0) = []) (Hm : wsMode (w_server w0) = [])
    (Hr : rtc session_step ([], w0) (cs, w)) :
  (forall h, is_Some (omap_get h (appConnections (w_server w))) <->
             exists con, con ∈ cs /\ con_hdl con = h /\ is_ext con = false) /\
  (forall id h, omap_get id (extConnections (w_server w)) = Some h ->
             exists con, con ∈ cs /\ con_hdl con = h /\ is_ext con = true /\ ext_id con = id) /\
  (forall h, is_Some (omap_get h (wsMode (w_server w))) ->
             exists con, con ∈ cs /\ con_hdl con = h /\ is_ext con = true).
Proof.
  assert (registry_ok ([], w0)) as Hr0.
  { split; simpl; rewrite ?Ha, ?He, ?Hm; try done; [constructor|..].
    - intros h. split; [by intros []|]. intros (c & Hc & _). by apply elem_of_nil in Hc.
    - by intros h []. }
  assert (registry_ok (cs, w)) as [_ _ H3 H4 H5].
  { remember ([], w0) as st. remember (cs, w) as st'. clear Heqst Heqst'.
    induction Hr; [done|]. by eauto using session_step_ok. }
  done.
Qed.

(** C4: the access rules of a running application do not change: whatever is sent
    to the server, whatever page is requested and whatever event comes, the tokens,
    the block and allow lists, the command patterns and the scopes, the value of
    every option, the resources, the loaded extensions and the storage directory
    stay what they were, and a one-time token that was handed out stays so. *)
Theorem session_keeps_rules `{NativeApi} (cs cs' : list connection) (w w' : World)
    (Hok : opts_ok (opts w)) (Hr : rtc session_step (cs, w) (cs', w')) :
  rules_kept w w'.
Proof. exact (session_rules _ _ Hr Hok). Qed.

(** C5: every connection that is open has passed the handshake: it came to the
    local host or the application runs in cloud mode, its URL has the connect
    token, and an extension is one of the loaded ones. *)
Theorem open_connections_valid `{NativeApi} (w0 w : World) (cs : list connection)
    (Hok : opts_ok (opts w0)) (Hr : rtc session_step ([], w0) (cs, w)) :
  forall con, con ∈ cs ->
    (con_host con = "localhost" \/ con_host con = "127.0.0.1" \/ pure_mode (opts w) = AppModeCloud) /\
    __getConnectTokenFromUrl (con_resource con) = connectToken (w_auth w0) /\
    (is_ext con = true -> ext_id con ∈ loadedExtensions (w_ext w0)).
Proof.
  assert (all_valid (cs, w)) as [_ Hv].
  { assert (all_valid ([], w0)) as Hv0 by (split; [done|intros con Hc; by apply elem_of_nil in Hc]).
    remember ([], w0) as st. remember (cs, w) as st'. clear Heqst Heqst'.
    induction Hr; [done|]. by eauto using session_step_valid. }
  pose proof (session_rules _ _ Hr Hok) as Hk. simpl in *. intros con Hc.
  specialize (Hv con Hc). unfold valid_connection in Hv. rewrite (rk_ext _ _ Hk) in Hv.
  destruct (rk_auth _ _ Hk) as (_ & Et & _). rewrite Et in Hv.
  rewrite !andb_true_iff, !orb_true_iff, !bool_decide_eq_true in Hv.
  destruct Hv as [[[Hh Ht] Hc'] He]. split_and!; [tauto|done|].
  unfold is_ext, ext_id. intros E. rewrite E in He. by apply mem_spec.
Qed.

Section session_witness.
#[local] Existing Instance demo.
#[local] Instance session_api : NativeApi := mem_api.

Definition demo_ext (h : Z) : connection :=
  Connection h "/?extensionId=js.a&connectToken=C" "127.0.0.1".

(** an application with the tokens T and C and one extension *)
Definition session0 : World :=
  upd_ext (fun _ => {| loadedExtensions := ["js.a"]; ext_initialized := true |})
    (upd_auth (authbasic.set_tokens "T" "C") demo_world).
Definition session1 : World := snd (handleConnect (demo_ext 1) (snd (handleValidate (demo_ext 1) session0))).
Definition session2 : World := snd (handleMessage (demo_ext 1) OpBinary "hello" session1).
Definition session3 : World := snd (handleHTTP 3 "/__neutralino_globals.js" None session2).

Lemma session0_ok : opts_ok (opts session0).
Proof. split; [done..| |by left]. by intros []. Qed.

Lemma session_run : rtc session_step ([], session0) ([demo_ext 1], session3).
Proof.
  eapply rtc_l; [|eapply rtc_l; [|apply rtc_once]].
  - apply (step_open (demo_ext 1) [] session0 (snd (handleValidate (demo_ext 1) session0))).
    + apply not_elem_of_nil.
    + by vm_compute.
  - apply (step_message (demo_ext 1) OpBinary "hello"). by left.
  - exact (step_page 3 "/__neutralino_globals.js" None _ session2).
Qed.

Lemma session_keeps_rules_witness :
  appConnections (w_server session3) = [] /\ rules_kept session0 session3.
Proof.
  split; [by vm_compute|].
  exact (session_keeps_rules [] [demo_ext 1] session0 session3 session0_ok session_run).
Defined.

Lemma open_connections_valid_witness :
  __getConnectTokenFromUrl "/?extensionId=js.a&connectToken=C" = "C" /\
  ext_id (demo_ext 1) ∈ ["js.a"].
Proof.
  destruct (open_connections_valid session0 session3 [demo_ext 1] session0_ok session_run (demo_ext 1))
    as (_ & Ht & He); [by left|].
  split; [exact Ht|]. by apply He.
Defined.

Lemma registries_follow_connections_witness :
  omap_get "js.a" (extConnections (w_server session3)) = Some 1%Z /\
  exists con, con ∈ [demo_ext 1] /\ con_hdl con = 1%Z /\ is_ext con = true /\ ext_id con = "js.a".
Proof.
  assert (omap_get "js.a" (extConnections (w_server session3)) = Some 1%Z) as Hg by by vm_compute.
  split; [exact Hg|].
  eapply (registries_follow_connections session0 session3 [demo_ext 1]);
    [exact session0_ok|done..|exact session_run|exact Hg].
Defined.
End session_witness.

(** An extension that reconnects before its old connection is closed becomes
    unreachable: closing the old connection erases the new one's entry. *)
Theorem reconnected_extension_lost `{Platform} (old new : connection) (w : World)
    (Hok : opts_ok (opts w)) (Ho : is_ext old = true) (Hn : is_ext new = true)
    (Hid : ext_id old = ext_id new) (message : json) :
  let w' := snd (handleDisconnect old (snd (handleConnect new w))) in
  omap_get (ext_id new) (extConnections (w_server (snd (handleConnect new w)))) = Some (con_hdl new) /\
  omap_get (ext_id new) (extConnections (w_server w')) = None /\
  sendToExtension (ext_id new) message w' = (Ret false, w').
Proof.
  intros w'. destruct (handleConnect_registry new w) as [Hr _ E1 _].
  set (w1 := snd (handleConnect new w)) in *.
  assert (opts_ok (opts w1)) as Hok1 by by apply (rules_ok _ _ Hr).
  destruct (handleDisconnect_registry old w1 Hok1) as [_ _ E2 _]. fold w' in E2.
  assert (omap_get (ext_id new) (extConnections (w_server w')) = None) as Hnone.
  { rewrite E2. unfold unregister. rewrite Ho. cbn. by rewrite Hid, omap_get_del_eq. }
  split_and!; [|exact Hnone|].
  - rewrite E1. unfold register. rewrite Hn. apply omap_get_set_eq.
  - unfold sendToExtension, get_server. munfold. by rewrite Hnone.
Qed.

Section reconnect_witness.
#[local] Existing Instance demo.

Lemma reconnected_extension_lost_witness :
  let w := snd (handleConnect (demo_ext 1) demo_world) in
  omap_get "js.a" (extConnections (w_server (snd (handleConnect (demo_ext 2) w)))) = Some 2%Z /\
  omap_get "js.a" (extConnections (w_server
    (snd (handleDisconnect (demo_ext 1) (snd (handleConnect (demo_ext 2) w)))))) = None.
Proof.
  intros w. destruct (reconnected_extension_lost (demo_ext 1) (demo_ext 2) w) with (message := JNull)
    as (H1 & H2 & _).
  - split; [done..| |by left]. by intros [].
  - by vm_compute.
  - by vm_compute.
  - done.
  - exact (conj H1 H2).
Defined.
End reconnect_witness.
