(* ===== verification/ProcessFacts.v ===== *)
(** * Facts about api/os/os.cpp: commands and spawned processes as steps, virtual process
    ids, the tray menu, the environment *)

From S2P Require Import Prelude Strings Regex OMap Outcome Json Errors State MemPlatform Helpers.
From S2P Require Import Options Paths Locale Permission Auth Connections Base64 Fs FsControllers.
From S2P Require Import Resources Settings Storage Os OsControllers HelpersFacts OptionsFacts.
From S2P Require Import Tray Process Triple ConnectionsFacts.
From Stdlib Require Import Ascii.
Import helpers settings os.

Section processes.
Context `{Platform}.

Definition procs (w : World) : list (Z * ChildProcess) := spawnedProcesses (w_os w).
Definition next_id (w : World) : Z := nextVirtualPid (w_os w).

(** the ids in use were given out, and the counter has not come to its end *)
Record ids_ok (w : World) : Prop := {
  ids_wf : omap_wf (procs w);
  ids_below id : is_Some (omap_get id (procs w)) -> (0 <= id < next_id w)%Z;
  ids_next : (0 <= next_id w <= INT_MAX)%Z
}.

(** what the processes do: a command is executed or spawned, a process is written to or
    killed, its output arrives, or it ends.  Undefined behaviour and an exception that
    leaves a thread end the run. *)
Inductive proc_step : World -> World -> Prop :=
| step_exec command options r w w' : execCommand command options w = (Ret r, w') -> proc_step w w'
| step_spawn command options r w w' :
    (next_id w < INT_MAX)%Z -> spawnProcess command options w = (Ret r, w') -> proc_step w w'
| step_update evt r w w' : updateSpawnedProcess evt w = (Ret r, w') -> proc_step w w'
| step_output id p err bytes w w' :
    omap_get id (procs w) = Some p -> on_output id p err bytes w = (Ret tt, w') -> proc_step w w'
| step_exit id p w w' :
    omap_get id (procs w) = Some p -> process_thread id p w = (Ret tt, w') -> proc_step w w'.

(** *** Calls that leave the components' variables of api/os/os.cpp *)

Definition same_os : relation World := fun w w' => w_os w' = w_os w.
#[local] Instance same_os_preorder : PreOrder same_os.
Proof. split; [done|]. unfold same_os. intros w1 w2 w3 H1 H2. congruence. Qed.
Lemma same_os_call {A} (f : sys -> A * sys) : frames same_os (sys_call f).
Proof. by apply triple_sys_call. Qed.
Lemma same_os_dispatch ev data : frames same_os (events.dispatch ev data).
Proof. intros w. destruct (sends_dispatch ev data w) as [l E]. split; [|done]. unfold same_os. by rewrite E. Qed.
#[local] Hint Resolve same_os_call same_os_dispatch : frame.
Lemma same_os_output id p err bytes : frames same_os (on_output id p err bytes).
Proof. frame_go. Qed.
#[local] Hint Resolve same_os_output : frame.
Lemma same_os_process c path e i r : frames same_os (tinyprocess.Process c path e i r).
Proof. frame_go. Qed.
Lemma same_os_close_fds p : frames same_os (tinyprocess.close_fds p).
Proof. frame_go. Qed.
Lemma same_os_close_stdin p : frames same_os (tinyprocess.close_stdin p).
Proof. frame_go. Qed.
Lemma same_os_status p : frames same_os (tinyprocess.get_exit_status p).
Proof. frame_go. Qed.
Lemma same_os_exec command options : frames same_os (execCommand command options).
Proof. frame_go. Qed.
Lemma same_os_apply {A} (m : M A) w r w' : frames same_os m -> m w = (r, w') -> w_os w' = w_os w.
Proof. intros Hm E. destruct (Hm w) as [HR _]. by rewrite E in HR. Qed.

Lemma spawn_inv command options r w w' : spawnProcess command options w = (Ret r, w') ->
  exists p w1,
    tinyprocess.Process command (po_cwd options) (environment_of (po_envs options)) true true
      (upd_os (set_nextPid (if decide (next_id w = INT_MAX) then 0%Z else wrapS 32 (next_id w + 1))) w)
      = (Ret p, w1) /\
    r = (next_id w, p_id p) /\
    w' = upd_os (set_procs (omap_set (next_id w)
       {| cp_process := p; cp_command := command; cp_events := po_events options;
          cp_echo := po_echo options; cp_input := [] |})) w1.
Proof.
  unfold spawnProcess. intros (s & w0 & [= <- <-] & H1)%M_bind_inv.
  apply M_bind_inv in H1 as ([] & w1 & [= <-] & H1). apply M_bind_inv in H1 as (p & w2 & E & H1).
  apply M_bind_inv in H1 as ([] & w3 & [= <-] & H1). injection H1 as <- <-. by exists p, w2.
Qed.

Lemma update_inv evt r w w' : updateSpawnedProcess evt w = (Ret r, w') ->
  w' = w \/
  exists i c p w1, omap_get (pe_id evt) (procs w) = Some c /\
    match i with
    | InKill => tinyprocess.kill (cp_process c) ;; mret (cp_process c)
    | InWrite bytes => _ ← tinyprocess.write bytes (cp_process c); mret (cp_process c)
    | InClose => tinyprocess.close_stdin (cp_process c)
    end w = (Ret p, w1) /\
    w' = upd_os (set_procs (omap_set (pe_id evt) (add_input i p c))) w1.
Proof.
  unfold updateSpawnedProcess. intros (s & w0 & [= <- <-] & H1)%M_bind_inv. fold (procs w) in H1.
  destruct (omap_get _ (procs w)) as [c|] eqn:Ec; [|injection H1 as _ <-; by left].
  destruct (process_input evt) as [i|]; [|injection H1 as _ <-; by left].
  right. apply M_bind_inv in H1 as (p & w1 & E & H1). apply M_bind_inv in H1 as ([] & w2 & [= <-] & H1).
  injection H1 as _ <-. by exists i, c, p, w1.
Qed.

Lemma exit_inv id c w w' : process_thread id c w = (Ret tt, w') ->
  exists code calls p w1 w2 w3 calls' p' w4,
    tinyprocess.get_exit_status (cp_process c) w = (Ret (code, calls, p), w1) /\
    (mapM_ (fun c' => on_output id c (negb c'.1) c'.2) calls ;;
     if cp_events c then __dispatchSpawnedProcessEvt id "exit" (of_int code) else mret tt) w1 = (Ret tt, w2) /\
    w3 = upd_os (set_procs (omap_del id)) w2 /\
    tinyprocess.close_fds p w3 = (Ret (calls', p'), w4) /\
    mapM_ (fun c' => on_output id c (negb c'.1) c'.2) calls' w4 = (Ret tt, w').
Proof.
  unfold process_thread. intros ([[code calls] p] & w1 & E1 & H1)%M_bind_inv.
  apply M_bind_inv in H1 as ([] & w2 & E2 & H1). apply M_bind_inv in H1 as ([] & w3 & E3 & H1).
  apply M_bind_inv in H1 as ([] & w4 & [= <-] & H1). apply M_bind_inv in H1 as ([calls' p'] & w5 & E5 & H1).
  exists code, calls, p, w1, w3, (upd_os (set_procs (omap_del id)) w3), calls', p', w5.
  split_and!; [done| |done..]. by rewrite (M_bind_Ret _ _ _ _ _ E2).
Qed.

Lemma ids_ok_os w w' : w_os w' = w_os w -> ids_ok w -> ids_ok w'.
Proof. intros E [H1 H2 H3]. unfold procs, next_id in *. split; unfold procs, next_id; by rewrite E. Qed.

Lemma ids_fresh w : ids_ok w -> omap_get (next_id w) (procs w) = None.
Proof.
  intros Hok. destruct (omap_get _ _) eqn:E; [|done].
  pose proof (ids_below _ Hok (next_id w) ltac:(by rewrite E)). lia.
Qed.

Lemma exit_os id c w w' : process_thread id c w = (Ret tt, w') -> w_os w' = set_procs (omap_del id) (w_os w).
Proof.
  intros (code & calls & p1 & w1 & w2 & w3 & calls' & p' & w4 & E1 & E2 & -> & E4 & E5)%exit_inv.
  assert (w_os w' = w_os w4) as -> by (eapply same_os_apply; [|exact E5]; frame_go).
  rewrite (same_os_apply _ _ _ _ (same_os_close_fds _) E4). cbn.
  assert (w_os w2 = w_os w1) as -> by (eapply same_os_apply; [|exact E2]; frame_go).
  by rewrite (same_os_apply _ _ _ _ (same_os_status _) E1).
Qed.

Lemma proc_step_ok w w' : proc_step w w' -> ids_ok w -> ids_ok w'.
Proof.
  intros Hstep Hok. pose proof Hok as [Hwf Hb Hn].
  destruct Hstep as [command options r w w' E|command options r w w' Hlt E|evt r w w' E|id p err bytes w w' Hp E|id p w w' Hp E].
  - eapply ids_ok_os; [eapply same_os_apply; [apply same_os_exec|exact E]|done].
  - apply spawn_inv in E as (p & w1 & E & _ & ->).
    pose proof (same_os_apply _ _ _ _ (same_os_process _ _ _ _ _) E) as Eo.
    rewrite decide_False in Eo by lia. unfold INT_MAX in *. rewrite wrapS_small in Eo by (simpl; lia).
    split; unfold procs, next_id in *; cbn; rewrite Eo; cbn; [by apply omap_set_wf| |unfold INT_MAX; lia].
    intros id. destruct (decide (id = nextVirtualPid (w_os w))) as [->|Hne]; [lia|].
    rewrite omap_get_set_ne by done. intros Hid%Hb. lia.
  - apply update_inv in E as [->|(i & c & p & w1 & Ec & E & ->)]; [done|].
    assert (w_os w1 = w_os w) as Eo by (eapply same_os_apply; [|exact E]; destruct i; frame_go).
    split; unfold procs, next_id in *; cbn; rewrite Eo; [by apply omap_set_wf| |done].
    intros id. destruct (decide (id = pe_id evt)) as [->|Hne]; [intros _; apply Hb; by rewrite Ec|].
    rewrite omap_get_set_ne by done. apply Hb.
  - eapply ids_ok_os; [eapply same_os_apply; [apply same_os_output|exact E]|done].
  - pose proof (exit_os _ _ _ _ E) as Eo.
    split; unfold procs, next_id in *; rewrite Eo; cbn; [by apply omap_del_wf| |done].
    intros id'. destruct (decide (id' = id)) as [->|Hne]; [rewrite omap_get_del_eq; by intros []|].
    rewrite omap_get_del_ne by done. apply Hb.
Qed.

Lemma process_returns command path e i r w : exists p y,
  tinyprocess.Process command path e i r w = (Ret p, upd_sys (fun _ => y) w).
Proof.
  destruct w as [? ? ? ? ? ? ? ? ? ? ? ? ? y0]. unfold tinyprocess.Process, tinyprocess.open.
  unfold tinyprocess.pipe_for, tinyprocess.pipe, tinyprocess.close_pipe, tinyprocess.close_end, tinyprocess.close,
    sys_call. munfold. cbn.
  repeat (case_goal; cbn); by eexists _, _.
Qed.

(** The kernel has descriptors and processes left.  Otherwise the library leaves the
    descriptors that it allocated without a value. *)
Record processes_start : Prop := {
  ps_pipe y : exists r w y', pl_pipe y = (Some (r, w), y');
  ps_fork im y : (0 < fst (pl_fork im y))%Z
}.

(** the object can be used: no descriptor is without a value *)
Definition fd_ready (p : Process) : Prop :=
  p_stdin p <> Some None /\ p_stdout p <> Some None /\ p_stderr p <> Some None /\
  (p_thread p = true -> (0 < p_id p)%Z /\ is_Some (p_stdout p) /\ is_Some (p_stderr p)).

Lemma pipe_for_starts b w : processes_start -> exists q y,
  tinyprocess.pipe_for b w = (Ret (Some q), upd_sys (fun _ => y) w) /\ (b = true -> is_Some q).
Proof.
  intros Hp. unfold tinyprocess.pipe_for, tinyprocess.pipe, sys_call. munfold. destruct b.
  - destruct (ps_pipe Hp (w_sys w)) as (r & w0 & y & ->). eauto.
  - exists None, (w_sys w). split; [|done]. by destruct w.
Qed.
Lemma close_end_eq q w : exists y, tinyprocess.close_end q w = (Ret tt, upd_sys (fun _ => y) w).
Proof.
  destruct q as [fd|]; [|exists (w_sys w); by destruct w]. cbn. unfold tinyprocess.close, sys_call. eauto.
Qed.

Lemma process_starts command path e i r w : processes_start -> exists p y,
  tinyprocess.Process command path e i r w = (Ret p, upd_sys (fun _ => y) w) /\
  fd_ready p /\ p_open_stdin p = i /\ (0 < p_id p)%Z /\ p_thread p = r.
Proof.
  intros Hp.
  destruct (pipe_for_starts i w Hp) as (q1 & y1 & E1 & H1).
  set (w1 := upd_sys (fun _ => y1) w) in *.
  destruct (pipe_for_starts r w1 Hp) as (q2 & y2 & E2 & H2). set (w2 := upd_sys (fun _ => y2) w1) in *.
  destruct (pipe_for_starts r w2 Hp) as (q3 & y3 & E3 & H3). set (w3 := upd_sys (fun _ => y3) w2) in *.
  set (image := tinyprocess.child_image command path e (fst <$> q1) (snd <$> q2) (snd <$> q3)).
  pose proof (ps_fork Hp image (w_sys w3)) as Hf.
  destruct (pl_fork image (w_sys w3)) as [pid y4] eqn:E4. cbn [fst] in Hf.
  set (w4 := upd_sys (fun _ => y4) w3).
  destruct (close_end_eq (fst <$> q1) w4) as [y5 E5]. set (w5 := upd_sys (fun _ => y5) w4) in *.
  destruct (close_end_eq (snd <$> q2) w5) as [y6 E6]. set (w6 := upd_sys (fun _ => y6) w5) in *.
  destruct (close_end_eq (snd <$> q3) w6) as [y7 E7].
  set (p := MkProcess pid (-1) false i r ((0 <? pid)%Z && r) ((fun q => Some (snd q)) <$> q1)
              ((fun q => Some (fst q)) <$> q2) ((fun q => Some (fst q)) <$> q3)).
  exists p, y7. split_and!; [|split_and!|done|done|].
  - unfold tinyprocess.Process, tinyprocess.open. cbv zeta.
    rewrite (M_bind_Ret _ _ w
      (MkProcess pid (-1) false i r false ((fun q => Some (snd q)) <$> q1)
         ((fun q => Some (fst q)) <$> q2) ((fun q => Some (fst q)) <$> q3)) (upd_sys (fun _ => y7) w)); [done|].
    rewrite (M_bind_Ret _ _ _ _ _ E1), (M_bind_Ret _ _ _ _ _ E2), (M_bind_Ret _ _ _ _ _ E3).
    fold image. rewrite (M_bind_Ret (sys_call (pl_fork image)) _ w3 pid w4) by (unfold sys_call; by rewrite E4).
    rewrite (proj2 (Z.ltb_ge _ _)) by lia.
    by rewrite (M_bind_Ret _ _ _ _ _ E5), (M_bind_Ret _ _ _ _ _ E6), (M_bind_Ret _ _ _ _ _ E7).
  - by destruct q1.
  - by destruct q2.
  - by destruct q3.
  - intros [Hpid ->]%andb_true_iff. zb. split; [done|]. cbn.
    destruct (H2 eq_refl) as [[] ->], (H3 eq_refl) as [[] ->]. split; eauto.
  - cbn. by rewrite (proj2 (Z.ltb_lt _ _)).
Qed.

(** the state in which the new process has the id [next_id w] *)
Definition id_taken (w : World) : World :=
  upd_os (set_nextPid (if decide (next_id w = INT_MAX) then 0%Z else wrapS 32 (next_id w + 1))) w.
Definition new_entry (p : Process) (command : string) (options : ChildProcessOptions) : ChildProcess :=
  {| cp_process := p; cp_command := command; cp_events := po_events options;
     cp_echo := po_echo options; cp_input := [] |}.

Lemma spawn_of command options w p y :
  tinyprocess.Process command (po_cwd options) (environment_of (po_envs options)) true true (id_taken w)
    = (Ret p, upd_sys (fun _ => y) (id_taken w)) ->
  spawnProcess command options w =
    (Ret (next_id w, p_id p),
     upd_os (set_procs (omap_set (next_id w) (new_entry p command options))) (upd_sys (fun _ => y) (id_taken w))).
Proof.
  intros E. unfold spawnProcess. rewrite (M_bind_Ret _ _ w (w_os w) w) by done. fold (next_id w).
  rewrite (M_bind_Ret _ _ w tt (id_taken w)) by done. by rewrite (M_bind_Ret _ _ _ _ _ E).
Qed.
Lemma spawn_eq command options w : exists p y,
  spawnProcess command options w =
    (Ret (next_id w, p_id p),
     upd_os (set_procs (omap_set (next_id w) (new_entry p command options))) (upd_sys (fun _ => y) (id_taken w))).
Proof.
  destruct (process_returns command (po_cwd options) (environment_of (po_envs options)) true true (id_taken w))
    as (p & y & E). exists p, y. by apply spawn_of.
Qed.
Lemma spawn_starts command options w : processes_start -> exists p y,
  spawnProcess command options w =
    (Ret (next_id w, p_id p),
     upd_os (set_procs (omap_set (next_id w) (new_entry p command options))) (upd_sys (fun _ => y) (id_taken w))) /\
  fd_ready p /\ p_open_stdin p = true.
Proof.
  intros Hp.
  destruct (process_starts command (po_cwd options) (environment_of (po_envs options)) true true (id_taken w) Hp)
    as (p & y & E & Hr & Ho & _). exists p, y. split; [by apply spawn_of|done].
Qed.

(** *** Calls on a process that was started *)

Lemma upd_sys_id w : upd_sys (fun _ => w_sys w) w = w.
Proof. by destruct w. Qed.
Lemma ready_no_stdin p : fd_ready p -> fd_ready (tinyprocess.no_stdin p).
Proof. intros (H1 & H2 & H3 & H4). by split_and!. Qed.
Lemma ready_no_fds p : fd_ready (tinyprocess.no_fds p).
Proof. by split_and!. Qed.
Lemma ready_closed st p : fd_ready p -> fd_ready (tinyprocess.set_closed st p).
Proof. done. Qed.

Lemma close_fd_ready p fd w : fd <> Some None -> exists y,
  tinyprocess.close_fd p fd w = (Ret tt, upd_sys (fun _ => y) w).
Proof.
  intros Hf. unfold tinyprocess.close_fd, tinyprocess.close, sys_call. destruct fd as [[fd|]|]; [|done|].
  - destruct (0 <? p_id p)%Z; [eauto|]. exists (w_sys w). by rewrite upd_sys_id.
  - exists (w_sys w). by rewrite upd_sys_id.
Qed.
Lemma close_stdin_ready p w : fd_ready p -> exists y,
  tinyprocess.close_stdin p w = (Ret (tinyprocess.no_stdin p), upd_sys (fun _ => y) w).
Proof.
  intros (H1 & _). unfold tinyprocess.close_stdin. destruct (close_fd_ready p (p_stdin p) w H1) as [y E].
  rewrite (M_bind_Ret _ _ _ _ _ E). by exists y.
Qed.
Lemma write_ready bytes p w : fd_ready p -> p_open_stdin p = true -> exists ok y,
  tinyprocess.write bytes p w = (Ret ok, upd_sys (fun _ => y) w).
Proof.
  intros (H1 & _) Ho. unfold tinyprocess.write. rewrite Ho. cbn [negb].
  destruct (p_stdin p) as [[fd|]|]; [|done|].
  - unfold sys_call. destruct (pl_write _ _ _) as [ok y]. eauto.
  - exists false, (w_sys w). by rewrite upd_sys_id.
Qed.
Lemma kill_eq p w : exists y, tinyprocess.kill p w = (Ret tt, upd_sys (fun _ => y) w).
Proof.
  unfold tinyprocess.kill, sys_call. destruct (_ && _); [eauto|]. exists (w_sys w). by rewrite upd_sys_id.
Qed.
Lemma join_ready p w : fd_ready p -> exists calls y, tinyprocess.join_thread p w = (Ret calls, upd_sys (fun _ => y) w).
Proof.
  intros (_ & H2 & H3 & H4). unfold tinyprocess.join_thread. destruct (p_thread p).
  - destruct (H4 eq_refl) as (_ & [[out|] E2] & [[err|] E3]); [|congruence..].
    rewrite E2, E3. unfold sys_call. munfold. destruct (pl_polls _ _ _) as [turns y]. cbn. eauto.
  - exists [], (w_sys w). by rewrite upd_sys_id.
Qed.
Lemma close_fds_ready p w : fd_ready p -> exists calls y,
  tinyprocess.close_fds p w = (Ret (calls, tinyprocess.no_fds p), upd_sys (fun _ => y) w).
Proof.
  intros Hr. pose proof Hr as (_ & H2 & H3 & _). unfold tinyprocess.close_fds.
  destruct (join_ready p w Hr) as (calls & y1 & E1). rewrite (M_bind_Ret _ _ _ _ _ E1).
  destruct (close_stdin_ready p (upd_sys (fun _ => y1) w) Hr) as (y2 & E2). rewrite (M_bind_Ret _ _ _ _ _ E2).
  set (w2 := upd_sys (fun _ => y2) _). destruct (close_fd_ready (tinyprocess.no_stdin p) (p_stdout p) w2 H2) as (y3 & E3).
  rewrite (M_bind_Ret _ _ _ _ _ E3). set (w3 := upd_sys (fun _ => y3) _).
  destruct (close_fd_ready (tinyprocess.no_stdin p) (p_stderr p) w3 H3) as (y4 & E4).
  rewrite (M_bind_Ret _ _ _ _ _ E4). by exists calls, y4.
Qed.
Lemma status_ready p w : fd_ready p -> exists code calls q y,
  tinyprocess.get_exit_status p w = (Ret (code, calls, q), upd_sys (fun _ => y) w) /\ fd_ready q.
Proof.
  intros Hr. unfold tinyprocess.get_exit_status. destruct (_ <=? _)%Z.
  { exists (-1)%Z, [], p, (w_sys w). by rewrite upd_sys_id. }
  unfold sys_call. munfold. destruct (pl_waitpid _ _) as [[st|] y].
  - set (w1 := upd_sys _ w). set (st' := if (256 <=? st)%Z then _ else _).
    destruct (close_fds_ready (tinyprocess.set_closed st' p) w1 Hr) as (calls & y2 & ->).
    exists st', calls, (tinyprocess.no_fds (tinyprocess.set_closed st' p)), y2. split; [done|]. apply ready_no_fds.
  - by exists (p_exit_status p), [], p, y.
Qed.

(** a command is run to its end when a process can be started *)
Lemma exec_returns command options w : processes_start -> exists r y,
  execCommand command options w = (Ret r, upd_sys (fun _ => y) w).
Proof.
  intros Hp. unfold execCommand. cbv zeta.
  destruct (process_starts command (po_cwd options) (environment_of (po_envs options))
    (negb (isempty (po_stdIn options))) (negb (po_background options)) w Hp) as (p & y1 & E1 & Hr & Ho & _ & _).
  rewrite (M_bind_Ret _ _ _ _ _ E1). set (w1 := upd_sys (fun _ => y1) w).
  assert (exists q y2, (if negb (isempty (po_stdIn options))
    then _ ← tinyprocess.write (po_stdIn options) p; tinyprocess.close_stdin p else mret p) w1
      = (Ret q, upd_sys (fun _ => y2) w) /\ fd_ready q) as (q & y2 & E2 & Hq).
  { destruct (negb _); [|by exists p, y1].
    destruct (write_ready (po_stdIn options) p w1 Hr Ho) as (ok & y3 & E3). rewrite (M_bind_Ret _ _ _ _ _ E3).
    set (w3 := upd_sys (fun _ => y3) w1). destruct (close_stdin_ready p w3 Hr) as [y4 E4].
    exists (tinyprocess.no_stdin p), y4. split; [exact E4|]. by apply ready_no_stdin. }
  rewrite (M_bind_Ret _ _ _ _ _ E2). set (w2 := upd_sys (fun _ => y2) w).
  assert (exists code calls r y3, (if negb (po_background options) then tinyprocess.get_exit_status q
    else mret ((-1)%Z, [], q)) w2 = (Ret (code, calls, r), upd_sys (fun _ => y3) w) /\ fd_ready r)
    as (code & calls & r & y3 & E3 & Hr3).
  { destruct (negb (po_background options)); [apply (status_ready q w2 Hq)|]. by exists (-1)%Z, [], q, y2. }
  rewrite (M_bind_Ret _ _ _ _ _ E3). set (w3 := upd_sys (fun _ => y3) w).
  destruct (close_fds_ready r w3 Hr3) as (calls' & y4 & E4). rewrite (M_bind_Ret _ _ _ _ _ E4).
  by eexists _, y4.
Qed.

(** a process that was started takes its input *)
Lemma update_eq evt i c w : omap_get (pe_id evt) (procs w) = Some c -> process_input evt = Some i ->
  fd_ready (cp_process c) -> p_open_stdin (cp_process c) = true -> exists p y,
  updateSpawnedProcess evt w =
    (Ret true, upd_os (set_procs (omap_set (pe_id evt) (add_input i p c))) (upd_sys (fun _ => y) w)) /\
  fd_ready p /\ p_open_stdin p = true.
Proof.
  intros Hc Hi Hr Ho. unfold updateSpawnedProcess. rewrite (M_bind_Ret _ _ w (w_os w) w) by done.
  unfold procs in Hc. rewrite Hc, Hi.
  assert (exists p y, match i with
    | InKill => tinyprocess.kill (cp_process c) ;; mret (cp_process c)
    | InWrite bytes => _ ← tinyprocess.write bytes (cp_process c); mret (cp_process c)
    | InClose => tinyprocess.close_stdin (cp_process c)
    end w = (Ret p, upd_sys (fun _ => y) w) /\ fd_ready p /\ p_open_stdin p = true) as (p & y & E & H1 & H2).
  { destruct i as [bytes| |].
    - destruct (write_ready bytes _ w Hr Ho) as (ok & y & E). rewrite (M_bind_Ret _ _ _ _ _ E). eauto.
    - destruct (close_stdin_ready _ w Hr) as (y & E).
      exists (tinyprocess.no_stdin (cp_process c)), y. split_and!; [done|by apply ready_no_stdin|done].
    - destruct (kill_eq (cp_process c) w) as (y & E). rewrite (M_bind_Ret _ _ _ _ _ E). eauto. }
  rewrite (M_bind_Ret _ _ _ _ _ E). by exists p, y.
Qed.
End processes.
#[export] Existing Instance same_os_preorder.
#[export] Hint Resolve same_os_call same_os_dispatch same_os_output : frame.

(** C33: before the counter of virtual ids wraps around, a spawned process gets an
    id that no running process has, and its entry is added to theirs, whatever
    commands were spawned, updated, ended or printed output before. *)
Theorem spawn_ids_fresh `{Platform} (w0 w : World) (command : string) (options : ChildProcessOptions)
    (Hok : ids_ok w0) (Hr : rtc proc_step w0 w) :
  exists pid w',
    spawnProcess command options w = (Ret (next_id w, pid), w') /\
    omap_get (next_id w) (procs w) = None /\
    (exists p, omap_get (next_id w) (procs w') = Some p /\ cp_command p = command /\ p_id (cp_process p) = pid) /\
    forall id, id <> next_id w -> omap_get id (procs w') = omap_get id (procs w).
Proof.
  assert (ids_ok w) as Hw.
  { clear -Hok Hr. induction Hr; [done|]. eauto using proc_step_ok. }
  destruct (spawn_eq command options w) as (p & y & E). eexists (p_id p), _. split; [exact E|].
  split; [by apply ids_fresh|]. unfold procs, next_id. simpl. split.
  - eexists. split; [apply omap_get_set_eq|done].
  - intros id Hne. by apply omap_get_set_ne.
Qed.

Section spawn_witness.
#[local] Existing Instance demo.

Lemma demo_processes_start : processes_start.
Proof. split; [intros y; by eexists _, _, _|]. intros im y. cbn. lia. Qed.

Lemma spawn_ids_fresh_witness :
  let w := snd (spawnProcess "sleep 1" default_process_options demo_world) in
  next_id w = 1%Z /\
  exists pid w',
    spawnProcess "ls" default_process_options w = (Ret (1%Z, pid), w') /\
    omap_get 1%Z (procs w) = None /\
    (exists p, omap_get 1%Z (procs w') = Some p /\ cp_command p = "ls" /\ p_id (cp_process p) = pid) /\
    forall id, id <> 1%Z -> omap_get id (procs w') = omap_get id (procs w).
Proof.
  intros w. split; [reflexivity|].
  apply (spawn_ids_fresh demo_world w "ls" default_process_options).
  - split; [done|by intros id []|by vm_compute].
  - apply rtc_once, (step_spawn "sleep 1" default_process_options (0, 7)%Z); [by vm_compute|].
    assert (fst (spawnProcess "sleep 1" default_process_options demo_world) = Ret (0, 7)%Z) as E
      by (vm_compute; reflexivity).
    unfold w. destruct (spawnProcess "sleep 1" default_process_options demo_world) as [r w1].
    cbn [fst snd] in *. by rewrite E.
Defined.
End spawn_witness.

(** ** The tray menu *)

Import os_controllers.

Section tray.
Context `{Platform}.

(** [item] is read as [m] in every state *)
Definition reads_as (item : json) (m : tray_menu) : Prop :=
  forall w, read_tray_item item w = (Ret m, w).

Lemma fill_menus_eq items ms i w :
  Forall2 reads_as items ms -> i + length ms <= length (tray_menus (w_os w)) ->
  exists l, fill_menus i items w = (Ret tt, upd_os (set_menus (fun _ => l)) w) /\
    length l = length (tray_menus (w_os w)) /\
    forall j, l !! j = if decide (i <= j < i + length ms) then ms !! (j - i)
                       else tray_menus (w_os w) !! j.
Proof.
  intros Hall. revert i w. induction Hall as [|item m items ms Hr _ IH]; intros i w Hl.
  - exists (tray_menus (w_os w)). split_and!; [|done|].
    + cbn. by destruct w as [? ? ? ? ? ? ? [] ? ? ? ? ?].
    + intros j. rewrite decide_False by (simpl; lia). done.
  - cbn [fill_menus]. rewrite (M_bind_Ret _ _ _ _ _ (Hr w)).
    set (w1 := upd_os (set_menus (fun l => <[i:=m]> l)) w).
    rewrite (M_bind_Ret _ _ w tt w1) by done.
    destruct (IH (S i) w1) as (l & E & Hlen & Hlk); [simpl in *; rewrite length_insert; lia|].
    exists l. split_and!; [by rewrite E|by rewrite Hlen; simpl; rewrite length_insert|].
    intros j. rewrite Hlk. simpl length in *. destruct (decide (j = i)) as [->|Hne].
    + rewrite decide_False, decide_True by lia. rewrite Nat.sub_diag. simpl.
      rewrite list_lookup_insert, decide_True by lia. done.
    + destruct (decide (S i <= j < S i + length ms)).
      * rewrite decide_True by lia. by replace (j - i) with (S (j - S i)) by lia.
      * rewrite decide_False by lia. simpl. by rewrite list_lookup_insert_ne.
Qed.

(** what the library makes of an entry with a text *)
Definition widget_of (m : tray_menu) : tray_widget :=
  if decide (ti_text m = Some "-") then TraySeparator
  else if ti_checked m then TrayCheckItem m else TrayItem m.

Lemma tray_menu_cons m l :
  ti_text m <> None -> tray._tray_menu (m :: l) = (menu ← tray._tray_menu l; Ret (widget_of m :: menu)).
Proof.
  intros Hm. cbn [tray._tray_menu]. unfold widget_of. destruct (ti_text m) as [t|]; [|done].
  destruct (decide (t = "-")) as [->|Ht]; [done|]. by rewrite decide_False by congruence.
Qed.
Lemma tray_menu_prefix ms l :
  Forall (fun m => ti_text m <> None) ms -> take (length ms) l = ms -> l !! length ms = Some no_tray_menu ->
  tray._tray_menu l = Ret (widget_of <$> ms).
Proof.
  intros Hms. revert l. induction Hms as [|m ms Hm _ IH]; intros [|x l] Ht Hl; try done.
  - by injection Hl as ->.
  - injection Ht as -> Ht. rewrite (tray_menu_cons _ _ Hm), (IH l Ht Hl). done.
Qed.
Lemma tray_menu_unterminated l :
  Forall (fun m => ti_text m <> None) l -> tray._tray_menu l = Undef.
Proof.
  induction 1 as [|m l Hm _ IH]; [done|]. by rewrite (tray_menu_cons _ _ Hm), IH.
Qed.
End tray.

(** setTray puts the first fifty items into the menu array of fifty entries;
    an entry that ends the menu follows them only when there are fewer. *)
Lemma tray_menu_terminated `{Platform} (items : list json) (ms : list tray_menu) (w : World)
    (Hr : Forall2 reads_as items ms) (Hl : length (tray_menus (w_os w)) = NEU_MAX_TRAY_MENU_ITEMS)
    (Ht : Forall (fun m => ti_text m <> None) ms) :
  exists l, setTray_menus (JArr items) w = (Ret tt, upd_os (set_menus (fun _ => l)) w) /\
    take (length ms) l = take NEU_MAX_TRAY_MENU_ITEMS ms /\
    (length items < NEU_MAX_TRAY_MENU_ITEMS -> l !! length items = Some no_tray_menu) /\
    (NEU_MAX_TRAY_MENU_ITEMS <= length items -> Forall (fun m => ti_text m <> None) l).
Proof.
  pose proof (Forall2_length _ _ _ Hr) as Hlen. unfold setTray_menus.
  change (jsize (JArr items)) with (length items). change (jelems (JArr items)) with items.
  cbn zeta.
  set (n := Nat.min (length items) NEU_MAX_TRAY_MENU_ITEMS).
  destruct (fill_menus_eq (take n items) (take n ms) 0 w) as (l & E & Hll & Hlk).
  { by apply Forall2_take. }
  { rewrite length_take, Hl. unfold n. lia. }
  assert (length (take n ms) = n) as Hn by (rewrite length_take; unfold n; lia).
  rewrite (M_bind_Ret _ _ _ _ _ E). rewrite Hn in Hlk. cbn [Nat.add] in Hlk.
  assert (forall j, j < n -> l !! j = ms !! j) as Hin.
  { intros j Hj. rewrite Hlk, decide_True by lia. rewrite Nat.sub_0_r. apply lookup_take_lt. lia. }
  destruct (n <? NEU_MAX_TRAY_MENU_ITEMS) eqn:En; zb.
  - exists (<[n:=no_tray_menu]> l). assert (n = length items) as Hni by (unfold n in *; lia).
    split_and!.
    + by destruct w as [? ? ? ? ? ? ? [] ? ? ? ? ?].
    + apply list_eq. intros j. destruct (decide (j < length ms)).
      * rewrite !lookup_take_lt by (unfold n in *; lia). rewrite list_lookup_insert_ne by lia.
        apply Hin. lia.
      * rewrite !lookup_take_ge by (unfold n in *; lia). symmetry.
        rewrite take_ge by (unfold n in *; lia). apply lookup_ge_None_2. lia.
    + intros _. rewrite <-Hni, list_lookup_insert, decide_True by lia. done.
    + unfold n in *. lia.
  - exists l. assert (n = NEU_MAX_TRAY_MENU_ITEMS) as Hni by (unfold n in *; lia).
    assert (l = take n ms) as ->.
    { apply list_eq. intros j. destruct (decide (j < n)).
      - by rewrite Hin, lookup_take_lt by done.
      - rewrite !lookup_ge_None_2 by lia. done. }
    split_and!; [done| |lia|].
    + rewrite take_take, Hni. f_equal. lia.
    + intros _. by apply Forall_take.
Qed.

(** C40: with an initialized tray, fewer than fifty items are shown as they are, in
    their order, after the icon; with fifty or more the array of the menu has no
    entry that ends it, and the library reads past its end. *)
Theorem tray_menu_shown `{Platform} (items : list json) (ms : list tray_menu) (w : World)
    (Hr : Forall2 reads_as items ms) (Hl : length (tray_menus (w_os w)) = NEU_MAX_TRAY_MENU_ITEMS)
    (Ht : Forall (fun m => ti_text m <> None) ms) (Hini : trayInitialized (w_os w) = true) :
  let call := setTray (JObj [("menuItems", JArr items)]) w in
  (length items < NEU_MAX_TRAY_MENU_ITEMS ->
     fst call = Ret (mk_obj [("success", JBool true)]) /\
     w_sys (snd call) = gui (IndicatorMenu (widget_of <$> ms))
                            (gui (IndicatorIcon (tray_icon (w_os w))) (w_sys w))) /\
  (NEU_MAX_TRAY_MENU_ITEMS <= length items -> fst call = Undef).
Proof.
  destruct (tray_menu_terminated items ms w Hr Hl Ht) as (l & E & Htake & Hend & Hno).
  pose proof (Forall2_length _ _ _ Hr) as Hlen.
  cbn zeta. unfold setTray. replace (hasField _ "menuItems") with true by done.
  replace (hasField _ "icon") with false by done.
  rewrite (M_bind_Ret _ _ w tt (upd_os (set_menus (fun _ => l)) w)).
  2: { rewrite (M_bind_Ret _ _ w (JArr items) w) by done. exact E. }
  unfold get_os, tray.tray_update, tray.indicator_do, sys_call. munfold. cbn. rewrite Hini. cbn. split.
  - intros Hn. rewrite (tray_menu_prefix ms l Ht); [cbn; by rewrite Hini| |by rewrite <-Hlen; apply Hend].
    rewrite Htake. apply take_ge. lia.
  - intros Hn. by rewrite (tray_menu_unterminated l (Hno Hn)).
Qed.

Section tray_witness.
#[local] Existing Instance demo.

Definition demo_item : json := JObj [("id", JStr "quit"); ("text", JStr "Quit")].
Definition demo_menu : tray_menu := TrayMenu (Some "quit") (Some "Quit") false false.

Lemma tray_menu_terminated_witness :
  exists l, setTray_menus (JArr (replicate 50 demo_item)) demo_world
            = (Ret tt, upd_os (set_menus (fun _ => l)) demo_world) /\
    Forall (fun m => ti_text m <> None) l.
Proof.
  destruct (tray_menu_terminated (replicate 50 demo_item) (replicate 50 demo_menu) demo_world)
    as (l & E & _ & _ & Hf).
  - apply Forall2_replicate. intros w. reflexivity.
  - reflexivity.
  - by apply Forall_replicate.
  - exists l. split; [exact E|]. apply Hf. rewrite length_replicate. unfold NEU_MAX_TRAY_MENU_ITEMS. lia.
Defined.

Definition tray_world : World := upd_os (set_tray true (Some "/app/icon.png")) demo_world.

Lemma tray_menu_shown_witness :
  w_sys (snd (setTray (JObj [("menuItems", JArr [demo_item])]) tray_world))
  = gui (IndicatorMenu [TrayItem demo_menu]) (gui (IndicatorIcon (Some "/app/icon.png")) mem0) /\
  fst (setTray (JObj [("menuItems", JArr (replicate 50 demo_item))]) tray_world) = Undef.
Proof.
  split.
  - apply (tray_menu_shown [demo_item] [demo_menu] tray_world);
      [by repeat constructor|reflexivity|by repeat constructor|reflexivity|].
    unfold NEU_MAX_TRAY_MENU_ITEMS. cbn. lia.
  - apply (tray_menu_shown (replicate 50 demo_item) (replicate 50 demo_menu) tray_world);
      [by apply Forall2_replicate|reflexivity|by apply Forall_replicate|reflexivity|].
    rewrite length_replicate. unfold NEU_MAX_TRAY_MENU_ITEMS. lia.
Defined.
End tray_witness.

(** ** The environment *)

Lemma split_go_line n cur l c r :
  (1 <= n)%Z ->
  2 <= length (split_go "010"%char 2 n cur (l ++ "010"%char :: c :: r)).
Proof.
  assert (forall b : bool, (if b then "010"%char else "010"%char) = "010"%char) as Eb by by intros [].
  revert n cur; induction l as [|x l IH]; intros n cur Hn.
  - cbn [app]. remember (c :: r) as t eqn:Et. cbn [split_go].
    rewrite decide_True by done. cbn [length]. apply le_n_S, split_go_nonempty. right. by subst.
  - cbn [app split_go]. rewrite Eb. destruct (decide (x = "010"%char)) as [->|]; [|by apply IH].
    cbn [length]. specialize (IH (n + 1)%Z [] ltac:(lia)). lia.
Qed.

(** GetEnvs reports an entry [key=value] of the environment as it is, unless
    the value has a line break: then it reports the empty value. *)
Theorem env_entry_value (key value : string)
    (Hk : Forall (fun c => c <> "="%char) (to_list key)) (Hv : value <> "") :
  (Forall (fun c => c <> "010"%char) (to_list value) ->
     env_entry (key +:+ "=" +:+ value) = Ret (key, value)) /\
  (forall u v, value = u +:+ String "010" v -> v <> "" -> env_entry (key +:+ "=" +:+ value) = Ret (key, "")).
Proof.
  change (key +:+ "=" +:+ value) with (key +:+ String "=" value). split.
  - intros Hn. unfold env_entry. by rewrite splitTwo_spec.
  - intros u v -> Hne. unfold env_entry, splitTwo, split_n.
    rewrite to_list_app, split_go_app by done. cbn [to_list String.list_ascii_of_string].
    cbn [split_go app]. rewrite decide_True by done. rewrite of_to_list.
    change (negb (2 =? wrapU 32 (-1))%Z && (0 + 1 =? wrapU 32 (2 - 1))%Z) with true. cbn iota.
    destruct v as [|c v]; [done|]. rewrite to_list_app. cbn [to_list String.list_ascii_of_string].
    pose proof (split_go_line 1 [] (to_list u) c (to_list v) ltac:(lia)) as Hl.
    change (0 + 1)%Z with 1%Z.
    destruct (split_go "010"%char 2 1 [] _) as [|a [|b l]]; simpl in Hl; try lia. done.
Qed.

Lemma env_entry_value_witness :
  env_entry ("PATH" +:+ "=" +:+ "/bin=x") = Ret ("PATH", "/bin=x").
Proof.
  apply (env_entry_value "PATH" "/bin=x"); [|done|]; cbn; repeat constructor; done.
Defined.
