(* ===== verification/ChildFacts.v ===== *)
(** * Facts about child processes

    What the shell is given, what is read of the output, and the descriptors. *)

From S2P Require Import Prelude Strings OMap Outcome Json Errors State MemPlatform Triple.
From S2P Require Import Helpers Process Os OptionsFacts ConnectionsFacts ProcessFacts.
From stdpp Require Import gmultiset.
From Stdlib Require Import Ascii.
Import tinyprocess os.

(** ** The working directory of a command *)

(** A word as the shell reads it (POSIX.1, Shell Command Language 2.2): literal between
    apostrophes, a backslash outside of them quotes a character, a blank ends it. *)
Definition push (c : ascii) (r : option (string * string)) : option (string * string) :=
  (fun p => (String c p.1, p.2)) <$> r.
Fixpoint sh_word (quoted : bool) (s : string) : option (string * string) :=
  match s with
  | EmptyString => if quoted then None else Some (EmptyString, EmptyString)
  | String c r =>
      if quoted then
        if decide (c = apostrophe) then sh_word false r else push c (sh_word true r)
      else if decide (c = apostrophe) then sh_word true r
      else if decide (c = "\"%char) then
        match r with String d r => push d (sh_word false r) | EmptyString => Some ("\", EmptyString) end
      else if decide (c = " "%char) then Some (EmptyString, s)
      else push c (sh_word false r)
  end.

Lemma sh_word_escaped path rest : sh_word true (path_escaped path +:+ String apostrophe rest) =
  (fun p => (path +:+ p.1, p.2)) <$> sh_word false rest.
Proof.
  induction path as [|c path IH].
  - change (path_escaped "" +:+ String apostrophe rest) with (String apostrophe rest).
    cbn [sh_word]. rewrite decide_True by done. by destruct (sh_word false rest) as [[]|].
  - cbn [path_escaped]. destruct (decide (c = apostrophe)) as [->|Hc].
    + change (("'\''" +:+ path_escaped path) +:+ String apostrophe rest)
        with ("'\''" +:+ (path_escaped path +:+ String apostrophe rest)).
      change (sh_word true ("'\''" +:+ ?s)) with (push apostrophe (sh_word true s)).
      rewrite IH. by destruct (sh_word false rest).
    + change (String c (path_escaped path) +:+ String apostrophe rest)
        with (String c (path_escaped path +:+ String apostrophe rest)).
      cbn [sh_word]. rewrite decide_False, IH by done. by destruct (sh_word false rest).
Qed.



(** ** The output *)

(** what an entry gives in the turns, and whether nothing comes after the other end is
    gone or a read has failed *)
Definition bytes_of (ev : poll_event) : string :=
  match pv_in ev with Some (ReadData bytes) => bytes | _ => EmptyString end.
Fixpoint data_of (evs : list poll_event) : string :=
  match evs with [] => EmptyString | ev :: evs => bytes_of ev +:+ data_of evs end.
Fixpoint drained (evs : list poll_event) : bool :=
  match evs with
  | [] => true
  | ev :: evs =>
      if pv_hup ev || match pv_in ev with Some ReadError => true | _ => false end
      then isempty (data_of evs) else drained evs
  end.

Lemma output_of_app b l l' : output_of b (l ++ l') = output_of b l +:+ output_of b l'.
Proof.
  unfold output_of. induction l as [|[c s] l IH]; [done|]. cbn [foldr app fst snd]. rewrite IH. destruct (Bool.eqb c b); [by rewrite sapp_assoc|done].
Qed.

Lemma drained_tail ev evs : pv_hup ev = false -> pv_in ev <> Some ReadError -> drained (ev :: evs) = drained evs.
Proof. intros Hh Hi. cbn. rewrite Hh. by destruct (pv_in ev) as [[]|]. Qed.

(** an entry that is closed, or has all of its data before it is *)
Definition good (is_open : bool) (evs : list poll_event) : bool :=
  if is_open then drained evs else isempty (data_of evs).
Lemma poll_one_good b o ev evs : good o (ev :: evs) = true ->
  output_of b (poll_one b o ev).1 = (if o then bytes_of ev else "") /\
  output_of (negb b) (poll_one b o ev).1 = "" /\ good (poll_one b o ev).2 evs = true.
Proof.
  unfold poll_one, good. destruct o; cbn [negb].
  - cbn [drained]. destruct ev as [[[bytes| | |]|] hup]; cbn;
      rewrite ?orb_false_r, ?orb_true_r; destruct hup; cbn;
      rewrite ?Bool.eqb_reflx, ?sapp_nil_r; destruct b; done.
  - cbn [data_of]. rewrite isempty_spec. intros E. split_and!; [done..|].
    apply isempty_spec. by destruct (bytes_of ev).
Qed.
Lemma good_closed evs : good false evs = true -> data_of evs = "".
Proof. apply isempty_spec. Qed.
Lemma good_data o ev evs : good o (ev :: evs) = true -> (if o then bytes_of ev else "") +:+ data_of evs = data_of (ev :: evs).
Proof.
  destruct o; [done|]. intros E%good_closed. cbn [data_of] in E |- *.
  destruct (bytes_of ev) as [|c s]; [done|]. by cbn in E.
Qed.

(** The handlers are given every byte of both outputs, in its order. *)
Lemma read_loop_all turns : forall oo eo,
  good oo turns.*1 = true -> good eo turns.*2 = true ->
  output_of true (read_loop oo eo turns) = data_of turns.*1 /\
  output_of false (read_loop oo eo turns) = data_of turns.*2.
Proof.
  induction turns as [|[ev1 ev2] turns IH]; intros oo eo H1 H2.
  - by destruct oo, eo.
  - cbn [read_loop fmap list_fmap fst snd] in *.
    destruct (poll_one_good true oo ev1 _ H1) as (A1 & B1 & C1).
    destruct (poll_one_good false eo ev2 _ H2) as (A2 & B2 & C2).
    destruct (negb (oo || eo)) eqn:Eo.
    + apply negb_true_iff, orb_false_iff in Eo as [-> ->]. split; symmetry; by apply good_closed.
    + destruct (poll_one true oo ev1) as [c1 oo'], (poll_one false eo ev2) as [c2 eo']. cbn [fst snd negb] in *.
      destruct (IH oo' eo' C1 C2) as [E1 E2].
      rewrite !output_of_app, A1, A2, B1, B2, E1, E2. cbn [app]. split; by apply good_data.
Qed.

(** Reading stops when the other end is gone: what did not fit into the buffer of that turn is lost. *)
Lemma read_loop_loses bytes more :
  output_of true (read_loop true true
    [(PollEvent (Some (ReadData bytes)) true, PollEvent None true); (PollEvent (Some (ReadData more)) true, PollEvent None true)])
  = bytes.
Proof. cbn. by rewrite sapp_nil_r. Qed.

(** the status of a process that ended with an exit code, and of one that a signal ended *)
Lemma exit_status_code code : (0 <= code <= 255)%Z ->
  (if (256 <=? code * 256)%Z then Z.shiftr (code * 256) 8 else code * 256)%Z = code.
Proof.
  intros Hc. destruct (Z.leb_spec 256 (code * 256)); [|lia].
  rewrite Z.shiftr_div_pow2 by lia. change (2 ^ 8)%Z with 256%Z. by rewrite Z.div_mul.
Qed.

Section exec.
Context `{Platform}.

Lemma close_fds_calls p w turns calls q w' : fd_ready p -> p_thread p = true ->
  (forall out err y, fst (pl_polls out err y) = turns) ->
  close_fds p w = (Ret (calls, q), w') -> calls = read_loop true true turns.
Proof.
  intros (_ & _ & _ & H4) Ht Hp. unfold close_fds, join_thread. rewrite Ht.
  destruct (H4 Ht) as (_ & [o Eo] & [e Ee]). rewrite Eo, Ee. intros (c & w1 & E1 & E)%M_bind_inv.
  destruct o as [o|], e as [e|]; try done.
  apply M_bind_inv in E1 as (t & w2 & E1 & [= <- <-]). unfold sys_call in E1.
  specialize (Hp o e (w_sys w)). destruct (pl_polls o e (w_sys w)) as [t' y]. cbn in Hp. subst t'.
  injection E1 as <- <-. apply M_bind_inv in E as (p1 & w3 & _ & E).
  apply M_bind_inv in E as ([] & w4 & _ & E). apply M_bind_inv in E as ([] & w5 & _ & E). by injection E.
Qed.
Lemma close_fds_closed p w calls q w' : p_thread p = false -> close_fds p w = (Ret (calls, q), w') -> calls = [].
Proof.
  intros Ht. unfold close_fds, join_thread. rewrite Ht. intros (c & w1 & [= <- <-] & E)%M_bind_inv.
  apply M_bind_inv in E as (p1 & w3 & _ & E).
  apply M_bind_inv in E as ([] & w4 & _ & E). apply M_bind_inv in E as ([] & w5 & _ & E). by injection E.
Qed.
Lemma status_code p w turns code r w' : fd_ready p -> p_thread p = true -> (0 < p_id p)%Z -> (0 <= code <= 255)%Z ->
  (forall out err y, fst (pl_polls out err y) = turns) ->
  (forall pid y, fst (pl_waitpid pid y) = WaitStatus (code * 256)) ->
  get_exit_status p w = (Ret r, w') ->
  exists q, r = (code, read_loop true true turns, q) /\ p_thread q = false.
Proof.
  intros Hr Ht Hi Hc Hp Hw. unfold get_exit_status. rewrite (proj2 (Z.leb_gt _ _)) by lia.
  intros (st & w1 & E1 & E)%M_bind_inv. unfold sys_call in E1. specialize (Hw (p_id p) (w_sys w)).
  destruct (pl_waitpid _ _) as [st' y]. cbn in Hw. subst st'. injection E1 as <- <-.
  rewrite exit_status_code in E by done. cbv zeta in E.
  apply M_bind_inv in E as ([calls q] & w2 & E2 & E). injection E as <- <-.
  exists q. rewrite (close_fds_calls (set_closed code p) _ turns calls q w2 Hr Ht Hp E2). split; [done|].
  unfold close_fds in E2. apply M_bind_inv in E2 as (c & w3 & _ & E2). apply M_bind_inv in E2 as (p1 & w4 & _ & E2).
  apply M_bind_inv in E2 as ([] & w5 & _ & E2). apply M_bind_inv in E2 as ([] & w6 & _ & E2). by injection E2 as _ <-.
Qed.
End exec.

(** C20: a command in the foreground returns the exit code of its process and all that the
    process wrote to its two outputs, each in its order, however the reads of the two
    are cut and mixed; a turn in which the other end is gone must leave nothing behind. *)
Theorem exec_result `{Platform} (command : string) (options : ChildProcessOptions) (w : World) (code : Z)
    (turns : list (poll_event * poll_event)) (Hst : processes_start) (Hb : po_background options = false)
    (Hc : (0 <= code <= 255)%Z) (Hw : forall pid y, fst (pl_waitpid pid y) = WaitStatus (code * 256))
    (Hp : forall out err y, fst (pl_polls out err y) = turns)
    (Ho : drained turns.*1 = true) (He : drained turns.*2 = true) :
  exists r w', execCommand command options w = (Ret r, w') /\ (0 < cr_pid r)%Z /\ cr_exitCode r = code /\
    cr_stdOut r = data_of turns.*1 /\ cr_stdErr r = data_of turns.*2.
Proof.
  destruct (exec_returns command options w Hst) as (r & y & E). exists r. eexists. split; [exact E|].
  revert E. unfold execCommand. rewrite Hb. cbv zeta. cbn [negb].
  destruct (process_starts command (po_cwd options) (environment_of (po_envs options))
    (negb (isempty (po_stdIn options))) true w Hst) as (p & y1 & E1 & Hr & Hos & Hi & Ht).
  rewrite (M_bind_Ret _ _ _ _ _ E1). intros (q & w2 & E2 & E)%M_bind_inv.
  assert (fd_ready q /\ p_thread q = true /\ p_id q = p_id p) as (Hq & Htq & Hiq).
  { destruct (negb _); [|injection E2 as <- _; done].
    apply M_bind_inv in E2 as (ok & w3 & _ & E2). destruct (close_stdin_ready p w3 Hr) as [y3 E3].
    rewrite E3 in E2. injection E2 as <- _. split; [by apply ready_no_stdin|done]. }
  apply M_bind_inv in E as ([[code' calls] q'] & w3 & E3 & E).
  destruct (status_code q w2 turns code _ _ Hq Htq ltac:(lia) Hc Hp Hw E3) as (q1 & [= -> -> ->] & Hq1).
  apply M_bind_inv in E as ([calls' q2] & w4 & E4 & E).
  rewrite (close_fds_closed _ _ _ _ _ Hq1 E4), app_nil_r in E. injection E as <- _. cbn.
  destruct (read_loop_all turns true true Ho He) as [-> ->]. done.
Qed.

Section exec_witness.

(** a command that prints to both outputs, in pieces, and exits with 3 *)
Definition demo_turns : list (poll_event * poll_event) :=
  [(PollEvent (Some (ReadData "ab")) false, PollEvent None false);
   (PollEvent (Some ReadAgain) false, PollEvent (Some (ReadData "e")) true);
   (PollEvent (Some (ReadData "c")) true, PollEvent None true)].
#[local] Instance printing : Platform := demo_with (mem_proc_of demo_turns (3 * 256)).

Lemma exec_result_witness :
  exists r w', execCommand "make" default_process_options (world0 (H := printing) mem0) = (Ret r, w') /\ (0 < cr_pid r)%Z /\
    cr_exitCode r = 3%Z /\ cr_stdOut r = "abc" /\ cr_stdErr r = "e".
Proof.
  apply (exec_result "make" default_process_options (world0 (H := printing) mem0) 3 demo_turns); try reflexivity; [|lia].
  split; [intros y; by eexists _, _, _|]. intros im y. cbn. lia.
Defined.
End exec_witness.

(** ** Descriptors *)

(** [fds] counts the open descriptors of the program: [pipe] opens two, [close] closes
    one that is open, and the other calls leave them alone.  A pid is not 0. *)
Record fd_laws `{Platform} (fds : sys -> gmultiset Z) : Prop := {
  fl_pipe y r w y' : pl_pipe y = (Some (r, w), y') -> fds y' = {[+ r; w +]} ⊎ fds y;
  fl_no_pipe y y' : pl_pipe y = (None, y') -> fds y' = fds y;
  fl_close fd y : fd ∈ fds y -> fds y = {[+ fd +]} ⊎ fds (pl_close fd y);
  fl_fork im y : fds (snd (pl_fork im y)) = fds y;
  fl_pid im y : fst (pl_fork im y) <> 0%Z;
  fl_write fd bytes y : fds (snd (pl_write fd bytes y)) = fds y;
  fl_kill pid sig y : fds (pl_kill pid sig y) = fds y;
  fl_wait pid y : fds (snd (pl_waitpid pid y)) = fds y;
  fl_polls out err y : fds (snd (pl_polls out err y)) = fds y;
  fl_stdout bytes y : fds (sys_stdout bytes y) = fds y;
  fl_stderr bytes y : fds (sys_stderr bytes y) = fds y
}.

#[local] Arguments gmultiset_disj_union : simpl never.
#[local] Arguments gmultiset_singleton : simpl never.
#[local] Arguments gmultiset_elem_of : simpl never.

Section descriptors.
Context `{Platform} (fds : sys -> gmultiset Z) (Hl : fd_laws fds).

Definition opened (w : World) : gmultiset Z := fds (w_sys w).

(** the descriptors of an object *)
Definition cell_fds (c : option (option Z)) : gmultiset Z := match c with Some (Some fd) => {[+ fd +]} | _ => ∅ end.
Definition holds (p : State.Process) : gmultiset Z :=
  if (0 <? p_id p)%Z then cell_fds (p_stdin p) ⊎ cell_fds (p_stdout p) ⊎ cell_fds (p_stderr p) else ∅.
Definition end_fds (q : option Z) : gmultiset Z := match q with Some fd => {[+ fd +]} | None => ∅ end.
Definition pipe_fds (q : option (Z * Z)) : gmultiset Z := match q with Some (r, w) => {[+ r; w +]} | None => ∅ end.

Lemma close_opened fd w X : opened w = {[+ fd +]} ⊎ X -> opened (upd_sys (pl_close fd) w) = X.
Proof.
  unfold opened. cbn. intros E. assert (fd ∈ fds (w_sys w)) as Hin by (rewrite E; multiset_solver).
  apply (fl_close _ Hl) in Hin. rewrite E in Hin. by apply (inj (disj_union {[+ fd +]})) in Hin.
Qed.
Lemma close_end_opened q w w' X : close_end q w = (Ret tt, w') -> opened w = end_fds q ⊎ X -> opened w' = X.
Proof.
  destruct q as [fd|]; cbn; [|intros [= <-] ->; multiset_solver].
  unfold close, sys_call. intros [= <-]. apply (close_opened fd w X).
Qed.
Lemma close_pipe_opened q w w' X : close_pipe q w = (Ret tt, w') -> opened w = pipe_fds q ⊎ X -> opened w' = X.
Proof.
  unfold close_pipe. intros ([] & w1 & E1 & E2)%M_bind_inv Hw.
  apply (close_end_opened _ _ _ _ E2), (close_end_opened _ _ _ _ E1). rewrite Hw. destruct q as [[r wr]|]; multiset_solver.
Qed.
Lemma close_fd_opened p fd w w' X : close_fd p fd w = (Ret tt, w') ->
  opened w = (if (0 <? p_id p)%Z then cell_fds fd else ∅) ⊎ X -> opened w' = X.
Proof.
  unfold close_fd. destruct fd as [[fd|]|]; destruct (0 <? p_id p)%Z; cbn; try done;
    try (intros [= <-] ->; multiset_solver).
  unfold close, sys_call. intros [= <-]. apply (close_opened fd w X).
Qed.

Lemma pipe_for_opened b w r w' : pipe_for b w = (Ret r, w') ->
  match r with
  | None => opened w' = opened w
  | Some q => opened w' = pipe_fds q ⊎ opened w
  end.
Proof.
  unfold pipe_for, pipe, sys_call. destruct b; [|intros [= <- <-]; cbn; multiset_solver].
  munfold. destruct (pl_pipe (w_sys w)) as [[[x y]|] s] eqn:E; intros [= <- <-]; unfold opened; cbn.
  - apply (fl_pipe _ Hl _ _ _ _ E).
  - apply (fl_no_pipe _ Hl _ _ E).
Qed.

Lemma pipe_fds_ends q : pipe_fds q = end_fds (fst <$> q) ⊎ end_fds (snd <$> q).
Proof. destruct q as [[]|]; cbn; multiset_solver. Qed.
Lemma regroup (a b c d e f X : gmultiset Z) :
  (a ⊎ b) ⊎ (c ⊎ d) ⊎ (e ⊎ f) ⊎ X = a ⊎ (d ⊎ (f ⊎ ((b ⊎ c ⊎ e) ⊎ X))).
Proof. multiset_solver. Qed.

(** The constructor gives the object what it has opened, whatever fails. *)
Lemma process_opened command path e i r w p w' :
  tinyprocess.Process command path e i r w = (Ret p, w') -> opened w' = holds p ⊎ opened w.
Proof.
  unfold tinyprocess.Process, tinyprocess.open. intros (q & w1 & E & [= <- <-])%M_bind_inv. cbv zeta in E.
  change (holds (async_read q)) with (holds q).
  apply M_bind_inv in E as (r1 & w2 & E1%pipe_for_opened & E). destruct r1 as [q1|]; [|injection E as <- <-; rewrite E1; multiset_solver].
  apply M_bind_inv in E as (r2 & w3 & E2%pipe_for_opened & E). destruct r2 as [q2|].
  2: { apply M_bind_inv in E as ([] & w4 & E4 & [= <- <-]). apply (close_pipe_opened _ _ _ _ E4).
       rewrite E2, E1. unfold holds. cbn. multiset_solver. }
  apply M_bind_inv in E as (r3 & w4 & E3%pipe_for_opened & E). destruct r3 as [q3|].
  2: { apply M_bind_inv in E as ([] & w5 & E5 & E). apply M_bind_inv in E as ([] & w6 & E6 & [= <- <-]).
       apply (close_pipe_opened _ _ _ _ E6), (close_pipe_opened _ _ _ _ E5).
       rewrite E3, E2, E1. unfold holds. cbn. multiset_solver. }
  apply M_bind_inv in E as (pid & w5 & E4 & E). unfold sys_call in E4.
  set (image := child_image command path e (fst <$> q1) (snd <$> q2) (snd <$> q3)) in *.
  pose proof (fl_fork _ Hl image (w_sys w4)) as Hf. pose proof (fl_pid _ Hl image (w_sys w4)) as Hpid.
  destruct (pl_fork image (w_sys w4)) as [pid' y]. cbn in Hf, Hpid. injection E4 as -> <-.
  set (w5 := upd_sys (fun _ => y) w4) in *.
  assert (opened w5 = pipe_fds q1 ⊎ pipe_fds q2 ⊎ pipe_fds q3 ⊎ opened w) as H5.
  { change (opened w5) with (fds y). rewrite Hf. fold (opened w4). rewrite E3, E2, E1. multiset_solver. }
  destruct (Z.ltb_spec pid 0).
  - apply M_bind_inv in E as ([] & w6 & E6 & E). apply M_bind_inv in E as ([] & w7 & E7 & E).
    apply M_bind_inv in E as ([] & w8 & E8 & [= <- <-]).
    apply (close_pipe_opened _ _ _ _ E8), (close_pipe_opened _ _ _ _ E7), (close_pipe_opened _ _ _ _ E6).
    rewrite H5. unfold holds. cbn. multiset_solver.
  - apply M_bind_inv in E as ([] & w6 & E6 & E). apply M_bind_inv in E as ([] & w7 & E7 & E).
    apply M_bind_inv in E as ([] & w8 & E8 & [= <- <-]).
    apply (close_end_opened _ _ _ _ E8), (close_end_opened _ _ _ _ E7), (close_end_opened _ _ _ _ E6).
    rewrite H5, !pipe_fds_ends, regroup. do 3 f_equal. unfold holds. cbn [async_read p_id p_stdin p_stdout p_stderr].
    rewrite (proj2 (Z.ltb_lt 0 pid)) by lia. by destruct q1 as [[]|], q2 as [[]|], q3 as [[]|].
Qed.

Lemma split3 (a b c X : gmultiset Z) : a ⊎ b ⊎ c ⊎ X = a ⊎ (b ⊎ (c ⊎ X)).
Proof. multiset_solver. Qed.
Lemma holds_split p X : holds p ⊎ X =
  (if (0 <? p_id p)%Z then cell_fds (p_stdin p) else ∅) ⊎
  ((if (0 <? p_id p)%Z then cell_fds (p_stdout p) else ∅) ⊎
   ((if (0 <? p_id p)%Z then cell_fds (p_stderr p) else ∅) ⊎ X)).
Proof. unfold holds. destruct (0 <? p_id p)%Z; [apply split3|multiset_solver]. Qed.

Lemma close_stdin_opened p w q w' X :
  close_stdin p w = (Ret q, w') -> opened w = holds p ⊎ X -> opened w' = holds q ⊎ X.
Proof.
  unfold close_stdin. intros ([] & w1 & E & [= <- <-])%M_bind_inv Hw. rewrite holds_split in Hw.
  rewrite (close_fd_opened _ _ _ _ _ E Hw), holds_split. cbn. destruct (0 <? p_id p)%Z; multiset_solver.
Qed.
Lemma join_opened p w calls w' : join_thread p w = (Ret calls, w') -> opened w' = opened w.
Proof.
  unfold join_thread. destruct (p_thread p); [|by intros [= _ <-]].
  destruct (p_stdout p) as [[o|]|]; [|done..]. destruct (p_stderr p) as [[e|]|]; [|done..].
  intros (t & w1 & E & [= _ <-])%M_bind_inv. unfold sys_call in E.
  pose proof (fl_polls _ Hl o e (w_sys w)) as Hp. destruct (pl_polls o e (w_sys w)) as [t' y]. cbn in Hp.
  by injection E as _ <-.
Qed.
Lemma holds_no_fds p : holds (no_fds p) = ∅.
Proof. unfold holds. cbn. destruct (_ <? _)%Z; multiset_solver. Qed.
Lemma close_fds_opened p w calls q w' X :
  close_fds p w = (Ret (calls, q), w') -> opened w = holds p ⊎ X -> opened w' = X /\ holds q = ∅.
Proof.
  unfold close_fds. intros (c & w1 & E1%join_opened & E)%M_bind_inv Hw. rewrite <-E1 in Hw.
  apply M_bind_inv in E as (p1 & w2 & E2 & E). unfold close_stdin in E2.
  apply M_bind_inv in E2 as ([] & w2' & E2 & [= <- <-]).
  apply M_bind_inv in E as ([] & w3 & E3 & E). apply M_bind_inv in E as ([] & w4 & E4 & [= _ <- <-]).
  split; [|apply holds_no_fds]. rewrite holds_split in Hw.
  apply (close_fd_opened _ _ _ _ _ E4), (close_fd_opened _ _ _ _ _ E3), (close_fd_opened _ _ _ _ _ E2), Hw.
Qed.
Lemma write_opened bytes p w ok w' : write bytes p w = (Ret ok, w') -> opened w' = opened w.
Proof.
  unfold write. destruct (negb _); [done|]. destruct (p_stdin p) as [[fd|]|]; [|done|by intros [= _ <-]].
  unfold sys_call. pose proof (fl_write _ Hl fd bytes (w_sys w)) as Hp.
  destruct (pl_write fd bytes (w_sys w)) as [b y]. cbn in Hp. by intros [= _ <-].
Qed.
Lemma kill_opened p w w' : kill p w = (Ret tt, w') -> opened w' = opened w.
Proof.
  unfold kill, sys_call. destruct (_ && _); [|by intros [= <-]]. intros [= <-]. unfold opened. cbn. apply (fl_kill _ Hl).
Qed.
Lemma status_opened p w code calls q w' X :
  get_exit_status p w = (Ret (code, calls, q), w') -> opened w = holds p ⊎ X -> opened w' = holds q ⊎ X.
Proof.
  unfold get_exit_status. destruct (_ <=? _)%Z; [by intros [= _ _ <- <-]|].
  intros (r & w1 & E1 & E)%M_bind_inv Hw. unfold sys_call in E1.
  pose proof (fl_wait _ Hl (p_id p) (w_sys w)) as Hp. destruct (pl_waitpid _ _) as [r' y]. cbn in Hp.
  injection E1 as -> <-. set (w1 := upd_sys _ w) in *. assert (opened w1 = holds p ⊎ X) as H1 by (rewrite <-Hw; apply Hp).
  destruct r as [st|]; [|by injection E as _ _ <- <-]. cbv zeta in E.
  apply M_bind_inv in E as ([calls' q'] & w2 & E2 & [= _ _ <- <-]).
  destruct (close_fds_opened _ _ _ _ _ X E2 H1) as [-> ->]. multiset_solver.
Qed.

(** A command that was run leaves no descriptor open. *)
Lemma exec_opened command options w r w' : execCommand command options w = (Ret r, w') -> opened w' = opened w.
Proof.
  unfold execCommand. cbv zeta. intros (p & w1 & E1%process_opened & E)%M_bind_inv.
  apply M_bind_inv in E as (q & w2 & E2 & E).
  assert (opened w2 = holds q ⊎ opened w) as H2.
  { destruct (negb (isempty _)); [|by injection E2 as <- <-]. apply M_bind_inv in E2 as (ok & w3 & E3%write_opened & E2).
    apply (close_stdin_opened _ _ _ _ _ E2). by rewrite E3. }
  apply M_bind_inv in E as ([[code calls] q1] & w3 & E3 & E).
  assert (opened w3 = holds q1 ⊎ opened w) as H3.
  { destruct (negb (po_background options)); [by apply (status_opened _ _ _ _ _ _ _ E3)|by injection E3 as _ _ <- <-]. }
  apply M_bind_inv in E as ([calls' q2] & w4 & E4 & [= _ <-]).
  by destruct (close_fds_opened _ _ _ _ _ _ E4 H3).
Qed.

(** *** The table of processes *)

Fixpoint table_fds (l : list (Z * ChildProcess)) : gmultiset Z :=
  match l with [] => ∅ | (_, c) :: l => holds (cp_process c) ⊎ table_fds l end.

Lemma key_above (k id : Z) (c : ChildProcess) l :
  Forall (fun kv => kltb k kv.1 = true) l -> omap_get id l = Some c -> (k < id)%Z.
Proof.
  intros Hk E%omap_get_elem. rewrite Forall_forall in Hk. apply Z.ltb_lt, (Hk (id, c)).
  by apply list_elem_of_In.
Qed.
Lemma table_set_fresh id c l : omap_get id l = None ->
  table_fds (omap_set id c l) = holds (cp_process c) ⊎ table_fds l.
Proof.
  induction l as [|[k v] l IH]; cbn; [done|]. destruct (decide (id = k)); [done|]. intros E.
  destruct (id <? k)%Z; cbn; [done|]. rewrite (IH E). multiset_solver.
Qed.
Lemma table_set id c c0 l : omap_get id l = Some c0 -> omap_wf l ->
  table_fds (omap_set id c l) ⊎ holds (cp_process c0) = holds (cp_process c) ⊎ table_fds l.
Proof.
  induction l as [|[k v] l IH]; cbn; [done|]. destruct (decide (id = k)) as [->|Hne].
  - intros [= ->] _. cbn. multiset_solver.
  - intros E [Hk Hw]. pose proof (key_above _ _ _ _ Hk E).
    rewrite (proj2 (Z.ltb_ge id k)) by lia. cbn. specialize (IH E Hw). multiset_solver.
Qed.
Lemma table_del id c l : omap_get id l = Some c -> omap_wf l ->
  table_fds l = holds (cp_process c) ⊎ table_fds (omap_del id l).
Proof.
  induction l as [|[k v] l IH]; cbn; [done|]. destruct (decide (id = k)) as [->|Hne].
  - intros [= ->] [Hk _]. f_equal. rewrite omap_del_absent; [done|].
    destruct (omap_get k l) eqn:E; [|done]. pose proof (key_above _ _ _ _ Hk E). lia.
  - intros E [Hk Hw]. cbn. rewrite (IH E Hw). multiset_solver.
Qed.

(** what is open is what the processes of the table hold, and what was open before *)
Definition accounted (base : gmultiset Z) (w : World) : Prop := opened w = table_fds (procs w) ⊎ base.

Lemma opened_sends {A} (m : M A) w r w' : sends_only m -> m w = (r, w') -> opened w' = opened w.
Proof. intros Hm E. destruct (Hm w) as [l El]. rewrite E in El. cbn in El. by subst. Qed.
Lemma output_opened id c err bytes w w' : on_output id c err bytes w = (Ret tt, w') -> opened w' = opened w.
Proof.
  unfold on_output. intros ([] & w1 & E1 & E2)%M_bind_inv.
  assert (opened w1 = opened w) as <-.
  { destruct (cp_events c); [by apply (opened_sends _ _ _ _ (sends_dispatch _ _) E1)|by injection E1 as <-]. }
  destruct (cp_echo c); [|by injection E2 as <-]. unfold sys_call in E2. injection E2 as <-. unfold opened. cbn.
  destruct err; [apply (fl_stderr _ Hl)|apply (fl_stdout _ Hl)].
Qed.
Lemma outputs_opened id c calls w w' :
  mapM_ (fun c' => on_output id c (negb c'.1) c'.2) calls w = (Ret tt, w') -> opened w' = opened w.
Proof.
  revert w. induction calls as [|b calls IH]; intros w; cbn [mapM_]; [by intros [= <-]|].
  intros ([] & w1 & E1%output_opened & E2%IH)%M_bind_inv. congruence.
Qed.

Lemma proc_step_accounted base w w' : proc_step w w' -> ids_ok w -> accounted base w -> accounted base w'.
Proof.
  intros Hstep Hok Ha. unfold accounted in *. pose proof Hok as [Hwf _ _].
  destruct Hstep as [command options r w w' E|command options r w w' Hlt E|evt r w w' E|id c err bytes w w' Hc E|id c w w' Hc E].
  - rewrite (exec_opened _ _ _ _ _ E), Ha. unfold procs. by rewrite (same_os_apply _ _ _ _ (same_os_exec _ _) E).
  - apply spawn_inv in E as (p & w1 & E & _ & ->).
    pose proof (same_os_apply _ _ _ _ (same_os_process _ _ _ _ _) E) as Eo.
    apply process_opened in E. change (opened (upd_os _ w)) with (opened w) in E. rewrite Ha in E.
    change (opened (upd_os _ w1)) with (opened w1). rewrite E. unfold procs in *. cbn. rewrite Eo. cbn.
    rewrite table_set_fresh by by apply ids_fresh. cbn. multiset_solver.
  - apply update_inv in E as [->|(i & c & p & w1 & Ec & E & ->)]; [done|].
    assert (w_os w1 = w_os w) as Eo by (eapply same_os_apply; [|exact E]; destruct i; frame_go).
    change (opened (upd_os _ w1)) with (opened w1). unfold procs in *. cbn. rewrite Eo.
    pose proof (table_set (pe_id evt) (add_input i p c) c _ Ec Hwf) as Ht. cbn in Ht.
    assert (opened w1 ⊎ holds (cp_process c) = holds p ⊎ opened w) as H1.
    { pose proof (table_del _ _ _ Ec Hwf) as Hd. set (T := table_fds (omap_del _ _)) in Hd.
      assert (opened w = holds (cp_process c) ⊎ (T ⊎ base)) as Ho by (rewrite Ha, Hd; multiset_solver).
      clear Ha Ht Hd. destruct i as [bytes| |].
      - apply M_bind_inv in E as (ok & w2 & E%write_opened & [= <- <-]). rewrite E. multiset_solver.
      - rewrite (close_stdin_opened _ _ _ _ _ E Ho), Ho. multiset_solver.
      - apply M_bind_inv in E as ([] & w2 & E%kill_opened & [= <- <-]). rewrite E. multiset_solver. }
    clear Eo E. rewrite Ha in H1. set (T := table_fds (omap_set _ _ _)) in *. multiset_solver.
  - rewrite (output_opened _ _ _ _ _ _ E), Ha. unfold procs. by rewrite (same_os_apply _ _ _ _ (same_os_output _ _ _ _) E).
  - pose proof (table_del _ _ _ Hc Hwf) as Hd.
    assert (procs w' = omap_del id (procs w)) as -> by (unfold procs; by rewrite (exit_os _ _ _ _ E)).
    apply exit_inv in E as (code & calls & p1 & w1 & w2 & w3 & calls' & p' & w4 & E1 & E2 & -> & E4 & E5).
    rewrite (outputs_opened _ _ _ _ _ E5). rewrite Hd, <-(assoc_L _) in Ha.
    pose proof (status_opened _ _ _ _ _ _ _ E1 Ha) as H1.
    apply M_bind_inv in E2 as ([] & w5 & E2%outputs_opened & E3).
    assert (opened w2 = opened w5) as H2.
    { destruct (cp_events c); [by apply (opened_sends _ _ _ _ (sends_dispatch _ _) E3)|by injection E3 as <-]. }
    apply (close_fds_opened _ _ _ _ _ _ E4). change (opened (upd_os _ w2)) with (opened w2). congruence.
Qed.
End descriptors.

(** C21: no descriptor leaks: whatever commands were run, spawned, written to, killed or
    ended before, and whichever pipes and processes could not be made, the open
    descriptors are those that were open at first and those that the processes of the
    table hold; so none is left of a command that was run, or of a process that ended. *)
Theorem descriptors_accounted `{Platform} (fds : sys -> gmultiset Z) (Hl : fd_laws fds) (w0 w : World)
    (Hok : ids_ok w0) (He : procs w0 = []) (Hr : rtc proc_step w0 w) :
  fds (w_sys w) = table_fds (procs w) ⊎ fds (w_sys w0) /\ (procs w = [] -> fds (w_sys w) = fds (w_sys w0)).
Proof.
  assert (accounted fds (fds (w_sys w0)) w) as Ha.
  { assert (accounted fds (fds (w_sys w0)) w0) as H0.
    { unfold accounted. rewrite He. cbn. multiset_solver. }
    revert Hok H0. generalize (fds (w_sys w0)). clear He. induction Hr as [w1|w1 w2 w3 H12 _ IH]; [done|].
    intros base Hok H0. apply IH; [by eapply proc_step_ok|]. by eapply proc_step_accounted. }
  split; [exact Ha|]. intros E. unfold accounted, opened in Ha. rewrite E in Ha. rewrite Ha. cbn. multiset_solver.
Qed.

(** A process that cannot be started leaves a descriptor without a value behind, to
    which the input of the command is written. *)
Lemma failed_start_writes `{Platform} command options w y :
  po_stdIn options <> "" -> pl_pipe (w_sys w) = (None, y) -> fst (execCommand command options w) = Undef.
Proof.
  intros Hs Hp. unfold execCommand. destruct (po_stdIn options) as [|c s]; [done|]. cbv zeta. cbn [isempty negb].
  set (reads := negb (po_background options)). set (w1 := upd_sys (fun _ => y) w).
  set (p := MkProcess (-1) (-1) true true reads false (Some None) (new_fd reads) (new_fd reads)).
  assert (tinyprocess.Process command (po_cwd options) (environment_of (po_envs options)) true reads w = (Ret p, w1)) as E.
  { unfold tinyprocess.Process, tinyprocess.open. cbv zeta.
    rewrite (M_bind_Ret _ _ w p w1); [done|]. rewrite (M_bind_Ret _ _ w None w1); [done|].
    unfold pipe_for, pipe. cbv iota. rewrite (M_bind_Ret _ _ w None w1); [done|]. unfold sys_call. by rewrite Hp. }
  by rewrite (M_bind_Ret _ _ _ _ _ E).
Qed.

Section descriptors_witness.
#[local] Existing Instance demo.

Definition mem_fds (s : mem_sys) : gmultiset Z := list_to_set_disj (ms_fds s).
Lemma remove_one_spec fd l : fd ∈ l -> (list_to_set_disj l : gmultiset Z) = {[+ fd +]} ⊎ list_to_set_disj (remove_one fd l).
Proof.
  induction l as [|x l IH]; [by intros ?%elem_of_nil|]. cbn [remove_one list_to_set_disj].
  destruct (decide (x = fd)) as [->|Hne]; [done|]. intros [->|Hin]%elem_of_cons; [done|].
  cbn [list_to_set_disj]. rewrite (IH Hin). multiset_solver.
Qed.
Lemma mem_fd_laws : fd_laws (H := demo) mem_fds.
Proof.
  split; try done.
  - intros y r w y' [= <- <- <-]. unfold mem_fds. cbn. multiset_solver.
  - intros fd y Hin. apply remove_one_spec. unfold mem_fds in Hin. by apply elem_of_list_to_set_disj in Hin.
  - intros im y. cbn. lia.
Qed.

Lemma descriptors_accounted_witness :
  let w := snd (spawnProcess "sleep 1" default_process_options demo_world) in
  (length (ms_fds (w_sys w)) = 3)%nat /\ (exists c, omap_get 0%Z (procs w) = Some c) /\
  mem_fds (w_sys w) = table_fds (procs w) ⊎ mem_fds (w_sys demo_world) /\
  (procs w = [] -> mem_fds (w_sys w) = mem_fds (w_sys demo_world)).
Proof.
  intros w. split; [vm_compute; reflexivity|]. split; [eexists; vm_compute; reflexivity|].
  apply (descriptors_accounted (H := demo) mem_fds mem_fd_laws demo_world w).
  - split; [done|by intros id []|by vm_compute].
  - done.
  - apply rtc_once, (step_spawn "sleep 1" default_process_options (0, 7)%Z); [by vm_compute|].
    assert (fst (spawnProcess "sleep 1" default_process_options demo_world) = Ret (0, 7)%Z) as E
      by (vm_compute; reflexivity).
    unfold w. destruct (spawnProcess "sleep 1" default_process_options demo_world) as [r w1].
    cbn [fst snd] in *. by rewrite E.
Defined.
End descriptors_witness.
