(* ===== verification/SettingsFacts.v ===== *)
(** * The command line decides over the configuration file

    [cli_keys] are the JSON pointers that command-line arguments can set, those
    of the per-mode aliases included.  [sets a key] is the value that argument
    [a] gives the location [key]; the last argument that gives one decides. *)

From S2P Require Import Prelude Strings Regex OMap Outcome Json Errors State MemPlatform Helpers.
From S2P Require Import Options Settings OptionsFacts JsonFacts.
From Stdlib Require Import Ascii.
Import helpers settings settings_init.

Definition alias_keys (key : string) : list string :=
  if mem key cliMappingAliases then (fun mode => "/modes/" +:+ mode +:+ key) <$> getModes else [].
Definition cli_keys : list string :=
  concat ((fun m => m.2.1 :: alias_keys m.2.1) <$> cliMappings).
Definition toks (key : string) : list string :=
  match json_pointer.split key with Ret l => l | _ => [] end.

Lemma cli_keys_ok : Forall (fun k => json_pointer.split k = Ret (toks k) /\ toks k <> [] /\
                                     Forall key_token (toks k)) cli_keys.
Proof.
  assert (forallb (fun k => match json_pointer.split k with
            | Ret (t :: l) => bool_decide (Forall key_token (t :: l)) | _ => false end) cli_keys = true)
    as E by (vm_compute; reflexivity).
  rewrite forallb_forall in E. apply Forall_forall. intros k Hk%list_elem_of_In. specialize (E k Hk).
  unfold toks. destruct (json_pointer.split k) as [[|t l]| | | |]; try done.
  apply bool_decide_eq_true in E. done.
Qed.

Lemma cli_keys_apart k k' : k ∈ cli_keys -> k' ∈ cli_keys -> k = k' \/ apart (toks k) (toks k').
Proof.
  assert (forallb (fun k => forallb (fun k' =>
            bool_decide (k = k' \/ apart (toks k) (toks k'))) cli_keys) cli_keys = true)
    as E by (vm_compute; reflexivity).
  rewrite forallb_forall in E. intros Hk%list_elem_of_In Hk'%list_elem_of_In. specialize (E k Hk).
  rewrite forallb_forall in E. specialize (E k' Hk'). by apply bool_decide_eq_true in E.
Qed.

(** the options object has objects where the command line needs them *)
Definition cli_shape (o : json) : Prop := Forall (fun k => shape (toks k) o) cli_keys.

#[export] Instance cli_shape_dec o : Decision (cli_shape o).
Proof. apply _. Defined.

Lemma kept_cli_shape k o o' :
  k ∈ cli_keys -> present (toks k) o' -> kept (toks k) o o' -> cli_shape o -> cli_shape o'.
Proof.
  intros Hk Hp Hkept. unfold cli_shape. rewrite !Forall_forall. intros Hs k' Hk'.
  destruct (cli_keys_apart k k' Hk Hk') as [<-|Ha]; [by apply present_shape|].
  by apply Hkept, Hs.
Qed.

(** ** The values of an argument *)

Definition cli_value (convertTo value : string) : option json :=
  if decide (convertTo = "int") then
    match stoi value with inr z => Some (JInt z) | inl _ => None end
  else if decide (convertTo = "bool") then Some (JBool (bool_decide (value = "true") || isempty value))
  else Some (JStr value).

Definition sets (a : CliArg) (key : string) : option json :=
  match omap_get (arg_key a) cliMappings with
  | None => None
  | Some (k, convertTo) =>
      if bool_decide (arg_key a = "--mode") && negb (mem (arg_value a) getModes) then None
      else if decide (key ∈ k :: alias_keys k) then cli_value convertTo (arg_value a) else None
  end.

Definition last_set (args : list CliArg) (key : string) : option json :=
  last (omap (fun a => sets a key) args).

(** the numbers are numbers *)
Definition arg_ok (a : CliArg) : Prop :=
  match omap_get (arg_key a) cliMappings with
  | None => True
  | Some (_, convertTo) => is_Some (cli_value convertTo (arg_value a))
  end.

#[export] Instance arg_ok_dec a : Decision (arg_ok a).
Proof. unfold arg_ok. destruct (omap_get _ _) as [[]|]; apply _. Defined.

(** ** Overrides *)

Definition ov_value (o : ConfigOverride) : option json :=
  match override_value o with Ret v => Some v | _ => None end.
Definition ov_ok (o : ConfigOverride) : Prop := co_key o ∈ cli_keys /\ is_Some (ov_value o).
Definition ov_sets (os : list ConfigOverride) (key : string) : option json :=
  last (omap (fun o => if decide (co_key o = key) then ov_value o else None) os).

Lemma last_app_default {A} (l1 l2 : list A) (d : A) :
  default d (last (l1 ++ l2)) = default (default d (last l1)) (last l2).
Proof. rewrite last_app. by destruct (last l2). Qed.

Section overrides.
Context `{Platform}.

(** the options before and after: the locations of the command line *)
Definition same_cli (o o' : json) : Prop :=
  forall k, k ∈ cli_keys -> jget_path (toks k) o' = jget_path (toks k) o.

Lemma make_patch_spec (ov : ConfigOverride) (w : World) v :
  co_key ov ∈ cli_keys -> override_value ov = Ret v -> cli_shape (opts w) ->
  exists op o', op ∈ ["add"; "replace"] /\
    make_patch ov w = (Ret (write_op op (co_key ov) v), with_opts o' w) /\
    cli_shape o' /\ same_cli (opts w) o' /\ present (toks (co_key ov)) o' /\
    kept (toks (co_key ov)) (opts w) o'.
Proof.
  intros Hk Hv Hs. pose proof cli_keys_ok as Hok. rewrite Forall_forall in Hok.
  destruct (Hok _ Hk) as (Et & Hne & Htok).
  pose proof Hs as Hs'. unfold cli_shape in Hs'. rewrite Forall_forall in Hs'.
  destruct (get_unchecked_spec (toks (co_key ov)) Ret (opts w) _ (Hs' _ Hk) Htok eq_refl)
    as (o' & E & Hp & Hg & Hkept).
  exists (if is_null (jget_path (toks (co_key ov)) o') then "add" else "replace"), o'. split_and!.
  - destruct (is_null _); [by left|right; by left].
  - unfold make_patch, get_options, set_options. munfold. rewrite Et. simpl. fold (opts w).
    rewrite E. simpl. rewrite (at_pointer_present _ _ Hp). simpl. by rewrite Hv.
  - by eapply kept_cli_shape.
  - intros k Hk'. destruct (cli_keys_apart _ _ Hk Hk') as [<-|Ha]; [done|]. by apply Hkept.
  - done.
  - done.
Qed.

(** the operation [p] of the override [o] *)
Definition patch_of (o : ConfigOverride) (p : json) : Prop :=
  exists op v, op ∈ ["add"; "replace"] /\ ov_value o = Some v /\ p = write_op op (co_key o) v.

Lemma make_patches_spec os : forall (w : World),
  Forall ov_ok os -> cli_shape (opts w) ->
  exists ps o', make_patches os w = (Ret ps, with_opts o' w) /\ Forall2 patch_of os ps /\
    cli_shape o' /\ same_cli (opts w) o' /\
    Forall (fun o => present (toks (co_key o)) o') os /\
    forall k, k ∈ cli_keys -> present (toks k) (opts w) -> present (toks k) o'.
Proof.
  induction os as [|ov os IH]; intros w Hos Hs.
  - exists [], (opts w). rewrite with_opts_opts. by split_and!.
  - apply Forall_cons in Hos as [[Hk [v Hv]] Hos]. unfold ov_value in Hv.
    destruct (override_value ov) as [v'| | | |] eqn:Ev; simplify_eq.
    destruct (make_patch_spec ov w v Hk Ev Hs) as (op & o1 & Hop & E1 & Hs1 & Hg1 & Hp1 & Hk1).
    destruct (IH (with_opts o1 w) Hos Hs1) as (ps & o2 & E2 & Hps & Hs2 & Hg2 & Hp2 & Hpr2).
    exists (write_op op (co_key ov) v :: ps), o2. split_and!.
    + cbn [make_patches]. rewrite (M_bind_Ret _ _ _ _ _ E1), (M_bind_Ret _ _ _ _ _ E2). done.
    + constructor; [|done]. exists op, v. unfold ov_value. by rewrite Ev.
    + done.
    + intros k Hk'. rewrite Hg2 by done. by apply Hg1.
    + constructor; [|done]. by apply Hpr2.
    + intros k Hk' Hp. apply Hpr2; [done|]. simpl.
      destruct (cli_keys_apart _ _ Hk Hk') as [<-|Ha]; [done|]. by apply Hk1.
Qed.

Lemma patch_spec os ps : Forall2 patch_of os ps -> forall o,
  Forall ov_ok os -> Forall (fun ov => present (toks (co_key ov)) o) os ->
  exists o', json_patch.apply_operations ps o = Ret o' /\
    forall k, k ∈ cli_keys ->
      jget_path (toks k) o' = default (jget_path (toks k) o) (ov_sets os k).
Proof.
  induction 1 as [|ov p os ps (op & v & Hop & Hv & ->) _ IH]; intros o Hos Hpr; [by exists o|].
  apply Forall_cons in Hos as [[Hk _] Hos]. apply Forall_cons in Hpr as [Hpr1 Hpr].
  pose proof cli_keys_ok as Hok. rewrite Forall_forall in Hok. destruct (Hok _ Hk) as (Et & Hne & _).
  destruct (apply_write_spec op _ v _ o Hop Et Hne Hpr1) as (o1 & E1 & Hp1 & Hg1 & Hk1).
  destruct (IH o1 Hos) as (o2 & E2 & Hg2).
  { apply Forall_forall. intros ov' Hin. rewrite Forall_forall in Hpr, Hos.
    destruct (cli_keys_apart _ _ Hk (proj1 (Hos _ Hin))) as [<-|Ha]; [done|]. by apply Hk1, Hpr. }
  exists o2. split; [by cbn [json_patch.apply_operations]; rewrite E1|]. intros k Hk'. rewrite Hg2 by done.
  unfold ov_sets. simpl. destruct (decide (co_key ov = k)) as [<-|Hne'].
  - rewrite Hv, Hg1. symmetry. apply (last_app_default [v]).
  - destruct (cli_keys_apart _ _ Hk Hk') as [|Ha]; [done|].
    by rewrite (proj1 (Hk1 _ Ha)).
Qed.

Lemma apply_overrides_spec (w : World) os :
  configOverrides (w_settings w) = os -> Forall ov_ok os -> cli_shape (opts w) ->
  exists o', apply_overrides w = (Ret tt, with_opts o' w) /\
    forall k, k ∈ cli_keys ->
      jget_path (toks k) o' = default (jget_path (toks k) (opts w)) (ov_sets os k).
Proof.
  intros Eos Hos Hs. destruct (make_patches_spec os w Hos Hs) as (ps & o1 & E1 & Hps & _ & Hg1 & Hp1 & _).
  destruct (patch_spec os ps Hps o1 Hos Hp1) as (o2 & E2 & Hg2).
  unfold apply_overrides. rewrite (M_bind_Ret _ _ w os w) by (munfold; by rewrite Eos).
  rewrite (M_bind_Ret _ _ _ _ _ E1). destruct ps as [|p ps].
  - exists o1. split; [done|]. intros k Hk. rewrite <-Hg1 by done. simpl in E2. simplify_eq. by apply Hg2.
  - exists o2. split; [|intros k Hk; by rewrite <-Hg1, Hg2].
    rewrite (M_bind_Ret _ _ _ o1 (with_opts o1 w)) by done.
    rewrite (M_bind_Ret _ _ _ o2 (with_opts o1 w)) by (munfold; change (json_patch.patch (JArr (p :: ps)) o1) with (json_patch.apply_operations (p :: ps) o1); by rewrite E2). done.
Qed.
End overrides.

(** ** Arguments *)

Definition ovs_of (a : CliArg) : list ConfigOverride :=
  match omap_get (arg_key a) cliMappings with
  | None => []
  | Some (k, convertTo) =>
      if bool_decide (arg_key a = "--mode") && negb (mem (arg_value a) getModes) then []
      else (fun key => {| co_key := key; co_convertTo := convertTo;
              co_value := if bool_decide (convertTo = "bool") && isempty (arg_value a) then "true"
                          else arg_value a |}) <$> (k :: alias_keys k)
  end.

Lemma ov_value_cli key convertTo value :
  ov_value {| co_key := key; co_convertTo := convertTo;
              co_value := if bool_decide (convertTo = "bool") && isempty value then "true" else value |}
  = cli_value convertTo value.
Proof.
  unfold ov_value, override_value, cli_value. simpl.
  destruct (decide (convertTo = "int")) as [->|]; simpl; [by destruct (stoi value) as [[]|]|].
  destruct (decide (convertTo = "bool")) as [->|]; simpl.
  - destruct (isempty value); simpl; [by rewrite orb_true_r|by rewrite orb_false_r].
  - rewrite bool_decide_eq_false_2 by done. done.
Qed.

Lemma last_omap_key (key : string) (v : option json) l :
  last (omap (fun k => if decide (k = key) then v else None) l) = if decide (key ∈ l) then v else None.
Proof.
  set (f := fun k => if decide (k = key) then v else None).
  induction l as [|k l IH]; [done|].
  change (omap f (k :: l)) with (match f k with Some y => y :: omap f l | None => omap f l end).
  unfold f at 1. destruct (decide (k = key)) as [->|Hne].
  - rewrite (decide_True (P := key ∈ key :: l)) by constructor.
    destruct v as [v|]; rewrite ?last_cons, IH; by destruct (decide (key ∈ l)).
  - rewrite IH. destruct (decide (key ∈ l)) as [Hin|Hin].
    + rewrite decide_True by by constructor. done.
    + rewrite decide_False; [done|]. rewrite elem_of_cons. naive_solver.
Qed.

Lemma ovs_of_sets a key : ov_sets (ovs_of a) key = sets a key.
Proof.
  unfold ov_sets, ovs_of, sets. destruct (omap_get (arg_key a) cliMappings) as [[k convertTo]|]; [|done].
  destruct (bool_decide (arg_key a = "--mode") && _); [done|]. rewrite <-last_omap_key. f_equal.
  apply list_omap_ext, Forall2_fmap_l, Forall_Forall2_diag, Forall_true.
  intros x. unfold compose. cbn [co_key]. by rewrite ov_value_cli.
Qed.

Lemma ov_sets_app l1 l2 key :
  ov_sets (l1 ++ l2) key = match ov_sets l2 key with Some v => Some v | None => ov_sets l1 key end.
Proof. unfold ov_sets. by rewrite omap_app, last_app. Qed.

Lemma ovs_of_args args key : ov_sets (concat (ovs_of <$> args)) key = last_set args key.
Proof.
  induction args as [|a args IH] using rev_ind; [done|].
  rewrite fmap_app, concat_app. simpl. rewrite app_nil_r, ov_sets_app, ovs_of_sets, IH.
  unfold last_set. rewrite omap_app, last_app. simpl. by destruct (sets a key).
Qed.

Lemma ovs_of_ok a : arg_ok a -> Forall ov_ok (ovs_of a).
Proof.
  unfold arg_ok, ovs_of. destruct (omap_get (arg_key a) cliMappings) as [[k convertTo]|] eqn:E; [|done].
  intros Hv. destruct (bool_decide (arg_key a = "--mode") && _); [done|]. apply Forall_fmap, Forall_forall. intros key Hin.
  split; [|by simpl; rewrite ov_value_cli]. unfold cli_keys. rewrite list_elem_of_In, in_concat.
  exists (k :: alias_keys k). rewrite <-!list_elem_of_In. split; [|done].
  apply list_elem_of_fmap. exists (arg_key a, (k, convertTo)). split; [done|]. by apply omap_get_elem.
Qed.

Section args.
Context `{Platform}.

Definition ovs (w : World) : list ConfigOverride := configOverrides (w_settings w).

Lemma push_overrides (f : string -> ConfigOverride) l (w : World) :
  exists w', mapM_ (fun k => push_override (f k)) l w = (Ret tt, w') /\
    ovs w' = ovs w ++ (f <$> l) /\ opts w' = opts w.
Proof.
  revert w. induction l as [|k l IH]; intros w; [exists w; by rewrite app_nil_r|].
  cbn [mapM_]. rewrite (M_bind_Ret _ _ w tt (snd (push_override (f k) w))) by done.
  destruct (IH (snd (push_override (f k) w))) as (w' & E & Ho & Hop). exists w'.
  split_and!; [done| |done]. rewrite Ho. simpl. unfold ovs. simpl. by rewrite <-app_assoc.
Qed.

Lemma applyConfigOverride_spec a (w : World) :
  exists w', applyConfigOverride a w = (Ret tt, w') /\ ovs w' = ovs w ++ ovs_of a /\ opts w' = opts w.
Proof.
  unfold applyConfigOverride, ovs_of.
  destruct (omap_get (arg_key a) cliMappings) as [[k convertTo]|]; [|exists w; by rewrite app_nil_r].
  destruct (bool_decide (arg_key a = "--mode") && _); [eexists; split_and!; [done| |done]; by rewrite app_nil_r|].
  set (f := fun key => {| co_key := key; co_convertTo := convertTo;
    co_value := if bool_decide (convertTo = "bool") && isempty (arg_value a) then "true"
                else arg_value a |}).
  rewrite (M_bind_Ret _ _ w tt (snd (push_override (f k) w))) by done.
  change (f <$> k :: alias_keys k) with ([f k] ++ (f <$> alias_keys k)). rewrite app_assoc.
  change (ovs w ++ [f k]) with (ovs (snd (push_override (f k) w))).
  change (opts w) with (opts (snd (push_override (f k) w))).
  generalize (snd (push_override (f k) w)). intros w1. unfold alias_keys. destruct (mem k cliMappingAliases).
  - destruct (push_overrides (fun mode => f ("/modes/" +:+ mode +:+ k)) getModes w1) as (w' & E & Ho & Hop).
    exists w'. split_and!; [exact E| |done]. by rewrite Ho.
  - exists w1. by rewrite app_nil_r.
Qed.

Lemma applyConfigOverrides_spec args : forall (w : World),
  exists w', mapM_ applyConfigOverride args w = (Ret tt, w') /\
    ovs w' = ovs w ++ concat (ovs_of <$> args) /\ opts w' = opts w.
Proof.
  induction args as [|a args IH]; intros w; [exists w; by rewrite app_nil_r|].
  destruct (applyConfigOverride_spec a w) as (w1 & E1 & Ho1 & Hop1).
  destruct (IH w1) as (w2 & E2 & Ho2 & Hop2).
  exists w2. cbn [mapM_]. rewrite (M_bind_Ret _ _ _ _ _ E1). split_and!; [done| |by rewrite Hop2].
  rewrite Ho2, Ho1. simpl. by rewrite <-app_assoc.
Qed.
End args.

(** ** Aliases *)

Lemma alias_facts key mode :
  key ∈ cliMappingAliases -> mode ∈ getModes ->
  key ∈ cli_keys /\ ("/modes/" +:+ mode +:+ key) ∈ cli_keys /\
  toks ("/modes/" +:+ mode +:+ key) = "modes" :: mode :: toks key /\
  forall a, sets a ("/modes/" +:+ mode +:+ key) = sets a key.
Proof.
  assert (forallb (fun key => forallb (fun mode =>
      bool_decide (key ∈ cli_keys /\ ("/modes/" +:+ mode +:+ key) ∈ cli_keys /\
        toks ("/modes/" +:+ mode +:+ key) = "modes" :: mode :: toks key) &&
      forallb (fun m => Bool.eqb (bool_decide (("/modes/" +:+ mode +:+ key) ∈ m.2.1 :: alias_keys m.2.1))
                                 (bool_decide (key ∈ m.2.1 :: alias_keys m.2.1))) cliMappings)
      getModes) cliMappingAliases = true) as E by (vm_compute; reflexivity).
  rewrite forallb_forall in E. intros Hk%list_elem_of_In Hm%list_elem_of_In. specialize (E key Hk).
  rewrite forallb_forall in E. specialize (E mode Hm). apply andb_true_iff in E as [E1 E2].
  apply bool_decide_eq_true in E1 as (H1 & H2 & H3). split_and!; [done..|]. intros a. unfold sets.
  destruct (omap_get (arg_key a) cliMappings) as [[k convertTo]|] eqn:Eg; [|done].
  destruct (bool_decide (arg_key a = "--mode") && _); [done|]. rewrite forallb_forall in E2.
  specialize (E2 _ (proj1 (list_elem_of_In _ _) (omap_get_elem _ _ _ Eg))).
  apply eqb_prop in E2. cbn [snd fst] in E2.
  by do 2 case_bool_decide; repeat case_decide.
Qed.

Lemma sets_not_null a key v : sets a key = Some v -> is_null v = false.
Proof.
  unfold sets, cli_value. destruct (omap_get _ _) as [[k c]|]; [|done]. destruct (bool_decide (arg_key a = "--mode") && _); [done|].
  repeat case_decide; try done; try (destruct (stoi _)); by intros [= <-].
Qed.

Lemma last_omap_Some {A B} (f : A -> option B) l v : last (omap f l) = Some v -> exists a, f a = Some v.
Proof.
  intros E%last_Some_elem_of. apply list_elem_of_omap in E as (a & _ & E). by exists a.
Qed.

(** C16: the command line decides over the configuration file: every location of
    the options that arguments can set has the converted value of the last
    argument for it and, when there is none, the value of the file. An option with
    aliases in the modes is read with that value, whatever the mode is and
    whatever the file says for the mode. *)
Theorem command_line_wins `{Platform} (args : list CliArg) (w : World)
    (Hargs : Forall arg_ok args) (Hs : cli_shape (opts w)) (He : ovs w = []) :
  exists w', (mapM_ applyConfigOverride args ;; apply_overrides) w = (Ret tt, w') /\
    (forall key, key ∈ cli_keys ->
       jget_path (toks key) (opts w') = default (jget_path (toks key) (opts w)) (last_set args key)) /\
    (forall key name v, key ∈ cliMappingAliases -> toks key = [name] -> last_set args key = Some v ->
       pure_option name (opts w') = v).
Proof.
  destruct (applyConfigOverrides_spec args w) as (w1 & E1 & Ho1 & Hop1).
  destruct (apply_overrides_spec w1 (concat (ovs_of <$> args))) as (o' & E2 & Hg).
  { change (ovs w1 = concat (ovs_of <$> args)). by rewrite Ho1, He. }
  { apply Forall_concat, Forall_fmap. eapply Forall_impl; [exact Hargs|apply ovs_of_ok]. }
  { by rewrite Hop1. }
  assert (forall key, key ∈ cli_keys ->
    jget_path (toks key) o' = default (jget_path (toks key) (opts w)) (last_set args key)) as Hk.
  { intros key Hin. by rewrite Hg, Hop1, ovs_of_args. }
  exists (with_opts o' w1). split_and!; [by rewrite (M_bind_Ret _ _ _ _ _ E1)|done|].
  intros key name v Hal Ht Hv. simpl. change (opts (with_opts o' w1)) with o'.
  destruct (alias_facts key (appModeToStr (pure_mode o')) Hal) as (_ & Hin & Hmt & Hms).
  { apply mem_spec. by destruct (pure_mode o'). }
  assert (last_set args ("/modes/" +:+ appModeToStr (pure_mode o') +:+ key) = Some v) as Hv'.
  { rewrite <-Hv. unfold last_set. f_equal.
    apply list_omap_ext, Forall_Forall2_diag, Forall_true. apply Hms. }
  specialize (Hk _ Hin). rewrite Hmt, Ht, Hv' in Hk. unfold pure_option. rewrite Hk. simpl.
  apply last_omap_Some in Hv as [a Ha]. by rewrite (sets_not_null _ _ _ Ha).
Qed.

Section settings_witness.
#[local] Existing Instance demo.

Definition demo_args : list CliArg :=
  _parseArg <$> ["--port=80"; "--mode=cloud"; "--window-full-screen"; "--port=8080"].
Definition demo_config : json :=
  JObj [("defaultMode", JStr "window");
        ("modes", JObj [("cloud", JObj [("port", JInt 1)]); ("window", JObj [("width", JInt 640)])]);
        ("port", JInt 0)].

Lemma command_line_wins_witness :
  exists w', (mapM_ applyConfigOverride demo_args ;; apply_overrides) (with_opts demo_config demo_world)
             = (Ret tt, w') /\
    jget_path (toks "/defaultMode") (opts w') = JStr "cloud" /\
    jget_path (toks "/modes/window/fullScreen") (opts w') = JBool true /\
    jget_path (toks "/modes/window/width") (opts w') = JInt 640 /\
    pure_option "port" (opts w') = JInt 8080.
Proof.
  destruct (command_line_wins demo_args (with_opts demo_config demo_world)) as (w' & E & Hk & Hp).
  - apply (bool_decide_unpack _). vm_compute. reflexivity.
  - apply (bool_decide_unpack _). vm_compute. reflexivity.
  - reflexivity.
  - exists w'. split; [exact E|]. split_and!.
    1-3: rewrite Hk by (apply mem_spec; vm_compute; reflexivity); vm_compute; reflexivity.
    apply (Hp "/port"); [apply mem_spec|..]; vm_compute; reflexivity.
Defined.
End settings_witness.

(** ** The application id *)

Section collapse.
Context (p : ascii -> bool) (d : ascii).

(** of neighbours in the class, the last stays *)
Fixpoint collapse (l : list ascii) : list ascii :=
  match l with
  | [] => []
  | c :: l' => if p c && match l' with x :: _ => p x | [] => false end
               then collapse l' else c :: collapse l'
  end.

Lemma collapse_cons c l :
  collapse (c :: l) = if p c && match l with x :: _ => p x | [] => false end
                      then collapse l else c :: collapse l.
Proof. done. Qed.

(** [p{2,}] *)
Definition two_or_more : regex :=
  RCat (RCat (RCat (RSet p) (RCat (RSet p) REps)) (RStar (RSet p))) REps.

Hypothesis Hp : forall c, p c = true -> c = d.

Lemma collapse_run s v c :
  p c = true -> Forall (fun c => p c = true) s -> match v with [] => True | y :: _ => p y = false end ->
  collapse (c :: s ++ v) = d :: collapse v.
Proof.
  intros Hc Hs Hv. revert c Hc. induction Hs as [|x s Hx _ IH]; intros c Hc.
  - cbn [app collapse]. rewrite Hc. apply Hp in Hc as ->. by destruct v as [|y v]; [|rewrite Hv].
  - cbn [app]. rewrite collapse_cons, Hc, Hx. by apply IH.
Qed.

Lemma longest_run l : exists s v, l = s ++ v /\ Forall (fun c => p c = true) s /\
  match v with [] => True | y :: _ => p y = false end.
Proof.
  induction l as [|c l (s & v & -> & Hs & Hv)]; [by exists [], []|].
  destruct (p c) eqn:E.
  - exists (c :: s), v. split_and!; [done|by constructor|done].
  - by exists [], (c :: s ++ v).
Qed.

Lemma run_two c x s v i :
  p c = true -> p x = true -> Forall (fun c => p c = true) s ->
  match v with [] => True | y :: _ => p y = false end ->
  run two_or_more (fun j _ c => Some (MatchResult i j c)) i (c :: x :: s ++ v) []
  = Some (MatchResult i (S (S i) + length s) []).
Proof.
  intros Hc Hx Hs Hv. unfold two_or_more. remember (RStar (RSet p)) as star eqn:E.
  cbn [run]. rewrite Hc, Hx. subst star. by apply run_star_set_greedy.
Qed.

Lemma search_two l : forall i,
  match search_from two_or_more i l with
  | None => collapse l = l
  | Some m => exists u s v, l = u ++ s ++ v /\ s <> [] /\ m_begin m = i + length u /\
              m_end m = i + length u + length s /\ collapse l = u ++ d :: collapse v
  end.
Proof.
  induction l as [|c l IH]; intros i; [done|].
  destruct (p c && match l with x :: _ => p x | [] => false end) eqn:E.
  - apply andb_true_iff in E as [Hc Hx]. destruct l as [|x l]; [done|].
    destruct (longest_run l) as (s & v & -> & Hs & Hv).
    cbn [search_from]. rewrite (run_two c x s v i Hc Hx Hs Hv).
    exists [], (c :: x :: s), v. cbn [m_begin m_end]. simpl length.
    split_and!; [done|done|lia|lia|].
    apply (collapse_run (x :: s)); [done|by constructor|done].
  - assert (run two_or_more (fun j _ c => Some (MatchResult i j c)) i (c :: l) [] = None) as Hr.
    { cbn. destruct (p c); [|done]. destruct l as [|x l]; [done|]. simpl in E. by rewrite E. }
    cbn [search_from]. rewrite Hr. cbn [collapse]. rewrite E. specialize (IH (S i)).
    destruct (search_from two_or_more (S i) l) as [m|]; [|by rewrite IH].
    destruct IH as (u & s & v & -> & Hs & Hb & He & Hcl). exists (c :: u), s, v.
    split_and!; [done|done|simpl; lia|simpl; lia|by rewrite Hcl].
Qed.

Lemma replace_two s fuel : d <> "$"%char -> forall i l, length l < fuel ->
  replace_from two_or_more s (String d EmptyString) fuel i l = collapse l.
Proof.
  intros Hd. induction fuel as [|f IH]; intros i l Hl; [lia|]. cbn [replace_from].
  pose proof (search_two l i) as Hs. destruct (search_from two_or_more i l) as [m|]; [|done].
  destruct Hs as (u & t & v & -> & Ht & Hb & He & ->). rewrite Hb, He.
  assert (length t <> 0) as Htl by by destruct t.
  rewrite (proj2 (Nat.eqb_neq _ _)) by lia.
  replace (i + length u - i) with (length u) by lia.
  replace (i + length u + length t - i) with (length (u ++ t)) by (rewrite length_app; lia).
  rewrite take_app_length, (app_assoc u t v), drop_app_length.
  rewrite IH by (rewrite !length_app in Hl; lia). f_equal.
  assert (format (S (slen (String d EmptyString))) s m (S (group_count two_or_more))
            (to_list (String d EmptyString)) = [d]) as ->; [|done].
  cbn. destruct d as [[] [] [] [] [] [] [] []]; try done.
Qed.
End collapse.

Section no_pair.
Context (p : ascii -> bool).

Fixpoint no_pair (l : list ascii) : bool :=
  match l with
  | [] => true
  | c :: l' => negb (p c && match l' with x :: _ => p x | [] => false end) && no_pair l'
  end.

Lemma collapse_no_pair l : no_pair (collapse p l) = true /\
  (match collapse p l with [] => l = [] | x :: _ => match l with y :: _ => p y = p x | [] => False end end).
Proof.
  induction l as [|c l [IH Hh]]; [done|]. rewrite collapse_cons.
  destruct (p c && match l with x :: _ => p x | [] => false end) eqn:E.
  - apply andb_true_iff in E as [Hc Hx]. split; [done|]. destruct l as [|x l]; [done|].
    destruct (collapse p (x :: l)) as [|y m]; [done|]. congruence.
  - split; [|done]. cbn [no_pair]. rewrite IH, andb_true_r, negb_true_iff.
    destruct (collapse p l) as [|y m]; [by rewrite andb_false_r|].
    destruct l as [|x l]; [done|]. by rewrite <-Hh.
Qed.

Lemma no_pair_collapse l : no_pair l = true <-> collapse p l = l.
Proof.
  split; [|intros <-; apply collapse_no_pair].
  induction l as [|c l IH]; [done|]. cbn [no_pair]. rewrite andb_true_iff, negb_true_iff.
  intros [E Hl]. rewrite collapse_cons, E. by rewrite IH.
Qed.

Lemma no_pair_split l u x y v : no_pair l = true -> l = u ++ x :: y :: v -> p x && p y = false.
Proof.
  intros Hl ->. induction u as [|c u IH]; cbn [app no_pair] in *.
  - apply andb_true_iff in Hl as [Hl _]. by apply negb_true_iff in Hl.
  - apply andb_true_iff in Hl as [_ Hl]. auto.
Qed.

Lemma collapse_Forall (P : ascii -> Prop) l : Forall P l -> Forall P (collapse p l).
Proof.
  induction 1 as [|c l Hc _ IH]; [constructor|]. rewrite collapse_cons.
  destruct (_ && _); [done|by constructor].
Qed.
End no_pair.

Definition is_period (c : ascii) : bool := bool_decide (c = "."%char).
Definition appid_char (c : ascii) : bool := isword c || is_period c.

Lemma sanitizeAppId_eq id :
  sanitizeAppId id = of_list (collapse is_period (List.filter appid_char (to_list id))).
Proof.
  unfold sanitizeAppId.
  erewrite (regex_replace_set id "[^\w.]" (fun x => negb (appid_char x))) by reflexivity.
  unfold regex_replace. change (parse_regex "[.]{2,}") with (Some (two_or_more is_period)). cbn iota.
  rewrite (replace_two is_period "."%char); [..|done|].
  - rewrite to_of_list. do 2 f_equal. apply List.filter_ext. intros c. apply negb_involutive.
  - intros c. unfold is_period. by rewrite bool_decide_eq_true.
  - rewrite length_to_list. lia.
Qed.

(** the ids that the directory of the application's data may be named after *)
Definition clean_id (id : string) : bool :=
  sforall appid_char id && no_pair is_period (to_list id).

Lemma sanitizeAppId_clean id : clean_id (sanitizeAppId id) = true.
Proof.
  rewrite sanitizeAppId_eq. unfold clean_id. rewrite to_of_list, (proj1 (collapse_no_pair _ _)), andb_true_r.
  apply sforall_spec. rewrite to_of_list. apply collapse_Forall, Forall_forall.
  intros c Hc%list_elem_of_In%List.filter_In. apply Hc.
Qed.

Lemma sanitizeAppId_id id : clean_id id = true -> sanitizeAppId id = id.
Proof.
  unfold clean_id. intros [Hc Hp]%andb_true_iff. rewrite sanitizeAppId_eq.
  assert (List.filter appid_char (to_list id) = to_list id) as ->.
  { apply sforall_spec in Hc. clear Hp. induction Hc as [|c l Hc _ IH]; [done|]. cbn [List.filter]. by rewrite Hc, IH. }
  apply no_pair_collapse in Hp. by rewrite Hp, of_to_list.
Qed.

Lemma clean_id_contained id : clean_id id = true ->
  Forall (fun c => c <> "/"%char) (to_list id) /\ forall u v, id <> u +:+ ".." +:+ v.
Proof.
  unfold clean_id. intros [Hc Hp]%andb_true_iff. split.
  - apply sforall_spec in Hc. eapply Forall_impl; [exact Hc|]. by intros c Hc' ->.
  - intros u v ->. rewrite !to_list_app in Hp.
    pose proof (no_pair_split is_period _ (to_list u) "."%char "."%char (to_list v) Hp eq_refl) as E.
    discriminate E.
Qed.

(** The application id, which names the directory of the application's data,
    has no separator and no "..": its characters are letters, digits, underscores
    and periods. A configured id of that form is taken as it is. *)
Theorem getAppId_contained `{Platform} (w : World) (id : string)
    (Hok : opts_ok (opts w)) (Hid : jget (opts w) "applicationId" = JStr id) :
  exists r, reads getAppId w r /\ sforall appid_char r = true /\
    Forall (fun c => c <> "/"%char) (to_list r) /\ (forall u v, r <> u +:+ ".." +:+ v) /\
    (clean_id id = true -> r = id).
Proof.
  exists (sanitizeAppId id). pose proof (sanitizeAppId_clean id) as Hc.
  destruct (clean_id_contained _ Hc). split_and!; [|by apply andb_true_iff in Hc as [Hc _]|done|done|].
  - unfold getAppId. eapply reads_bind; [by apply read_options_top|]. intros w1 Hw1. rewrite Hid.
    cbn [is_null negb]. eapply reads_bind; [apply read_options_top; by eapply weq_ok|].
    intros w2 Hw2. rewrite <-(oe_top _ _ (proj1 Hw1) "applicationId"), Hid by done.
    eapply reads_bind; [apply reads_lift|]. intros w3 _. apply reads_ret.
  - apply sanitizeAppId_id.
Qed.

Section appid_witness.
#[local] Existing Instance demo.

Lemma getAppId_contained_witness :
  let w := with_opts (JObj [("applicationId", JStr "../js..neutralino/app")]) demo_world in
  (exists r, reads getAppId w r /\ forall u v, r <> u +:+ ".." +:+ v) /\
  sanitizeAppId "../js..neutralino/app" = ".js.neutralinoapp".
Proof.
  intros w. split; [|vm_compute; reflexivity].
  destruct (getAppId_contained w "../js..neutralino/app") as (r & Hr & _ & _ & Hd & _).
  - split; [done|done|by intros []|by left].
  - reflexivity.
  - by exists r.
Defined.
End appid_witness.
