(* ===== verification/WindowFacts.v ===== *)
(** * The window: the saved state and the main menu *)

From S2P Require Import Prelude Strings OMap Outcome Json Errors State MemPlatform Helpers Options.
From S2P Require Import JsonTextFacts Fs FsFacts Window.
From Stdlib Require Import Ascii.
Import helpers settings window.

(** ** The main menu *)

Lemma omapM_fuel {A B} (f : A -> outcome B) l :
  (forall x, x ∈ l -> f x <> NoFuel) -> omapM f l <> NoFuel.
Proof.
  induction l as [|x l IH]; intros Hx; [done|]. simpl.
  pose proof (Hx x ltac:(set_solver)) as H1. specialize (IH ltac:(set_solver)).
  destruct (f x); try done. simpl. by destruct (omapM f l).
Qed.

Lemma menuItems_depth x sub :
  hasField x "menuItems" = true -> jat x "menuItems" = Ret sub -> json_depth sub < json_depth x.
Proof.
  intros Hf Hs. pose proof (jget_depth x "menuItems") as Hd.
  destruct x as [| | | | | | |m]; try done. unfold contains, omap_has in Hd. simpl in *.
  destruct (omap_get "menuItems" m) as [v|]; simplify_eq.
  apply Hd. by apply bool_decide_eq_true_2.
Qed.

Lemma menu_item_fuel j : menu_item j <> NoFuel.
Proof.
  assert (forall k A (get : json -> outcome A) d, (forall x, get x <> NoFuel) -> opt j k get d <> NoFuel) as Ho.
  { intros k A get d Hg. unfold opt. destruct (hasField j k); [|done].
    destruct j as [| | | | | | |m]; try done. simpl. destruct (omap_get k m); [apply Hg|done]. }
  assert (forall x, get_string x <> NoFuel) as Hs by by intros [].
  assert (forall x, get_bool x <> NoFuel) as Hb by by intros [].
  unfold menu_item.
  pose proof (Ho "id" _ get_string "" Hs). destruct (opt j "id" _ _); try done. simpl.
  pose proof (Ho "text" _ get_string "" Hs). destruct (opt j "text" _ _); try done. simpl.
  pose proof (Ho "isDisabled" _ get_bool false Hb). destruct (opt j "isDisabled" _ _); try done. simpl.
  pose proof (Ho "isChecked" _ get_bool false Hb). destruct (opt j "isChecked" _ _); try done. simpl.
  destruct (hasField j "shortcut"); [|done]. destruct j as [| | | | | | |m]; try done. simpl.
  destruct (omap_get "shortcut" m) as [[]|]; done.
Qed.

(** Building the main menu ends for every value: one step more than the
    nesting of the value is enough, and more steps change nothing. *)
Theorem createMenu_total (menu : json) (fuel : nat) (Hf : json_depth menu < fuel) :
  __createMenu fuel menu <> NoFuel /\
  __createMenu fuel menu = __createMenu (S (json_depth menu)) menu.
Proof.
  assert (forall fuel menu, json_depth menu < fuel -> __createMenu fuel menu <> NoFuel) as Hn.
  { clear. induction fuel as [|fuel IH]; intros menu Hf; [lia|]. cbn [__createMenu].
    apply omapM_fuel. intros x Hx%jelems_depth. pose proof (menu_item_fuel x) as Hi.
    destruct (menu_item x) as [i| | | |]; try done. simpl. destruct (decide _); [done|].
    destruct (hasField x "menuItems") eqn:Eh; [|by destruct (mi_checked i)].
    destruct (jat x "menuItems") as [sub| | | |] eqn:Es; try done; [|by destruct x as [| | | | | | |m];
      simpl in Es; try destruct (omap_get _ m)]. simpl.
    pose proof (IH sub) as Hs. pose proof (menuItems_depth _ _ Eh Es).
    destruct (__createMenu fuel sub); try done. exfalso. apply Hs; [lia|done]. }
  split; [by apply Hn|].
  assert (forall f1 f2 menu, json_depth menu < f1 -> json_depth menu < f2 ->
    __createMenu f1 menu = __createMenu f2 menu) as He; [|apply He; lia].
  clear. induction f1 as [|f1 IH]; intros [|f2] menu H1 H2; [lia..|]. cbn [__createMenu].
  apply omapM_ext. intros x Hx%jelems_depth.
  destruct (menu_item x) as [i| | | |]; try done. simpl. destruct (decide _); [done|].
  destruct (hasField x "menuItems") eqn:Eh; [|done].
  destruct (jat x "menuItems") as [sub| | | |] eqn:Es; try done. simpl.
  pose proof (menuItems_depth _ _ Eh Es). by rewrite (IH f2 sub) by lia.
Qed.

Definition demo_main_menu : json :=
  JArr [JObj [("id", JStr "file"); ("text", JStr "File");
              ("menuItems", JArr [JObj [("text", JStr "-")]; JObj [("id", JStr "q"); ("text", JStr "Quit")]])]].

Lemma createMenu_total_witness :
  __createMenu 9 demo_main_menu = __createMenu 5 demo_main_menu /\ json_depth demo_main_menu = 4.
Proof.
  split; [|reflexivity]. apply (createMenu_total demo_main_menu 9). vm_compute. lia.
Defined.

(** ** The saved state *)

Section saved.
Context `{Platform}.

Definition saved_json (so : SizeOptions) (x y : Z) (mx : bool) : json :=
  mk_obj (size_fields so ++ [("x", of_int x); ("y", of_int y); ("maximize", JBool mx)]).
Definition state_file (w : World) : string := appDataPath (w_settings w) +:+ NEU_WIN_CONFIG_FILE.
Definition props (w : World) : WindowOptions := windowProps (w_window w).
(** the size that [getSize] reports for a size in pixels *)
Definition reported (w : World) (z : Z) : Z :=
  if useLogicalPixels (props w) then Z.quot z (gtk_scale_factor (w_sys w)) else z.

Definition is_int (z : Z) : Prop := (- 2 ^ 31 <= z < 2 ^ 31)%Z.

Lemma getSize_spec (w : World) gw gh :
  gtk_window_size (w_sys w) = (gw, gh) -> gtk_scale_factor (w_sys w) <> 0%Z ->
  is_int (reported w gw) -> is_int (reported w gh) ->
  let so := with_rect (reported w gw) (reported w gh) (sizeOptions (props w)) in
  getSize w = (Ret so, upd_window (set_props (set_size so)) w).
Proof.
  intros Eg Hs Hgw Hgh so. unfold getSize.
  rewrite (M_bind_Ret _ _ w (gw, gh) w) by (munfold; by rewrite Eg). cbn beta iota.
  rewrite (M_bind_Ret _ _ w (w_window w) w) by done.
  rewrite (M_bind_Ret _ _ w (gtk_scale_factor (w_sys w)) w) by done.
  assert (forall z, is_int (reported w z) ->
    (if useLogicalPixels (props w) then lift (scale_down z (gtk_scale_factor (w_sys w)))
     else mret z) w = (Ret (reported w z), w)) as Hz.
  { intros z. unfold reported. destruct (useLogicalPixels (props w)); [|done].
    unfold is_int, scale_down, to_int, INT_MIN, INT_MAX. intros Hz.
    destruct (Z.eqb_spec (gtk_scale_factor (w_sys w)) 0) as [E|_]; [by apply Hs in E|].
    by rewrite (proj2 (Z.leb_le _ _)), (proj2 (Z.leb_le _ _)) by lia. }
  fold (props w). by rewrite (M_bind_Ret _ _ _ _ _ (Hz gw Hgw)), (M_bind_Ret _ _ _ _ _ (Hz gh Hgh)).
Qed.

Lemma saved_json_read_back so x y mx :
  let num z := read_back (JInt z) in
  read_back (saved_json so x y mx) =
  JObj [("height", num (height so)); ("maxHeight", num (maxHeight so)); ("maxWidth", num (maxWidth so));
        ("maximize", JBool mx); ("minHeight", num (minHeight so)); ("minWidth", num (minWidth so));
        ("resizable", JBool (resizable so)); ("width", num (width so)); ("x", num x); ("y", num y)].
Proof. vm_compute. reflexivity. Qed.

Lemma restore_props_spec (w : World) so x y mx :
  Forall is_int [x; y; width so; height so] ->
  exists w', restore_props (read_back (saved_json so x y mx)) w = (Ret tt, w') /\
    props w' = set_saved (with_rect (width so) (height so) (sizeOptions (props w))) x y mx (props w).
Proof.
  rewrite !Forall_cons. intros (Hx & Hy & Hw & Hh & _). unfold restore_props.
  rewrite saved_json_read_back. set (j := JObj _).
  assert (forall k v z (w : World), jread j k = Ret (v, read_back (JInt z)) -> is_int z ->
    ('(_, v) ← lift (jread j k); lift (get_int v)) w = (Ret z, w)) as Hi.
  { intros k v z w' E Hz. rewrite (M_bind_Ret _ _ w' (v, read_back (JInt z)) w') by (munfold; by rewrite E).
    munfold. unfold get_int. cbn [read_back]. destruct (z <? 0)%Z; simpl; by rewrite wrapS_small. }
  assert (forall w : World, ('(_, v) ← lift (jread j "maximize"); lift (get_bool v)) w = (Ret mx, w)) as Hb
    by done.
  rewrite (M_bind_Ret _ _ _ _ _ (Hi "x" _ x _ eq_refl Hx)).
  rewrite (M_bind_Ret (upd_props _) _ _ tt _ eq_refl).
  rewrite (M_bind_Ret _ _ _ _ _ (Hi "y" _ y _ eq_refl Hy)).
  rewrite (M_bind_Ret (upd_props _) _ _ tt _ eq_refl).
  rewrite (M_bind_Ret _ _ _ _ _ (Hb _)).
  rewrite (M_bind_Ret (upd_props _) _ _ tt _ eq_refl).
  rewrite (M_bind_Ret _ _ _ _ _ (Hi "width" _ (width so) _ eq_refl Hw)).
  rewrite (M_bind_Ret (upd_props _) _ _ tt _ eq_refl).
  rewrite (M_bind_Ret _ _ _ _ _ (Hi "height" _ (height so) _ eq_refl Hh)).
  by eexists.
Qed.

Lemma saved_json_fits so x y mx :
  Forall is_int [x; y; width so; height so; minWidth so; minHeight so; maxWidth so; maxHeight so] ->
  fits (saved_json so x y mx) = true.
Proof.
  rewrite !Forall_cons. intros Hi.
  assert (forall z, is_int z -> fits (JInt z) = true) as Hz.
  { intros z Hz. unfold is_int in Hz. cbn [fits]. apply andb_true_iff. split; [apply Z.leb_le|apply Z.ltb_lt]; lia. }
  change (forallb fits [JInt (height so); JInt (maxHeight so); JInt (maxWidth so); JBool mx;
    JInt (minHeight so); JInt (minWidth so); JBool (resizable so); JInt (width so); JInt x; JInt y] = true).
  cbn [forallb]. rewrite !andb_true_iff. destruct_and! Hi. split_and!; try done; by apply Hz.
Qed.
End saved.

(** The state that closing the window saves is the one the next start
    restores: the reported size, the position and whether the window was
    maximised; no other option of the window changes. *)
Theorem saved_state_roundtrip `{Platform} (w w2 : World) (code gw gh x y : Z) (made : bool) (y1 y2 : sys)
    (Hn : nativeWindow (w_window w) = true) (Hu : useSavedState (props w) = true)
    (Hsize : gtk_window_size (w_sys w) = (gw, gh)) (Hpos : gtk_root_origin (w_sys w) = (x, y))
    (Hscale : gtk_scale_factor (w_sys w) <> 0%Z)
    (Hint : Forall is_int [x; y; reported w gw; reported w gh])
    (Hlimits : Forall is_int (let o := sizeOptions (props w) in
                              [minWidth o; minHeight o; maxWidth o; maxHeight o]))
    (Hd : sys_create_directories (appDataPath (w_settings w) +:+ "/.tmp") (w_sys w) = (Ret made, y1)) :
  let so := with_rect (reported w gw) (reported w gh) (sizeOptions (props w)) in
  let j := saved_json so x y (gtk_is_maximized (w_sys w)) in
  sys_write (state_file w) (json_dump j) false y1 = Some y2 ->
  sys_read (state_file w2) (w_sys w2) = Some (json_dump j) ->
  (exists w1, _close code w = (Ret tt, w1) /\ w_sys w1 = gui (Terminate code) y2 /\
     nativeWindow (w_window w1) = false) /\
     exists w3, __loadSavedWindowProps w2 = (Ret true, w3) /\
     props w3 = set_saved (with_rect (reported w gw) (reported w gh) (sizeOptions (props w2)))
                 x y (gtk_is_maximized (w_sys w)) (props w2).
Proof.
  intros so j Hw Hr.
  assert (fits j = true) as Hj.
  { apply saved_json_fits. exact (Forall_app_2 _ _ _ Hint Hlimits). }
  apply Forall_cons in Hint as [Hx Hint]. apply Forall_cons in Hint as [Hy Hint].
  apply Forall_cons in Hint as [Hgw Hint]. apply Forall_cons in Hint as [Hgh _]. split.
  - assert (exists w1, __saveWindowProps w = (Ret tt, w1) /\ w_sys w1 = y2 /\
     nativeWindow (w_window w1) = true) as (w1 & E & Hs1 & Hn1).
    { unfold __saveWindowProps.
      rewrite (M_bind_Ret _ _ _ _ _ (getSize_spec w gw gh Hsize Hscale Hgw Hgh)). fold so.
      rewrite (M_bind_Ret (upd_props _) _ _ tt _ eq_refl).
      set (wa := upd_window _ _).
      rewrite (M_bind_Ret getPosition _ wa (x, y) wa) by (unfold getPosition; munfold; by rewrite <-Hpos).
      cbn beta iota.
      rewrite (M_bind_Ret isMaximized _ wa (gtk_is_maximized (w_sys w)) wa) by done.
      rewrite (M_bind_Ret _ _ wa (appDataPath (w_settings w) +:+ "/.tmp") wa) by done.
      rewrite (M_bind_Ret _ _ wa made (upd_sys (fun _ => y1) wa)).
      2: { unfold sys_call_o, sys_call. munfold. change (w_sys wa) with (w_sys w). by rewrite Hd. }
      rewrite (M_bind_Ret _ _ _ (state_file w) (upd_sys (fun _ => y1) wa)) by done.
      rewrite (M_bind_Ret _ _ _ true (upd_sys (fun _ => y2) (upd_sys (fun _ => y1) wa))).
      - eexists. split; [reflexivity|]. split; [reflexivity|exact Hn].
      - unfold fs.writeFile. cbn [fw_filename fw_data fw_append].
        change (w_sys (upd_sys (fun _ => y1) wa)) with y1.
        match goal with |- context [sys_write ?f ?d ?a ?y] =>
          replace (sys_write f d a y) with (Some y2) by (symmetry; exact Hw) end. reflexivity. }
    unfold _close. rewrite (M_bind_Ret get_window _ w (w_window w) w) by done. rewrite Hn.
    unfold props in Hu. rewrite Hu, (M_bind_Ret _ _ _ _ _ E).
    rewrite (M_bind_Ret _ _ w1 tt (upd_sys (gui (Terminate code)) w1)) by done.
    eexists. split; [done|]. simpl. by rewrite Hs1.
  - unfold __loadSavedWindowProps. rewrite (M_bind_Ret _ _ w2 (state_file w2) w2) by done.
    rewrite (M_bind_Ret _ _ _ _ _ (readFile_eq _ no_reader_options _ w2 Hr)).
    rewrite decide_False by (simpl; by intros []).
    destruct (restore_props_spec w2 so x y (gtk_is_maximized (w_sys w))) as (w3 & E & Hp).
    { by rewrite !Forall_cons. }
    exists w3. split; [|done]. unfold try_catch. simpl fr_data.
    assert (slice (json_dump j) no_reader_options = json_dump j) as ->.
    { unfold slice, slice_of. simpl. by rewrite stake_ge by lia. }
    rewrite (parse_dump j Hj), (M_bind_Ret _ _ w2 (read_back j) w2) by done. by rewrite (M_bind_Ret _ _ _ _ _ E).
Qed.

Section saved_witness.

Definition demo_saved : json :=
  JObj [("height", JInt 600); ("maxHeight", JInt (-1)); ("maxWidth", JInt (-1)); ("maximize", JBool false);
        ("minHeight", JInt (-1)); ("minWidth", JInt (-1)); ("resizable", JBool true); ("width", JInt 800);
        ("x", JInt 10); ("y", JInt 20)].
#[local] Existing Instance demo.

Definition demo_window (y : mem_sys) : World :=
  upd_window (fun s => set_flags false true false false 0 s) (world0 y).

Lemma saved_state_roundtrip_witness :
  let w := demo_window mem0 in
  let w2 := world0 (set_files [("/app/.tmp/window_state.config.json", json_dump demo_saved)] mem0) in
  (exists w1, _close 0 w = (Ret tt, w1)) /\
     exists w3, __loadSavedWindowProps w2 = (Ret true, w3) /\
     (width (sizeOptions (props w3)), height (sizeOptions (props w3)), win_x (props w3), win_y (props w3))
    = (800, 600, 10, 20)%Z.
Proof.
  intros w w2.
  destruct (saved_state_roundtrip w w2 0 800 600 10 20 true (set_dirs ["/app/.tmp"; "/app"] mem0)
    (set_files [("/app/.tmp/window_state.config.json", json_dump demo_saved)] (set_dirs ["/app/.tmp"; "/app"] mem0)))
    as [(w1 & E & _) (w3 & E3 & Hp)].
  1-4: reflexivity.
  - done.
  - change (Forall is_int [10; 20; 800; 600]%Z). rewrite !Forall_cons, Forall_nil. unfold is_int. lia.
  - change (Forall is_int [-1; -1; -1; -1]%Z). rewrite !Forall_cons, Forall_nil. unfold is_int. lia.
  - reflexivity.
  - reflexivity.
  - reflexivity.
  - split; [by exists w1|]. exists w3. split; [exact E3|]. by rewrite Hp.
Defined.
End saved_witness.
