(* ===== verification/DefinedFacts.v ===== *)
(** * Which native calls are defined on every input

    [ends o] holds of an outcome that is neither undefined behaviour nor an
    endless run.  A call is [defined] when it ends in every state.  The walk over
    a controller keeps the tests it has passed, so that reading a member of the
    request needs the test that it exists. *)

From S2P Require Import Prelude Strings Regex OMap Outcome Json Errors State Triple MemPlatform.
From S2P Require Import Helpers Options Folders Paths Locale Permission Auth Connections Base64 Fs.
From S2P Require Import FsControllers Resources Settings Storage Os OsControllers Methods Window.
From S2P Require Import App ApiControllers Net Clipboard Computer Router MemLibs OptionsFacts.
From S2P Require Import Trash TrashFacts Dialogs DialogFacts ProcessFacts FrameFacts PermissionFacts WindowFacts.
From Stdlib Require Import Ascii.
Import helpers settings neuserver events.

Definition ends {A} (o : outcome A) : Prop :=
  match o with Undef | NoFuel => False | _ => True end.

Lemma ends_bind {A B} (m : outcome A) (f : A -> outcome B) :
  ends m -> (forall a, m = Ret a -> ends (f a)) -> ends (m ≫= f).
Proof. destruct m; simpl; try done. intros _ Hf. by apply Hf. Qed.

Lemma ends_omapM {A B} (f : A -> outcome B) l : (forall x, x ∈ l -> ends (f x)) -> ends (omapM f l).
Proof.
  induction l as [|x l IH]; intros Hf; cbn [omapM]; [done|].
  apply ends_bind; [apply Hf; by left|]. intros y _. apply ends_bind; [|done].
  apply IH. intros z Hz. apply Hf. by right.
Qed.

(** the members of a request are not floating-point numbers *)
Definition no_floats (input : json) : Prop :=
  forall k, match jget input k with JFloat _ => False | _ => True end.

Definition is_float (j : json) : bool := match j with JFloat _ => true | _ => false end.
Lemma no_floats_obj m : forallb (fun kv => negb (is_float kv.2)) m = true -> no_floats (JObj m).
Proof.
  intros Hm k. cbn. destruct (omap_get k m) as [v|] eqn:E; [|done]. apply omap_get_elem in E.
  rewrite forallb_forall in Hm. specialize (Hm (k, v)). rewrite <-list_elem_of_In in Hm.
  specialize (Hm E). by destruct v.
Qed.

Lemma ends_get_string j : ends (get_string j).
Proof. by destruct j. Qed.
Lemma ends_get_bool j : ends (get_bool j).
Proof. by destruct j. Qed.
Lemma ends_get_array j : ends (get_array j).
Proof. by destruct j. Qed.
Lemma ends_get_strings j : ends (get_strings j).
Proof.
  apply ends_bind; [apply ends_get_array|]. intros l _. apply ends_omapM. intros x _. apply ends_get_string.
Qed.
Lemma ends_get_arith cast lo hi b j :
  match j with JFloat _ => False | _ => True end -> ends (get_arith cast lo hi b j).
Proof. destruct j; try done. by destruct b. Qed.

Lemma ends_integer j : window_controllers.is_number_integer j = true -> ends (get_int j).
Proof. by destruct j. Qed.

Lemma ends_scale_down v s : (1 <= s)%Z -> (INT_MIN <= v <= INT_MAX)%Z -> ends (window.scale_down v s).
Proof.
  intros Hs Hv. unfold window.scale_down. case_match; [zb; lia|]. unfold window.to_int.
  assert (INT_MIN <= Z.quot v s <= INT_MAX)%Z as [? ?].
  { unfold INT_MIN, INT_MAX in *.
    destruct (decide (0 <= v)%Z).
    - split; [pose proof (Z.quot_pos v s); lia|]. pose proof (Z.quot_le_upper_bound v s v). nia.
    - pose proof (Z.quot_opp_l (- v) s ltac:(lia)) as E. rewrite Z.opp_involutive in E.
      pose proof (Z.quot_pos (- v) s). pose proof (Z.quot_le_upper_bound (- v) s (- v)). nia. }
  by rewrite !Zle_imp_le_bool.
Qed.

Section defined.
Context `{Platform}.

Definition defined {A} (m : M A) : Prop := forall w, ends (fst (m w)).

Lemma defined_bind {A B} (m : M A) (f : A -> M B) :
  defined m -> (forall a, defined (f a)) -> defined (m ≫= f).
Proof.
  intros Hm Hf w. specialize (Hm w). unfold mbind, M_bind.
  destruct (m w) as [[a|e|s| |] w1]; try done. apply Hf.
Qed.
Lemma defined_ret {A} (a : A) : defined (mret a).
Proof. done. Qed.
Lemma defined_lift {A} (o : outcome A) : ends o -> defined (lift o).
Proof. by intros ? w. Qed.
Lemma defined_gets {A} (f : World -> A) : defined (gets f).
Proof. done. Qed.
Lemma defined_sys_get {A} (f : sys -> A) : defined (sys_get f).
Proof. done. Qed.
Lemma defined_modify f : defined (modify f).
Proof. done. Qed.
Lemma defined_throw {A} e : defined (throw (A := A) e).
Proof. done. Qed.
Lemma defined_sys_call {A} (f : sys -> A * sys) : defined (sys_call f).
Proof. intros w. unfold sys_call. by destruct (f (w_sys w)). Qed.
Lemma defined_sys_call_o {A} (f : sys -> outcome A * sys) :
  (forall y, ends (fst (f y))) -> defined (sys_call_o f).
Proof.
  intros Hf w. unfold sys_call_o, mbind, M_bind, sys_call. specialize (Hf (w_sys w)).
  by destruct (f (w_sys w)).
Qed.
Lemma defined_sys_get_o {A} (f : sys -> outcome A) : (forall y, ends (f y)) -> defined (r ← sys_get f; lift r).
Proof. intros Hf w. apply Hf. Qed.
Lemma defined_sys_get_then {A B} (f : sys -> outcome A) (k : A -> M B) :
  (forall y, ends (f y)) -> (forall a, defined (k a)) -> defined (r ← sys_get f; a ← lift r; k a).
Proof.
  intros Hf Hk w. specialize (Hf (w_sys w)). unfold mbind, M_bind, sys_get, gets, lift.
  destruct (f (w_sys w)); try done. apply Hk.
Qed.
Lemma defined_try {A} (m : M A) h : defined m -> (forall e, defined (h e)) -> defined (try_catch m h).
Proof.
  intros Hm Hh w. specialize (Hm w). unfold try_catch.
  destruct (m w) as [[a|e|s| |] w1]; try done. apply Hh.
Qed.
Lemma defined_mapM {A} (f : A -> M unit) l : (forall x, defined (f x)) -> defined (mapM_ f l).
Proof. intros Hf. induction l as [|x l IH]; cbn [mapM_]; [done|]. by apply defined_bind. Qed.
Lemma defined_find_mapM {A B} (f : A -> M (option B)) l : (forall x, defined (f x)) -> defined (find_mapM f l).
Proof.
  intros Hf. induction l as [|x l IH]; cbn [find_mapM]; [done|]. apply defined_bind; [apply Hf|].
  by intros [].
Qed.

(** Reading a member that exists, as a string, a list or a number. *)
Lemma defined_field {A} input k (get : json -> outcome A) :
  hasField input k = true -> (forall j, ends (get j)) -> defined (field input k get).
Proof.
  intros Hf Hg. apply defined_lift, ends_bind; [|by intros]. by destruct (hasField_jat _ _ Hf) as [-> _].
Qed.
Lemma defined_field_num input k cast lo hi b :
  hasField input k = true -> no_floats input -> defined (field input k (get_arith cast lo hi b)).
Proof.
  intros Hf Hn. apply defined_lift. destruct (hasField_jat _ _ Hf) as [-> _]. apply ends_get_arith, Hn.
Qed.
End defined.

Lemma required_has input keys :
  negb (hasRequiredFields input keys) = false -> forall k, k ∈ keys -> hasField input k = true.
Proof. intros E. apply negb_false_iff, hasRequiredFields_missing in E. by apply missingRequiredField_None. Qed.

Lemma pfd_stop_ends e : ends (pfd.stop e).
Proof. by rewrite pfd_facts.stop_eq. Qed.
Lemma pfd_result_ends e : ends (pfd.result e).
Proof. by rewrite pfd_facts.result_eq. Qed.

Create HintDb defined discriminated.
#[export] Hint Constants Opaque : defined.
#[export] Hint Resolve ends_get_string ends_get_bool ends_get_array ends_get_strings
  pfd_result_ends pfd_stop_ends defined_ret defined_gets defined_sys_get defined_modify defined_throw defined_sys_call : defined.

(** the tests that the code has passed *)
Ltac passed_tests :=
  repeat match goal with
  | E : negb (hasRequiredFields _ _) = false |- _ => pose proof (required_has _ _ E); clear E
  | E : missingRequiredField _ _ = None |- _ =>
      pose proof (proj1 (missingRequiredField_None _ _) E); clear E
  | E : _ && _ = true |- _ => apply andb_true_iff in E as [? ?]
  end.
Ltac has_field :=
  passed_tests;
  first [assumption
        |match goal with E : negb (hasField _ _) = false |- _ => by apply negb_false_iff in E end
        |match goal with E : forall k, k ∈ _ -> hasField ?i k = true |- hasField ?i _ = true =>
           apply E; repeat first [left|right] end].
Ltac defined_unfold :=
  lazymatch goal with
  | |- defined (mret _) => fail
  | |- defined (lift _) => fail
  | |- defined undef => fail
  | |- defined ?m => let h := triple_head m in unfold h
  end.
Ltac defined_step :=
  lazymatch goal with
  | |- defined (sys_get _ ≫= (fun r => mbind _ (lift r))) =>
      apply defined_sys_get_then; [solve [eauto with defined]|let a := fresh "a" in intros a; triple_split a]
  | |- defined (sys_get _ ≫= (fun r => lift r)) => apply defined_sys_get_o; solve [eauto with defined]
  | |- defined (mbind _ _) =>
      apply defined_bind; [|let a := fresh "a" in intros a; triple_split a]
  | |- defined (match ?x with _ => _ end) => destruct x eqn:?
  | |- defined (let _ := _ in _) => cbv zeta
  | |- defined (try_catch _ _) => apply defined_try; [|intros ?]
  | |- defined (mapM_ _ _) => apply defined_mapM; intros ?
  | |- defined (find_mapM _ _) => apply defined_find_mapM; intros ?
  | |- defined (lift (get_int _)) => apply defined_lift, ends_integer; by apply negb_false_iff
  | |- defined (field _ _ get_int) => apply defined_field_num; [has_field|assumption]
  | |- defined (field _ _ get_long) => apply defined_field_num; [has_field|assumption]
  | |- defined (field _ _ get_llong) => apply defined_field_num; [has_field|assumption]
  | |- defined (field _ _ get_ulong) => apply defined_field_num; [has_field|assumption]
  | |- defined (field _ _ _) => apply defined_field; [has_field|intros ?; solve [done|eauto with defined]]
  | |- defined (field_or _ _ _ _) => unfold field_or
  | |- defined (lift (Exited _)) => done
  | |- defined (lift _) => apply defined_lift; solve [eauto with defined]
  | |- defined (sys_call_o _) => apply defined_sys_call_o; intros ?; solve [eauto with defined]
  | |- defined _ => solve [eauto with defined]
  end.
Ltac defined_go := repeat (defined_step || (progress defined_unfold; cbn beta iota)).

(** The calls of std::filesystem that may throw do nothing worse. *)
Record platform_ends `{Platform} : Prop := {
  pe_list p r y : ends (sys_list p r y);
  pe_create p y : ends (fst (sys_create_directories p y));
  pe_remove p y : ends (fst (sys_remove p y));
  pe_remove_all p y : ends (fst (sys_remove_all p y));
  pe_perms p y : ends (sys_perms p y);
  pe_canonical p y : ends (sys_weakly_canonical p y);
  pe_absolute p y : ends (sys_absolute p y);
  pe_relative p b y : ends (sys_relative p b y);
  pe_temp y : ends (sys_temp_directory_path y);
  (** the user has an entry in the password database, with a home directory *)
  pe_passwd_r y : sys_getpwuid_r y <> PwNone;
  pe_passwd y : sys_getpwuid y <> Some None;
  pe_posix : posix_laws;
  pe_start : processes_start;
  (** the scale of the screen is positive and the window size is a pair of [int]s *)
  pe_scale y : (1 <= gtk_scale_factor y)%Z;
  pe_size y : (INT_MIN <= fst (gtk_window_size y) <= INT_MAX /\
               INT_MIN <= snd (gtk_window_size y) <= INT_MAX)%Z
}.
#[export] Hint Resolve pe_list pe_create pe_remove pe_remove_all pe_perms pe_canonical pe_absolute
  pe_relative : defined.

(** ** Parts of the components *)

Section parts.
Context `{Platform}.

Lemma ends_jref k g j : (forall x, ends (g x)) -> ends (jref j k g).
Proof. intros Hg. unfold jref. destruct j; try done; (apply ends_bind; [apply Hg|done]). Qed.
Lemma ends_jref_path ks j : ends (jref_path ks j).
Proof. revert j. induction ks as [|k ks IH]; intros j; cbn; [done|]. by apply ends_jref. Qed.
Lemma ends_of_num o : ends (of_num o).
Proof. by destruct o as [[]|]. Qed.

Lemma defined_writeFile o : defined (fs.writeFile o).
Proof. intros w. unfold fs.writeFile. by case_match. Qed.
Lemma defined_getSize : platform_ends -> defined window.getSize.
Proof.
  intros Hp w. unfold window.getSize, sys_get, window.get_window, window.upd_props.
  pose proof (pe_scale Hp (w_sys w)) as Hs. pose proof (pe_size Hp (w_sys w)) as Hz.
  munfold. destruct (gtk_window_size (w_sys w)) as [x y]. cbn [fst snd] in *. destruct Hz as [Hx Hy].
  pose proof (ends_scale_down x _ Hs Hx) as Ex. pose proof (ends_scale_down y _ Hs Hy) as Ey.
  destruct (useLogicalPixels _); [|done].
  destruct (window.scale_down x _); try done. by destruct (window.scale_down y _).
Qed.
Lemma defined_trash p : platform_ends -> defined (trashcan.trashcan_soft_delete p).
Proof. intros Hp w. destruct (returns_soft_delete (pe_posix Hp) p w) as (st & w' & ->). done. Qed.
Lemma defined_exec command options : platform_ends -> defined (os.execCommand command options).
Proof. intros Hp w. by destruct (exec_returns command options w (pe_start Hp)) as (r & y & ->). Qed.
Lemma ends_folder_default v rel y : platform_ends -> ends (sago.getLinuxFolderDefault v rel y).
Proof.
  intros Hp. unfold sago.getLinuxFolderDefault, sago.throwOnRelative, sago.getHome.
  pose proof (pe_passwd_r Hp y) as Hr. repeat case_match; done.
Qed.
Lemma ends_fill y : platform_ends -> ends (sago.PlatformFoldersFillData y).
Proof.
  intros Hp. unfold sago.PlatformFoldersFillData. apply ends_bind; [by apply ends_folder_default|].
  intros config _. apply ends_omapM. intros [k v] _. unfold sago.expand_home. destruct (starts_with _ _); [|done].
  apply ends_bind; [|intros home _; unfold substr; by case_match].
  unfold sago.getHome. pose proof (pe_passwd_r Hp y) as Hr. repeat case_match; done.
Qed.
Lemma ends_known_folder name y : platform_ends -> ends (paths.known_folder name y).
Proof.
  intros Hp.
  assert (forall key, ends (sago.platform_folder key y)) as Hf.
  { intros key. unfold sago.platform_folder. apply ends_bind; [by apply ends_fill|done]. }
  assert (ends (sago.getSaveGamesFolder1 y)) as Hs.
  { unfold sago.getSaveGamesFolder1. apply ends_bind; [by apply ends_fill|]. intros _ _. by apply ends_folder_default. }
  unfold paths.known_folder. repeat (case_match; [first [by apply ends_folder_default|by apply Hf|exact Hs
    |by apply (pe_temp Hp)|unfold paths.home_folder; pose proof (pe_passwd Hp y); repeat case_match; done]|]).
  done.
Qed.
Lemma defined_getPath name : platform_ends -> defined (paths.getPath name).
Proof.
  intros Hp. unfold paths.getPath. apply defined_sys_get_then; [|done]. intros y. by apply ends_known_folder.
Qed.
Lemma defined_applyPathNames names p : platform_ends -> defined (paths.applyPathNames names p).
Proof.
  intros Hp. revert p. induction names as [|n names IH]; intros p; cbn [paths.applyPathNames]; [done|].
  apply defined_bind; [by apply defined_getPath|done].
Qed.

Lemma ends_jread j k : ends (jread j k).
Proof. unfold jread. apply ends_bind; [by apply ends_jref|done]. Qed.
Lemma ends_opt {A} input k (get : json -> outcome A) d :
  (forall j, ends (get j)) -> ends (window.opt input k get d).
Proof.
  intros Hg. unfold window.opt. destruct (hasField input k) eqn:E; [|done].
  destruct (hasField_jat _ _ E) as [-> _]. apply Hg.
Qed.
Lemma ends_opt_field {A} input k (get : json -> outcome A) :
  ends (get (jget input k)) -> ends (net.opt_field input k get).
Proof.
  intros Hg. unfold net.opt_field. destruct (hasField input k) eqn:E; [|done].
  destruct (hasField_jat _ _ E) as [-> _]. cbn. by apply ends_bind.
Qed.
Lemma ends_jat_bind {A} input k (f : json -> outcome A) :
  hasField input k = true -> (forall j, ends (f j)) -> ends (jat input k ≫= f).
Proof. intros E Hf. destruct (hasField_jat _ _ E) as [-> _]. apply Hf. Qed.

(** *** The menu and the lists of files *)

Lemma ends_menu_item j : ends (window.menu_item j).
Proof.
  unfold window.menu_item.
  do 4 (apply ends_bind; [apply ends_opt; first [apply ends_get_string|apply ends_get_bool]|intros ? _]).
  destruct (hasField j "shortcut") eqn:E; [|done].
  apply ends_bind; [|by intros [] _]. apply ends_bind; [|done].
  apply ends_jat_bind; [done|apply ends_get_string].
Qed.
Lemma ends_createMenu fuel menu : json_depth menu < fuel -> ends (window.__createMenu fuel menu).
Proof.
  revert menu. induction fuel as [|fuel IH]; intros menu Hf; [lia|]. cbn [window.__createMenu].
  apply ends_omapM. intros x Hx%jelems_depth. apply ends_bind; [apply ends_menu_item|]. intros i _.
  destruct (decide _); [done|].
  destruct (hasField x "menuItems") eqn:Eh; [|by destruct (mi_checked i)].
  destruct (jat x "menuItems") as [sub|e|c| |] eqn:Es; try done.
  - cbn. pose proof (menuItems_depth _ _ Eh Es). apply ends_bind; [apply IH; lia|done].
  - by destruct (hasField_jat _ _ Eh) as [? _]; congruence.
  - by destruct (hasField_jat _ _ Eh) as [? _]; congruence.
Qed.
Lemma ends_setMainMenu menu : ends (window.__createMenu (S (json_depth menu)) menu).
Proof. apply ends_createMenu. lia. Qed.

Lemma ends_getAllFiles_from fuel base data :
  json_depth data < fuel -> ends (res_controllers.getAllFiles_from fuel base data).
Proof.
  revert base data. induction fuel as [|fuel IH]; intros base data Hf; [lia|].
  cbn [res_controllers.getAllFiles_from]. destruct (hasField data "files") eqn:E; [|done]. cbn [negb].
  apply ends_bind; [|done]. apply ends_omapM. intros kv Hkv%jitems_depth.
  assert (json_depth (jget data "files") < json_depth data).
  { apply jget_depth. unfold hasField in E. by apply andb_true_iff in E as [? _]. }
  apply ends_bind; [apply IH; lia|done].
Qed.
Lemma ends_getAllFiles tree : ends (res_controllers.__getAllFiles tree).
Proof. apply ends_getAllFiles_from. lia. Qed.

(** *** Requests *)

Lemma ends_read_request protocol host input : no_floats input -> ends (net.read_request protocol host input).
Proof.
  intros Hn. unfold net.read_request.
  apply ends_bind; [apply ends_opt_field, ends_get_arith, Hn|intros ? _].
  assert (forall k, ends (net.read_items input k)) as Hi.
  { intros k. unfold net.read_items. destruct (hasField input k) eqn:E; [|done]. by apply ends_jat_bind. }
  do 2 (apply ends_bind; [apply Hi|intros ? _]).
  apply ends_bind.
  { unfold net.read_auth. destruct (hasField input "auth") eqn:E; [|done]. cbn [negb].
    apply ends_jat_bind; [done|]. intros au. destruct (_ && _) eqn:E2; [|done].
    apply andb_true_iff in E2 as [Eu Ep].
    apply ends_bind; [by apply ends_jat_bind; [|apply ends_get_string]|intros ? _].
    apply ends_bind; [by apply ends_jat_bind; [|apply ends_get_string]|done]. }
  intros ? _.
  do 6 (apply ends_bind;
    [apply ends_opt_field; first [apply ends_get_string|apply ends_get_bool]|intros ? _]).
  done.
Qed.
Lemma ends_collect_perms input l p : ends (fs_controllers.collect_perms input l p).
Proof.
  revert p. induction l as [|[k b] l IH]; intros p; cbn [fs_controllers.collect_perms]; [done|].
  apply ends_bind; [|intros; apply IH]. destruct (hasField input k) eqn:E; [|done].
  apply ends_jat_bind; [done|apply ends_get_bool].
Qed.
Lemma ends_envs j :
  ends (omapM (fun kv : string * json => v ← get_string kv.2; Ret (kv.1, v)) (jitems j)).
Proof. apply ends_omapM. intros kv _. apply ends_bind; [apply ends_get_string|done]. Qed.
Lemma defined_convert_all l : platform_ends -> defined (res_controllers.convert_all l).
Proof.
  intros Hp. induction l as [|x l IH]; cbn [res_controllers.convert_all]; [done|]. defined_go.
Qed.
End parts.
#[export] Hint Resolve ends_jref_path ends_jread ends_setMainMenu ends_getAllFiles
  ends_read_request ends_collect_perms ends_envs ends_of_num defined_writeFile defined_getSize
  defined_trash defined_exec defined_getPath defined_applyPathNames defined_convert_all : defined.

(** ** The method table *)

(** The methods outside the theorem.  They reach undefined behaviour, or need not
    end, for the inputs, states or answers of a library that are named here. *)
Definition partial_calls : list string :=
  ["";                                (* the module of an empty method name *)
   "app.readProcessInput";            (* reads lines until the input ends *)
   (* work on the native window, which is null before it exists *)
   "window.setTitle"; "window.getTitle"; "window.show"; "window.setSize"; "window.print";
   "computer.setMouseGrabbing";
   "window.center";                   (* subtracts sizes that the application sets *)
   (* read sizes from the archive, and the embedded bytes at its offsets *)
   "window.setIcon"; "resources.getStats"; "resources.extractFile";
   "resources.extractDirectory"; "resources.readFile"; "resources.readBinaryFile";
   "os.updateSpawnedProcess";         (* writes to a process that could not be started *)
   "os.setTray";                      (* the same; items without "text"; fifty items *)
   "os.showOpenDialog"; "os.showSaveDialog"; (* filters without a name or extensions *)
   "os.getEnvs";                      (* an empty entry of the environment *)
   "clipboard.readImage"; "clipboard.writeImage"; (* data shorter than its image *)
   "computer.getNetworkInterfaces";   (* an interface without an address *)
   "filesystem.updateOpenedFile";     (* "readAll" with blocks of size 0 *)
   (* follow the objects of the watches, which exist in the states that calls reach
      ([WatchFacts.watchers_sound]) *)
   "filesystem.createWatcher"; "filesystem.removeWatcher";
   "server.unmount"].                 (* a request without "path" *)

Section native.
Context `{NativeApi} (Hp : platform_ends).

Definition total_controller (e : string * (json -> M json)) : Prop :=
  e.1 ∉ partial_calls -> forall input, no_floats input -> defined (e.2 input).

Lemma methods_total : Forall total_controller router.methodMap.
Proof.
  unfold router.methodMap.
  repeat (apply List.Forall_cons;
    [intros Hx input Hin; cbn [fst snd] in *;
     first [by (exfalso; apply Hx; unfold partial_calls; repeat first [left|right])
           |clear Hx; solve [defined_go]]|]).
  apply List.Forall_nil.
Qed.

Lemma defined_executeNativeMethod request :
  nm_method request ∉ partial_calls -> no_floats (nm_data request) ->
  defined (router.executeNativeMethod request).
Proof.
  intros Hx Hn. unfold router.executeNativeMethod. cbv zeta.
  apply defined_bind; [done|]. intros tokenOk. destruct (negb tokenOk); [done|].
  apply defined_bind; [defined_go|]. intros apiOk. destruct (negb apiOk); [done|].
  apply defined_bind.
  { unfold permission.hasMethodAccess. rewrite module_Ret; [done|]. intros E. apply Hx. rewrite E. by left. }
  intros methodOk. destruct (negb methodOk); [done|].
  destruct (router.find_method _) as [f|] eqn:Ef; [|done].
  apply defined_try; [|done]. apply defined_bind; [|done].
  unfold router.call_method. apply defined_bind; [defined_go|]. intros mode.
  destruct (_ && _); [done|]. apply find_method_elem in Ef.
  by apply (proj1 (Forall_forall _ _) methods_total _ Ef).
Qed.

(** server.unmount reads "path" before any test. *)
Lemma unmount_without_path m w : omap_get "path" m = None -> fst (router.unmount (JObj m) w) = Undef.
Proof. intros E. unfold router.unmount, field. munfold. cbn. by rewrite E. Qed.
End native.


Section witness.
#[local] Existing Instance demo.
#[local] Instance defined_api : NativeApi := mem_api.

Lemma demo_ends : platform_ends.
Proof. constructor; try apply demo_posix_laws; try apply demo_processes_start; intros; cbn; repeat case_match; by simplify_eq. Qed.

Definition defined_request : NativeMessage :=
  {| nm_id := "7"; nm_method := "filesystem.copy"; nm_accessToken := "T";
     nm_data := mk_obj [("source", JStr "/app/a.txt"); ("destination", JInt 3)] |}.

End witness.
